(** * otris: a shallow embedding of the record encoder and its handler

    The development follows the Go sources of the logger:
    the escaping helpers and value encoders, the per-call [handleState],
    and the [Handler] with its constructors and bind operations.
    Go strings and byte slices are byte lists, machine integers are [Z],
    and the calls that can panic or recurse without bound return a
    [result]. *)

From Stdlib Require Import ZArith List Lia Bool.
From Stdlib Require Import Strings.Byte Strings.String.
Import ListNotations.
Local Open Scope Z_scope.

(** ** Bytes, strings and slices *)

Definition bytes := list byte.

(** A Go string literal. *)
Definition B (s : string) : bytes := list_byte_of_string s.

Definition bz (b : byte) : Z := Z.of_N (Byte.to_N b).

Definition zb (z : Z) : byte :=
  match Byte.of_N (Z.to_N (z mod 256)) with
  | Some b => b
  | None => x00
  end.

(** The double quote, the backslash and the line feed. *)
Definition dquote : byte := x22.
Definition backslash : byte := x5c.
Definition newline : byte := x0a.

Fixpoint bytes_eqb (a b : bytes) : bool :=
  match a, b with
  | [], [] => true
  | x :: a', y :: b' => Byte.eqb x y && bytes_eqb a' b'
  | _, _ => false
  end.

Definition len (s : bytes) : nat := List.length s.

Definition isEmptyString (s : bytes) : bool :=
  match s with [] => true | _ => false end.

(** [s[i:j]] and [s[i:]]. *)
Definition slice (s : bytes) (i j : nat) : bytes := firstn (j - i) (skipn i s).
Definition sliceFrom (s : bytes) (i : nat) : bytes := skipn i s.

(** [s[i]], read only below [len(s)]. *)
Definition index (s : bytes) (i : nat) : byte := nth i s x00.

(** ** strconv: decimal integers *)

Module strconv.

Fixpoint digits (fuel : nat) (n : Z) (acc : bytes) : bytes :=
  match fuel with
  | O => acc
  | S fuel' =>
      let acc' := zb (48 + n mod 10) :: acc in
      if n <? 10 then acc' else digits fuel' (n / 10) acc'
  end.

Definition FormatUint (n : Z) : bytes :=
  digits (S (Z.to_nat (Z.log2 n))) n [].

Definition FormatInt (i : Z) : bytes :=
  if i <? 0 then x2d :: FormatUint (- i) else FormatUint i.

Definition AppendInt (dst : bytes) (i : Z) : bytes := dst ++ FormatInt i.
Definition AppendUint (dst : bytes) (u : Z) : bytes := dst ++ FormatUint u.
Definition AppendBool (dst : bytes) (b : bool) : bytes :=
  dst ++ (if b then B "true" else B "false").

End strconv.

(** ** unicode/utf8 *)

Module utf8.

Definition RuneError : Z := 0xFFFD.
Definition RuneSelf : Z := 0x80.
Definition MaxRune : Z := 0x10FFFF.
Definition locb : Z := 0x80.
Definition hicb : Z := 0xBF.

(** The [first] table with its accept ranges: for a leading byte of a
    multi-byte sequence, the sequence length and the bounds of the
    second byte; [None] for the bytes that start no sequence. *)
Definition first (s0 : Z) : option (nat * Z * Z) :=
  if (0xC2 <=? s0) && (s0 <=? 0xDF) then Some (2%nat, locb, hicb)
  else if s0 =? 0xE0 then Some (3%nat, 0xA0, hicb)
  else if (0xE1 <=? s0) && (s0 <=? 0xEC) then Some (3%nat, locb, hicb)
  else if s0 =? 0xED then Some (3%nat, locb, 0x9F)
  else if (0xEE <=? s0) && (s0 <=? 0xEF) then Some (3%nat, locb, hicb)
  else if s0 =? 0xF0 then Some (4%nat, 0x90, hicb)
  else if (0xF1 <=? s0) && (s0 <=? 0xF3) then Some (4%nat, locb, hicb)
  else if s0 =? 0xF4 then Some (4%nat, locb, 0x8F)
  else None.

Definition cont (b : Z) : bool := (locb <=? b) && (b <=? hicb).

Definition DecodeRuneInString (s : bytes) : Z * nat :=
  match s with
  | [] => (RuneError, 0%nat)
  | b0 :: t0 =>
      let s0 := bz b0 in
      if s0 <? RuneSelf then (s0, 1%nat)
      else
        match first s0 with
        | None => (RuneError, 1%nat)
        | Some (sz, lo, hi) =>
            if (len s <? sz)%nat then (RuneError, 1%nat)
            else
              match t0 with
              | [] => (RuneError, 1%nat)
              | b1 :: t1 =>
                  let s1 := bz b1 in
                  if (s1 <? lo) || (hi <? s1) then (RuneError, 1%nat)
                  else if (sz <=? 2)%nat then
                    (Z.lor (Z.shiftl (Z.land s0 0x1F) 6) (Z.land s1 0x3F), 2%nat)
                  else
                    match t1 with
                    | [] => (RuneError, 1%nat)
                    | b2 :: t2 =>
                        let s2 := bz b2 in
                        if negb (cont s2) then (RuneError, 1%nat)
                        else if (sz <=? 3)%nat then
                          (Z.lor (Z.lor (Z.shiftl (Z.land s0 0x0F) 12)
                                        (Z.shiftl (Z.land s1 0x3F) 6))
                                 (Z.land s2 0x3F), 3%nat)
                        else
                          match t2 with
                          | [] => (RuneError, 1%nat)
                          | b3 :: _ =>
                              let s3 := bz b3 in
                              if negb (cont s3) then (RuneError, 1%nat)
                              else
                                (Z.lor (Z.lor (Z.lor (Z.shiftl (Z.land s0 0x07) 18)
                                                     (Z.shiftl (Z.land s1 0x3F) 12))
                                              (Z.shiftl (Z.land s2 0x3F) 6))
                                       (Z.land s3 0x3F), 4%nat)
                          end
                    end
              end
        end
  end.

(** [AppendRune(nil, r)]. *)
Definition EncodeRune (r : Z) : bytes :=
  if (0 <=? r) && (r <=? 0x7F) then [zb r]
  else if (0 <=? r) && (r <=? 0x7FF) then
    [zb (Z.lor 0xC0 (Z.shiftr r 6)); zb (Z.lor 0x80 (Z.land r 0x3F))]
  else if (r <? 0) || (MaxRune <? r) || ((0xD800 <=? r) && (r <=? 0xDFFF)) then
    [xef; xbf; xbd]
  else if r <=? 0xFFFF then
    [zb (Z.lor 0xE0 (Z.shiftr r 12));
     zb (Z.lor 0x80 (Z.land (Z.shiftr r 6) 0x3F));
     zb (Z.lor 0x80 (Z.land r 0x3F))]
  else
    [zb (Z.lor 0xF0 (Z.shiftr r 18));
     zb (Z.lor 0x80 (Z.land (Z.shiftr r 12) 0x3F));
     zb (Z.lor 0x80 (Z.land (Z.shiftr r 6) 0x3F));
     zb (Z.lor 0x80 (Z.land r 0x3F))].

(** [ValidString]: no position of the left-to-right scan decodes to
    an encoding error. *)
Fixpoint validFrom (fuel : nat) (s : bytes) : bool :=
  match s with
  | [] => true
  | _ :: _ =>
      match fuel with
      | O => false
      | S fuel' =>
          let '(r, size) := DecodeRuneInString s in
          if (r =? RuneError) && (size =? 1)%nat then false
          else validFrom fuel' (skipn size s)
      end
  end.

Definition ValidString (s : bytes) : bool := validFrom (len s) s.

End utf8.

(** ** unicode: the two predicates the text encoder consults *)

Module unicode.

Definition MaxLatin1 : Z := 0xFF.

(** [IsSpace]: the Latin-1 cases are listed in the library, the others
    are the code points of the White_Space property. *)
Definition IsSpace (r : Z) : bool :=
  if r <=? MaxLatin1 then
    ((9 <=? r) && (r <=? 13)) || (r =? 0x20) || (r =? 0x85) || (r =? 0xA0)
  else
    (r =? 0x1680) || ((0x2000 <=? r) && (r <=? 0x200a)) || (r =? 0x2028)
    || (r =? 0x2029) || (r =? 0x202f) || (r =? 0x205f) || (r =? 0x3000).

(** [IsPrint]: Latin-1 is answered from the [properties] table (letters,
    marks, numbers, punctuation, symbols and the ASCII space); above
    Latin-1 the library searches its range tables, which are taken as
    the parameter [printTable]. *)
Definition IsPrint (printTable : Z -> bool) (r : Z) : bool :=
  if (0 <=? r) && (r <=? MaxLatin1) then
    ((0x20 <=? r) && (r <=? 0x7E))
    || ((0xA1 <=? r) && (r <=? 0xFF) && negb (r =? 0xAD))
  else printTable r.

End unicode.

(** ** The JSON escaping table and the two escaping routines *)

Definition hex : bytes := B "0123456789abcdef".

(** [safeSet], entry by entry as in the source: the entries run from the
    space (0x20) to DEL (0x7f), the double quote (0x22) and the backslash
    (0x5c) are listed as false, and the control characters below 0x20 are
    not listed, so they hold the zero value false. *)
Definition safeSet (b : byte) : bool :=
  match b with
    | x20 => true
    | x21 => true
    | x22 => false
    | x23 => true
    | x24 => true
    | x25 => true
    | x26 => true
    | x27 => true
    | x28 => true
    | x29 => true
    | x2a => true
    | x2b => true
    | x2c => true
    | x2d => true
    | x2e => true
    | x2f => true
    | x30 => true
    | x31 => true
    | x32 => true
    | x33 => true
    | x34 => true
    | x35 => true
    | x36 => true
    | x37 => true
    | x38 => true
    | x39 => true
    | x3a => true
    | x3b => true
    | x3c => true
    | x3d => true
    | x3e => true
    | x3f => true
    | x40 => true
    | x41 => true
    | x42 => true
    | x43 => true
    | x44 => true
    | x45 => true
    | x46 => true
    | x47 => true
    | x48 => true
    | x49 => true
    | x4a => true
    | x4b => true
    | x4c => true
    | x4d => true
    | x4e => true
    | x4f => true
    | x50 => true
    | x51 => true
    | x52 => true
    | x53 => true
    | x54 => true
    | x55 => true
    | x56 => true
    | x57 => true
    | x58 => true
    | x59 => true
    | x5a => true
    | x5b => true
    | x5c => false
    | x5d => true
    | x5e => true
    | x5f => true
    | x60 => true
    | x61 => true
    | x62 => true
    | x63 => true
    | x64 => true
    | x65 => true
    | x66 => true
    | x67 => true
    | x68 => true
    | x69 => true
    | x6a => true
    | x6b => true
    | x6c => true
    | x6d => true
    | x6e => true
    | x6f => true
    | x70 => true
    | x71 => true
    | x72 => true
    | x73 => true
    | x74 => true
    | x75 => true
    | x76 => true
    | x77 => true
    | x78 => true
    | x79 => true
    | x7a => true
    | x7b => true
    | x7c => true
    | x7d => true
    | x7e => true
    | x7f => true
    | _ => false
  end.

Definition hexDigit (n : Z) : byte := index hex (Z.to_nat n).

(** The body of the [switch b] of [appendEscapedJSONString], after the
    backslash has been written. *)
Definition escapeASCII (buf : bytes) (b : byte) : bytes :=
  if Byte.eqb b backslash || Byte.eqb b dquote then buf ++ [b]
  else if Byte.eqb b x0a then buf ++ B "n"
  else if Byte.eqb b x0d then buf ++ B "r"
  else if Byte.eqb b x09 then buf ++ B "t"
  else
    ((buf ++ B "u00") ++ [hexDigit (Z.shiftr (bz b) 4)])
      ++ [hexDigit (Z.land (bz b) 0xF)].

(** [if start < i { str(s[start:i]) }]. *)
Definition flush (buf s : bytes) (start i : nat) : bytes :=
  if (start <? i)%nat then buf ++ slice s start i else buf.

(** The loop of [appendEscapedJSONString] on the indices [start] and [i].
    Every iteration advances [i], so [len s + 1] rounds of fuel reach the
    exit. *)
Fixpoint escapeLoop (fuel : nat) (s buf : bytes) (start i : nat) : bytes :=
  match fuel with
  | O => buf
  | S fuel' =>
      if (i <? len s)%nat then
        let b := index s i in
        if bz b <? utf8.RuneSelf then
          if safeSet b then escapeLoop fuel' s buf start (i + 1)
          else
            let buf := flush buf s start i in
            let buf := buf ++ [backslash] in
            let buf := escapeASCII buf b in
            escapeLoop fuel' s buf (i + 1) (i + 1)
        else
          let '(c, size) := utf8.DecodeRuneInString (sliceFrom s i) in
          if (c =? utf8.RuneError) && (size =? 1)%nat then
            let buf := flush buf s start i in
            let buf := buf ++ backslash :: B "ufffd" in
            escapeLoop fuel' s buf (i + size) (i + size)
          else if (c =? 0x2028) || (c =? 0x2029) then
            let buf := flush buf s start i in
            let buf := buf ++ backslash :: B "u202" in
            let buf := buf ++ [hexDigit (Z.land c 0xF)] in
            escapeLoop fuel' s buf (i + size) (i + size)
          else escapeLoop fuel' s buf start (i + size)
      else if (start <? len s)%nat then buf ++ sliceFrom s start
      else buf
  end.

Definition appendEscapedJSONString (buf s : bytes) : bytes :=
  escapeLoop (S (len s)) s buf 0 0.

Section TextQuoting.

(** The range tables of the unicode package above Latin-1. *)
Variable printTable : Z -> bool.

Fixpoint needsQuotingLoop (fuel : nat) (s : bytes) (i : nat) : bool :=
  match fuel with
  | O => false
  | S fuel' =>
      if (i <? len s)%nat then
        let b := index s i in
        if bz b <? utf8.RuneSelf then
          if negb (Byte.eqb b backslash)
             && (Byte.eqb b x20 || Byte.eqb b x3d || negb (safeSet b))
          then true
          else needsQuotingLoop fuel' s (i + 1)
        else
          let '(r, size) := utf8.DecodeRuneInString (sliceFrom s i) in
          if (r =? utf8.RuneError) || unicode.IsSpace r
             || negb (unicode.IsPrint printTable r)
          then true
          else needsQuotingLoop fuel' s (i + size)
      else false
  end.

Definition needsQuoting (s : bytes) : bool :=
  if (len s =? 0)%nat then true else needsQuotingLoop (S (len s)) s 0.

(** *** strconv.Quote *)

Definition hex2 (b : byte) : bytes :=
  [hexDigit (Z.shiftr (bz b) 4); hexDigit (Z.land (bz b) 0xF)].

Fixpoint hexRune (digits : nat) (r : Z) : bytes :=
  match digits with
  | O => []
  | S d => hexDigit (Z.land (Z.shiftr r (4 * Z.of_nat d)) 0xF) :: hexRune d r
  end.

Definition ValidRune (r : Z) : bool :=
  ((0 <=? r) && (r <? 0xD800)) || ((0xDFFF <? r) && (r <=? utf8.MaxRune)).

Definition appendEscapedRune (buf : bytes) (r : Z) : bytes :=
  if (r =? bz dquote) || (r =? bz backslash) then buf ++ [backslash; zb r]
  else if unicode.IsPrint printTable r then buf ++ utf8.EncodeRune r
  else if r =? 7 then buf ++ backslash :: B "a"
  else if r =? 8 then buf ++ backslash :: B "b"
  else if r =? 12 then buf ++ backslash :: B "f"
  else if r =? 10 then buf ++ backslash :: B "n"
  else if r =? 13 then buf ++ backslash :: B "r"
  else if r =? 9 then buf ++ backslash :: B "t"
  else if r =? 11 then buf ++ backslash :: B "v"
  else if (r <? 0x20) || (r =? 0x7f) then buf ++ backslash :: B "x" ++ hex2 (zb r)
  else if negb (ValidRune r) then buf ++ backslash :: B "u" ++ hexRune 4 0xFFFD
  else if r <? 0x10000 then buf ++ backslash :: B "u" ++ hexRune 4 r
  else buf ++ backslash :: B "U" ++ hexRune 8 r.

Fixpoint quoteLoop (fuel : nat) (buf s : bytes) : bytes :=
  match fuel with
  | O => buf
  | S fuel' =>
      match s with
      | [] => buf
      | b :: _ =>
          let '(r, width) :=
            if bz b <? utf8.RuneSelf then (bz b, 1%nat)
            else utf8.DecodeRuneInString s in
          if (width =? 1)%nat && (r =? utf8.RuneError) then
            quoteLoop fuel' (buf ++ backslash :: B "x" ++ hex2 b) (skipn width s)
          else quoteLoop fuel' (appendEscapedRune buf r) (skipn width s)
      end
  end.

Definition AppendQuote (buf s : bytes) : bytes :=
  quoteLoop (len s) (buf ++ [dquote]) s ++ [dquote].

Definition Quote (s : bytes) : bytes := AppendQuote [] s.

End TextQuoting.

(** ** time: instants, civil fields and the RFC 3339 formatter *)

Module time.

(** An instant: the seconds elapsed since January 1 of year 1,
    00:00:00 UTC, the nanoseconds within the second, and the offset of
    its zone in seconds east of UTC. The monotonic clock reading is not
    represented. *)
Record Time := { sec : Z; nsec : Z; offset : Z }.

Definition IsZero (t : Time) : bool := (sec t =? 0) && (nsec t =? 0).

(** [t.Round(0)] strips the monotonic reading only. *)
Definition Round0 (t : Time) : Time := t.

Definition abs (t : Time) : Z := sec t + offset t.

(** Proleptic Gregorian date of the day count since 0001-01-01. *)
Definition civil (days : Z) : Z * Z * Z :=
  let z := days + 306 in
  let era := z / 146097 in
  let doe := z mod 146097 in
  let yoe := (doe - doe / 1460 + doe / 36524 - doe / 146096) / 365 in
  let doy := doe - (365 * yoe + yoe / 4 - yoe / 100) in
  let mp := (5 * doy + 2) / 153 in
  let d := doy - (153 * mp + 2) / 5 + 1 in
  let m := if mp <? 10 then mp + 3 else mp - 9 in
  let y := yoe + era * 400 + (if m <=? 2 then 1 else 0) in
  (y, m, d).

Definition Date (t : Time) : Z * Z * Z := civil (abs t / 86400).
Definition Year (t : Time) : Z := fst (fst (Date t)).

Definition Clock (t : Time) : Z * Z * Z :=
  let s := abs t mod 86400 in
  (s / 3600, (s mod 3600) / 60, s mod 60).

Definition Nanosecond (t : Time) : Z := nsec t.

(** The offset returned by [t.Zone()]. *)
Definition ZoneOffset (t : Time) : Z := offset t.

(** The package's [appendInt]: sign, zero padding up to [width], digits. *)
Definition appendInt (b : bytes) (x : Z) (width : nat) : bytes :=
  let u := Z.abs x in
  let ds := strconv.FormatUint u in
  (if x <? 0 then b ++ [x2d] else b)
    ++ repeat x30 (width - len ds) ++ ds.

Fixpoint trimZeros (rev : bytes) : bytes :=
  match rev with
  | b :: rest => if Byte.eqb b x30 then trimZeros rest else rev
  | [] => []
  end.

(** [appendNano] for the layout element [.999999999]: nothing for a
    zero fraction, otherwise the nine digits without trailing zeros. *)
Definition appendNano (b : bytes) (nanosec : Z) : bytes :=
  if nanosec =? 0 then b
  else b ++ x2e :: rev (trimZeros (rev (appendInt [] nanosec 9))).

Definition appendZone (b : bytes) (offset : Z) : bytes :=
  if offset =? 0 then b ++ [x5a]
  else
    let zone := Z.quot offset 60 in
    let b := if zone <? 0 then b ++ [x2d] else b ++ [x2b] in
    let zone := Z.abs zone in
    appendInt (appendInt b (Z.quot zone 60) 2 ++ [x3a]) (Z.rem zone 60) 2.

(** [t.AppendFormat(b, time.RFC3339Nano)]. *)
Definition AppendFormatRFC3339Nano (b : bytes) (t : Time) : bytes :=
  let '(year, month, day) := Date t in
  let b := appendInt b year 4 ++ [x2d] in
  let b := appendInt b month 2 ++ [x2d] in
  let b := appendInt b day 2 ++ [x54] in
  let '(hour, min, s) := Clock t in
  let b := appendInt b hour 2 ++ [x3a] in
  let b := appendInt b min 2 ++ [x3a] in
  let b := appendInt b s 2 in
  let b := appendNano b (Nanosecond t) in
  appendZone b (ZoneOffset t).

End time.

(** ** The result of a call that can panic *)

Inductive result (A : Type) : Type :=
| Ok (a : A)
| Panic (msg : bytes)
| OutOfFuel.
Arguments Ok {A} a.
Arguments Panic {A} msg.
Arguments OutOfFuel {A}.

Definition bind {A C : Type} (r : result A) (k : A -> result C) : result C :=
  match r with
  | Ok a => k a
  | Panic msg => Panic msg
  | OutOfFuel => OutOfFuel
  end.

Notation "'do' x <- r ; k" := (bind r (fun x => k))
  (at level 10, x pattern, r at level 100, k at level 200).

(** ** The buffer package *)

Module buffer.

(** Modelled from the spec: the package internal/slog/buffer is not among
    the sources. A buffer is the byte slice it holds; [Write],
    [WriteString] and [WriteByte] append to it, and [WritePosIntWidth]
    emits a non-negative integer by direct digit emission, padded with
    zeros to the width, and panics on a negative one. *)
Definition Buffer := bytes.
Definition New : Buffer := [].
Definition Write (b : Buffer) (p : bytes) : Buffer := b ++ p.
Definition WriteString (b : Buffer) (s : bytes) : Buffer := b ++ s.
Definition WriteByte (b : Buffer) (c : byte) : Buffer := b ++ [c].

Definition WritePosIntWidth (b : Buffer) (i : Z) (width : nat) : result Buffer :=
  if i <? 0 then Panic (B "negative int")
  else
    let ds := strconv.FormatUint i in
    Ok (b ++ repeat x30 (width - len ds) ++ ds).

End buffer.

(** ** The value model of log/slog *)

(** An error value, by its message. *)
Definition error := bytes.

(** The IEEE-754 bits of a float64. *)
Definition float64 := Z.

Record Source := { Function : bytes; File : bytes; Line : Z }.

(** The payload of a [KindAny] value other than nil and [*slog.Source],
    by the capabilities the encoders test for and the library renderings
    they request. *)
Record Opaque := {
  MarshalText : option (bytes + error); (* encoding.TextMarshaler *)
  asByteSlice : option bytes;           (* underlying type []byte *)
  asError : option error;               (* the error interface *)
  isJSONMarshaler : bool;               (* json.Marshaler *)
  jsonEncode : bytes + error;           (* Encoder.Encode, HTML escaping off *)
  sprintfPlusV : bytes;                 (* fmt.Sprintf with the verb %+v *)
  sprint : bytes                        (* fmt.Append *)
}.

Inductive GoAny :=
| AnyNil
| AnySource (src : option Source)  (* a [*slog.Source], possibly a nil pointer *)
| AnyOther (o : Opaque).

Inductive Value :=
| KindAny (a : GoAny)
| KindBool (b : bool)
| KindDuration (d : Z)
| KindFloat64 (f : float64)
| KindInt64 (i : Z)
| KindString (s : bytes)
| KindTime (t : time.Time)
| KindUint64 (u : Z)
| KindGroup (attrs : list Attr)
| KindLogValuer (typeName : bytes) (LogValue : unit -> Value)
with Attr :=
| MkAttr (key : bytes) (value : Value).

Definition Key (a : Attr) : bytes := let 'MkAttr k _ := a in k.
Definition AttrValue (a : Attr) : Value := let 'MkAttr _ v := a in v.

Definition isKindGroup (v : Value) : bool :=
  match v with KindGroup _ => true | _ => false end.

(** [errors.New] and [fmt.Errorf]: an error with the given message, which
    marshals to JSON as an empty object. *)
Definition errorValue (msg : bytes) : Opaque :=
  {| MarshalText := None; asByteSlice := None; asError := Some msg;
     isJSONMarshaler := false; jsonEncode := inl (B "{}" ++ [newline]);
     sprintfPlusV := msg; sprint := msg |}.

Definition maxLogValues : nat := 100.

Fixpoint resolveLoop (n : nat) (orig v : Value) : Value :=
  match n with
  | O =>
      match orig with
      | KindLogValuer typeName _ =>
          KindAny (AnyOther (errorValue
            (B "LogValue called too many times on Value of type " ++ typeName)))
      | _ => orig
      end
  | S n' =>
      match v with
      | KindLogValuer _ lv => resolveLoop n' orig (lv tt)
      | _ => v
      end
  end.

(** [Value.Resolve]; the user's [LogValue] method is taken not to panic. *)
Definition Resolve (v : Value) : Value := resolveLoop maxLogValues v v.

(** [slog.Record], with the attributes it holds in order. *)
Record Record_ := {
  Time : time.Time;
  Message : bytes;
  Level : Z;
  PC : Z;
  attrs : list Attr
}.

Definition NumAttrs (r : Record_) : nat := List.length (attrs r).

(** ** Levels and colors *)

Definition LevelFx : Z := -8.
Definition LevelFxError : Z := -7.
Definition LevelDebug : Z := -4.
Definition LevelInfo : Z := 0.
Definition LevelWarning : Z := 4.
Definition LevelError : Z := 8.

(** [slog.Level.String]. *)
Definition LevelString (l : Z) : bytes :=
  let str (base : bytes) (val : Z) : bytes :=
    if val =? 0 then base
    else base ++ (if 0 <=? val then [x2b] else []) ++ strconv.FormatInt val in
  if l <? LevelInfo then str (B "DEBUG") (l - LevelDebug)
  else if l <? LevelWarning then str (B "INFO") (l - LevelInfo)
  else if l <? LevelError then str (B "WARN") (l - LevelWarning)
  else str (B "ERROR") (l - LevelError).

Definition GetLevelName (level : Z) : bytes :=
  if level =? LevelFx then B "FX"
  else if level =? LevelFxError then B "FXError"
  else LevelString level.

(** [LevelColorMap]: a Go map from level to SGR code; [None] is the nil
    map, which answers every lookup with not-found. *)
Definition LevelColorMap := option (list (Z * Z)).

Fixpoint lookupColor (m : list (Z * Z)) (lvl : Z) : option Z :=
  match m with
  | [] => None
  | (k, c) :: m' => if k =? lvl then Some c else lookupColor m' lvl
  end.

Definition GetColor (m : LevelColorMap) (lvl : Z) : Z :=
  match m with
  | None => 37
  | Some tbl =>
      match lookupColor tbl lvl with
      | Some c => c
      | None => 37
      end
  end.

(** The SGR codes of the color library that the default map uses. *)
Definition FgRed : Z := 31.
Definition FgYellow : Z := 33.
Definition FgBlue : Z := 34.
Definition FgCyan : Z := 36.
Definition FgHiRed : Z := 91.
Definition FgHiGreen : Z := 92.

Definition DefaultColorMap : LevelColorMap :=
  Some [(LevelFx, FgCyan); (LevelFxError, FgHiRed); (LevelDebug, FgBlue);
        (LevelInfo, FgHiGreen); (LevelWarning, FgYellow); (LevelError, FgRed)].

Definition EmptyColorMap : LevelColorMap := Some [].

(** Modelled from the spec: the file of constants is not among the
    sources. The separators are the ones the comments of the handler and
    of the builder name (a space for the delimited text, a comma for
    JSON) and the one the showcase of the README prints for the pretty
    text; the pretty time layout is the one of that showcase. *)
Definition JSONSep : bytes := B ",".
Definition StructSep : bytes := B " ".
Definition PrettySep : bytes := B " | ".
Definition DefaultPrettyDateTimeLayout : bytes := B "15:04:05 Mon 02 Jan 2006".

(** ** The handler *)

Record HandlerOptions := {
  AddSource : bool;
  MinLevel : option Z;                               (* the Level field *)
  ReplaceAttr : option (list bytes -> Attr -> Attr)
}.

Definition defaultOptions : HandlerOptions :=
  {| AddSource := false; MinLevel := None; ReplaceAttr := None |}.

(** The sink: an identity and the error, if any, that a write of the
    given bytes returns. *)
Record Writer := { writerId : Z; Write : bytes -> option error }.

(** A lock, by its address. *)
Definition Mutex := Z.

Record Handler := {
  json : bool;
  pretty : bool;
  safe : bool;
  sep : bytes;
  layout : bytes;
  color : LevelColorMap;
  opts : HandlerOptions;
  preformattedAttrs : bytes;
  groupPrefix : bytes;
  groups : list bytes;
  nOpenGroups : nat;
  buf : option bytes;                 (* the unused *bytes.Buffer, nil when None *)
  mu : Mutex;
  w : Writer
}.

(** The functions of the Go library and runtime that the encoder calls
    and whose code is outside the repository. *)
Record GoLib := {
  printTable : Z -> bool;          (* unicode range tables above Latin-1 *)
  NoColor : bool;                  (* the color library's global switch *)
  AppendFloat : float64 -> bytes;  (* strconv.AppendFloat(_, f, 'g', -1, 64) *)
  jsonEncodeFloat : float64 -> bytes + error;
  DurationString : Z -> bytes;
  TimeString : time.Time -> bytes;
  TimeAppendFormat : time.Time -> bytes -> bytes;
  fmtAppendAttrs : list Attr -> bytes;
  fmtAppendLogValuer : bytes -> bytes;
  CallersFrame : Z -> Source
}.

(** [attrSep] returns the separator between attributes. *)
Definition attrSep (h : Handler) : bytes :=
  if json h then JSONSep else sep h.

(** ** The state of one call *)

Module handleState.

(** [prefix] is set by [newHandleState] and never nil afterwards;
    [groups] is nil unless a [ReplaceAttr] function is configured. *)
Record t := {
  h : Handler;
  buf : buffer.Buffer;
  color : Z;
  freeBuf : bool;
  sep : bytes;
  prefix : buffer.Buffer;
  groups : option (list bytes)
}.

Definition setBuf (s : t) (b : buffer.Buffer) : t :=
  {| h := h s; buf := b; color := color s; freeBuf := freeBuf s;
     sep := sep s; prefix := prefix s; groups := groups s |}.
Definition setColor (s : t) (c : Z) : t :=
  {| h := h s; buf := buf s; color := c; freeBuf := freeBuf s;
     sep := sep s; prefix := prefix s; groups := groups s |}.
Definition setSep (s : t) (x : bytes) : t :=
  {| h := h s; buf := buf s; color := color s; freeBuf := freeBuf s;
     sep := x; prefix := prefix s; groups := groups s |}.
Definition setPrefix (s : t) (p : buffer.Buffer) : t :=
  {| h := h s; buf := buf s; color := color s; freeBuf := freeBuf s;
     sep := sep s; prefix := p; groups := groups s |}.
Definition setGroups (s : t) (g : option (list bytes)) : t :=
  {| h := h s; buf := buf s; color := color s; freeBuf := freeBuf s;
     sep := sep s; prefix := prefix s; groups := g |}.

End handleState.

Import handleState (setBuf, setColor, setSep, setPrefix, setGroups).

(** [noColor] is used to check that an attribute should not have a color. *)
Definition noColor : Z := -1.

(** [keyComponentSep] for group names and keys. *)
Definition keyComponentSep : byte := x2e.

Definition newHandleState (h : Handler) (buf : buffer.Buffer) (freeBuf : bool)
    (sep : bytes) : handleState.t :=
  {| handleState.h := h;
     handleState.buf := buf;
     handleState.freeBuf := freeBuf;
     handleState.color := noColor;
     handleState.sep := sep;
     handleState.prefix := buffer.New;
     handleState.groups :=
       match ReplaceAttr (opts h) with
       | Some _ => Some (firstn (nOpenGroups h) (groups h))
       | None => None
       end |}.

Definition resetColor (s : handleState.t) : handleState.t := setColor s noColor.

(** [isEmptyGroup] reports whether v is a group that has no attributes. *)
Definition isEmptyGroup (v : Value) : bool :=
  match v with
  | KindGroup l => (List.length l =? 0)%nat
  | _ => false
  end.

(** [countEmptyGroups] returns the number of empty group values in its
    argument. *)
Fixpoint countEmptyGroups (l : list Attr) : nat :=
  match l with
  | [] => 0%nat
  | a :: l' =>
      ((if isEmptyGroup (AttrValue a) then 1 else 0) + countEmptyGroups l')%nat
  end.

(** [slog.GroupValue]: the empty groups among the arguments are removed. *)
Definition GroupValue (l : list Attr) : Value :=
  KindGroup
    (if (0 <? countEmptyGroups l)%nat
     then filter (fun a => negb (isEmptyGroup (AttrValue a))) l
     else l).

(** [sourceGroup] returns the non-zero fields of s as a group. *)
Definition sourceGroup (s : Source) : Value :=
  let l := if isEmptyString (Function s) then []
           else [MkAttr (B "function") (KindString (Function s))] in
  let l := if isEmptyString (File s) then l
           else l ++ [MkAttr (B "file") (KindString (File s))] in
  let l := if Line s =? 0 then l
           else l ++ [MkAttr (B "line") (KindInt64 (Line s))] in
  GroupValue l.

(** [isEmpty] reports whether a has an empty key and a nil value. *)
Definition isEmpty (a : Attr) : bool :=
  isEmptyString (Key a)
  && match AttrValue a with KindAny AnyNil => true | _ => false end.

(** The payload of [slog.Any(key, level)]: a [slog.Level] marshals to
    text as its name and to JSON as its quoted name. *)
Definition levelValue (l : Z) : Opaque :=
  {| MarshalText := Some (inl (LevelString l)); asByteSlice := None;
     asError := None; isJSONMarshaler := true;
     jsonEncode := inl ([dquote] ++ LevelString l ++ [dquote; newline]);
     sprintfPlusV := LevelString l; sprint := LevelString l |}.

(** What the encoders can ask of any payload: nil and [*slog.Source]
    have none of the tested capabilities. *)
Definition capabilities (a : GoAny) : Opaque :=
  match a with
  | AnyOther o => o
  | AnyNil | AnySource None =>
      {| MarshalText := None; asByteSlice := None; asError := None;
         isJSONMarshaler := false; jsonEncode := inl (B "null" ++ [newline]);
         sprintfPlusV := B "<nil>"; sprint := B "<nil>" |}
  | AnySource (Some src) =>
      let str v := [dquote] ++ appendEscapedJSONString [] v ++ [dquote] in
      let fields :=
        B "Function:" ++ Function src ++ B " File:" ++ File src
          ++ B " Line:" ++ strconv.FormatInt (Line src) in
      {| MarshalText := None; asByteSlice := None; asError := None;
         isJSONMarshaler := false;
         jsonEncode :=
           inl (B "{" ++ str (B "function") ++ B ":" ++ str (Function src)
                  ++ B "," ++ str (B "file") ++ B ":" ++ str (File src)
                  ++ B "," ++ str (B "line") ++ B ":"
                  ++ strconv.FormatInt (Line src) ++ B "}" ++ [newline]);
         sprintfPlusV := B "&{" ++ fields ++ B "}";
         sprint := B "&{" ++ Function src ++ B " " ++ File src ++ B " "
                     ++ strconv.FormatInt (Line src) ++ B "}" |}
  end.

Section Encoder.

Variable lib : GoLib.

(** [color.New(color.Attribute(c)).Fprint(w, str)]: the SGR sequence,
    the text and the reset, or the bare text when the library's colors
    are switched off. *)
Definition colorFprint (c : Z) (str : bytes) : bytes :=
  if NoColor lib then str
  else (x1b :: B "[") ++ strconv.FormatInt c ++ B "m" ++ str ++ x1b :: B "[0m".

Definition appendString (s : handleState.t) (str : bytes) : handleState.t :=
  if json (handleState.h s) then
    let b := buffer.WriteByte (handleState.buf s) dquote in
    let b := appendEscapedJSONString b str in
    setBuf s (buffer.WriteByte b dquote)
  else
    (* slog.text and otris.pretty *)
    if needsQuoting (printTable lib) str && safe (handleState.h s) then
      setBuf s (AppendQuote (printTable lib) (handleState.buf s) str)
    else if noColor <? handleState.color s then
      setBuf s (buffer.Write (handleState.buf s)
                  (colorFprint (handleState.color s) str))
    else setBuf s (buffer.WriteString (handleState.buf s) str).

Definition appendError (s : handleState.t) (err : error) : handleState.t :=
  appendString s (B "!ERROR:" ++ err).

Definition appendKey (s : handleState.t) (key : bytes) : handleState.t :=
  let s := setBuf s (buffer.WriteString (handleState.buf s) (handleState.sep s)) in
  let s :=
    if negb (pretty (handleState.h s)) then
      let s :=
        if (0 <? len (handleState.prefix s))%nat
        then appendString s (handleState.prefix s ++ key)
        else appendString s key in
      if json (handleState.h s) then setBuf s (buffer.WriteByte (handleState.buf s) x3a)
      else setBuf s (buffer.WriteByte (handleState.buf s) x3d)
    else s in
  setSep s (attrSep (handleState.h s)).

(** [openGroup] starts a new group of attributes with the given name. *)
Definition openGroup (s : handleState.t) (name : bytes) : handleState.t :=
  let s :=
    if json (handleState.h s) then
      let s := appendKey s name in
      let s := setBuf s (buffer.WriteByte (handleState.buf s) x7b) in
      setSep s []
    else
      let p := buffer.WriteString (handleState.prefix s) name in
      setPrefix s (buffer.WriteByte p keyComponentSep) in
  (* Collect group names for ReplaceAttr. *)
  match handleState.groups s with
  | Some gs => setGroups s (Some (gs ++ [name]))
  | None => s
  end.

(** [closeGroup] ends the group with the given name. *)
Definition closeGroup (s : handleState.t) (name : bytes) : handleState.t :=
  let s :=
    if json (handleState.h s) then setBuf s (buffer.WriteByte (handleState.buf s) x7d)
    else
      setPrefix s
        (firstn (len (handleState.prefix s) - len name - 1) (handleState.prefix s)) in
  let s := setSep s (attrSep (handleState.h s)) in
  match handleState.groups s with
  | Some gs => setGroups s (Some (firstn (List.length gs - 1) gs))
  | None => s
  end.

Definition openGroups (s : handleState.t) : handleState.t :=
  fold_left openGroup (skipn (nOpenGroups (handleState.h s)) (groups (handleState.h s))) s.

(** This takes half the time of Time.AppendFormat. *)
Definition writeTimeRFC3339Millis (buf : buffer.Buffer) (t : time.Time)
    : result buffer.Buffer :=
  let '(year, month, day) := time.Date t in
  do buf <- buffer.WritePosIntWidth buf year 4;
  let buf := buffer.WriteByte buf x2d in
  do buf <- buffer.WritePosIntWidth buf month 2;
  let buf := buffer.WriteByte buf x2d in
  do buf <- buffer.WritePosIntWidth buf day 2;
  let buf := buffer.WriteByte buf x54 in
  let '(hour, min, sec) := time.Clock t in
  do buf <- buffer.WritePosIntWidth buf hour 2;
  let buf := buffer.WriteByte buf x3a in
  do buf <- buffer.WritePosIntWidth buf min 2;
  let buf := buffer.WriteByte buf x3a in
  do buf <- buffer.WritePosIntWidth buf sec 2;
  let ns := time.Nanosecond t in
  let buf := buffer.WriteByte buf x2e in
  do buf <- buffer.WritePosIntWidth buf (Z.quot ns 1000000) 3;
  let offsetSeconds := time.ZoneOffset t in
  if offsetSeconds =? 0 then Ok (buffer.WriteByte buf x5a)
  else
    let offsetMinutes := Z.quot offsetSeconds 60 in
    let '(buf, offsetMinutes) :=
      if offsetMinutes <? 0 then (buffer.WriteByte buf x2d, - offsetMinutes)
      else (buffer.WriteByte buf x2b, offsetMinutes) in
    do buf <- buffer.WritePosIntWidth buf (Z.quot offsetMinutes 60) 2;
    let buf := buffer.WriteByte buf x3a in
    buffer.WritePosIntWidth buf (Z.rem offsetMinutes 60) 2.

Definition writeLayoutTime (s : handleState.t) (t : time.Time) : handleState.t :=
  setBuf s (buffer.Write (handleState.buf s)
              (TimeAppendFormat lib t (layout (handleState.h s)))).

(** Adapted from time.Time.MarshalJSON to avoid allocation. *)
Definition appendJSONTime (s : handleState.t) (t : time.Time) : handleState.t :=
  let y := time.Year t in
  let s :=
    if (y <? 0) || (10000 <=? y) then
      appendError s (B "time.Time year outside of range [0,9999]")
    else s in
  let b := buffer.WriteByte (handleState.buf s) dquote in
  let b := time.AppendFormatRFC3339Nano b t in
  setBuf s (buffer.WriteByte b dquote).

Definition appendTime (s : handleState.t) (t : time.Time) : result handleState.t :=
  if json (handleState.h s) then Ok (appendJSONTime s t)
  else if pretty (handleState.h s) then Ok (writeLayoutTime s t)
  else
    do b <- writeTimeRFC3339Millis (handleState.buf s) t;
    Ok (setBuf s b).

(** [valueAppend] appends a text representation of v to dst. *)
Definition valueAppend (v : Value) (dst : bytes) : bytes :=
  match v with
  | KindString str => dst ++ str
  | KindInt64 i => strconv.AppendInt dst i
  | KindUint64 u => strconv.AppendUint dst u
  | KindFloat64 f => dst ++ AppendFloat lib f
  | KindBool b => strconv.AppendBool dst b
  | KindDuration d => dst ++ DurationString lib d
  | KindTime t => dst ++ TimeString lib t
  | KindGroup l => dst ++ fmtAppendAttrs lib l
  | KindAny a => dst ++ sprint (capabilities a)
  | KindLogValuer typeName _ => dst ++ fmtAppendLogValuer lib typeName
  end.

(** Text Handler *)
Definition appendTextValue (s : handleState.t) (v : Value)
    : result (handleState.t * option error) :=
  match v with
  | KindString str => Ok (appendString s str, None)
  | KindTime t => do s <- appendTime s t; Ok (s, None)
  | KindAny a =>
      match MarshalText (capabilities a) with
      | Some (inr err) => Ok (s, Some err)
      | Some (inl data) => Ok (appendString s data, None)
      | None =>
          match asByteSlice (capabilities a) with
          | Some bs =>
              if negb (safe (handleState.h s)) && pretty (handleState.h s) then
                Ok (setBuf s (buffer.WriteString (handleState.buf s) bs), None)
              else
                Ok (setBuf s (buffer.WriteString (handleState.buf s) (Quote (printTable lib) bs)), None)
          | None => Ok (appendString s (sprintfPlusV (capabilities a)), None)
          end
      end
  | _ => Ok (setBuf s (valueAppend v (handleState.buf s)), None)
  end.

(** [appendJSONMarshal], on the outcome of the encoder's [Encode]. *)
Definition appendJSONMarshal (s : handleState.t) (encoded : bytes + error)
    : handleState.t * option error :=
  match encoded with
  | inr err => (s, Some err)
  | inl bs =>
      (* remove final newline *)
      (setBuf s (buffer.Write (handleState.buf s) (firstn (len bs - 1) bs)), None)
  end.

(** JSON Handler *)
Definition appendJSONValue (s : handleState.t) (v : Value)
    : result (handleState.t * option error) :=
  match v with
  | KindString str => Ok (appendString s str, None)
  | KindInt64 i => Ok (setBuf s (strconv.AppendInt (handleState.buf s) i), None)
  | KindUint64 u => Ok (setBuf s (strconv.AppendUint (handleState.buf s) u), None)
  | KindFloat64 f => Ok (appendJSONMarshal s (jsonEncodeFloat lib f))
  | KindBool b => Ok (setBuf s (strconv.AppendBool (handleState.buf s) b), None)
  | KindDuration d => Ok (setBuf s (strconv.AppendInt (handleState.buf s) d), None)
  | KindTime t => do s <- appendTime s t; Ok (s, None)
  | KindAny a =>
      match asError (capabilities a) with
      | Some msg =>
          if negb (isJSONMarshaler (capabilities a)) then Ok (appendString s msg, None)
          else Ok (appendJSONMarshal s (jsonEncode (capabilities a)))
      | None => Ok (appendJSONMarshal s (jsonEncode (capabilities a)))
      end
  | KindGroup _ => Panic (B "bad kind: Group")
  | KindLogValuer _ _ => Panic (B "bad kind: LogValuer")
  end.

Definition appendValue (s : handleState.t) (v : Value) : result handleState.t :=
  do (s, err) <-
    (if json (handleState.h s) then appendJSONValue s v
     else (* Use also for otris.pretty *) appendTextValue s v);
  match err with
  | Some e => Ok (appendError s e)
  | None => Ok s
  end.

(** The special case of [appendAttr] for a [*slog.Source] payload; the
    dereference of a nil pointer panics. *)
Definition replaceSource (s : handleState.t) (a : Attr) : result Attr :=
  match AttrValue a with
  | KindAny (AnySource src) =>
      match src with
      | None => Panic (B "invalid memory address or nil pointer dereference")
      | Some src =>
          if json (handleState.h s) then Ok (MkAttr (Key a) (sourceGroup src))
          else
            Ok (MkAttr (Key a)
                  (KindString (File src ++ B ":" ++ strconv.FormatInt (Line src))))
      end
  | _ => Ok a
  end.

(** [appendAttr] appends the Attr's key and value. It handles replacement
    and checking for an empty key after replacement. The recursion
    follows the groups of the attribute, and also those that a
    [ReplaceAttr] function returns, which is why it is bounded by fuel. *)
Fixpoint appendAttr (fuel : nat) (s : handleState.t) (a : Attr)
    : result handleState.t :=
  match fuel with
  | O => OutOfFuel
  | S fuel' =>
      let a :=
        match ReplaceAttr (opts (handleState.h s)) with
        | Some rep =>
            if negb (isKindGroup (AttrValue a)) then
              let gs :=
                match handleState.groups s with
                | Some gs => gs
                | None => []
                end in
              (* Resolve before calling ReplaceAttr, so the user doesn't have to. *)
              let a := MkAttr (Key a) (Resolve (AttrValue a)) in
              rep gs a
            else a
        | None => a
        end in
      let a := MkAttr (Key a) (Resolve (AttrValue a)) in
      (* Elide empty Attrs. *)
      if isEmpty a then Ok s
      else
        (* Special case: Source. *)
        do a <- replaceSource s a;
        match AttrValue a with
        | KindGroup attrs =>
            (* Output only non-empty groups. *)
            if (0 <? List.length attrs)%nat then
              (* Inline a group with an empty key. *)
              let s := if negb (isEmptyString (Key a)) then openGroup s (Key a) else s in
              do s <-
                (fix each (l : list Attr) (s : handleState.t) : result handleState.t :=
                   match l with
                   | [] => Ok s
                   | aa :: l' => do s <- appendAttr fuel' s aa; each l' s
                   end) attrs s;
              Ok (if negb (isEmptyString (Key a)) then closeGroup s (Key a) else s)
            else Ok s
        | v =>
            let s := appendKey s (Key a) in
            appendValue s v
        end
  end.

(** [for _, a := range attrs { s.appendAttr(a) }]. *)
Fixpoint appendAttrs (fuel : nat) (s : handleState.t) (l : list Attr)
    : result handleState.t :=
  match l with
  | [] => Ok s
  | a :: l' => do s <- appendAttr fuel s a; appendAttrs fuel s l'
  end.

Definition appendNonBuiltIns (fuel : nat) (s : handleState.t) (r : Record_)
    : result handleState.t :=
  (* preformatted Attrs *)
  let s :=
    if (0 <? len (preformattedAttrs (handleState.h s)))%nat then
      let s := setBuf s (buffer.WriteString (handleState.buf s) (handleState.sep s)) in
      let s := setBuf s (buffer.Write (handleState.buf s)
                           (preformattedAttrs (handleState.h s))) in
      setSep s (attrSep (handleState.h s))
    else s in
  (* Attrs in Record -- unlike the built-in ones, they are in groups started
     from WithGroup. If the record has no Attrs, don't output any groups. *)
  let nOpen := nOpenGroups (handleState.h s) in
  do (s, nOpen) <-
    (if (0 <? NumAttrs r)%nat then
       let s := setPrefix s (buffer.WriteString (handleState.prefix s)
                               (groupPrefix (handleState.h s))) in
       let s := openGroups s in
       do s <- appendAttrs fuel s (attrs r);
       Ok (s, List.length (groups (handleState.h s)))
     else Ok (s, nOpen));
  if json (handleState.h s) then
    (* Close all open groups. *)
    let s :=
      fold_left (fun s _ => setBuf s (buffer.WriteByte (handleState.buf s) x7d))
        (firstn nOpen (groups (handleState.h s))) s in
    (* Close the top-level object. *)
    Ok (setBuf s (buffer.WriteByte (handleState.buf s) x7d))
  else Ok s.

(** The keys of the built-in attributes. *)
Definition TimeKey : bytes := B "time".
Definition LevelKey : bytes := B "level".
Definition MessageKey : bytes := B "msg".
Definition SourceKey : bytes := B "source".

(** [rSource] returns a Source for the log event. *)
Definition rSource (r : Record_) : Source := CallersFrame lib (PC r).

(** [Handler.Handle]: the bytes handed to the writer and the error it
    returns. The lock is taken around the write only; the pooled scratch
    state is private to the call. *)
Definition Handle (fuel : nat) (h : Handler) (record : Record_)
    : result (bytes * option error) :=
  (* Use an empty separator for reuse later. *)
  let state := newHandleState h buffer.New true [] in
  let state :=
    if json h then setBuf state (buffer.WriteByte (handleState.buf state) x7b)
    else state in
  (* Built-in attributes. They are not in a group. *)
  let stateGroups := handleState.groups state in
  let state := setGroups state None in
  let rep := ReplaceAttr (opts h) in
  (* time *)
  do state <-
    (if negb (time.IsZero (Time record)) then
       let key := TimeKey in
       let val := time.Round0 (Time record) in
       match rep with
       | None => let state := appendKey state key in appendTime state val
       | Some _ => appendAttr fuel state (MkAttr key (KindTime val))
       end
     else Ok state);
  (* level *)
  let key := LevelKey in
  let val := Level record in
  let state := setColor state (GetColor (color h) val) in
  do state <-
    match rep with
    | None =>
        let state := appendKey state key in
        Ok (appendString state (GetLevelName val))
    | Some _ => appendAttr fuel state (MkAttr key (KindAny (AnyOther (levelValue val))))
    end;
  let state := resetColor state in
  (* source *)
  do state <-
    (if AddSource (opts h) then
       appendAttr fuel state (MkAttr SourceKey (KindAny (AnySource (Some (rSource record)))))
     else Ok state);
  let key := MessageKey in
  let msg := Message record in
  do state <-
    match rep with
    | None => let state := appendKey state key in Ok (appendString state msg)
    | Some _ => appendAttr fuel state (MkAttr key (KindString msg))
    end;
  let state := setGroups state stateGroups in
  do state <- appendNonBuiltIns fuel state record;
  let state := setBuf state (buffer.WriteByte (handleState.buf state) newline) in
  Ok (handleState.buf state, Write (w h) (handleState.buf state)).

Definition clone (h : Handler) : Handler :=
  {| json := json h;
     opts := opts h;
     preformattedAttrs := preformattedAttrs h;   (* slices.Clip *)
     groupPrefix := groupPrefix h;
     groups := groups h;                         (* slices.Clip *)
     nOpenGroups := nOpenGroups h;
     w := w h;
     mu := mu h;
     (* the fields the literal leaves out hold their zero values *)
     pretty := false;
     safe := false;
     sep := [];
     layout := [];
     color := None;
     buf := None |}.

Definition setGroupsOf (h : Handler) (g : list bytes) : Handler :=
  {| json := json h; pretty := pretty h; safe := safe h; sep := sep h;
     layout := layout h; color := color h; opts := opts h;
     preformattedAttrs := preformattedAttrs h; groupPrefix := groupPrefix h;
     groups := g; nOpenGroups := nOpenGroups h; buf := buf h; mu := mu h;
     w := w h |}.

(** The three assignments that finish [WithAttrs]: the bytes written
    through the state's buffer, which is the clone's [preformattedAttrs],
    the new prefix and the number of opened groups. *)
Definition setPreformatted (h : Handler) (pre prefix : bytes) (n : nat) : Handler :=
  {| json := json h; pretty := pretty h; safe := safe h; sep := sep h;
     layout := layout h; color := color h; opts := opts h;
     preformattedAttrs := pre; groupPrefix := prefix;
     groups := groups h; nOpenGroups := n; buf := buf h; mu := mu h;
     w := w h |}.

(** [WithAttrs] returns a new Handler with additional attributes. *)
Definition WithAttrs (fuel : nat) (h : Handler) (l : list Attr) : result Handler :=
  (* We are going to ignore empty groups, so if the entire slice consists of
     them, there is nothing to do. *)
  if (countEmptyGroups l =? List.length l)%nat then Ok h
  else
    let h2 := clone h in
    (* Pre-format the attributes as an optimization. *)
    let state := newHandleState h2 (preformattedAttrs h2) false [] in
    let state := setPrefix state (buffer.WriteString (handleState.prefix state)
                                   (groupPrefix h)) in
    let state :=
      if (0 <? len (preformattedAttrs h2))%nat then setSep state (attrSep h)
      else state in
    let state := openGroups state in
    do state <- appendAttrs fuel state l;
    (* Remember the new prefix for later keys, and how many opened groups
       are in preformattedAttrs. *)
    Ok (setPreformatted h2 (handleState.buf state) (handleState.prefix state)
          (List.length (groups h2))).

(** [WithGroup] returns a new Handler with the given name appended to the
    groups. *)
Definition WithGroup (h : Handler) (name : bytes) : Handler :=
  let h2 := clone h in
  setGroupsOf h2 (groups h2 ++ [name]).

Definition Enabled (h : Handler) (level : Z) : bool :=
  let minLevel :=
    match MinLevel (opts h) with
    | Some l => l
    | None => LevelFx
    end in
  minLevel <=? level.

End Encoder.

(** ** Constructors *)

Definition optionsOrDefault (o : option HandlerOptions) : HandlerOptions :=
  match o with
  | Some o => o
  | None => defaultOptions
  end.

(** In each constructor [m] is the lock allocated for the new handler. *)
Definition NewHandler (w : Writer) (m : Mutex) (color : LevelColorMap)
    (safe : bool) (layout sep : bytes) (o : option HandlerOptions) : Handler :=
  let layout := if isEmptyString layout then DefaultPrettyDateTimeLayout else layout in
  let sep := if isEmptyString sep then PrettySep else sep in
  let color := match color with None => DefaultColorMap | Some _ => color end in
  {| json := false; pretty := true; safe := safe; color := color;
     layout := layout; sep := sep; w := w; opts := optionsOrDefault o; mu := m;
     preformattedAttrs := []; groupPrefix := []; groups := [];
     nOpenGroups := 0; buf := None |}.

Definition NewPrettyHandler (w : Writer) (m : Mutex) (o : option HandlerOptions)
    : Handler :=
  {| json := false; pretty := true; safe := false; color := DefaultColorMap;
     layout := DefaultPrettyDateTimeLayout; sep := PrettySep; w := w;
     opts := optionsOrDefault o; mu := m;
     preformattedAttrs := []; groupPrefix := []; groups := [];
     nOpenGroups := 0; buf := None |}.

Definition NewJSONHandler (w : Writer) (m : Mutex) (o : option HandlerOptions)
    : Handler :=
  {| json := true; pretty := false; safe := true; color := EmptyColorMap;
     sep := JSONSep; w := w; opts := optionsOrDefault o; mu := m;
     layout := []; preformattedAttrs := []; groupPrefix := []; groups := [];
     nOpenGroups := 0; buf := None |}.

Definition NewStructHandler (w : Writer) (m : Mutex) (o : option HandlerOptions)
    : Handler :=
  {| json := false; pretty := false; safe := true; sep := StructSep; w := w;
     opts := optionsOrDefault o; mu := m;
     color := None; layout := []; preformattedAttrs := []; groupPrefix := [];
     groups := []; nOpenGroups := 0; buf := None |}.

(** * Sample inputs and the definitions the statements use *)

(** ** Sample inputs *)

(** A library instance to run the encoder on: colors switched on, every
    code point above Latin-1 taken as printable, and fixed renderings for
    the formatters. *)
Definition sampleLib : GoLib :=
  {| printTable := fun _ => true;
     NoColor := false;
     AppendFloat := fun _ => B "0";
     jsonEncodeFloat := fun _ => inl (B "0" ++ [newline]);
     DurationString := fun _ => B "0s";
     TimeString := fun _ => B "0001-01-01 00:00:00 +0000 UTC";
     TimeAppendFormat := fun _ _ => B "00:00:00 Mon 01 Jan 0001";
     fmtAppendAttrs := fun _ => B "[]";
     fmtAppendLogValuer := fun name => name;
     CallersFrame := fun _ => {| Function := []; File := []; Line := 0 |} |}.

(** A sink that accepts every write, and one that refuses every write. *)
Definition discard : Writer := {| writerId := 1; Write := fun _ => None |}.

Definition brokenPipe : Writer :=
  {| writerId := 2; Write := fun _ => Some (B "broken pipe") |}.

(** The same library with its colors switched off, as they are when the
    output is not a terminal. *)
Definition plainLib : GoLib :=
  {| printTable := printTable sampleLib; NoColor := true;
     AppendFloat := AppendFloat sampleLib;
     jsonEncodeFloat := jsonEncodeFloat sampleLib;
     DurationString := DurationString sampleLib;
     TimeString := TimeString sampleLib;
     TimeAppendFormat := TimeAppendFormat sampleLib;
     fmtAppendAttrs := fmtAppendAttrs sampleLib;
     fmtAppendLogValuer := fmtAppendLogValuer sampleLib;
     CallersFrame := CallersFrame sampleLib |}.

Definition zeroTime : time.Time :=
  {| time.sec := 0; time.nsec := 0; time.offset := 0 |}.

(** A string between double quotes. *)
Definition quoted (s : bytes) : bytes := [dquote] ++ s ++ [dquote].

(** The record of the concrete scenario. *)
Definition startedRecord : Record_ :=
  {| Time := zeroTime;
     Message := B "Service started successfully";
     Level := LevelInfo;
     PC := 0;
     attrs := [MkAttr (B "module") (KindString (B "PaymentService"))] |}.

(** The line the scenario announces, with the time key. *)
Definition startedLineWithTime : bytes :=
  B "{" ++ quoted (B "time") ++ B ":" ++ quoted (B "0001-01-01T00:00:00Z")
    ++ B "," ++ quoted (B "level") ++ B ":" ++ quoted (B "INFO")
    ++ B "," ++ quoted (B "msg") ++ B ":" ++ quoted (B "Service started successfully")
    ++ B "," ++ quoted (B "module") ++ B ":" ++ quoted (B "PaymentService")
    ++ B "}" ++ [newline].

(** The line the handler writes: the zero time is left out. *)
Definition startedLine : bytes :=
  B "{" ++ quoted (B "level") ++ B ":" ++ quoted (B "INFO")
    ++ B "," ++ quoted (B "msg") ++ B ":" ++ quoted (B "Service started successfully")
    ++ B "," ++ quoted (B "module") ++ B ":" ++ quoted (B "PaymentService")
    ++ B "}" ++ [newline].

(** [slog.Group] with the single argument [slog.Attr{}]: the group holds
    one attribute, and that attribute is the empty one. *)
Definition hollowGroup : Attr :=
  MkAttr (B "g") (GroupValue [MkAttr [] (KindAny AnyNil)]).

Definition hollowRecord : Record_ :=
  {| Time := zeroTime; Message := B "m"; Level := LevelInfo; PC := 0;
     attrs := [hollowGroup] |}.

Definition bareRecord : Record_ :=
  {| Time := zeroTime; Message := B "m"; Level := LevelInfo; PC := 0;
     attrs := [] |}.

(** Midnight UTC of January 1 of the year 10000. *)
Definition year10000 : time.Time :=
  {| time.sec := 3652059 * 86400; time.nsec := 0; time.offset := 0 |}.

Definition farRecord : Record_ :=
  {| Time := year10000; Message := B "m"; Level := LevelInfo; PC := 0;
     attrs := [] |}.

(** ** Strings in the text modes *)

(** The rule of the specification for a string in the text modes: the
    raw string when no quoting is required, the safe flag is off and the
    pretty mode is active, the quoted form in every other case. *)
Definition specTextString (lib : GoLib) (h : Handler) (str : bytes) : bytes :=
  if negb (needsQuoting (printTable lib) str) && negb (safe h) && pretty h
  then str
  else Quote (printTable lib) str.

(** What [appendString] writes in the text modes: the quoted form when
    quoting is required and the safe flag is on, otherwise the string
    itself, inside the color sequence when a color is selected. *)
Definition textString (lib : GoLib) (h : Handler) (c : Z) (str : bytes) : bytes :=
  if needsQuoting (printTable lib) str && safe h then Quote (printTable lib) str
  else if noColor <? c then colorFprint lib c str
  else str.

(** ** The shape of a text line *)

Fixpoint join (sep : bytes) (fields : list bytes) : bytes :=
  match fields with
  | [] => []
  | f :: fs =>
      match fs with
      | [] => f
      | _ :: _ => f ++ sep ++ join sep fs
      end
  end.

(** The fields as the encoder emits them: each one after the separator
    that is pending at that point. *)
Fixpoint emitFields (pending sep : bytes) (fields : list bytes) : bytes :=
  match fields with
  | [] => []
  | f :: fs => pending ++ f ++ emitFields sep sep fs
  end.

(** ** The fields of a text line *)

(** A field of a text line: a key with a value, both as they are
    rendered, or the bytes of the attributes bound earlier. *)
Inductive Field :=
| KeyValue (key value : bytes)
| Bound (raw : bytes).

(** The delimited text writes the key, an equals sign and the value; the
    pretty text writes the value only. *)
Definition renderField (h : Handler) (f : Field) : bytes :=
  match f with
  | KeyValue k v => if pretty h then v else k ++ B "=" ++ v
  | Bound raw => raw
  end.

Definition textLine (h : Handler) (fields : list Field) : bytes :=
  join (sep h) (map (renderField h) fields) ++ [newline].

(** The text of a timestamp: the configured layout in pretty mode, the
    fixed-width form otherwise. *)
Definition textTime (lib : GoLib) (h : Handler) (t : time.Time) : result bytes :=
  if pretty h then Ok (TimeAppendFormat lib t (layout h))
  else writeTimeRFC3339Millis buffer.New t.

(** The text of a value that is not a group, under the color [c]. *)
Definition textValue (lib : GoLib) (h : Handler) (c : Z) (v : Value) : result bytes :=
  match v with
  | KindString str => Ok (textString lib h c str)
  | KindTime t => textTime lib h t
  | KindAny a =>
      match MarshalText (capabilities a) with
      | Some (inr err) => Ok (textString lib h c (B "!ERROR:" ++ err))
      | Some (inl data) => Ok (textString lib h c data)
      | None =>
          match asByteSlice (capabilities a) with
          | Some bs =>
              if negb (safe h) && pretty h then Ok bs
              else Ok (Quote (printTable lib) bs)
          | None => Ok (textString lib h c (sprintfPlusV (capabilities a)))
          end
      end
  | _ => Ok (valueAppend lib v [])
  end.

(** The source special case in the text modes. *)
Definition sourceText (a : Attr) : result Attr :=
  match AttrValue a with
  | KindAny (AnySource None) =>
      Panic (B "invalid memory address or nil pointer dereference")
  | KindAny (AnySource (Some src)) =>
      Ok (MkAttr (Key a)
            (KindString (File src ++ B ":" ++ strconv.FormatInt (Line src))))
  | _ => Ok a
  end.

(** The fields that an attribute contributes to a text line: none for
    an empty attribute or a group without attributes, the fields of the
    children under the dotted prefix for a group, one field otherwise. *)
Fixpoint attrFields (lib : GoLib) (h : Handler) (c : Z) (fuel : nat)
    (prefix : bytes) (a : Attr) : result (list Field) :=
  match fuel with
  | O => OutOfFuel
  | S fuel' =>
      let a := MkAttr (Key a) (Resolve (AttrValue a)) in
      if isEmpty a then Ok []
      else
        do a <- sourceText a;
        match AttrValue a with
        | KindGroup attrs =>
            if (0 <? List.length attrs)%nat then
              let prefix' :=
                if negb (isEmptyString (Key a))
                then (prefix ++ Key a) ++ [keyComponentSep]
                else prefix in
              (fix each (l : list Attr) : result (list Field) :=
                 match l with
                 | [] => Ok []
                 | aa :: l' =>
                     do fs <- attrFields lib h c fuel' prefix' aa;
                     do gs <- each l';
                     Ok (fs ++ gs)
                 end) attrs
            else Ok []
        | v =>
            do x <- textValue lib h c v;
            Ok [KeyValue (textString lib h c (prefix ++ Key a)) x]
        end
  end.

Fixpoint attrsFields (lib : GoLib) (h : Handler) (c : Z) (fuel : nat)
    (prefix : bytes) (l : list Attr) : result (list Field) :=
  match l with
  | [] => Ok []
  | a :: l' =>
      do fs <- attrFields lib h c fuel prefix a;
      do gs <- attrsFields lib h c fuel prefix l';
      Ok (fs ++ gs)
  end.

(** The key prefix under which the attributes of a record are written:
    the prefix of the handler and the names of its pending groups. *)
Definition pendingPrefix (h : Handler) : bytes :=
  fold_left (fun p name => (p ++ name) ++ [keyComponentSep])
    (skipn (nOpenGroups h) (groups h)) (groupPrefix h).

Definition boundField (h : Handler) : list Field :=
  if (0 <? len (preformattedAttrs h))%nat then [Bound (preformattedAttrs h)] else [].

(** The fields of the text line of a record, in order: the time unless it
    is zero, the level, the source if it is captured, the message, the
    attributes bound to the handler, and the attributes of the record. The
    value of the level is rendered under the color of the level; [kc] is
    the color under which the key of the level is rendered. *)
Definition lineFields (lib : GoLib) (h : Handler) (kc : Z) (fuel : nat)
    (r : Record_) : result (list Field) :=
  do timeF <-
    (if negb (time.IsZero (Time r)) then
       do x <- textTime lib h (time.Round0 (Time r));
       Ok [KeyValue (textString lib h noColor TimeKey) x]
     else Ok []);
  let c := GetColor (color h) (Level r) in
  let levelF :=
    KeyValue (textString lib h kc LevelKey) (textString lib h c (GetLevelName (Level r))) in
  do srcF <-
    (if AddSource (opts h) then
       attrFields lib h noColor fuel []
         (MkAttr SourceKey (KindAny (AnySource (Some (rSource lib r)))))
     else Ok []);
  let msgF :=
    KeyValue (textString lib h noColor MessageKey)
      (textString lib h noColor (Message r)) in
  do attrFs <-
    (if (0 <? NumAttrs r)%nat
     then attrsFields lib h noColor fuel (pendingPrefix h) (attrs r)
     else Ok []);
  Ok (timeF ++ [levelF] ++ srcF ++ [msgF] ++ boundField h ++ attrFs).

(** The fields of the line of a record: the color of the level is on the
    value of the level field and on nothing else, the key of the level
    included. *)
Definition recordFields (lib : GoLib) (h : Handler) (fuel : nat) (r : Record_)
    : result (list Field) :=
  lineFields lib h noColor fuel r.

(** The states of the text modes between two fields: no replace function
    and its group list, and the separator of the handler pending. *)
Definition textState (s : handleState.t) : Prop :=
  json (handleState.h s) = false
  /\ ReplaceAttr (opts (handleState.h s)) = None
  /\ handleState.sep s = sep (handleState.h s)
  /\ handleState.groups s = None.

(** The state after the fields have been written. *)
Definition emit (s : handleState.t) (fields : list Field) : handleState.t :=
  setBuf s
    (handleState.buf s
       ++ emitFields (sep (handleState.h s)) (sep (handleState.h s))
            (map (renderField (handleState.h s)) fields)).

(** The shape that the specification gives to both text modes: for each
    field its key, an equals sign and its value. *)
Definition keyValueLine (sep : bytes) (kvs : list (bytes * bytes)) : bytes :=
  join sep (map (fun kv => fst kv ++ B "=" ++ snd kv) kvs) ++ [newline].

(** ** Runes of a string *)

(** The runes of a string in the order of a left-to-right scan, as
    [range] yields them, each with the bytes it was decoded from; a byte
    at which decoding fails gives [RuneError] with that single byte. *)
Fixpoint runesFrom (fuel : nat) (s : bytes) : list (Z * bytes) :=
  match fuel with
  | O => []
  | S fuel' =>
      match s with
      | [] => []
      | _ :: _ =>
          let '(r, size) := utf8.DecodeRuneInString s in
          (r, firstn size s) :: runesFrom fuel' (skipn size s)
      end
  end.

Definition runes (s : bytes) : list (Z * bytes) := runesFrom (len s) s.

(** The three outcomes of decoding at the head of a non-empty string. *)
Inductive Decoded : bytes -> Z -> nat -> Prop :=
| DecodedASCII : forall b t,
    bz b < utf8.RuneSelf -> Decoded (b :: t) (bz b) 1
| DecodedError : forall b t,
    utf8.RuneSelf <= bz b -> Decoded (b :: t) utf8.RuneError 1
| DecodedMulti : forall raw t r,
    (2 <= len raw)%nat ->
    Forall (fun b => utf8.RuneSelf <= bz b) raw ->
    (forall t', utf8.DecodeRuneInString (raw ++ t') = (r, len raw)) ->
    Decoded (raw ++ t) r (len raw).

(** ** When a string needs quoting *)

Definition space : byte := x20.

Definition equals : byte := x3d.

(** An ASCII byte that makes a string need quoting: the space, the equals
    sign, the double quote and the control characters below 0x20. *)
Definition quotedASCII (b : byte) : bool :=
  Byte.eqb b space || Byte.eqb b equals || Byte.eqb b dquote || (bz b <? 0x20).

(** A decoded position above ASCII that makes a string need quoting. *)
Definition quotedRune (tbl : Z -> bool) (r : Z) : bool :=
  (r =? utf8.RuneError) || unicode.IsSpace r || negb (unicode.IsPrint tbl r).

Definition quotedPosition (tbl : Z -> bool) (x : Z * bytes) : bool :=
  match snd x with
  | [] => false
  | b :: _ => if bz b <? utf8.RuneSelf then quotedASCII b else quotedRune tbl (fst x)
  end.

(** The rule of the specification for the text-mode safe set: a string
    needs quoting when it is empty, contains an ASCII space or an equals
    sign, contains an ASCII control byte, contains an invalid UTF-8
    sequence, or contains a character that is a space or is not
    printable. *)
Definition specNeedsQuoting (tbl : Z -> bool) (s : bytes) : bool :=
  isEmptyString s
  || existsb (fun b => Byte.eqb b space || Byte.eqb b equals) s
  || existsb (fun b => (bz b <? 0x20) || (bz b =? 0x7f)) s
  || negb (utf8.ValidString s)
  || existsb (fun x => unicode.IsSpace (fst x)
                       || negb (unicode.IsPrint tbl (fst x))) (runes s).

(** ** The well-formed multi-byte sequences *)

(** The byte sequences of two to four bytes that the decoder accepts,
    with the code point each stands for. *)
Inductive Multi : bytes -> Z -> Prop :=
| Multi2 : forall b0 b1,
    0xC2 <= bz b0 <= 0xDF -> 0x80 <= bz b1 <= 0xBF ->
    Multi [b0; b1] ((bz b0 - 0xC0) * 64 + (bz b1 - 0x80))
| Multi3 : forall b0 b1 b2,
    0xE0 <= bz b0 <= 0xEF -> 0x80 <= bz b1 <= 0xBF ->
    (bz b0 = 0xE0 -> 0xA0 <= bz b1) -> (bz b0 = 0xED -> bz b1 <= 0x9F) ->
    0x80 <= bz b2 <= 0xBF ->
    Multi [b0; b1; b2]
      ((bz b0 - 0xE0) * 4096 + (bz b1 - 0x80) * 64 + (bz b2 - 0x80))
| Multi4 : forall b0 b1 b2 b3,
    0xF0 <= bz b0 <= 0xF4 -> 0x80 <= bz b1 <= 0xBF ->
    (bz b0 = 0xF0 -> 0x90 <= bz b1) -> (bz b0 = 0xF4 -> bz b1 <= 0x8F) ->
    0x80 <= bz b2 <= 0xBF -> 0x80 <= bz b3 <= 0xBF ->
    Multi [b0; b1; b2; b3]
      ((bz b0 - 0xF0) * 262144 + (bz b1 - 0x80) * 4096
       + (bz b2 - 0x80) * 64 + (bz b3 - 0x80)).

(** ** The JSON escaping, rune by rune *)

(** What [appendEscapedJSONString] writes for one position of the scan:
    an ASCII byte of the safe set and a well-formed sequence other than
    the two separators are copied, the other ASCII bytes get their
    backslash escape, a byte at which decoding fails becomes the escape of
    U+FFFD, and U+2028 and U+2029 get their own escapes. *)
Definition escapeRune (x : Z * bytes) : bytes :=
  match snd x with
  | [] => []
  | b :: _ =>
      if bz b <? utf8.RuneSelf then
        if safeSet b then snd x else escapeASCII [backslash] b
      else if (fst x =? utf8.RuneError) && (len (snd x) =? 1)%nat then
        backslash :: B "ufffd"
      else if (fst x =? 0x2028) || (fst x =? 0x2029) then
        (backslash :: B "u202") ++ [hexDigit (Z.land (fst x) 0xF)]
      else snd x
  end.

(** ** Standard JSON unescaping *)

Definition hexVal (b : byte) : option Z :=
  let x := bz b in
  if (48 <=? x) && (x <=? 57) then Some (x - 48)
  else if (97 <=? x) && (x <=? 102) then Some (x - 87)
  else if (65 <=? x) && (x <=? 70) then Some (x - 55)
  else None.

Definition hex4 (a b c d : byte) : option Z :=
  match hexVal a, hexVal b, hexVal c, hexVal d with
  | Some a, Some b, Some c, Some d => Some (((a * 16 + b) * 16 + c) * 16 + d)
  | _, _, _, _ => None
  end.

Definition isHighSurrogate (r : Z) : bool := (0xD800 <=? r) && (r <? 0xDC00).

Definition isLowSurrogate (r : Z) : bool := (0xDC00 <=? r) && (r <? 0xE000).

(** The reference decoder, following the words of the specification
    (standard JSON unescaping) and not the source: the content of a JSON
    string, between its quotes, to the string it denotes. The two-character
    escapes and the four-digit escapes of the JSON grammar are decoded, a
    pair of surrogate escapes gives one code point, a lone surrogate
    gives U+FFFD, and a raw quote or control character is refused. The
    bytes above ASCII are taken as they are. *)
Fixpoint jsonUnescape (s : bytes) : option bytes :=
  match s with
  | [] => Some []
  | b :: t =>
      if Byte.eqb b backslash then
        match t with
        | [] => None
        | e :: t1 =>
            if Byte.eqb e dquote || Byte.eqb e backslash || Byte.eqb e x2f then
              option_map (cons e) (jsonUnescape t1)
            else if Byte.eqb e x62 then option_map (cons x08) (jsonUnescape t1)
            else if Byte.eqb e x66 then option_map (cons x0c) (jsonUnescape t1)
            else if Byte.eqb e x6e then option_map (cons x0a) (jsonUnescape t1)
            else if Byte.eqb e x72 then option_map (cons x0d) (jsonUnescape t1)
            else if Byte.eqb e x74 then option_map (cons x09) (jsonUnescape t1)
            else if Byte.eqb e x75 then
              match t1 with
              | h1 :: h2 :: h3 :: h4 :: t2 =>
                  match hex4 h1 h2 h3 h4 with
                  | None => None
                  | Some r =>
                      if isHighSurrogate r then
                        match t2 with
                        | b1 :: b2 :: g1 :: g2 :: g3 :: g4 :: t3 =>
                            match hex4 g1 g2 g3 g4 with
                            | Some r2 =>
                                if Byte.eqb b1 backslash && Byte.eqb b2 x75
                                   && isLowSurrogate r2
                                then
                                  option_map
                                    (app (utf8.EncodeRune
                                            (0x10000 + (r - 0xD800) * 1024
                                             + (r2 - 0xDC00))))
                                    (jsonUnescape t3)
                                else
                                  option_map (app (utf8.EncodeRune utf8.RuneError))
                                    (jsonUnescape t2)
                            | None =>
                                option_map (app (utf8.EncodeRune utf8.RuneError))
                                  (jsonUnescape t2)
                            end
                        | _ =>
                            option_map (app (utf8.EncodeRune utf8.RuneError))
                              (jsonUnescape t2)
                        end
                      else option_map (app (utf8.EncodeRune r)) (jsonUnescape t2)
                  end
              | _ => None
              end
            else None
        end
      else if Byte.eqb b dquote || (bz b <? 0x20) then None
      else option_map (cons b) (jsonUnescape t)
  end.

(** ** Positions of the scan and valid UTF-8 *)

(** A position of the scan with the facts that decoding established. *)
Definition chunk (x : Z * bytes) : Prop :=
  exists t, Decoded (snd x ++ t) (fst x) (len (snd x)).

(** What unescaping gives back for one position: the bytes themselves,
    or the encoding of U+FFFD for a byte at which decoding failed. *)
Definition replaceInvalid (x : Z * bytes) : bytes :=
  if (fst x =? utf8.RuneError) && (len (snd x) =? 1)%nat then [xef; xbf; xbd]
  else snd x.

(** A position that is not an encoding error. *)
Definition decodes (x : Z * bytes) : bool :=
  negb ((fst x =? utf8.RuneError) && (len (snd x) =? 1)%nat).

(** Strings made of ASCII bytes and well-formed sequences. *)
Inductive UTF8 : bytes -> Prop :=
| UTF8_nil : UTF8 []
| UTF8_ascii : forall b t, bz b < utf8.RuneSelf -> UTF8 t -> UTF8 (b :: t)
| UTF8_multi : forall raw r t,
    (2 <= len raw)%nat ->
    (forall t', utf8.DecodeRuneInString (raw ++ t') = (r, len raw)) ->
    UTF8 t -> UTF8 (raw ++ t).

(** ** Values on which the encoder returns *)

(** The nesting of groups in a value, seen through the lazy values; a
    source location counts for one level, since the JSON mode renders it
    as a group. *)
Fixpoint depth (v : Value) : nat :=
  match v with
  | KindGroup l =>
      S ((fix each (l : list Attr) : nat :=
            match l with
            | [] => 0%nat
            | MkAttr _ v' :: l' => Nat.max (depth v') (each l')
            end) l)
  | KindLogValuer _ lv => depth (lv tt)
  | KindAny (AnySource _) => 1%nat
  | _ => 0%nat
  end.

Fixpoint depthAttrs (l : list Attr) : nat :=
  match l with
  | [] => 0%nat
  | a :: l' => Nat.max (depth (AttrValue a)) (depthAttrs l')
  end.

(** A timestamp that the fixed-width formatter can write. *)
Definition timeOK (t : time.Time) : bool :=
  (0 <=? time.Year t) && (0 <=? time.nsec t).

(** The values that make no encoder panic: no nil source pointer and no
    timestamp before the year 0, at any depth. *)
Fixpoint tame (v : Value) : bool :=
  match v with
  | KindGroup l =>
      (fix each (l : list Attr) : bool :=
         match l with
         | [] => true
         | MkAttr _ v' :: l' => tame v' && each l'
         end) l
  | KindLogValuer _ lv => tame (lv tt)
  | KindAny (AnySource None) => false
  | KindTime t => timeOK t
  | _ => true
  end.

Fixpoint tameAttrs (l : list Attr) : bool :=
  match l with
  | [] => true
  | a :: l' => tame (AttrValue a) && tameAttrs l'
  end.

Definition isLogValuer (v : Value) : bool :=
  match v with KindLogValuer _ _ => true | _ => false end.

(** A payload that no encoder can marshal. *)
Definition unmarshalable : Opaque :=
  {| MarshalText := Some (inr (B "no text form"));
     asByteSlice := None;
     asError := None;
     isJSONMarshaler := false;
     jsonEncode := inr (B "json: unsupported type");
     sprintfPlusV := B "?";
     sprint := B "?" |}.

Definition unmarshalableRecord : Record_ :=
  {| Time := zeroTime; Message := B "m"; Level := LevelInfo; PC := 0;
     attrs := [MkAttr (B "c") (KindAny (AnyOther unmarshalable))] |}.

(** ** Writing after earlier output *)

(** The state with the bytes [b] in front of its buffer. *)
Definition prepend (b : bytes) (s : handleState.t) : handleState.t :=
  setBuf s (b ++ handleState.buf s).

(** The same for the outcome of a call. *)
Definition prependResult (b : bytes) (r : result handleState.t)
    : result handleState.t :=
  do s <- r; Ok (prepend b s).

(** ** The state of a call under another handler *)

(** The state [s] as a call on the handler [h'] would hold it, with the
    flag [fb] for its buffer and the color [c]. *)
Definition stateFor (h' : Handler) (fb : bool) (c : Z) (s : handleState.t)
    : handleState.t :=
  {| handleState.h := h';
     handleState.buf := handleState.buf s;
     handleState.color := c;
     handleState.freeBuf := fb;
     handleState.sep := handleState.sep s;
     handleState.prefix := handleState.prefix s;
     handleState.groups := handleState.groups s |}.

(** The handler [h'] and the color [c] encode an attribute as the state
    [s] does: the same mode and options, and outside JSON the same
    quoting flag, separator and color, and in pretty mode the same time
    layout. *)
Definition encodesAlike (s : handleState.t) (h' : Handler) (c : Z) : Prop :=
  json h' = json (handleState.h s)
  /\ pretty h' = pretty (handleState.h s)
  /\ opts h' = opts (handleState.h s)
  /\ (json (handleState.h s) = true
      \/ (safe h' = safe (handleState.h s)
          /\ sep h' = sep (handleState.h s)
          /\ (pretty (handleState.h s) = false
              \/ layout h' = layout (handleState.h s))
          /\ c = handleState.color s)).

(** ** What a call leaves as it found it *)

(** Two states that differ at most in the buffer and in the pending
    separator. *)
Definition sameFrame (s s' : handleState.t) : Prop :=
  handleState.h s' = handleState.h s
  /\ handleState.color s' = handleState.color s
  /\ handleState.freeBuf s' = handleState.freeBuf s
  /\ handleState.prefix s' = handleState.prefix s
  /\ handleState.groups s' = handleState.groups s.

(** ** The two halves of a call *)

(** The state of [Handle] once the built-in attributes are written: the
    time, the level, the source and the message, all outside the groups
    of the handler. *)
Definition builtIns (lib : GoLib) (fuel : nat) (h : Handler) (record : Record_)
    : result handleState.t :=
  let state := newHandleState h buffer.New true [] in
  let state :=
    if json h then setBuf state (buffer.WriteByte (handleState.buf state) x7b)
    else state in
  let state := setGroups state None in
  let rep := ReplaceAttr (opts h) in
  do state <-
    (if negb (time.IsZero (Time record)) then
       match rep with
       | None => appendTime lib (appendKey lib state TimeKey) (time.Round0 (Time record))
       | Some _ => appendAttr lib fuel state (MkAttr TimeKey (KindTime (time.Round0 (Time record))))
       end
     else Ok state);
  let state := setColor state (GetColor (color h) (Level record)) in
  do state <-
    match rep with
    | None => Ok (appendString lib (appendKey lib state LevelKey) (GetLevelName (Level record)))
    | Some _ =>
        appendAttr lib fuel state
          (MkAttr LevelKey (KindAny (AnyOther (levelValue (Level record)))))
    end;
  let state := resetColor state in
  do state <-
    (if AddSource (opts h) then
       appendAttr lib fuel state
         (MkAttr SourceKey (KindAny (AnySource (Some (rSource lib record)))))
     else Ok state);
  match rep with
  | None => Ok (appendString lib (appendKey lib state MessageKey) (Message record))
  | Some _ => appendAttr lib fuel state (MkAttr MessageKey (KindString (Message record)))
  end.

(** The group list that [Handle] puts back before the attributes of the
    record. *)
Definition recordGroups (h : Handler) : option (list bytes) :=
  match ReplaceAttr (opts h) with
  | Some _ => Some (firstn (nOpenGroups h) (groups h))
  | None => None
  end.

(** A result other than the exhaustion of the fuel of the model. *)
Definition settled {A : Type} (r : result A) : Prop := r <> OutOfFuel.

(** Two handlers that encode a record alike: the same mode and options,
    and outside JSON the same quoting flag and separator, the same color
    for every level, and in pretty mode the same time layout. *)
Definition handlesAlike (h h' : Handler) : Prop :=
  json h' = json h /\ pretty h' = pretty h /\ opts h' = opts h
  /\ (json h = true
      \/ (safe h' = safe h /\ sep h' = sep h
          /\ (pretty h = false \/ layout h' = layout h)
          /\ forall l : Z, GetColor (color h') l = GetColor (color h) l)).

(** ** Records with other attributes *)

(** The record [r] with the attributes [l] in place of its own. *)
Definition setAttrs (r : Record_) (l : list Attr) : Record_ :=
  {| Time := Time r; Message := Message r; Level := Level r; PC := PC r;
     attrs := l |}.

(** The state after the attributes bound to the handler have been
    written, as [appendNonBuiltIns] begins. *)
Definition writeBound (s : handleState.t) : handleState.t :=
  if (0 <? len (preformattedAttrs (handleState.h s)))%nat then
    let s := setBuf s (buffer.WriteString (handleState.buf s) (handleState.sep s)) in
    let s := setBuf s (buffer.Write (handleState.buf s)
                         (preformattedAttrs (handleState.h s))) in
    setSep s (attrSep (handleState.h s))
  else s.

(** The state in which the attributes of a record are written: the
    prefix of the handler set and its pending groups opened. *)
Definition enterGroups (lib : GoLib) (s : handleState.t) : handleState.t :=
  openGroups lib
    (setPrefix s (buffer.WriteString (handleState.prefix s)
                    (groupPrefix (handleState.h s)))).

(** ** The pending separator *)

(** The two outcomes of a JSON run from the state [s], for every
    separator that can be pending in it: nothing is written and the state
    stays as it is, or the separator is written, then bytes that do not
    depend on it, and the comma is left pending. *)
Definition afterSep (run : handleState.t -> result handleState.t)
    (s s' : handleState.t) : Prop :=
  (s' = s /\ forall x : bytes, run (setSep s x) = Ok (setSep s x))
  \/ (exists y : bytes,
        y <> []
        /\ handleState.buf s' = handleState.buf s ++ handleState.sep s ++ y
        /\ handleState.sep s' = JSONSep
        /\ forall x : bytes,
             run (setSep s x) = Ok (setBuf s' (handleState.buf s ++ x ++ y))).

(** The outcomes of a JSON run that first opens the groups [pending]:
    as [afterSep], except that a run which only opens groups ends on an
    opening brace with no separator pending. *)
Definition boundAfterSep (pending : list bytes)
    (run : handleState.t -> result handleState.t) (s s' : handleState.t) : Prop :=
  (pending = [] /\ s' = s
   /\ forall x : bytes, run (setSep s x) = Ok (setSep s x))
  \/ (exists y : bytes,
        y <> []
        /\ handleState.buf s' = handleState.buf s ++ handleState.sep s ++ y
        /\ (handleState.sep s' = JSONSep
            \/ (pending <> [] /\ handleState.sep s' = [] /\ last y x00 = x7b))
        /\ forall x : bytes,
             run (setSep s x) = Ok (setBuf s' (handleState.buf s ++ x ++ y))).

(** ** Handlers that slice their groups within bounds *)

(** The number of opened groups does not exceed the number of groups, so
    that [h.groups[h.nOpenGroups:]] and [h.groups[:h.nOpenGroups]] are
    within bounds. *)
Definition wellFormed (h : Handler) : Prop :=
  (nOpenGroups h <= List.length (groups h))%nat.

(** ** The builder *)

(** [HandlerBuilder] holds the handler that it configures; each method
    updates that handler in place and returns the builder. *)
Record HandlerBuilder := { bh : Handler }.

(** Modelled from the spec: the constant DefaultDateTimeLayout is not
    among the sources and the specification leaves the builder to its
    interface, so the layout is the argument [defaultLayout]; [stdout]
    stands for os.Stdout and [m] for the lock that is allocated. *)
Definition NewHandlerBuilder (stdout : Writer) (m : Mutex) (defaultLayout : bytes)
    : HandlerBuilder :=
  {| bh := {| json := false; pretty := false; safe := true;
              color := EmptyColorMap; layout := defaultLayout; sep := StructSep;
              w := stdout; opts := defaultOptions; mu := m;
              preformattedAttrs := []; groupPrefix := []; groups := [];
              nOpenGroups := 0; buf := None |} |}.

(** The assignments to the fields that the builder sets. *)
Definition configure (h : Handler) (j p s : bool) (c : LevelColorMap)
    (l x : bytes) (o : HandlerOptions) (wr : Writer) : Handler :=
  {| json := j; pretty := p; safe := s; color := c; layout := l; sep := x;
     opts := o; w := wr; mu := mu h;
     preformattedAttrs := preformattedAttrs h; groupPrefix := groupPrefix h;
     groups := groups h; nOpenGroups := nOpenGroups h; buf := buf h |}.

Definition WithPretty (b : HandlerBuilder) : HandlerBuilder :=
  let h := bh b in
  {| bh := configure h (json h) true true DefaultColorMap
             DefaultPrettyDateTimeLayout PrettySep (opts h) (w h) |}.

Definition WithColor (b : HandlerBuilder) (c : LevelColorMap) : HandlerBuilder :=
  let h := bh b in
  match c with
  | Some _ =>
      {| bh := configure h (json h) (pretty h) (safe h) c (layout h) (sep h)
                 (opts h) (w h) |}
  | None => b
  end.

Definition WithInsecure (b : HandlerBuilder) : HandlerBuilder :=
  let h := bh b in
  {| bh := configure h (json h) (pretty h) false (color h) (layout h) (sep h)
             (opts h) (w h) |}.

Definition WithTimeLayout (b : HandlerBuilder) (l : bytes) : HandlerBuilder :=
  let h := bh b in
  if negb (isEmptyString l) then
    {| bh := configure h (json h) (pretty h) (safe h) (color h) l (sep h)
               (opts h) (w h) |}
  else b.

Definition WithSeparator (b : HandlerBuilder) (x : bytes) : HandlerBuilder :=
  let h := bh b in
  if negb (isEmptyString x) then
    {| bh := configure h (json h) (pretty h) (safe h) (color h) (layout h) x
               (opts h) (w h) |}
  else b.

Definition WithOptions (b : HandlerBuilder) (o : option HandlerOptions)
    : HandlerBuilder :=
  let h := bh b in
  match o with
  | Some o =>
      {| bh := configure h (json h) (pretty h) (safe h) (color h) (layout h)
                 (sep h) o (w h) |}
  | None => b
  end.

Definition WithWriter (b : HandlerBuilder) (wr : option Writer) : HandlerBuilder :=
  let h := bh b in
  match wr with
  | Some wr =>
      {| bh := configure h (json h) (pretty h) (safe h) (color h) (layout h)
                 (sep h) (opts h) wr |}
  | None => b
  end.

Definition WithJSON (b : HandlerBuilder) : HandlerBuilder :=
  let h := bh b in
  {| bh := configure h true (pretty h) (safe h) (color h) (layout h) (sep h)
             (opts h) (w h) |}.

(** [Build] returns the handler of the builder, which it first brings in
    line: JSON switches the pretty mode off, the quoting on, the comma in
    and the colors out; the pretty mode switches the quoting off. *)
Definition Build (b : HandlerBuilder) : Handler :=
  let h := bh b in
  let h :=
    if json h then
      configure h (json h) false true EmptyColorMap (layout h) JSONSep (opts h) (w h)
    else h in
  if pretty h then
    configure h (json h) (pretty h) false (color h) (layout h) (sep h) (opts h) (w h)
  else h.

(** A call of a configuring method of the builder. *)
Inductive BuilderCall :=
| CallWithPretty
| CallWithColor (c : LevelColorMap)
| CallWithInsecure
| CallWithTimeLayout (l : bytes)
| CallWithSeparator (x : bytes)
| CallWithOptions (o : option HandlerOptions)
| CallWithWriter (wr : option Writer)
| CallWithJSON.

Definition call (b : HandlerBuilder) (c : BuilderCall) : HandlerBuilder :=
  match c with
  | CallWithPretty => WithPretty b
  | CallWithColor c => WithColor b c
  | CallWithInsecure => WithInsecure b
  | CallWithTimeLayout l => WithTimeLayout b l
  | CallWithSeparator x => WithSeparator b x
  | CallWithOptions o => WithOptions b o
  | CallWithWriter wr => WithWriter b wr
  | CallWithJSON => WithJSON b
  end.

(** A chain of calls on a builder, from left to right. *)
Definition chain (b : HandlerBuilder) (calls : list BuilderCall) : HandlerBuilder :=
  fold_left call calls b.

(** ** Bytes from the space upward *)

(** A byte that is none of the control characters 0x00 to 0x1f, among
    which are the newline, the carriage return and the escape. The delete
    character 0x7f and every byte above ASCII are such bytes. *)
Definition fromSpace (b : byte) : Prop := 0x20 <= bz b.

(** The sequence that selects the color [c] and the sequence that resets
    it, as the color library writes them around a text. *)
Definition colorOn (c : Z) : bytes := (x1b :: B "[") ++ strconv.FormatInt c ++ B "m".
Definition colorOff : bytes := x1b :: B "[0m".

(** The ASCII bytes that the text encoding leaves bare. *)
Definition bareByte (b : byte) : bool :=
  (bz b <? utf8.RuneSelf) && negb (quotedASCII b).

(** ** More sample inputs *)

(** A JSON handler with the group [g] bound to it. *)
Definition groupedHandler : Handler :=
  WithGroup (NewJSONHandler discard 0 None) (B "g").

(** A handler in JSON mode whose text settings are those of another
    mode. *)
Definition oddJSONHandler : Handler :=
  {| json := true; pretty := false; safe := false; sep := B ";";
     layout := B "2006"; color := DefaultColorMap; opts := defaultOptions;
     preformattedAttrs := []; groupPrefix := []; groups := [];
     nOpenGroups := 0; buf := Some []; mu := 7; w := discard |}.

(** A group in a group, with one attribute in each. *)
Definition nestedAttrs : list Attr :=
  [MkAttr (B "a")
     (KindGroup [MkAttr (B "k") (KindInt64 5);
                 MkAttr (B "b") (KindGroup [MkAttr (B "m") (KindString (B "x y"))])]);
   MkAttr (B "z") (KindBool true)].

(** An instant of the year 1997, five milliseconds into its second and
    one hour east of UTC. *)
Definition sampleTime : time.Time :=
  {| time.sec := 63000000000; time.nsec := 5000000; time.offset := 3600 |}.

(** A text state with a byte in its buffer and a separator pending. *)
Definition pendingState : handleState.t :=
  newHandleState (NewStructHandler discard 0 None) (B "x") true (B " ").

(** What [nestedAttrs] writes after the pending separator. *)
Definition nestedText : bytes :=
  B " a.k=5 a.b.m=" ++ quoted (B "x y") ++ B " z=true".

(** The handler [groupedHandler] with the attribute [k] bound in its
    group. *)
Definition boundHandler : Handler :=
  setPreformatted (clone groupedHandler)
    (quoted (B "g") ++ B ":{" ++ quoted (B "k") ++ B ":5") [] 1.

(** ** Values that an encoder refuses *)

(** The values for which the encoder of a mode returns an error, with the
    error: in a text mode ([false]) a payload whose [MarshalText] fails;
    in JSON mode ([true]) a payload or a float that the JSON encoder
    refuses, where a payload that is an error and no [json.Marshaler] is
    written by its message and is never handed to the encoder. *)
Inductive refused (lib : GoLib) : bool -> Value -> error -> Prop :=
| refused_text : forall (o : Opaque) (e : error),
    MarshalText o = Some (inr e) ->
    refused lib false (KindAny (AnyOther o)) e
| refused_json : forall (o : Opaque) (e : error),
    jsonEncode o = inr e ->
    asError o = None \/ isJSONMarshaler o = true ->
    refused lib true (KindAny (AnyOther o)) e
| refused_float : forall (f : float64) (e : error),
    jsonEncodeFloat lib f = inr e ->
    refused lib true (KindFloat64 f) e.

(** An attribute that holds the attribute [t]: [t] itself, or a group with
    a member that holds it. *)
Inductive holds (t : Attr) : Attr -> Prop :=
| holds_here : holds t t
| holds_member : forall (k : bytes) (l : list Attr) (a : Attr),
    In a l -> holds t a -> holds t (MkAttr k (KindGroup l)).

(** What stands in the line in place of a value that was refused with the
    error [e]: the marker and the message of the error, written as a
    string of the mode. *)
Definition errorText (lib : GoLib) (h : Handler) (e : error) : bytes :=
  if json h then quoted (appendEscapedJSONString [] (B "!ERROR:" ++ e))
  else textString lib h noColor (B "!ERROR:" ++ e).

(** The bytes [b'] are the bytes [b] followed by more, among which the
    run [m] stands. *)
Definition marked (m b b' : bytes) : Prop :=
  exists pre post : bytes, b' = b ++ pre ++ m ++ post.

(** A record that holds the payload that no encoder can marshal in a
    group, after another attribute. *)
Definition nestedUnmarshalableRecord : Record_ :=
  {| Time := zeroTime; Message := B "m"; Level := LevelInfo; PC := 0;
     attrs := [MkAttr (B "a") (KindInt64 1);
               MkAttr (B "g")
                 (KindGroup [MkAttr (B "c") (KindAny (AnyOther unmarshalable))])] |}.

(** A record whose time is in the year before the year 0, and a record
    with a nil [*slog.Source] for a value. *)
Definition ancientRecord : Record_ :=
  {| Time := {| time.sec := -86400 * 400; time.nsec := 0; time.offset := 0 |};
     Message := B "m"; Level := LevelInfo; PC := 0; attrs := [] |}.

Definition nilSourceRecord : Record_ :=
  {| Time := zeroTime; Message := B "m"; Level := LevelInfo; PC := 0;
     attrs := [MkAttr (B "s") (KindAny (AnySource None))] |}.

(** * Properties *)

(** ** The concrete scenario *)

(** C1, as stated, fails: the JSON handler with default options does not
    write the announced line for the scenario's record. *)
Lemma scenario_line_has_no_time :
  Handle sampleLib 1 (NewJSONHandler discard 0 None) startedRecord
  <> Ok (startedLineWithTime, None).
Proof. vm_compute. discriminate. Qed.

(** C1, amended: for the record with level Info, the message, the single
    attribute module and a zero timestamp, a JSON handler with default
    options hands the sink exactly one line with the keys level, msg and
    module in that order, followed by one newline; the zero time is
    omitted. *)
Theorem scenario_line :
  forall (lib : GoLib) (w : Writer) (m : Mutex) (fuel : nat),
    Handle lib (S fuel) (NewJSONHandler w m None) startedRecord
    = Ok (startedLine, Write w startedLine).
Proof. intros. reflexivity. Qed.

(** ** The bind operations and the configuration *)

Lemma clone_fields :
  forall h : Handler,
    (json (clone h) = json h /\ opts (clone h) = opts h
     /\ w (clone h) = w h /\ mu (clone h) = mu h)
    /\ (pretty (clone h) = false /\ safe (clone h) = false
        /\ sep (clone h) = [] /\ layout (clone h) = []
        /\ color (clone h) = None).
Proof. intros h. repeat split; reflexivity. Qed.

(** What [WithGroup] keeps and what it resets, for every handler. *)
Lemma WithGroup_fields :
  forall (h : Handler) (name : bytes),
    (json (WithGroup h name) = json h /\ opts (WithGroup h name) = opts h
     /\ w (WithGroup h name) = w h /\ mu (WithGroup h name) = mu h)
    /\ (pretty (WithGroup h name) = false /\ safe (WithGroup h name) = false
        /\ sep (WithGroup h name) = [] /\ layout (WithGroup h name) = []
        /\ color (WithGroup h name) = None)
    /\ groups (WithGroup h name) = groups h ++ [name].
Proof. intros h name. repeat split; reflexivity. Qed.

(** The same for [WithAttrs] when it does not return its receiver. *)
Lemma WithAttrs_fields :
  forall (lib : GoLib) (fuel : nat) (h h2 : Handler) (l : list Attr),
    countEmptyGroups l <> List.length l ->
    WithAttrs lib fuel h l = Ok h2 ->
    (json h2 = json h /\ opts h2 = opts h /\ w h2 = w h /\ mu h2 = mu h)
    /\ (pretty h2 = false /\ safe h2 = false /\ sep h2 = []
        /\ layout h2 = [] /\ color h2 = None).
Proof.
  intros lib fuel h h2 l Hne Hw. unfold WithAttrs in Hw.
  destruct (Nat.eqb_spec (countEmptyGroups l) (List.length l)) as [E | _];
    [contradiction |].
  match type of Hw with
  | bind ?r _ = _ => destruct r as [st | msg |]; simpl in Hw; try discriminate
  end.
  injection Hw as <-. repeat split; reflexivity.
Qed.

(** [WithAttrs] returns the receiver itself when every attribute is an
    empty group. *)
Lemma WithAttrs_empty_groups :
  forall (lib : GoLib) (fuel : nat) (h : Handler) (l : list Attr),
    countEmptyGroups l = List.length l -> WithAttrs lib fuel h l = Ok h.
Proof.
  intros lib fuel h l E. unfold WithAttrs. rewrite E, Nat.eqb_refl. reflexivity.
Qed.

(** C2: binding a group on the default pretty handler returns a handler
    that keeps json, the options, the writer and the lock, but whose
    pretty flag, separator, layout and color map are the zero values:
    the literal in [clone] leaves those fields out. The line written for
    the scenario's record changes from the pretty form to an unseparated
    key=value form. *)
Theorem bind_group_resets_pretty_configuration :
  let h := NewPrettyHandler discard 0 None in
  let h2 := WithGroup h (B "g") in
  (pretty h = true /\ pretty h2 = false)
  /\ (sep h = PrettySep /\ sep h2 = [])
  /\ (layout h = DefaultPrettyDateTimeLayout /\ layout h2 = [])
  /\ (color h = DefaultColorMap /\ color h2 = None)
  /\ Handle sampleLib 1 h startedRecord
     = Ok ((x1b :: B "[92mINFO") ++ (x1b :: B "[0m")
             ++ B " | Service started successfully | PaymentService" ++ [newline],
           None)
  /\ Handle sampleLib 1 h2 startedRecord
     = Ok ((x1b :: B "[37mlevel") ++ (x1b :: B "[0m=")
             ++ (x1b :: B "[37mINFO") ++ (x1b :: B "[0m")
             ++ B "msg=Service started successfullyg.module=PaymentService"
             ++ [newline],
           None).
Proof. vm_compute. repeat split; reflexivity. Qed.

(** ** Groups without emitted attributes *)

(** A group value with no attribute at all is skipped by [appendAttr]. *)
Lemma appendAttr_empty_group :
  forall (lib : GoLib) (fuel : nat) (s : handleState.t) (k : bytes),
    ReplaceAttr (opts (handleState.h s)) = None ->
    appendAttr lib (S fuel) s (MkAttr k (KindGroup [])) = Ok s.
Proof.
  intros lib fuel s k Hrep. simpl. rewrite Hrep.
  destruct k; reflexivity.
Qed.

(** C6: in JSON mode a group whose only attribute is the empty attribute
    is opened and closed all the same; the line differs from the one of
    the record without attributes. *)
Theorem hollow_group_is_opened :
  forall (lib : GoLib) (w : Writer) (m : Mutex) (fuel : nat),
    let line :=
      B "{" ++ quoted (B "level") ++ B ":" ++ quoted (B "INFO")
        ++ B "," ++ quoted (B "msg") ++ B ":" ++ quoted (B "m")
        ++ B "," ++ quoted (B "g") ++ B ":{}}" ++ [newline] in
    let bare :=
      B "{" ++ quoted (B "level") ++ B ":" ++ quoted (B "INFO")
        ++ B "," ++ quoted (B "msg") ++ B ":" ++ quoted (B "m")
        ++ B "}" ++ [newline] in
    Handle lib (S (S fuel)) (NewJSONHandler w m None) hollowRecord
    = Ok (line, Write w line)
    /\ Handle lib (S (S fuel)) (NewJSONHandler w m None) bareRecord
       = Ok (bare, Write w bare)
    /\ line <> bare.
Proof.
  intros. repeat split; try reflexivity.
  subst line bare. vm_compute. discriminate.
Qed.

(** ** Timestamps outside the four-digit years *)

(** C7: for a record in the year 10000 the JSON handler writes the error
    marker as a string and, right after it, the time itself as a second
    string; [appendJSONTime] does not return after [appendError]. *)
Theorem out_of_range_time_is_still_written :
  forall (lib : GoLib) (w : Writer) (m : Mutex) (fuel : nat),
    let line :=
      B "{" ++ quoted (B "time") ++ B ":"
        ++ quoted (B "!ERROR:time.Time year outside of range [0,9999]")
        ++ quoted (B "10000-01-01T00:00:00Z")
        ++ B "," ++ quoted (B "level") ++ B ":" ++ quoted (B "INFO")
        ++ B "," ++ quoted (B "msg") ++ B ":" ++ quoted (B "m")
        ++ B "}" ++ [newline] in
    time.Year year10000 = 10000
    /\ Handle lib fuel (NewJSONHandler w m None) farRecord = Ok (line, Write w line).
Proof. intros. split; reflexivity. Qed.

(** ** Strings in the text modes *)

Lemma appendEscapedRune_app :
  forall (tbl : Z -> bool) (buf : bytes) (r : Z),
    appendEscapedRune tbl buf r = buf ++ appendEscapedRune tbl [] r.
Proof.
  intros tbl buf r. unfold appendEscapedRune.
  repeat match goal with
         | |- context [if ?c then _ else _] => destruct c
         end; reflexivity.
Qed.

Lemma quoteLoop_app :
  forall (tbl : Z -> bool) (fuel : nat) (s buf : bytes),
    quoteLoop tbl fuel buf s = buf ++ quoteLoop tbl fuel [] s.
Proof.
  intros tbl fuel. induction fuel as [| fuel IH]; intros s buf; cbn [quoteLoop].
  - now rewrite app_nil_r.
  - destruct s as [| b t]; [now rewrite app_nil_r |].
    destruct (if bz b <? utf8.RuneSelf then (bz b, 1%nat)
              else utf8.DecodeRuneInString (b :: t)) as [r width].
    destruct ((width =? 1)%nat && (r =? utf8.RuneError)).
    + rewrite (IH _ (buf ++ _)), (IH _ ([] ++ _)).
      now rewrite <- app_assoc.
    + rewrite (IH _ (appendEscapedRune tbl buf r)).
      rewrite (IH _ (appendEscapedRune tbl [] r)).
      rewrite (appendEscapedRune_app tbl buf r). now rewrite <- app_assoc.
Qed.

Lemma AppendQuote_app :
  forall (tbl : Z -> bool) (buf s : bytes),
    AppendQuote tbl buf s = buf ++ Quote tbl s.
Proof.
  intros tbl buf s. unfold Quote, AppendQuote.
  rewrite (quoteLoop_app tbl _ _ (buf ++ _)).
  rewrite (quoteLoop_app tbl _ _ ([] ++ _)).
  now rewrite <- !app_assoc.
Qed.

(** In the text modes [appendString] extends the buffer by [textString]
    and touches nothing else. *)
Lemma appendString_text_mode :
  forall (lib : GoLib) (s : handleState.t) (str : bytes),
    json (handleState.h s) = false ->
    appendString lib s str
    = setBuf s (handleState.buf s
                  ++ textString lib (handleState.h s) (handleState.color s) str).
Proof.
  intros lib s str Hj. unfold appendString, textString. rewrite Hj.
  destruct (needsQuoting (printTable lib) str && safe (handleState.h s)).
  - now rewrite AppendQuote_app.
  - destruct (noColor <? handleState.color s); reflexivity.
Qed.

(** C4, as stated, fails: the delimited-text handler writes a string that
    needs no quoting as it is, where the rule of the specification asks
    for the quoted form. *)
Lemma safe_string_is_not_quoted :
  let h := NewStructHandler discard 0 None in
  let s := newHandleState h buffer.New true [] in
  handleState.buf (appendString sampleLib s (B "abc"))
  <> handleState.buf s ++ specTextString sampleLib h (B "abc").
Proof. vm_compute. discriminate. Qed.

(** C4, amended: in the text modes a string is written with the quoted
    escape exactly when quoting is required and the safe flag is on; in
    every other case the string is written as it is (inside the color
    sequence when a color is selected), whether pretty mode is active or
    not. *)
Theorem text_string_quoting :
  forall (lib : GoLib) (s : handleState.t) (str : bytes),
    json (handleState.h s) = false ->
    let out := handleState.buf (appendString lib s str) in
    (needsQuoting (printTable lib) str = true -> safe (handleState.h s) = true ->
     out = handleState.buf s ++ Quote (printTable lib) str)
    /\ (needsQuoting (printTable lib) str = false \/ safe (handleState.h s) = false ->
        out = handleState.buf s
                ++ (if noColor <? handleState.color s
                    then colorFprint lib (handleState.color s) str
                    else str)).
Proof.
  intros lib s str Hj out. subst out.
  rewrite (appendString_text_mode lib s str Hj). unfold textString. simpl.
  split.
  - intros Hq Hs. now rewrite Hq, Hs.
  - intros [Hq | Hs].
    + now rewrite Hq.
    + rewrite Hs, andb_false_r. reflexivity.
Qed.

Lemma text_string_quoting_witness :
  let s := newHandleState (NewStructHandler discard 0 None) buffer.New true [] in
  handleState.buf (appendString sampleLib s (B "a b")) = quoted (B "a b")
  /\ handleState.buf (appendString sampleLib s (B "abc")) = B "abc".
Proof.
  intros s.
  destruct (text_string_quoting sampleLib s (B "a b") eq_refl) as [Hq _].
  destruct (text_string_quoting sampleLib s (B "abc") eq_refl) as [_ Hr].
  split.
  - rewrite (Hq eq_refl eq_refl). reflexivity.
  - rewrite (Hr (or_introl eq_refl)). reflexivity.
Defined.

(** ** The shape of a text line *)

Lemma emitFields_join :
  forall (sep : bytes) (fields : list bytes),
    emitFields [] sep fields = join sep fields.
Proof.
  intros sep fields. destruct fields as [| f fs]; [reflexivity |].
  cbn [emitFields app]. revert f.
  induction fs as [| g fs IH]; intros f.
  - cbn. now rewrite app_nil_r.
  - cbn [emitFields join]. now rewrite IH.
Qed.

Lemma emitFields_app :
  forall (sep : bytes) (fs gs : list bytes) (pending : bytes),
    emitFields pending sep (fs ++ gs)
    = emitFields pending sep fs
        ++ emitFields (match fs with [] => pending | _ => sep end) sep gs.
Proof.
  intros sep fs gs pending. destruct fs as [| f fs].
  - reflexivity.
  - cbn [app emitFields]. rewrite <- !app_assoc. do 2 f_equal.
    induction fs as [| g fs IH]; [reflexivity |].
    cbn [app emitFields]. rewrite <- !app_assoc. now rewrite IH.
Qed.

Lemma emit_nil : forall s : handleState.t, emit s [] = s.
Proof. intros s. destruct s. unfold emit. cbn. now rewrite app_nil_r. Qed.

Lemma emit_app :
  forall (s : handleState.t) (fs gs : list Field),
    emit (emit s fs) gs = emit s (fs ++ gs).
Proof.
  intros s fs gs. unfold emit. cbn [handleState.buf handleState.h setBuf].
  rewrite map_app, emitFields_app, <- app_assoc.
  destruct (map (renderField (handleState.h s)) fs); reflexivity.
Qed.

Lemma emit_textState :
  forall (s : handleState.t) (fs : list Field),
    textState s -> textState (emit s fs).
Proof. intros s fs H. exact H. Qed.

Lemma appendKey_text :
  forall (lib : GoLib) (s : handleState.t) (key : bytes),
    json (handleState.h s) = false ->
    appendKey lib s key
    = setSep
        (setBuf s
           (handleState.buf s ++ handleState.sep s
              ++ (if pretty (handleState.h s) then []
                  else textString lib (handleState.h s) (handleState.color s)
                         (handleState.prefix s ++ key) ++ B "=")))
        (sep (handleState.h s)).
Proof.
  intros lib s key Hj. unfold appendKey.
  cbn [handleState.h setBuf handleState.prefix].
  destruct (pretty (handleState.h s)); cbn [negb].
  - unfold attrSep. cbn [handleState.h setBuf]. rewrite Hj, app_nil_r. reflexivity.
  - assert (Hstr : forall str,
               (if (0 <? len (handleState.prefix s))%nat
                then appendString lib (setBuf s (buffer.WriteString (handleState.buf s)
                                                   (handleState.sep s)))
                       (handleState.prefix s ++ str)
                else appendString lib (setBuf s (buffer.WriteString (handleState.buf s)
                                                   (handleState.sep s))) str)
               = appendString lib (setBuf s (buffer.WriteString (handleState.buf s)
                                              (handleState.sep s)))
                   (handleState.prefix s ++ str)).
    { intros str. destruct (handleState.prefix s); reflexivity. }
    rewrite Hstr. rewrite appendString_text_mode by exact Hj.
    cbn [handleState.h setBuf handleState.buf handleState.color].
    rewrite Hj. unfold attrSep. cbn [handleState.h setBuf]. rewrite Hj.
    unfold buffer.WriteString, buffer.WriteByte, setSep, setBuf.
    cbn. rewrite <- !app_assoc. reflexivity.
Qed.

Lemma WritePosIntWidth_app :
  forall (b : buffer.Buffer) (i : Z) (width : nat),
    buffer.WritePosIntWidth b i width
    = do x <- buffer.WritePosIntWidth buffer.New i width; Ok (b ++ x).
Proof.
  intros b i width. unfold buffer.WritePosIntWidth, buffer.New.
  destruct (i <? 0); reflexivity.
Qed.

Lemma writeTimeRFC3339Millis_app :
  forall (b : buffer.Buffer) (t : time.Time),
    writeTimeRFC3339Millis b t
    = do x <- writeTimeRFC3339Millis buffer.New t; Ok (b ++ x).
Proof.
  intros b t. unfold writeTimeRFC3339Millis, buffer.WritePosIntWidth,
    buffer.WriteByte, buffer.New.
  destruct (time.Date t) as [[year month] day].
  destruct (time.Clock t) as [[hour min] sec].
  repeat match goal with
         | |- context [if ?c then Panic _ else _] => destruct c; cbn [bind]; try reflexivity
         end.
  destruct (time.ZoneOffset t =? 0); cbn [bind app].
  - now rewrite <- !app_assoc.
  - destruct (Z.quot (time.ZoneOffset t) 60 <? 0);
      repeat match goal with
             | |- context [if ?c then Panic _ else _] =>
                 destruct c; cbn [bind]; try reflexivity
             end;
      cbn [app]; now rewrite <- !app_assoc.
Qed.

Lemma appendTime_text :
  forall (lib : GoLib) (s : handleState.t) (t : time.Time),
    json (handleState.h s) = false ->
    appendTime lib s t
    = do x <- textTime lib (handleState.h s) t;
      Ok (setBuf s (handleState.buf s ++ x)).
Proof.
  intros lib s t Hj. unfold appendTime, textTime. rewrite Hj.
  destruct (pretty (handleState.h s)); [reflexivity |].
  rewrite writeTimeRFC3339Millis_app.
  destruct (writeTimeRFC3339Millis buffer.New t); reflexivity.
Qed.

(** In the text modes [appendValue] extends the buffer by the text of the
    value. *)
Lemma appendValue_text :
  forall (lib : GoLib) (s : handleState.t) (v : Value),
    json (handleState.h s) = false ->
    appendValue lib s v
    = do x <- textValue lib (handleState.h s) (handleState.color s) v;
      Ok (setBuf s (handleState.buf s ++ x)).
Proof.
  intros lib s v Hj. unfold appendValue, appendTextValue, textValue. rewrite Hj.
  destruct v; cbn [bind]; unfold valueAppend, strconv.AppendInt, strconv.AppendUint,
    strconv.AppendBool; cbn [app];
    try reflexivity; try (rewrite appendString_text_mode by exact Hj; reflexivity).
  - destruct (MarshalText (capabilities a)) as [[data | err] |]; cbn [bind].
    + rewrite appendString_text_mode by exact Hj. reflexivity.
    + unfold appendError. rewrite appendString_text_mode by exact Hj. reflexivity.
    + destruct (asByteSlice (capabilities a)).
      * destruct (negb (safe (handleState.h s)) && pretty (handleState.h s));
          reflexivity.
      * cbn [bind]. rewrite appendString_text_mode by exact Hj. reflexivity.
  - rewrite appendTime_text by exact Hj.
    destruct (textTime lib (handleState.h s) t); reflexivity.
Qed.

Lemma replaceSource_text :
  forall (s : handleState.t) (a : Attr),
    json (handleState.h s) = false -> replaceSource s a = sourceText a.
Proof.
  intros s a Hj. unfold replaceSource, sourceText. rewrite Hj. reflexivity.
Qed.

Lemma openGroup_text :
  forall (lib : GoLib) (s : handleState.t) (name : bytes),
    json (handleState.h s) = false -> handleState.groups s = None ->
    openGroup lib s name
    = setPrefix s ((handleState.prefix s ++ name) ++ [keyComponentSep]).
Proof.
  intros lib s name Hj Hg. unfold openGroup. rewrite Hj.
  cbn [handleState.groups setPrefix]. rewrite Hg. reflexivity.
Qed.

Lemma firstn_prefix :
  forall p name : bytes,
    firstn (len ((p ++ name) ++ [keyComponentSep]) - len name - 1)
      ((p ++ name) ++ [keyComponentSep]) = p.
Proof.
  intros p name. unfold len. rewrite !length_app. cbn [List.length].
  replace (List.length p + List.length name + 1 - List.length name - 1)%nat
    with (List.length p + 0)%nat by lia.
  rewrite <- app_assoc. rewrite firstn_app_2. cbn. now rewrite app_nil_r.
Qed.

Lemma closeGroup_text :
  forall (s : handleState.t) (name : bytes) (fs : list Field),
    textState s ->
    closeGroup
      (emit (setPrefix s ((handleState.prefix s ++ name) ++ [keyComponentSep])) fs)
      name
    = emit s fs.
Proof.
  intros s name fs (Hj & Hrep & Hsep & Hg). unfold closeGroup, emit.
  cbn [handleState.h setBuf setPrefix handleState.prefix handleState.groups
         handleState.buf setSep].
  rewrite Hj.
  cbn [handleState.h setBuf setPrefix handleState.prefix handleState.groups
         handleState.buf setSep].
  rewrite Hg. unfold attrSep. cbn [handleState.h setSep setPrefix setBuf].
  rewrite Hj, firstn_prefix. destruct s. cbn in *. subst. reflexivity.
Qed.

(** In the text modes [appendAttr] writes the fields of the attribute. *)
Lemma appendAttr_text :
  forall (lib : GoLib) (fuel : nat) (s : handleState.t) (a : Attr),
    textState s ->
    appendAttr lib fuel s a
    = do fs <- attrFields lib (handleState.h s) (handleState.color s) fuel
                 (handleState.prefix s) a;
      Ok (emit s fs).
Proof.
  intros lib fuel. induction fuel as [| fuel IH]; intros s [k v] Hs; [reflexivity |].
  pose proof Hs as (Hj & Hrep & Hsep & Hg).
  cbn [appendAttr attrFields]. rewrite Hrep. cbn [Key AttrValue].
  destruct (isEmpty (MkAttr k (Resolve v))); [cbn [bind]; now rewrite emit_nil |].
  rewrite replaceSource_text by exact Hj.
  destruct (sourceText (MkAttr k (Resolve v))) as [[k2 v2] | msg |];
    cbn [bind]; try reflexivity.
  cbn [Key AttrValue].
  assert (Hleaf : isKindGroup v2 = false ->
            appendValue lib (appendKey lib s k2) v2
            = do fs <- (do x <- textValue lib (handleState.h s) (handleState.color s) v2;
                        Ok [KeyValue (textString lib (handleState.h s)
                                        (handleState.color s)
                                        (handleState.prefix s ++ k2)) x]);
              Ok (emit s fs)).
  { intros _. rewrite appendKey_text by exact Hj.
    rewrite appendValue_text by exact Hj.
    cbn [handleState.h handleState.color handleState.buf setSep setBuf].
    destruct (textValue lib (handleState.h s) (handleState.color s) v2);
      cbn [bind]; try reflexivity.
    f_equal. unfold emit. cbn [map renderField emitFields].
    rewrite Hsep. destruct s. cbn in *. subst.
    destruct (pretty h); rewrite <- ?app_assoc; cbn [app];
      rewrite ?app_nil_r; reflexivity. }
  destruct v2 as [ | | | | | | | | l | ]; try (apply Hleaf; reflexivity).
  clear Hleaf. destruct (0 <? List.length l)%nat; [| cbn [bind]; now rewrite emit_nil].
  set (s1 := if negb (isEmptyString k2) then openGroup lib s k2 else s).
  set (p1 := if negb (isEmptyString k2)
             then (handleState.prefix s ++ k2) ++ [keyComponentSep]
             else handleState.prefix s).
  assert (H1 : s1 = setPrefix s p1).
  { subst s1 p1. destruct (negb (isEmptyString k2)).
    - apply openGroup_text; assumption.
    - destruct s; reflexivity. }
  assert (Hloop : forall (s2 : handleState.t),
             textState s2 ->
             handleState.h s2 = handleState.h s ->
             handleState.color s2 = handleState.color s ->
             handleState.prefix s2 = p1 ->
             (fix each (l : list Attr) (s : handleState.t) {struct l}
                : result handleState.t :=
                match l with
                | [] => Ok s
                | aa :: l' => do s0 <- appendAttr lib fuel s aa; each l' s0
                end) l s2
             = do fs <- (fix each (l : list Attr) : result (list Field) :=
                           match l with
                           | [] => Ok []
                           | aa :: l' =>
                               do fs <- attrFields lib (handleState.h s)
                                          (handleState.color s) fuel p1 aa;
                               do gs <- each l';
                               Ok (fs ++ gs)
                           end) l;
               Ok (emit s2 fs)).
  { induction l as [| aa l IHl]; intros s2 Hs2 Hh2 Hc2 Hp2.
    - cbn [bind]. now rewrite emit_nil.
    - rewrite (IH s2 aa Hs2), Hh2, Hc2, Hp2.
      destruct (attrFields lib (handleState.h s) (handleState.color s) fuel p1 aa)
        as [fs | msg |]; cbn [bind]; try reflexivity.
      rewrite (IHl (emit s2 fs)); try assumption.
      match goal with
      | |- bind ?x _ = _ => destruct x as [gs | msg |]
      end; cbn [bind]; try reflexivity.
      now rewrite emit_app. }
  rewrite H1, Hloop; try reflexivity; [| exact Hs].
  match goal with
  | |- _ = bind ?x _ => destruct x as [fs | msg |]
  end; cbn [bind]; try reflexivity.
  f_equal. subst p1. destruct (negb (isEmptyString k2)).
  - now apply closeGroup_text.
  - unfold emit. destruct s; reflexivity.
Qed.

Lemma appendAttrs_text :
  forall (lib : GoLib) (fuel : nat) (l : list Attr) (s : handleState.t),
    textState s ->
    appendAttrs lib fuel s l
    = do fs <- attrsFields lib (handleState.h s) (handleState.color s) fuel
                 (handleState.prefix s) l;
      Ok (emit s fs).
Proof.
  intros lib fuel l. induction l as [| a l IH]; intros s Hs.
  - cbn [appendAttrs attrsFields bind]. now rewrite emit_nil.
  - cbn [appendAttrs attrsFields]. rewrite (appendAttr_text lib fuel s a Hs).
    destruct (attrFields lib (handleState.h s) (handleState.color s) fuel
                (handleState.prefix s) a) as [fs | msg |]; cbn [bind]; try reflexivity.
    rewrite (IH (emit s fs) Hs).
    cbn [emit handleState.h handleState.color handleState.prefix setBuf].
    match goal with
    | |- bind ?x _ = _ => destruct x as [gs | msg |]
    end; cbn [bind]; try reflexivity.
    now rewrite emit_app.
Qed.

(** One key and its string, written by [appendKey] and [appendString]. *)
Lemma field_text :
  forall (lib : GoLib) (s : handleState.t) (k v : bytes),
    json (handleState.h s) = false ->
    appendString lib (appendKey lib s k) v
    = setSep
        (setBuf s
           (handleState.buf s ++ handleState.sep s
              ++ renderField (handleState.h s)
                   (KeyValue
                      (textString lib (handleState.h s) (handleState.color s)
                         (handleState.prefix s ++ k))
                      (textString lib (handleState.h s) (handleState.color s) v))))
        (sep (handleState.h s)).
Proof.
  intros lib s k v Hj. rewrite appendKey_text by exact Hj.
  rewrite appendString_text_mode by exact Hj.
  cbn [handleState.h handleState.color handleState.buf setSep setBuf renderField].
  destruct (pretty (handleState.h s)); rewrite <- ?app_assoc; cbn [app];
    rewrite ?app_nil_r; reflexivity.
Qed.

Lemma openGroups_prefix :
  forall (lib : GoLib) (l : list bytes) (s : handleState.t),
    json (handleState.h s) = false -> handleState.groups s = None ->
    fold_left (openGroup lib) l s
    = setPrefix s
        (fold_left (fun p name => (p ++ name) ++ [keyComponentSep]) l
           (handleState.prefix s)).
Proof.
  intros lib l. induction l as [| name l IH]; intros s Hj Hg.
  - destruct s; reflexivity.
  - cbn [fold_left]. rewrite openGroup_text by assumption.
    rewrite IH by assumption. reflexivity.
Qed.

Lemma appendNonBuiltIns_text :
  forall (lib : GoLib) (fuel : nat) (s : handleState.t) (r : Record_),
    textState s -> handleState.prefix s = [] ->
    appendNonBuiltIns lib fuel s r
    = do fs <-
        (if (0 <? NumAttrs r)%nat
         then attrsFields lib (handleState.h s) (handleState.color s) fuel
                (pendingPrefix (handleState.h s)) (attrs r)
         else Ok []);
      Ok (emit (if (0 <? NumAttrs r)%nat
                then setPrefix s (pendingPrefix (handleState.h s)) else s)
            (boundField (handleState.h s) ++ fs)).
Proof.
  intros lib fuel s r Hs Hp. pose proof Hs as (Hj & Hrep & Hsep & Hg).
  unfold appendNonBuiltIns.
  set (s1 := if (0 <? len (preformattedAttrs (handleState.h s)))%nat then _ else s).
  assert (H1 : s1 = emit s (boundField (handleState.h s))).
  { subst s1. unfold boundField, emit, attrSep.
    destruct (0 <? len (preformattedAttrs (handleState.h s)))%nat.
    - cbn [handleState.h handleState.buf handleState.sep setBuf setSep map
             renderField emitFields].
      rewrite Hj. destruct s. cbn in *. subst.
      unfold buffer.WriteString, buffer.Write.
      now rewrite <- !app_assoc, app_nil_r.
    - cbn [map emitFields]. destruct s. cbn. now rewrite app_nil_r. }
  assert (Hh1 : handleState.h s1 = handleState.h s) by (rewrite H1; reflexivity).
  assert (Hc1 : handleState.color s1 = handleState.color s) by (rewrite H1; reflexivity).
  assert (Hp1 : handleState.prefix s1 = []) by (rewrite H1; exact Hp).
  assert (Hs1 : textState s1) by (rewrite H1; exact Hs).
  clearbody s1.
  destruct (0 <? NumAttrs r)%nat.
  - unfold openGroups.
    rewrite openGroups_prefix;
      [| cbn [handleState.h setPrefix]; rewrite Hh1; exact Hj
       | cbn [handleState.groups setPrefix]; apply Hs1].
    cbn [handleState.prefix handleState.h setPrefix]. rewrite Hp1, Hh1.
    unfold buffer.WriteString. cbn [app].
    fold (pendingPrefix (handleState.h s)).
    set (P := pendingPrefix (handleState.h s)).
    rewrite appendAttrs_text by exact Hs1.
    cbn [handleState.h handleState.color handleState.prefix setPrefix].
    rewrite Hh1, Hc1.
    destruct (attrsFields lib (handleState.h s) (handleState.color s) fuel P (attrs r))
      as [fs | msg |]; cbn [bind]; try reflexivity.
    match goal with
    | |- (if json (handleState.h ?x) then _ else _) = _ =>
        change (handleState.h x) with (handleState.h s1)
    end.
    rewrite Hh1, Hj.
    f_equal. rewrite H1. unfold emit.
    cbn [handleState.h handleState.buf setPrefix setBuf].
    rewrite map_app, emitFields_app, <- app_assoc.
    destruct (map (renderField (handleState.h s)) (boundField (handleState.h s)));
      reflexivity.
  - cbn [bind]. rewrite Hh1, Hj, app_nil_r. now rewrite H1.
Qed.

Lemma field_emit :
  forall (lib : GoLib) (s : handleState.t) (k v : bytes),
    textState s ->
    appendString lib (appendKey lib s k) v
    = emit s [KeyValue
                (textString lib (handleState.h s) (handleState.color s)
                   (handleState.prefix s ++ k))
                (textString lib (handleState.h s) (handleState.color s) v)].
Proof.
  intros lib s k v (Hj & _ & Hsep & _). rewrite field_text by exact Hj.
  unfold emit. cbn [map emitFields]. rewrite <- Hsep, app_nil_r.
  destruct s; reflexivity.
Qed.

(** What [Handle] writes in a text mode (no replace function): the fields
    of the record joined by the separator of the handler and followed by
    a newline. [Handle] selects the color of the level before it writes the
    key of the level, so the key is rendered under that color as the value
    is. *)
Lemma Handle_lineFields :
  forall (lib : GoLib) (fuel : nat) (h : Handler) (r : Record_),
    json h = false ->
    ReplaceAttr (opts h) = None ->
    Handle lib fuel h r
    = do fs <- lineFields lib h (GetColor (color h) (Level r)) fuel r;
      Ok (textLine h fs, Write (w h) (textLine h fs)).
Proof.
  intros lib fuel h r Hj Hrep.
  unfold Handle, lineFields, newHandleState. rewrite Hj, Hrep.
  set (s0 := setGroups _ None).
  set (c := GetColor (color h) (Level r)).
  set (timeE := if negb (time.IsZero (Time r))
                then do x <- textTime lib h (time.Round0 (Time r));
                     Ok [KeyValue (textString lib h noColor TimeKey) x]
                else Ok []).
  assert (H1 : (if negb (time.IsZero (Time r))
                then appendTime lib (appendKey lib s0 TimeKey) (time.Round0 (Time r))
                else Ok s0)
               = do timeF <- timeE;
                 Ok (setSep
                       (setBuf s0 (emitFields [] (sep h) (map (renderField h) timeF)))
                       (match timeF with [] => [] | _ => sep h end))).
  { subst timeE. destruct (time.IsZero (Time r)); cbn [negb]; [reflexivity |].
    rewrite appendKey_text by exact Hj. rewrite appendTime_text by exact Hj.
    cbn [handleState.h handleState.buf handleState.sep handleState.prefix
           handleState.color setGroups setSep setBuf s0 app].
    destruct (textTime lib h (time.Round0 (Time r))); cbn [bind]; try reflexivity.
    cbn [map emitFields renderField app]. unfold buffer.New.
    destruct (pretty h); cbn [app]; rewrite ?app_nil_r, <- ?app_assoc; reflexivity. }
  rewrite H1. clear H1.
  destruct timeE as [timeF | msg |]; cbn [bind]; try reflexivity.
  match goal with
  | |- context [setColor ?st c] => set (s1 := st)
  end.
  assert (Hh1 : handleState.h s1 = h) by reflexivity.
  assert (Hp1 : handleState.prefix s1 = []) by reflexivity.
  assert (Hg1 : handleState.groups s1 = None) by reflexivity.
  assert (Hb1 : handleState.buf s1 ++ handleState.sep s1
                = emitFields [] (sep h) (map (renderField h) timeF)
                    ++ match timeF with [] => [] | _ => sep h end) by reflexivity.
  clearbody s1. clear s0.
  rewrite (field_text lib (setColor s1 c) LevelKey)
    by (cbn [handleState.h setColor]; rewrite Hh1; exact Hj).
  cbn [handleState.h handleState.buf handleState.sep handleState.prefix
         handleState.color setColor app].
  rewrite Hh1, Hp1. cbn [app].
  match goal with
  | |- context [resetColor ?st] => set (s2 := resetColor st)
  end.
  set (levelF := KeyValue (textString lib h c LevelKey)
                   (textString lib h c (GetLevelName (Level r)))) in *.
  cbn [handleState.groups].
  assert (Hh2 : handleState.h s2 = h) by exact Hh1.
  assert (Hc2 : handleState.color s2 = noColor) by reflexivity.
  assert (Hp2 : handleState.prefix s2 = []) by exact Hp1.
  assert (Hs2 : textState s2).
  { unfold textState. subst s2.
    cbn [handleState.h handleState.sep handleState.groups resetColor setColor
           setSep setBuf].
    rewrite Hh1. repeat split; assumption. }
  assert (Hb2 : handleState.buf s2
                = emitFields [] (sep h) (map (renderField h) (timeF ++ [levelF]))).
  { subst s2.
    cbn [handleState.buf resetColor setColor setSep setBuf].
    rewrite app_assoc, Hb1, map_app, emitFields_app.
    cbn [map emitFields]. rewrite app_nil_r, <- app_assoc.
    destruct timeF; reflexivity. }
  clearbody s2. clear Hb1 Hg1 Hp1 Hh1 s1.
  set (srcE := if AddSource (opts h)
               then attrFields lib h noColor fuel []
                      (MkAttr SourceKey (KindAny (AnySource (Some (rSource lib r)))))
               else Ok []).
  assert (H3 : (if AddSource (opts h)
                then appendAttr lib fuel s2
                       (MkAttr SourceKey (KindAny (AnySource (Some (rSource lib r)))))
                else Ok s2)
               = do srcF <- srcE; Ok (emit s2 srcF)).
  { subst srcE. destruct (AddSource (opts h)).
    - rewrite appendAttr_text by exact Hs2. now rewrite Hh2, Hc2, Hp2.
    - cbn [bind]. now rewrite emit_nil. }
  rewrite H3. clear H3.
  destruct srcE as [srcF | msg |]; cbn [bind]; try reflexivity.
  rewrite field_emit by (apply emit_textState; exact Hs2).
  rewrite emit_app.
  cbn [handleState.h handleState.color handleState.prefix emit setBuf].
  rewrite Hh2, Hc2, Hp2. cbn [app].
  set (msgF := KeyValue (textString lib h noColor MessageKey)
                 (textString lib h noColor (Message r))).
  rewrite appendNonBuiltIns_text;
    [| destruct Hs2 as (A1 & A2 & A3 & A4); repeat split; assumption
     | exact Hp2].
  change (handleState.h (setGroups (emit s2 (srcF ++ [msgF])) None))
    with (handleState.h s2).
  change (handleState.color (setGroups (emit s2 (srcF ++ [msgF])) None))
    with (handleState.color s2).
  rewrite Hh2, Hc2.
  set (attrE := if (0 <? NumAttrs r)%nat
                then attrsFields lib h noColor fuel (pendingPrefix h) (attrs r)
                else Ok []).
  destruct attrE as [attrFs | msg |]; cbn [bind]; try reflexivity.
  assert (Hline : forall st : handleState.t,
             handleState.h st = h ->
             handleState.buf st = handleState.buf (emit s2 (srcF ++ [msgF])) ->
             buffer.WriteByte (handleState.buf (emit st (boundField h ++ attrFs)))
               newline
             = textLine h (timeF ++ levelF :: srcF ++ msgF :: boundField h ++ attrFs)).
  { intros st Hst Hbuf. unfold textLine, buffer.WriteByte, emit.
    cbn [handleState.buf setBuf]. rewrite Hbuf. unfold emit.
    cbn [handleState.buf setBuf]. rewrite Hst, Hh2, Hb2.
    rewrite <- emitFields_join. f_equal.
    replace (timeF ++ levelF :: srcF ++ msgF :: boundField h ++ attrFs)
      with ((timeF ++ [levelF]) ++ (srcF ++ [msgF]) ++ (boundField h ++ attrFs))
      by (rewrite <- !app_assoc; reflexivity).
    rewrite !map_app, !emitFields_app, <- !app_assoc.
    destruct timeF, srcF; reflexivity. }
  cbn [handleState.buf setBuf].
  rewrite Hline; [reflexivity | |]; destruct (0 <? NumAttrs r)%nat; reflexivity || exact Hh2.
Qed.

(** The key of a field does not show in the pretty text, and a color
    does not show when the colors of the library are off. *)
Lemma lineFields_key :
  forall (lib : GoLib) (h : Handler) (kc : Z) (fuel : nat) (r : Record_),
    pretty h = true \/ NoColor lib = true ->
    (do fs <- lineFields lib h kc fuel r;
     Ok (textLine h fs, Write (w h) (textLine h fs)))
    = do fs <- recordFields lib h fuel r;
      Ok (textLine h fs, Write (w h) (textLine h fs)).
Proof.
  intros lib h kc fuel r Hc. unfold recordFields, lineFields.
  destruct (if negb (time.IsZero (Time r))
            then do x <- textTime lib h (time.Round0 (Time r));
                 Ok [KeyValue (textString lib h noColor TimeKey) x]
            else Ok []) as [timeF | msg |]; cbn [bind]; try reflexivity.
  destruct (if AddSource (opts h)
            then attrFields lib h noColor fuel []
                   (MkAttr SourceKey (KindAny (AnySource (Some (rSource lib r)))))
            else Ok []) as [srcF | msg |]; cbn [bind]; try reflexivity.
  destruct (if (0 <? NumAttrs r)%nat
            then attrsFields lib h noColor fuel (pendingPrefix h) (attrs r)
            else Ok []) as [attrFs | msg |]; cbn [bind]; try reflexivity.
  assert (E : forall v : bytes,
             renderField h (KeyValue (textString lib h kc LevelKey) v)
             = renderField h (KeyValue (textString lib h noColor LevelKey) v)).
  { intros v. cbn [renderField]. destruct Hc as [Hp | Hn].
    - now rewrite Hp.
    - destruct (pretty h); [reflexivity |]. f_equal.
      unfold textString, colorFprint. rewrite Hn.
      destruct (needsQuoting (printTable lib) LevelKey && safe h); [reflexivity |].
      destruct (noColor <? kc); destruct (noColor <? noColor); reflexivity. }
  unfold textLine. rewrite !map_app. cbn [map]. rewrite E. reflexivity.
Qed.

(** C3, amended: for every record, in a text mode (no replace function),
    the line is the fields of the record joined by the separator of the
    handler and followed by a newline: the time unless it is zero, the
    level, the source if it is captured, the message, the bytes of the
    attributes bound earlier, and one field for each attribute of the
    record that is not a group, under the dotted names of the groups
    around it. The delimited text renders a field as its key, an equals
    sign and its value; the pretty text renders the value only, so there
    the color of the level wraps the value of the level and nothing else.
    The delimited text is covered with the colors of the library off; how
    it is colored when they are on is left out. *)
Theorem text_line_shape :
  forall (lib : GoLib) (fuel : nat) (h : Handler) (r : Record_),
    json h = false ->
    ReplaceAttr (opts h) = None ->
    pretty h = true \/ NoColor lib = true ->
    Handle lib fuel h r
    = do fs <- recordFields lib h fuel r;
      Ok (textLine h fs, Write (w h) (textLine h fs)).
Proof.
  intros lib fuel h r Hj Hrep Hc.
  rewrite Handle_lineFields by assumption.
  apply lineFields_key. exact Hc.
Qed.

Lemma text_line_shape_witness :
  Handle sampleLib 1 (NewPrettyHandler discard 0 None) startedRecord
  = Ok ((x1b :: B "[92mINFO") ++ (x1b :: B "[0m")
          ++ B " | Service started successfully | PaymentService" ++ [newline],
        None)
  /\ Handle plainLib 1 (NewStructHandler discard 0 None) startedRecord
     = Ok (keyValueLine StructSep
             [(B "level", B "INFO");
              (B "msg", quoted (B "Service started successfully"));
              (B "module", B "PaymentService")],
           None).
Proof.
  split.
  - exact (text_line_shape sampleLib 1 (NewPrettyHandler discard 0 None)
             startedRecord eq_refl eq_refl (or_introl eq_refl)).
  - exact (text_line_shape plainLib 1 (NewStructHandler discard 0 None)
             startedRecord eq_refl eq_refl (or_intror eq_refl)).
Defined.

(** With the colors of the library on, the handler of [NewStructHandler],
    which has no color map, writes the key of the level inside the
    sequence of the fallback color, and the value of the level too. The
    constructor is announced as the analog of slog.NewTextHandler, which
    writes neither sequence; the statement above does not cover this
    line. *)
Lemma struct_line_colors_the_level_key :
  Handle sampleLib 1 (NewStructHandler discard 0 None) startedRecord
  = Ok (colorFprint sampleLib 37 (B "level") ++ B "="
          ++ colorFprint sampleLib 37 (B "INFO")
          ++ StructSep ++ B "msg=" ++ quoted (B "Service started successfully")
          ++ StructSep ++ B "module=PaymentService" ++ [newline],
        None).
Proof. reflexivity. Qed.

(** C3, as stated, fails: the pretty line of the scenario's record is not
    made of key, equals sign and value. *)
Lemma pretty_line_has_no_keys :
  Handle sampleLib 1 (NewPrettyHandler discard 0 None) startedRecord
  <> Ok (keyValueLine PrettySep
           [(B "level", colorFprint sampleLib FgHiGreen (B "INFO"));
            (B "msg", B "Service started successfully");
            (B "module", B "PaymentService")],
         None).
Proof. vm_compute. discriminate. Qed.

(** ** Decoding at the head of a string *)

Lemma first_spec :
  forall (x : Z) (sz : nat) (lo hi : Z),
    utf8.first x = Some (sz, lo, hi) ->
    (sz = 2 \/ sz = 3 \/ sz = 4)%nat /\ utf8.locb <= lo.
Proof.
  intros x sz lo hi. unfold utf8.first.
  repeat match goal with
         | |- context [if ?c then _ else _] => destruct c
         end;
    intros H; inversion H; subst; unfold utf8.locb; split; auto; lia.
Qed.

Lemma cont_ge : forall x, utf8.cont x = true -> utf8.RuneSelf <= x.
Proof. unfold utf8.cont, utf8.locb, utf8.RuneSelf. intros x H. lia. Qed.

Lemma decode_Decoded :
  forall (b : byte) (t : bytes),
    Decoded (b :: t) (fst (utf8.DecodeRuneInString (b :: t)))
      (snd (utf8.DecodeRuneInString (b :: t))).
Proof.
  intros b0 t0. unfold utf8.DecodeRuneInString.
  destruct (bz b0 <? utf8.RuneSelf) eqn:Ha.
  { apply DecodedASCII. lia. }
  assert (H0 : utf8.RuneSelf <= bz b0) by lia.
  destruct (utf8.first (bz b0)) as [[[sz lo] hi] |] eqn:Hf;
    [| apply DecodedError; exact H0].
  destruct (first_spec _ _ _ _ Hf) as [Hsz Hlo]. unfold utf8.locb in Hlo.
  destruct (len (b0 :: t0) <? sz)%nat eqn:Hlen; [apply DecodedError; exact H0 |].
  destruct t0 as [| b1 t1]; [apply DecodedError; exact H0 |].
  destruct ((bz b1 <? lo) || (hi <? bz b1)) eqn:H1; [apply DecodedError; exact H0 |].
  assert (G1 : utf8.RuneSelf <= bz b1) by (unfold utf8.RuneSelf; lia).
  destruct (sz <=? 2)%nat eqn:S2.
  { cbn [fst snd]. apply (DecodedMulti [b0; b1] t1).
    - cbn. lia.
    - repeat constructor; assumption.
    - intros t'. cbn [app]. unfold utf8.DecodeRuneInString.
      rewrite Ha, Hf, H1, S2.
      replace (len (b0 :: b1 :: t') <? sz)%nat with false; [reflexivity |].
      symmetry. apply Nat.ltb_ge. apply Nat.leb_le in S2. cbn. lia. }
  destruct t1 as [| b2 t2]; [apply DecodedError; exact H0 |].
  destruct (utf8.cont (bz b2)) eqn:H2; cbn [negb];
    [| apply DecodedError; exact H0].
  pose proof (cont_ge _ H2) as G2.
  destruct (sz <=? 3)%nat eqn:S3.
  { cbn [fst snd]. apply (DecodedMulti [b0; b1; b2] t2).
    - cbn. lia.
    - repeat constructor; assumption.
    - intros t'. cbn [app]. unfold utf8.DecodeRuneInString.
      rewrite Ha, Hf, H1, S2, H2, S3. cbn [negb].
      replace (len (b0 :: b1 :: b2 :: t') <? sz)%nat with false; [reflexivity |].
      symmetry. apply Nat.ltb_ge. apply Nat.leb_le in S3. cbn. lia. }
  destruct t2 as [| b3 t3]; [apply DecodedError; exact H0 |].
  destruct (utf8.cont (bz b3)) eqn:H3; cbn [negb];
    [| apply DecodedError; exact H0].
  pose proof (cont_ge _ H3) as G3.
  cbn [fst snd]. apply (DecodedMulti [b0; b1; b2; b3] t3).
  - cbn. lia.
  - repeat constructor; assumption.
  - intros t'. cbn [app]. unfold utf8.DecodeRuneInString.
    rewrite Ha, Hf, H1, S2, H2, S3, H3. cbn [negb].
    replace (len (b0 :: b1 :: b2 :: b3 :: t') <? sz)%nat with false; [reflexivity |].
    symmetry. apply Nat.ltb_ge. cbn. lia.
Qed.

Lemma Decoded_size :
  forall (s : bytes) (r : Z) (n : nat),
    Decoded s r n -> (1 <= n <= len s)%nat.
Proof.
  intros s r n H. destruct H as [b t _ | b t _ | raw t r Hlen _ _].
  - cbn. lia.
  - cbn. lia.
  - unfold len in *. rewrite length_app. lia.
Qed.

Lemma decode_size :
  forall (b : byte) (t : bytes),
    (1 <= snd (utf8.DecodeRuneInString (b :: t)) <= len (b :: t))%nat.
Proof. intros b t. exact (Decoded_size _ _ _ (decode_Decoded b t)). Qed.

Lemma decode_ASCII :
  forall (b : byte) (t : bytes),
    bz b < utf8.RuneSelf -> utf8.DecodeRuneInString (b :: t) = (bz b, 1%nat).
Proof.
  intros b t H. unfold utf8.DecodeRuneInString.
  now replace (bz b <? utf8.RuneSelf) with true by (symmetry; apply Z.ltb_lt; exact H).
Qed.

Lemma runesFrom_fuel :
  forall (n m : nat) (s : bytes),
    (len s <= n)%nat -> (len s <= m)%nat -> runesFrom n s = runesFrom m s.
Proof.
  induction n as [| n IH]; intros m s Hn Hm.
  - destruct s; [| cbn in Hn; lia]. destruct m; reflexivity.
  - destruct s as [| b t]; [destruct m; reflexivity |].
    destruct m as [| m]; [cbn in Hm; lia |].
    cbn [runesFrom].
    pose proof (decode_size b t) as Hs.
    destruct (utf8.DecodeRuneInString (b :: t)) as [r size]. cbn [snd] in Hs.
    f_equal. apply IH; unfold len in *; rewrite length_skipn;
      cbn [List.length] in *; lia.
Qed.

Lemma runes_nil : runes [] = [].
Proof. reflexivity. Qed.

Lemma runes_cons :
  forall (b : byte) (t : bytes),
    runes (b :: t)
    = (fst (utf8.DecodeRuneInString (b :: t)),
       firstn (snd (utf8.DecodeRuneInString (b :: t))) (b :: t))
        :: runes (skipn (snd (utf8.DecodeRuneInString (b :: t))) (b :: t)).
Proof.
  intros b t. unfold runes at 1. cbn [len List.length runesFrom].
  pose proof (decode_size b t) as Hs.
  destruct (utf8.DecodeRuneInString (b :: t)) as [r size]. cbn [fst snd] in *.
  f_equal. unfold runes. apply runesFrom_fuel;
    unfold len in *; rewrite ?length_skipn; cbn [List.length] in *; lia.
Qed.

(** The bytes of the runes, put together again, are the string. *)
Lemma runes_bytes :
  forall s : bytes, List.concat (map snd (runes s)) = s.
Proof.
  intros s. remember (len s) as n eqn:Hn. revert s Hn.
  induction n as [n IH] using lt_wf_ind. intros s Hn.
  destruct s as [| b t]; [reflexivity |].
  rewrite runes_cons. cbn [map List.concat snd].
  pose proof (decode_size b t) as Hs.
  rewrite (IH (len (skipn (snd (utf8.DecodeRuneInString (b :: t))) (b :: t)))).
  - apply firstn_skipn.
  - subst n. unfold len in *. rewrite length_skipn. cbn [List.length] in *. lia.
  - reflexivity.
Qed.

Lemma skipn_index :
  forall (s : bytes) (i : nat),
    (i < len s)%nat -> skipn i s = index s i :: skipn (S i) s.
Proof.
  induction s as [| b s IH]; intros i Hi; [cbn in Hi; lia |].
  destruct i as [| i]; [reflexivity |].
  cbn [skipn index nth]. apply IH. cbn in Hi. unfold len. lia.
Qed.

(** ** When a string needs quoting *)

Lemma quotedASCII_spec :
  forall b : byte,
    (bz b <? utf8.RuneSelf) = true ->
    negb (Byte.eqb b backslash)
      && (Byte.eqb b x20 || Byte.eqb b x3d || negb (safeSet b))
    = quotedASCII b.
Proof. intros b. destruct b; intros H; try reflexivity; discriminate H. Qed.

Lemma needsQuotingLoop_runes :
  forall (tbl : Z -> bool) (fuel : nat) (s : bytes) (i : nat),
    (i <= len s)%nat -> (len s - i < fuel)%nat ->
    needsQuotingLoop tbl fuel s i = existsb (quotedPosition tbl) (runes (skipn i s)).
Proof.
  intros tbl fuel. induction fuel as [| fuel IH]; intros s i Hi Hf; [lia |].
  cbn [needsQuotingLoop].
  destruct (i <? len s)%nat eqn:Hlt.
  - apply Nat.ltb_lt in Hlt. unfold sliceFrom.
    rewrite (skipn_index s i Hlt). set (b := index s i). set (t := skipn (S i) s).
    rewrite runes_cons. cbn [existsb].
    destruct (bz b <? utf8.RuneSelf) eqn:Ha.
    + rewrite decode_ASCII by lia. cbn [fst snd firstn skipn].
      unfold quotedPosition at 1. cbn [snd fst]. rewrite Ha.
      rewrite quotedASCII_spec by exact Ha.
      destruct (quotedASCII b); [reflexivity |]. cbn [orb].
      rewrite IH by lia. subst t. now rewrite Nat.add_1_r.
    + pose proof (decode_size b t) as Hs.
      destruct (utf8.DecodeRuneInString (b :: t)) as [r size] eqn:Hd.
      cbn [fst snd] in *.
      unfold quotedPosition at 1. cbn [snd fst].
      destruct size as [| size]; [lia |]. cbn [firstn]. rewrite Ha.
      fold (quotedRune tbl r).
      destruct (quotedRune tbl r); [reflexivity |]. cbn [orb].
      assert (Hskip : skipn (S size) (b :: t) = skipn (i + S size) s).
      { change (skipn (S size) (b :: t)) with (skipn size t).
        subst t. rewrite skipn_skipn. f_equal. lia. }
      assert (Hl : len (b :: t) = (len s - i)%nat).
      { subst b t. rewrite <- (skipn_index s i Hlt). unfold len. apply length_skipn. }
      rewrite Hskip. apply IH; lia.
  - apply Nat.ltb_ge in Hlt. rewrite skipn_all2 by exact Hlt. reflexivity.
Qed.

Lemma needsQuoting_runes :
  forall (tbl : Z -> bool) (s : bytes),
    needsQuoting tbl s = isEmptyString s || existsb (quotedPosition tbl) (runes s).
Proof.
  intros tbl s. unfold needsQuoting. destruct s as [| b t]; [reflexivity |].
  cbn [len List.length Nat.eqb isEmptyString orb].
  rewrite needsQuotingLoop_runes; cbn; try lia. reflexivity.
Qed.

(** C5, as stated, fails in both directions: a string made of a double
    quote needs quoting although none of the listed conditions holds, and
    a string made of DEL (0x7f), an ASCII control byte that is not
    printable, does not. *)
Lemma needsQuoting_is_not_the_stated_rule :
  (needsQuoting (printTable sampleLib) [dquote] = true
   /\ specNeedsQuoting (printTable sampleLib) [dquote] = false)
  /\ (needsQuoting (printTable sampleLib) [x7f] = false
      /\ specNeedsQuoting (printTable sampleLib) [x7f] = true).
Proof. repeat split; reflexivity. Qed.

(** C5, amended: [needsQuoting] returns true exactly when the string is
    empty or its left-to-right scan meets a position that asks for
    quoting: an ASCII byte that is a space, an equals sign, a double
    quote or a control character below 0x20 (the backslash and DEL do not
    count), or a byte sequence above ASCII that decodes to U+FFFD (an
    invalid sequence, or the encoded replacement character itself), to a
    space, or to a character that is not printable. *)
Theorem needsQuoting_iff :
  forall (tbl : Z -> bool) (s : bytes),
    needsQuoting tbl s = true
    <-> s = []
        \/ exists (r : Z) (raw : bytes),
             In (r, raw) (runes s) /\ quotedPosition tbl (r, raw) = true.
Proof.
  intros tbl s. rewrite needsQuoting_runes. rewrite orb_true_iff, existsb_exists.
  split.
  - intros [He | [[r raw] [Hin Hq]]].
    + left. destruct s; [reflexivity | discriminate He].
    + right. exists r, raw. split; assumption.
  - intros [-> | [r [raw [Hin Hq]]]].
    + left. reflexivity.
    + right. exists (r, raw). split; assumption.
Qed.

(** ** The decoder and the well-formed sequences *)

Lemma land_disjoint :
  forall hi lo k : Z,
    0 <= k -> 0 <= lo < 2 ^ k -> Z.land (Z.shiftl hi k) lo = 0.
Proof.
  intros hi lo k Hk Hlo. apply Z.bits_inj'. intros n Hn.
  rewrite Z.land_spec, Z.bits_0.
  destruct (Z.lt_ge_cases n k) as [Hlt | Hge].
  - rewrite Z.shiftl_spec_low by lia. reflexivity.
  - replace (Z.testbit lo n) with false; [apply andb_false_r |].
    symmetry. destruct (Z.eq_dec lo 0) as [-> | Hnz]; [apply Z.bits_0 |].
    apply Z.bits_above_log2; [lia |].
    apply Z.log2_lt_pow2; [lia |].
    apply Z.lt_le_trans with (2 ^ k); [lia |].
    apply Z.pow_le_mono_r; lia.
Qed.

Lemma lor_shiftl :
  forall hi lo k : Z,
    0 <= k -> 0 <= lo < 2 ^ k -> Z.lor (Z.shiftl hi k) lo = hi * 2 ^ k + lo.
Proof.
  intros hi lo k Hk Hlo.
  pose proof (Z.add_lor_land (Z.shiftl hi k) lo) as H.
  rewrite (land_disjoint hi lo k Hk Hlo), Z.add_0_r in H.
  rewrite H. now rewrite Z.shiftl_mul_pow2 by lia.
Qed.

Lemma land_cont :
  forall b : byte, utf8.cont (bz b) = true -> Z.land (bz b) 0x3F = bz b - 0x80.
Proof. intros b. destruct b; intros H; try reflexivity; discriminate H. Qed.

Lemma cont_range :
  forall x : Z, utf8.cont x = true <-> 0x80 <= x <= 0xBF.
Proof. intros x. unfold utf8.cont, utf8.locb, utf8.hicb. lia. Qed.

Lemma first_cases :
  forall (b : byte) (sz : nat) (lo hi : Z),
    utf8.first (bz b) = Some (sz, lo, hi) ->
    (sz = 2%nat /\ 0xC2 <= bz b <= 0xDF /\ lo = 0x80 /\ hi = 0xBF
     /\ Z.land (bz b) 0x1F = bz b - 0xC0)
    \/ (sz = 3%nat /\ 0xE0 <= bz b <= 0xEF
        /\ lo = (if bz b =? 0xE0 then 0xA0 else 0x80)
        /\ hi = (if bz b =? 0xED then 0x9F else 0xBF)
        /\ Z.land (bz b) 0x0F = bz b - 0xE0)
    \/ (sz = 4%nat /\ 0xF0 <= bz b <= 0xF4
        /\ lo = (if bz b =? 0xF0 then 0x90 else 0x80)
        /\ hi = (if bz b =? 0xF4 then 0x8F else 0xBF)
        /\ Z.land (bz b) 0x07 = bz b - 0xF0).
Proof.
  intros b sz lo hi.
  destruct b; intros H; try discriminate H;
    injection H as <- <- <-; vm_compute;
    first [ left; repeat split; solve [reflexivity | intros K; discriminate K]
          | right; left; repeat split; solve [reflexivity | intros K; discriminate K]
          | right; right; repeat split; solve [reflexivity | intros K; discriminate K] ].
Qed.

Lemma rune2 :
  forall a b : Z, 0 <= b < 64 -> Z.lor (Z.shiftl a 6) b = a * 64 + b.
Proof. intros a b Hb. rewrite lor_shiftl by (change (2 ^ 6) with 64; lia). reflexivity. Qed.

Lemma rune3 :
  forall a b c : Z,
    0 <= b < 64 -> 0 <= c < 64 ->
    Z.lor (Z.lor (Z.shiftl a 12) (Z.shiftl b 6)) c = a * 4096 + b * 64 + c.
Proof.
  intros a b c Hb Hc.
  replace (Z.lor (Z.shiftl a 12) (Z.shiftl b 6)) with (Z.shiftl (a * 64 + b) 6).
  - rewrite rune2 by exact Hc. lia.
  - rewrite (lor_shiftl a (Z.shiftl b 6) 12).
    + rewrite !Z.shiftl_mul_pow2 by lia. change (2 ^ 6) with 64. change (2 ^ 12) with 4096. lia.
    + lia.
    + rewrite Z.shiftl_mul_pow2 by lia. change (2 ^ 6) with 64. change (2 ^ 12) with 4096. lia.
Qed.

Lemma rune4 :
  forall a b c d : Z,
    0 <= b < 64 -> 0 <= c < 64 -> 0 <= d < 64 ->
    Z.lor (Z.lor (Z.lor (Z.shiftl a 18) (Z.shiftl b 12)) (Z.shiftl c 6)) d
    = a * 262144 + b * 4096 + c * 64 + d.
Proof.
  intros a b c d Hb Hc Hd.
  replace (Z.lor (Z.lor (Z.shiftl a 18) (Z.shiftl b 12)) (Z.shiftl c 6))
    with (Z.shiftl (a * 4096 + b * 64 + c) 6).
  - rewrite rune2 by exact Hd. lia.
  - replace (Z.lor (Z.shiftl a 18) (Z.shiftl b 12)) with (Z.shiftl (a * 64 + b) 12).
    + rewrite (lor_shiftl (a * 64 + b) (Z.shiftl c 6) 12).
      * rewrite !Z.shiftl_mul_pow2 by lia.
        change (2 ^ 6) with 64. change (2 ^ 12) with 4096. lia.
      * lia.
      * rewrite Z.shiftl_mul_pow2 by lia.
        change (2 ^ 6) with 64. change (2 ^ 12) with 4096. lia.
    + rewrite (lor_shiftl a (Z.shiftl b 12) 18).
      * rewrite !Z.shiftl_mul_pow2 by lia.
        change (2 ^ 12) with 4096. change (2 ^ 18) with 262144. lia.
      * lia.
      * rewrite Z.shiftl_mul_pow2 by lia.
        change (2 ^ 12) with 4096. change (2 ^ 18) with 262144. lia.
Qed.

(** The decoder accepts exactly the well-formed sequences, and returns
    the code point they stand for. *)
Lemma decode_Multi :
  forall (raw : bytes) (r : Z),
    (2 <= len raw)%nat ->
    utf8.DecodeRuneInString raw = (r, len raw) ->
    Multi raw r.
Proof.
  intros raw r Hlen H.
  destruct raw as [| b0 [| b1 rest]]; cbn in Hlen; try lia. clear Hlen.
  unfold utf8.DecodeRuneInString in H.
  destruct (bz b0 <? utf8.RuneSelf); [discriminate H |].
  destruct (utf8.first (bz b0)) as [[[sz lo] hi] |] eqn:Hf; [| discriminate H].
  destruct (first_cases _ _ _ _ Hf)
    as [(-> & R0 & -> & -> & L0) | [(-> & R0 & -> & -> & L0) | (-> & R0 & -> & -> & L0)]].
  - (* two bytes *)
    cbn [len List.length Nat.ltb Nat.leb] in H.
    destruct ((bz b1 <? 128) || (191 <? bz b1)) eqn:C1; [discriminate H |].
    cbn [Nat.leb] in H. pose proof (f_equal fst H) as Hr; pose proof (f_equal snd H) as Hn;
      cbn [fst snd] in Hr, Hn; clear H.
    destruct rest; [| discriminate Hn].
    assert (K1 : utf8.cont (bz b1) = true) by (apply cont_range; lia).
    rewrite L0, (land_cont b1 K1), rune2 in Hr by lia. subst r.
    apply Multi2; lia.
  - (* three bytes *)
    cbn [len List.length Nat.ltb Nat.leb] in H.
    destruct rest as [| b2 rest]; [cbn in H; discriminate H |].
    cbn [len List.length Nat.ltb Nat.leb] in H.
    match type of H with
    | (if ?c then _ else _) = _ => destruct c eqn:C1; [discriminate H |]
    end.
    destruct (utf8.cont (bz b2)) eqn:K2; cbn [negb] in H; [| discriminate H].
    pose proof (f_equal fst H) as Hr; pose proof (f_equal snd H) as Hn;
      cbn [fst snd] in Hr, Hn; clear H. destruct rest; [| discriminate Hn].
    assert (K1 : utf8.cont (bz b1) = true).
    { apply cont_range. destruct (bz b0 =? 224); destruct (bz b0 =? 237); lia. }
    pose proof (proj1 (cont_range _) K1). pose proof (proj1 (cont_range _) K2).
    rewrite L0, (land_cont b1 K1), (land_cont b2 K2), rune3 in Hr by lia. subst r.
    apply Multi3; try lia.
    + intros E. rewrite E in C1. cbn in C1. lia.
    + intros E. rewrite E in C1. cbn in C1. lia.
  - (* four bytes *)
    cbn [len List.length Nat.ltb Nat.leb] in H.
    destruct rest as [| b2 rest]; [cbn in H; discriminate H |].
    destruct rest as [| b3 rest];
      [cbn [len List.length Nat.ltb Nat.leb] in H; discriminate H |].
    cbn [len List.length Nat.ltb Nat.leb] in H.
    match type of H with
    | (if ?c then _ else _) = _ => destruct c eqn:C1; [discriminate H |]
    end.
    destruct (utf8.cont (bz b2)) eqn:K2; cbn [negb] in H; [| discriminate H].
    destruct (utf8.cont (bz b3)) eqn:K3; cbn [negb] in H; [| discriminate H].
    pose proof (f_equal fst H) as Hr; pose proof (f_equal snd H) as Hn;
      cbn [fst snd] in Hr, Hn; clear H. destruct rest; [| discriminate Hn].
    assert (K1 : utf8.cont (bz b1) = true).
    { apply cont_range. destruct (bz b0 =? 240); destruct (bz b0 =? 244); lia. }
    pose proof (proj1 (cont_range _) K1). pose proof (proj1 (cont_range _) K2).
    pose proof (proj1 (cont_range _) K3).
    rewrite L0, (land_cont b1 K1), (land_cont b2 K2), (land_cont b3 K3), rune4 in Hr
      by lia.
    subst r. apply Multi4; try lia.
    + intros E. rewrite E in C1. cbn in C1. lia.
    + intros E. rewrite E in C1. cbn in C1. lia.
Qed.

(** ** The JSON escaping, rune by rune *)

Lemma escapeASCII_app :
  forall (buf : bytes) (b : byte),
    escapeASCII buf b = buf ++ escapeASCII [] b.
Proof.
  intros buf b. unfold escapeASCII.
  repeat match goal with
         | |- context [if ?c then _ else _] => destruct c
         end; rewrite <- ?app_assoc; reflexivity.
Qed.

Lemma flush_slice :
  forall (buf s : bytes) (start i : nat),
    flush buf s start i = buf ++ slice s start i.
Proof.
  intros buf s start i. unfold flush, slice.
  destruct (start <? i)%nat eqn:H; [reflexivity |].
  apply Nat.ltb_ge in H. replace (i - start)%nat with 0%nat by lia.
  cbn. now rewrite app_nil_r.
Qed.

Lemma firstn_app_skipn :
  forall (A : Type) (m n : nat) (l : list A),
    firstn m l ++ firstn n (skipn m l) = firstn (m + n) l.
Proof.
  intros A m. induction m as [| m IH]; intros n l; [reflexivity |].
  destruct l as [| a l]; [now rewrite !firstn_nil |].
  cbn [firstn skipn Nat.add app]. now rewrite IH.
Qed.

Lemma slice_extend :
  forall (s : bytes) (start i n : nat),
    (start <= i)%nat ->
    slice s start i ++ firstn n (skipn i s) = slice s start (i + n).
Proof.
  intros s start i n H. unfold slice.
  replace (skipn i s) with (skipn (i - start) (skipn start s))
    by (rewrite skipn_skipn; f_equal; lia).
  rewrite firstn_app_skipn. f_equal. lia.
Qed.

Lemma escapeLoop_runes :
  forall (fuel : nat) (s buf : bytes) (start i : nat),
    (start <= i <= len s)%nat -> (len s - i < fuel)%nat ->
    escapeLoop fuel s buf start i
    = buf ++ slice s start i ++ flat_map escapeRune (runes (skipn i s)).
Proof.
  induction fuel as [| fuel IH]; intros s buf start i Hi Hf; [lia |].
  cbn [escapeLoop].
  destruct (i <? len s)%nat eqn:Hlt.
  - apply Nat.ltb_lt in Hlt. unfold sliceFrom.
    assert (Hl : len (skipn i s) = (len s - i)%nat) by (unfold len; apply length_skipn).
    rewrite (skipn_index s i Hlt) in *. set (b := index s i) in *.
    set (t := skipn (S i) s) in *.
    rewrite runes_cons. cbn [flat_map].
    assert (Hone : slice s start (i + 1) = slice s start i ++ [b]).
    { rewrite <- slice_extend by lia. rewrite (skipn_index s i Hlt). reflexivity. }
    destruct (bz b <? utf8.RuneSelf) eqn:Ha.
    + rewrite decode_ASCII by lia. cbn [fst snd firstn skipn].
      unfold escapeRune at 1. cbn [snd fst]. rewrite Ha.
      destruct (safeSet b).
      * rewrite IH by lia. rewrite Hone, Nat.add_1_r, <- !app_assoc. reflexivity.
      * rewrite IH by lia. rewrite flush_slice.
        rewrite (escapeASCII_app (_ ++ [backslash])), (escapeASCII_app [backslash]).
        unfold slice at 2. rewrite Nat.sub_diag. cbn [firstn app].
        rewrite Nat.add_1_r, <- !app_assoc. reflexivity.
    + pose proof (decode_size b t) as Hs.
      destruct (utf8.DecodeRuneInString (b :: t)) as [c size] eqn:Hd.
      cbn [fst snd] in *.
      assert (Hskip : skipn size (b :: t) = skipn (i + size) s).
      { subst b t. rewrite <- (skipn_index s i Hlt). rewrite skipn_skipn.
        f_equal. lia. }
      assert (Hraw : len (firstn size (b :: t)) = size).
      { unfold len in *. rewrite length_firstn. lia. }
      unfold escapeRune at 1. cbn [snd fst]. rewrite Hraw.
      destruct size as [| size]; [lia |]. cbn [firstn]. rewrite Ha.
      change (b :: firstn size t) with (firstn (S size) (b :: t)).
      rewrite Hskip.
      destruct ((c =? utf8.RuneError) && (S size =? 1)%nat).
      * rewrite IH by lia. rewrite flush_slice.
        unfold slice at 2. rewrite Nat.sub_diag. cbn [firstn app].
        rewrite <- !app_assoc. reflexivity.
      * destruct ((c =? 8232) || (c =? 8233)).
        -- rewrite IH by lia. rewrite flush_slice.
           unfold slice at 2. rewrite Nat.sub_diag. cbn [firstn app].
           rewrite <- !app_assoc. reflexivity.
        -- rewrite IH by lia.
           rewrite <- (slice_extend s start i (S size)) by lia.
           subst b t. rewrite <- (skipn_index s i Hlt).
           rewrite <- !app_assoc. reflexivity.
  - apply Nat.ltb_ge in Hlt. assert (i = len s) as -> by lia.
    rewrite skipn_all2 by (unfold len; lia). cbn [runes flat_map].
    rewrite app_nil_r. unfold slice, sliceFrom.
    destruct (start <? len s)%nat eqn:Hst.
    + rewrite firstn_all2; [reflexivity |].
      rewrite length_skipn. unfold len. lia.
    + apply Nat.ltb_ge in Hst. rewrite skipn_all2 by (unfold len in *; lia).
      rewrite firstn_nil. now rewrite app_nil_r.
Qed.

(** [appendEscapedJSONString] appends to the buffer the escapes of the
    runes of the string, in order. *)
Theorem appendEscapedJSONString_runes :
  forall buf s : bytes,
    appendEscapedJSONString buf s = buf ++ flat_map escapeRune (runes s).
Proof.
  intros buf s. unfold appendEscapedJSONString.
  rewrite escapeLoop_runes by lia.
  unfold slice. cbn [Nat.sub firstn skipn app]. reflexivity.
Qed.

(** ** Escaping and unescaping, back and forth *)

Lemma runes_chunks : forall s : bytes, Forall chunk (runes s).
Proof.
  intros s. remember (len s) as n eqn:Hn. revert s Hn.
  induction n as [n IH] using lt_wf_ind. intros s Hn.
  destruct s as [| b t]; [constructor |].
  rewrite runes_cons.
  pose proof (decode_size b t) as Hs. pose proof (decode_Decoded b t) as Hd.
  constructor.
  - exists (skipn (snd (utf8.DecodeRuneInString (b :: t))) (b :: t)).
    cbn [fst snd]. rewrite firstn_skipn.
    replace (len (firstn _ (b :: t))) with (snd (utf8.DecodeRuneInString (b :: t)));
      [exact Hd |].
    unfold len in *. rewrite length_firstn. lia.
  - apply (IH (len (skipn (snd (utf8.DecodeRuneInString (b :: t))) (b :: t)))).
    + subst n. unfold len in *. rewrite length_skipn. cbn [List.length] in *. lia.
    + reflexivity.
Qed.

Lemma app_same_length :
  forall (A : Type) (a b x y : list A),
    List.length a = List.length b -> a ++ x = b ++ y -> a = b.
Proof.
  intros A a. induction a as [| h a IH]; intros b x y Hl He.
  - destruct b; [reflexivity | discriminate Hl].
  - destruct b as [| h' b]; [discriminate Hl |].
    cbn in Hl, He. injection He as -> He. f_equal.
    apply (IH b x y); [lia | assumption].
Qed.

Lemma chunk_cases :
  forall (r : Z) (raw : bytes),
    chunk (r, raw) ->
    (exists b, raw = [b] /\ bz b < utf8.RuneSelf /\ r = bz b)
    \/ (exists b, raw = [b] /\ utf8.RuneSelf <= bz b /\ r = utf8.RuneError)
    \/ ((2 <= len raw)%nat
        /\ Forall (fun b => utf8.RuneSelf <= bz b) raw
        /\ (forall t', utf8.DecodeRuneInString (raw ++ t') = (r, len raw))
        /\ Multi raw r).
Proof.
  intros r raw [t H]. cbn [fst snd] in H.
  inversion H as [b t0 Hb Hs Hr Hn | b t0 Hb Hs Hr Hn | raw' t0 r' Hlen Hall Hdec Hs Hr Hn].
  - left. exists b. destruct raw as [| b' [| b'' raw]]; try discriminate Hn.
    cbn in Hs. injection Hs as -> _. repeat split; [exact Hb].
  - right; left. exists b. destruct raw as [| b' [| b'' raw]]; try discriminate Hn.
    cbn in Hs. injection Hs as -> _. repeat split; [exact Hb].
  - right; right.
    assert (raw' = raw) as -> by (apply (app_same_length _ _ _ _ _ Hn Hs)).
    repeat split; try assumption.
    apply decode_Multi; [exact Hlen |].
    specialize (Hdec []). now rewrite app_nil_r in Hdec.
Qed.

Lemma unescape_ASCII :
  forall (b : byte) (rest : bytes),
    (bz b <? utf8.RuneSelf) = true ->
    jsonUnescape (escapeRune (bz b, [b]) ++ rest)
    = option_map (app [b]) (jsonUnescape rest).
Proof.
  intros b rest. destruct b; intros H; try discriminate H; reflexivity.
Qed.

Lemma high_byte :
  forall b : byte,
    utf8.RuneSelf <= bz b ->
    Byte.eqb b backslash = false /\ Byte.eqb b dquote = false
    /\ (bz b <? 0x20) = false.
Proof.
  intros b H. apply Z.leb_le in H. revert H.
  destruct b; intros H; try discriminate H; repeat split.
Qed.

Lemma unescape_raw :
  forall (raw rest : bytes),
    Forall (fun b => utf8.RuneSelf <= bz b) raw ->
    jsonUnescape (raw ++ rest) = option_map (app raw) (jsonUnescape rest).
Proof.
  intros raw rest H. induction H as [| b raw Hb _ IH].
  - cbn [app]. destruct (jsonUnescape rest); reflexivity.
  - destruct (high_byte b Hb) as (E1 & E2 & E3).
    cbn [app jsonUnescape]. rewrite E1, E2, E3. cbn [orb]. rewrite IH.
    destruct (jsonUnescape rest); reflexivity.
Qed.

Lemma bz_inj : forall a b : byte, bz a = bz b -> a = b.
Proof.
  intros a b H. unfold bz in H. apply N2Z.inj in H.
  pose proof (Byte.of_to_N a) as Ha. rewrite H, Byte.of_to_N in Ha.
  now injection Ha.
Qed.

(** The only sequences that decode to the two separators. *)
Lemma Multi_separator :
  forall (raw : bytes) (r : Z),
    Multi raw r -> r = 0x2028 \/ r = 0x2029 ->
    raw = utf8.EncodeRune r.
Proof.
  intros raw r H Hr. destruct H.
  - lia.
  - assert (E0 : b0 = xe2) by (apply bz_inj; change (bz xe2) with 226; lia).
    assert (E1 : b1 = x80) by (apply bz_inj; change (bz x80) with 128; lia).
    destruct Hr as [Hr | Hr]; rewrite Hr.
    + assert (E2 : b2 = xa8) by (apply bz_inj; change (bz xa8) with 168; lia).
      subst. reflexivity.
    + assert (E2 : b2 = xa9) by (apply bz_inj; change (bz xa9) with 169; lia).
      subst. reflexivity.
  - lia.
Qed.

Lemma unescape_chunk :
  forall (x : Z * bytes) (rest : bytes),
    chunk x ->
    jsonUnescape (escapeRune x ++ rest)
    = option_map (app (replaceInvalid x)) (jsonUnescape rest).
Proof.
  intros [r raw] rest H.
  destruct (chunk_cases r raw H)
    as [(b & -> & Hb & ->) | [(b & -> & Hb & ->) | (Hlen & Hall & Hdec & Hm)]].
  - rewrite unescape_ASCII by (apply Z.ltb_lt; exact Hb).
    unfold replaceInvalid. cbn [fst snd].
    replace (bz b =? utf8.RuneError) with false; [reflexivity |].
    symmetry. apply Z.eqb_neq. unfold utf8.RuneSelf, utf8.RuneError in *. lia.
  - unfold escapeRune, replaceInvalid. cbn [fst snd].
    replace (bz b <? utf8.RuneSelf) with false by (symmetry; apply Z.ltb_ge; exact Hb).
    reflexivity.
  - unfold escapeRune, replaceInvalid. cbn [fst snd].
    destruct raw as [| b0 raw0] eqn:Eraw; [cbn in Hlen; lia |].
    rewrite <- Eraw in *.
    replace (bz b0 <? utf8.RuneSelf) with false.
    2:{ symmetry. apply Z.ltb_ge. rewrite Eraw in Hall. now inversion Hall. }
    replace (len raw =? 1)%nat with false
      by (symmetry; apply Nat.eqb_neq; lia).
    rewrite andb_false_r.
    destruct ((r =? 8232) || (r =? 8233)) eqn:Hsep.
    + assert (Hr : r = 0x2028 \/ r = 0x2029) by lia.
      rewrite (Multi_separator raw r Hm Hr).
      destruct Hr as [-> | ->]; reflexivity.
    + apply unescape_raw. exact Hall.
Qed.

(** Unescaping the escaped string gives the string with every byte at
    which decoding failed replaced by the encoding of U+FFFD. *)
Theorem unescape_escape :
  forall s : bytes,
    jsonUnescape (appendEscapedJSONString [] s)
    = Some (flat_map replaceInvalid (runes s)).
Proof.
  intros s. rewrite appendEscapedJSONString_runes. cbn [app].
  pose proof (runes_chunks s) as H.
  induction H as [| x l Hx _ IH]; [reflexivity |].
  cbn [flat_map]. rewrite (unescape_chunk x _ Hx), IH. reflexivity.
Qed.

(** ** Valid UTF-8 *)

Lemma validFrom_runes :
  forall (fuel : nat) (s : bytes),
    (len s <= fuel)%nat -> utf8.validFrom fuel s = forallb decodes (runes s).
Proof.
  induction fuel as [| fuel IH]; intros s Hf.
  - destruct s; [reflexivity | cbn in Hf; lia].
  - destruct s as [| b t]; [reflexivity |].
    cbn [utf8.validFrom]. rewrite runes_cons. cbn [forallb].
    pose proof (decode_size b t) as Hs.
    destruct (utf8.DecodeRuneInString (b :: t)) as [r size]. cbn [fst snd] in *.
    unfold decodes at 1. cbn [fst snd].
    replace (len (firstn size (b :: t))) with size
      by (unfold len in *; rewrite length_firstn; lia).
    destruct ((r =? utf8.RuneError) && (size =? 1)%nat); [reflexivity |].
    cbn [negb andb]. apply IH.
    unfold len in *. rewrite length_skipn. cbn [List.length] in *. lia.
Qed.

Lemma ValidString_runes :
  forall s : bytes, utf8.ValidString s = forallb decodes (runes s).
Proof. intros s. apply validFrom_runes. lia. Qed.

Lemma UTF8_valid : forall s : bytes, UTF8 s -> utf8.ValidString s = true.
Proof.
  intros s H. unfold utf8.ValidString.
  assert (G : forall fuel, (len s <= fuel)%nat -> utf8.validFrom fuel s = true);
    [| apply G; lia].
  induction H as [| b t Hb _ IH | raw r t Hlen Hdec _ IH]; intros fuel Hf.
  - destruct fuel; reflexivity.
  - destruct fuel as [| fuel]; [cbn in Hf; lia |].
    cbn [utf8.validFrom]. rewrite decode_ASCII by exact Hb.
    replace (bz b =? utf8.RuneError) with false
      by (symmetry; apply Z.eqb_neq; unfold utf8.RuneSelf, utf8.RuneError in *; lia).
    cbn [andb skipn]. apply IH. cbn in Hf. unfold len in *. lia.
  - destruct raw as [| b0 raw0]; [cbn in Hlen; lia |].
    destruct fuel as [| fuel]; [cbn in Hf; lia |].
    specialize (Hdec t). cbn [app] in Hdec |- *.
    cbn [utf8.validFrom]. rewrite Hdec.
    replace (len (b0 :: raw0) =? 1)%nat with false
      by (symmetry; apply Nat.eqb_neq; lia).
    rewrite andb_false_r.
    replace (skipn (len (b0 :: raw0)) (b0 :: raw0 ++ t)) with t.
    + apply IH. unfold len in *. cbn [List.length] in Hf. rewrite length_app in Hf. lia.
    + unfold len. cbn [List.length skipn].
      now rewrite skipn_app, skipn_all, Nat.sub_diag.
Qed.

Lemma UTF8_app : forall a b : bytes, UTF8 a -> UTF8 b -> UTF8 (a ++ b).
Proof.
  intros a b Ha Hb. induction Ha as [| c t Hc _ IH | raw r t Hlen Hdec _ IH].
  - exact Hb.
  - cbn [app]. now apply UTF8_ascii.
  - rewrite <- app_assoc. now apply (UTF8_multi raw r).
Qed.

Lemma UTF8_all_ascii :
  forall l : bytes, Forall (fun b => bz b < utf8.RuneSelf) l -> UTF8 l.
Proof.
  intros l H. induction H; [constructor | now apply UTF8_ascii].
Qed.

Lemma escapeRune_ASCII :
  forall b : byte,
    (bz b <? utf8.RuneSelf) = true ->
    Forall (fun c => bz c < utf8.RuneSelf) (escapeRune (bz b, [b])).
Proof.
  intros b. destruct b; intros H; try discriminate H;
    repeat constructor.
Qed.

Lemma escapeRune_UTF8 :
  forall x : Z * bytes, chunk x -> UTF8 (escapeRune x).
Proof.
  intros [r raw] H.
  destruct (chunk_cases r raw H)
    as [(b & -> & Hb & ->) | [(b & -> & Hb & ->) | (Hlen & Hall & Hdec & Hm)]].
  - apply UTF8_all_ascii, escapeRune_ASCII. now apply Z.ltb_lt.
  - unfold escapeRune. cbn [fst snd].
    replace (bz b <? utf8.RuneSelf) with false by (symmetry; apply Z.ltb_ge; exact Hb).
    apply UTF8_all_ascii. repeat constructor.
  - unfold escapeRune. cbn [fst snd].
    destruct raw as [| b0 raw0] eqn:Eraw; [cbn in Hlen; lia |].
    rewrite <- Eraw in *.
    replace (bz b0 <? utf8.RuneSelf) with false.
    2:{ symmetry. apply Z.ltb_ge. rewrite Eraw in Hall. now inversion Hall. }
    replace (len raw =? 1)%nat with false
      by (symmetry; apply Nat.eqb_neq; lia).
    rewrite andb_false_r.
    destruct ((r =? 8232) || (r =? 8233)) eqn:Hsep.
    + assert (Hr : r = 0x2028 \/ r = 0x2029) by lia.
      apply UTF8_all_ascii. destruct Hr as [-> | ->]; repeat constructor.
    + rewrite <- (app_nil_r raw). apply (UTF8_multi raw r); [assumption .. | constructor].
Qed.

Lemma valid_UTF8 : forall s : bytes, utf8.ValidString s = true -> UTF8 s.
Proof.
  intros s H. rewrite ValidString_runes in H.
  rewrite <- (runes_bytes s).
  pose proof (runes_chunks s) as Hc.
  induction Hc as [| [r raw] l Hx _ IH]; [constructor |].
  cbn [forallb] in H. apply andb_prop in H. destruct H as [Hd Hl].
  cbn [map List.concat snd]. apply UTF8_app; [| exact (IH Hl)].
  destruct (chunk_cases r raw Hx)
    as [(b & -> & Hb & ->) | [(b & -> & Hb & ->) | (Hlen & Hall & Hdec & Hm)]].
  - apply UTF8_ascii; [exact Hb | constructor].
  - discriminate Hd.
  - rewrite <- (app_nil_r raw). apply (UTF8_multi raw r); [assumption .. | constructor].
Qed.

(** The escaped output is valid UTF-8, whatever the input. *)
Theorem escaped_is_valid :
  forall buf s : bytes,
    utf8.ValidString buf = true ->
    utf8.ValidString (appendEscapedJSONString buf s) = true.
Proof.
  intros buf s Hbuf. rewrite appendEscapedJSONString_runes.
  apply UTF8_valid, UTF8_app; [now apply valid_UTF8 |].
  pose proof (runes_chunks s) as H.
  induction H as [| x l Hx _ IH]; [constructor |].
  cbn [flat_map]. apply UTF8_app; [now apply escapeRune_UTF8 | exact IH].
Qed.

Lemma replaceInvalid_length :
  forall l : list (Z * bytes),
    (List.length (List.concat (map snd l)) <= List.length (flat_map replaceInvalid l))%nat
    /\ (forallb decodes l = false ->
        (List.length (List.concat (map snd l))
         < List.length (flat_map replaceInvalid l))%nat).
Proof.
  induction l as [| [r raw] l [IH1 IH2]]; [split; [cbn; lia | discriminate] |].
  cbn [map List.concat flat_map forallb snd]. rewrite !length_app.
  unfold replaceInvalid at 1 3, decodes at 1. cbn [fst snd].
  destruct ((r =? utf8.RuneError) && (len raw =? 1)%nat) eqn:E.
  - apply andb_prop in E. destruct E as [_ E]. apply Nat.eqb_eq in E.
    unfold len in E. cbn [negb andb List.length]. split; intros; lia.
  - cbn [negb andb]. split; [lia |]. intros H. specialize (IH2 H). lia.
Qed.

Lemma replaceInvalid_valid :
  forall l : list (Z * bytes),
    forallb decodes l = true -> flat_map replaceInvalid l = List.concat (map snd l).
Proof.
  induction l as [| [r raw] l IH]; [reflexivity |].
  cbn [forallb]. intros H. apply andb_prop in H. destruct H as [Hd Hl].
  cbn [flat_map map List.concat snd]. rewrite (IH Hl). f_equal.
  unfold replaceInvalid, decodes in *. cbn [fst snd] in *.
  destruct ((r =? utf8.RuneError) && (len raw =? 1)%nat); [discriminate Hd | reflexivity].
Qed.

(** ** The round trip and the invalid bytes *)

(** C9, as stated, fails: a string that contains a double quote, and
    after it a byte that is not valid UTF-8, is not recovered. *)
Lemma quote_then_invalid_byte_is_not_recovered :
  In dquote [dquote; xff]
  /\ jsonUnescape (appendEscapedJSONString [] [dquote; xff])
     = Some [dquote; xef; xbf; xbd]
  /\ jsonUnescape (appendEscapedJSONString [] [dquote; xff]) <> Some [dquote; xff].
Proof.
  split; [left; reflexivity |].
  split; [reflexivity | vm_compute; discriminate].
Qed.

(** C9, amended: for every input string that is valid UTF-8, whether or
    not it contains control characters, quotes, backslashes or the
    separators U+2028 and U+2029, the JSON escaping followed by standard
    JSON unescaping recovers the string exactly. *)
Theorem escape_round_trip :
  forall s : bytes,
    utf8.ValidString s = true ->
    jsonUnescape (appendEscapedJSONString [] s) = Some s.
Proof.
  intros s H. rewrite unescape_escape. f_equal.
  rewrite ValidString_runes in H.
  rewrite (replaceInvalid_valid _ H). apply runes_bytes.
Qed.

Lemma escape_round_trip_witness :
  let s := [x01; x0a; dquote; backslash; xe2; x80; xa8; xe2; x80; xa9; xc3; xa9] in
  jsonUnescape (appendEscapedJSONString [] s) = Some s.
Proof. intros s. apply (escape_round_trip s). reflexivity. Defined.

(** C10: [appendEscapedJSONString] appends the escapes of the positions of
    the scan, and the escape of a position at which decoding fails is the
    six characters of the escape of U+FFFD; so the escaped output of
    every input is valid UTF-8, and a string that is not valid UTF-8 is
    not what unescaping returns. *)
Theorem invalid_bytes_become_replacement_escapes :
  forall s : bytes,
    (forall buf, appendEscapedJSONString buf s
                 = buf ++ flat_map escapeRune (runes s))
    /\ (forall r raw, In (r, raw) (runes s) -> decodes (r, raw) = false ->
                      escapeRune (r, raw) = backslash :: B "ufffd")
    /\ utf8.ValidString (appendEscapedJSONString [] s) = true
    /\ (utf8.ValidString s = false ->
        jsonUnescape (appendEscapedJSONString [] s) <> Some s).
Proof.
  intros s. split; [| split; [| split]].
  - intros buf. apply appendEscapedJSONString_runes.
  - intros r raw Hin Hd.
    pose proof (runes_chunks s) as Hc. rewrite Forall_forall in Hc.
    specialize (Hc _ Hin).
    unfold decodes in Hd. cbn [fst snd] in Hd.
    apply negb_false_iff, andb_prop in Hd. destruct Hd as [Hr Hn].
    apply Z.eqb_eq in Hr. apply Nat.eqb_eq in Hn.
    destruct (chunk_cases r raw Hc)
      as [(b & -> & Hb & E) | [(b & -> & Hb & E) | (Hlen & _)]].
    + unfold utf8.RuneSelf, utf8.RuneError in *. lia.
    + unfold escapeRune. cbn [fst snd]. rewrite Hr.
      replace (bz b <? utf8.RuneSelf) with false
        by (symmetry; apply Z.ltb_ge; exact Hb).
      reflexivity.
    + lia.
  - apply escaped_is_valid. reflexivity.
  - intros Hinv Heq. rewrite unescape_escape in Heq. injection Heq as Heq.
    rewrite ValidString_runes in Hinv.
    destruct (replaceInvalid_length (runes s)) as [_ Hlt].
    specialize (Hlt Hinv). rewrite runes_bytes, Heq in Hlt. lia.
Qed.

Lemma invalid_bytes_become_replacement_escapes_witness :
  appendEscapedJSONString [] [x61; xff] = x61 :: backslash :: B "ufffd"
  /\ utf8.ValidString (appendEscapedJSONString [] [x61; xff]) = true
  /\ jsonUnescape (appendEscapedJSONString [] [x61; xff]) <> Some [x61; xff].
Proof.
  destruct (invalid_bytes_become_replacement_escapes [x61; xff])
    as (H1 & _ & H3 & H4).
  split; [rewrite H1; reflexivity |].
  split; [exact H3 | apply H4; reflexivity].
Defined.

(** ** Handle and the error of the sink *)

Lemma depth_group :
  forall l : list Attr, depth (KindGroup l) = S (depthAttrs l).
Proof.
  intros l. cbn [depth]. f_equal.
  induction l as [| [k v] l IH]; [reflexivity |].
  cbn [depthAttrs AttrValue]. now rewrite IH.
Qed.

Lemma tame_group :
  forall l : list Attr, tame (KindGroup l) = tameAttrs l.
Proof.
  intros l. cbn [tame].
  induction l as [| [k v] l IH]; [reflexivity |].
  cbn [tameAttrs AttrValue]. now rewrite IH.
Qed.

Lemma resolveLoop_props :
  forall (n d : nat) (orig v : Value),
    tame orig = true -> (depth orig <= d)%nat ->
    tame v = true -> (depth v <= d)%nat ->
    isLogValuer (resolveLoop n orig v) = false
    /\ tame (resolveLoop n orig v) = true
    /\ (depth (resolveLoop n orig v) <= d)%nat.
Proof.
  induction n as [| n IH]; intros d orig v To Do Tv Dv.
  - cbn [resolveLoop]. destruct orig; repeat split; try assumption; try reflexivity.
    cbn. lia.
  - cbn [resolveLoop]. destruct v; repeat split; try assumption; try reflexivity;
      apply (IH d orig (LogValue tt)); assumption.
Qed.

Lemma Resolve_props :
  forall v : Value,
    tame v = true ->
    isLogValuer (Resolve v) = false
    /\ tame (Resolve v) = true
    /\ (depth (Resolve v) <= depth v)%nat.
Proof. intros v H. apply resolveLoop_props; auto. Qed.

Lemma civil_fields :
  forall days : Z,
    1 <= snd (fst (time.civil days)) <= 12 /\ 1 <= snd (time.civil days) <= 31.
Proof.
  intros days. unfold time.civil.
  set (z := days + 306).
  set (doe := z mod 146097).
  assert (Hdoe : 0 <= doe < 146097) by (apply Z.mod_pos_bound; lia).
  clearbody doe.
  set (yoe := (doe - doe / 1460 + doe / 36524 - doe / 146096) / 365).
  set (doy := doe - (365 * yoe + yoe / 4 - yoe / 100)).
  set (mp := (5 * doy + 2) / 153).
  assert (Hdoy : 0 <= doy <= 365)
    by (subst doy yoe; Z.to_euclidean_division_equations; lia).
  clearbody doy.
  assert (Hmp : 0 <= mp <= 11)
    by (subst mp; Z.to_euclidean_division_equations; lia).
  assert (Hd : 1 <= doy - (153 * mp + 2) / 5 + 1 <= 31)
    by (subst mp; Z.to_euclidean_division_equations; lia).
  cbn [fst snd]. destruct (mp <? 10) eqn:E; split; lia.
Qed.

Lemma WritePosIntWidth_ok :
  forall (b : buffer.Buffer) (i : Z) (width : nat),
    0 <= i -> exists b', buffer.WritePosIntWidth b i width = Ok b'.
Proof.
  intros b i width Hi. unfold buffer.WritePosIntWidth.
  replace (i <? 0) with false by (symmetry; apply Z.ltb_ge; exact Hi).
  eexists. reflexivity.
Qed.

Lemma writeTimeRFC3339Millis_total :
  forall (b : buffer.Buffer) (t : time.Time),
    timeOK t = true -> exists b', writeTimeRFC3339Millis b t = Ok b'.
Proof.
  intros b t H. unfold timeOK, time.Year in H.
  apply andb_prop in H. destruct H as [Hy Hn].
  apply Z.leb_le in Hy. apply Z.leb_le in Hn.
  unfold writeTimeRFC3339Millis.
  pose proof (civil_fields (time.abs t / 86400)) as [Hm Hd].
  unfold time.Date in *.
  destruct (time.civil (time.abs t / 86400)) as [[year month] day].
  cbn [fst snd] in *.
  unfold time.Clock, time.Nanosecond, time.ZoneOffset.
  set (s := time.abs t mod 86400).
  assert (Hs : 0 <= s < 86400) by (apply Z.mod_pos_bound; lia). clearbody s.
  repeat match goal with
         | |- context [buffer.WritePosIntWidth ?x ?i ?w] =>
             let b' := fresh "b" in
             let E := fresh "E" in
             destruct (WritePosIntWidth_ok x i w) as [b' E];
             [ first [ lia
                     | apply Z.quot_pos; lia
                     | Z.to_euclidean_division_equations; lia ]
             | rewrite E; cbn [bind] ]
         end.
  destruct (time.offset t =? 0); [eexists; reflexivity |].
  set (om := Z.quot (time.offset t) 60).
  destruct (om <? 0) eqn:Eo.
  - destruct (WritePosIntWidth_ok (buffer.WriteByte b6 x2d) (Z.quot (- om) 60) 2)
      as [b7 E7]; [apply Z.quot_pos; lia |].
    rewrite E7. cbn [bind]. apply WritePosIntWidth_ok.
    apply Z.rem_nonneg; lia.
  - destruct (WritePosIntWidth_ok (buffer.WriteByte b6 x2b) (Z.quot om 60) 2)
      as [b7 E7]; [apply Z.quot_pos; lia |].
    rewrite E7. cbn [bind]. apply WritePosIntWidth_ok.
    apply Z.rem_nonneg; lia.
Qed.

Lemma appendString_h :
  forall (lib : GoLib) (s : handleState.t) (str : bytes),
    handleState.h (appendString lib s str) = handleState.h s.
Proof.
  intros lib s str. unfold appendString.
  repeat match goal with
         | |- context [if ?c then _ else _] => destruct c
         end; reflexivity.
Qed.

Lemma appendKey_h :
  forall (lib : GoLib) (s : handleState.t) (key : bytes),
    handleState.h (appendKey lib s key) = handleState.h s.
Proof.
  intros lib s key. unfold appendKey.
  set (s1 := setBuf s _).
  change (handleState.h s) with (handleState.h s1).
  destruct (negb (pretty (handleState.h s1))); [| reflexivity].
  set (s2 := if (0 <? len (handleState.prefix s1))%nat then _ else _).
  assert (H2 : handleState.h s2 = handleState.h s1)
    by (subst s2; destruct (0 <? len (handleState.prefix s1))%nat;
        apply appendString_h).
  clearbody s2. destruct (json (handleState.h s2)); exact H2.
Qed.

Lemma openGroup_h :
  forall (lib : GoLib) (s : handleState.t) (name : bytes),
    handleState.h (openGroup lib s name) = handleState.h s.
Proof.
  intros lib s name. unfold openGroup.
  destruct (json (handleState.h s));
    match goal with
    | |- context [match handleState.groups ?x with _ => _ end] =>
        destruct (handleState.groups x)
    end; cbn [handleState.h setGroups setSep setBuf setPrefix];
    try apply appendKey_h; reflexivity.
Qed.

Lemma closeGroup_h :
  forall (s : handleState.t) (name : bytes),
    handleState.h (closeGroup s name) = handleState.h s.
Proof.
  intros s name. unfold closeGroup.
  destruct (json (handleState.h s));
    match goal with
    | |- context [match handleState.groups ?x with _ => _ end] =>
        destruct (handleState.groups x)
    end; reflexivity.
Qed.

Lemma appendTime_total :
  forall (lib : GoLib) (s : handleState.t) (t : time.Time),
    timeOK t = true ->
    exists s', appendTime lib s t = Ok s' /\ handleState.h s' = handleState.h s.
Proof.
  intros lib s t Ht. unfold appendTime.
  destruct (json (handleState.h s)).
  - eexists. split; [reflexivity |]. unfold appendJSONTime.
    cbn [handleState.h setBuf].
    destruct ((time.Year t <? 0) || (10000 <=? time.Year t));
      [apply appendString_h | reflexivity].
  - destruct (pretty (handleState.h s)).
    + eexists. split; reflexivity.
    + destruct (writeTimeRFC3339Millis_total (handleState.buf s) t Ht) as [b E].
      rewrite E. eexists. split; reflexivity.
Qed.

(** The value encoders return for every value that is neither a group
    nor lazy; an error they report ends up in the buffer. *)
Lemma appendValue_total :
  forall (lib : GoLib) (s : handleState.t) (v : Value),
    isKindGroup v = false -> isLogValuer v = false -> tame v = true ->
    exists s', appendValue lib s v = Ok s' /\ handleState.h s' = handleState.h s.
Proof.
  intros lib s v Hg Hl Ht. unfold appendValue.
  destruct (json (handleState.h s)) eqn:Hj.
  - unfold appendJSONValue.
    destruct v; try discriminate Hg; try discriminate Hl; cbn [bind];
      try (eexists; split; [reflexivity | try apply appendString_h; reflexivity]).
    + destruct (asError (capabilities a));
        [destruct (negb (isJSONMarshaler (capabilities a))) |];
        cbn [bind];
        try (eexists; split; [reflexivity | apply appendString_h]);
        unfold appendJSONMarshal; destruct (jsonEncode (capabilities a));
        eexists; (split; [reflexivity |]);
        try reflexivity; unfold appendError; apply appendString_h.
    + unfold appendJSONMarshal. destruct (jsonEncodeFloat lib f);
        eexists; (split; [reflexivity |]);
        try reflexivity; unfold appendError; apply appendString_h.
    + destruct (appendTime_total lib s t Ht) as (s' & E & Hh).
      rewrite E. cbn [bind]. eexists. split; [reflexivity | exact Hh].
  - unfold appendTextValue.
    destruct v; try discriminate Hg; try discriminate Hl; cbn [bind];
      try (eexists; split; [reflexivity | try apply appendString_h; reflexivity]).
    + destruct (MarshalText (capabilities a)) as [[data | err] |];
        [| | destruct (asByteSlice (capabilities a));
             [destruct (negb (safe (handleState.h s)) && pretty (handleState.h s)) |]];
        cbn [bind]; eexists; (split; [reflexivity |]);
        try reflexivity; try apply appendString_h;
        unfold appendError; apply appendString_h.
    + destruct (appendTime_total lib s t Ht) as (s' & E & Hh).
      rewrite E. cbn [bind]. eexists. split; [reflexivity | exact Hh].
Qed.

Lemma sourceGroup_props :
  forall src : Source,
    exists l, sourceGroup src = KindGroup l
              /\ tameAttrs l = true /\ depthAttrs l = 0%nat.
Proof.
  intros src. unfold sourceGroup.
  destruct (isEmptyString (Function src)), (isEmptyString (File src)),
    (Line src =? 0); cbn; eexists; repeat split.
Qed.

Lemma replaceSource_total :
  forall (s : handleState.t) (k : bytes) (v : Value) (fuel : nat),
    tame v = true -> isLogValuer v = false -> (depth v < S fuel)%nat ->
    exists a,
      replaceSource s (MkAttr k v) = Ok a
      /\ Key a = k
      /\ isLogValuer (AttrValue a) = false
      /\ tame (AttrValue a) = true
      /\ (forall l, AttrValue a = KindGroup l -> (depthAttrs l < fuel)%nat).
Proof.
  intros s k v fuel Ht Hl Hd. unfold replaceSource. cbn [AttrValue Key].
  destruct v as [a | | | | | | | | l | ];
    try (eexists; repeat split; try reflexivity; try assumption;
         intros l0 E; discriminate E).
  - destruct a as [| [src |] | o];
      try (eexists; repeat split; try reflexivity; try assumption;
           intros l0 E; discriminate E).
    + destruct (json (handleState.h s)).
      * destruct (sourceGroup_props src) as (l & E & Tl & Dl).
        eexists. repeat split; try reflexivity; cbn [AttrValue]; rewrite E;
          first [ reflexivity
                | rewrite tame_group; exact Tl
                | intros l0 E0; injection E0 as <-; cbn [depth] in Hd; lia ].
      * eexists. repeat split; try reflexivity. intros l0 E; discriminate E.
    + discriminate Ht.
  - eexists. repeat split; try reflexivity; try assumption.
    intros l0 E. cbn [AttrValue] in E. injection E as <-.
    rewrite depth_group in Hd. lia.
Qed.

(** Without a replace function, [appendAttr] returns on every tame value
    as soon as the fuel exceeds the depth of the value. *)
Lemma appendAttr_total :
  forall (lib : GoLib) (fuel : nat) (s : handleState.t) (a : Attr),
    ReplaceAttr (opts (handleState.h s)) = None ->
    tame (AttrValue a) = true ->
    (depth (AttrValue a) < fuel)%nat ->
    exists s', appendAttr lib fuel s a = Ok s' /\ handleState.h s' = handleState.h s.
Proof.
  intros lib fuel. induction fuel as [| fuel IH]; intros s [k v] Hrep Ht Hd; [lia |].
  cbn [appendAttr]. rewrite Hrep. cbn [Key AttrValue] in *.
  destruct (Resolve_props v Ht) as (Rl & Rt & Rd).
  destruct (isEmpty (MkAttr k (Resolve v))); [exists s; split; reflexivity |].
  destruct (replaceSource_total s k (Resolve v) fuel Rt Rl ltac:(lia))
    as (a2 & E2 & K2 & L2 & T2 & D2).
  rewrite E2. cbn [bind]. rewrite K2.
  destruct (AttrValue a2) as [a | | | | | | | | l | ] eqn:Ev;
    try (match goal with
         | |- exists s', appendValue lib ?s0 ?v0 = _ /\ _ =>
             destruct (appendValue_total lib s0 v0 eq_refl eq_refl T2)
               as (s' & Es & Hs);
             exists s'; split; [exact Es | rewrite Hs; apply appendKey_h]
         end).
  - (* a group *)
    specialize (D2 l eq_refl). rewrite tame_group in T2.
    destruct (0 <? List.length l)%nat; [| exists s; split; reflexivity].
    set (s1 := if negb (isEmptyString k) then openGroup lib s k else s).
    assert (H1 : handleState.h s1 = handleState.h s)
      by (subst s1; destruct (negb (isEmptyString k));
          [apply openGroup_h | reflexivity]).
    clearbody s1.
    assert (Hloop : exists s2,
               (fix each (l : list Attr) (s : handleState.t) {struct l}
                  : result handleState.t :=
                  match l with
                  | [] => Ok s
                  | aa :: l' => do s0 <- appendAttr lib fuel s aa; each l' s0
                  end) l s1 = Ok s2
               /\ handleState.h s2 = handleState.h s).
    { clear Ev L2. revert s1 H1.
      induction l as [| aa l IHl]; intros s1 H1.
      - exists s1. split; [reflexivity | exact H1].
      - cbn [tameAttrs depthAttrs] in T2, D2.
        apply andb_prop in T2. destruct T2 as [Ta Tl].
        destruct (IH s1 aa) as (s' & Es & Hs);
          [now rewrite H1 | exact Ta | lia |].
        rewrite Es. cbn [bind]. apply IHl; [exact Tl | lia | congruence]. }
    destruct Hloop as (s2 & E & Hh2). rewrite E. cbn [bind].
    eexists. split; [reflexivity |].
    destruct (negb (isEmptyString k)); [rewrite closeGroup_h |]; exact Hh2.
  - (* a lazy value cannot remain *)
    discriminate L2.
Qed.

Lemma appendAttrs_total :
  forall (lib : GoLib) (fuel : nat) (l : list Attr) (s : handleState.t),
    ReplaceAttr (opts (handleState.h s)) = None ->
    tameAttrs l = true ->
    (depthAttrs l < fuel)%nat ->
    exists s', appendAttrs lib fuel s l = Ok s' /\ handleState.h s' = handleState.h s.
Proof.
  intros lib fuel l. induction l as [| a l IH]; intros s Hrep Ht Hd.
  - exists s. split; reflexivity.
  - cbn [tameAttrs depthAttrs] in Ht, Hd.
    apply andb_prop in Ht. destruct Ht as [Ta Tl].
    destruct (appendAttr_total lib fuel s a Hrep Ta ltac:(lia)) as (s1 & E1 & H1).
    cbn [appendAttrs]. rewrite E1. cbn [bind].
    destruct (IH s1) as (s2 & E2 & H2); [now rewrite H1 | exact Tl | lia |].
    exists s2. split; [exact E2 | congruence].
Qed.

Lemma openGroups_h :
  forall (lib : GoLib) (l : list bytes) (s : handleState.t),
    handleState.h (fold_left (openGroup lib) l s) = handleState.h s.
Proof.
  intros lib l. induction l as [| name l IH]; intros s; [reflexivity |].
  cbn [fold_left]. rewrite IH. apply openGroup_h.
Qed.

Lemma appendNonBuiltIns_total :
  forall (lib : GoLib) (fuel : nat) (s : handleState.t) (r : Record_),
    ReplaceAttr (opts (handleState.h s)) = None ->
    tameAttrs (attrs r) = true ->
    (depthAttrs (attrs r) < fuel)%nat ->
    exists s', appendNonBuiltIns lib fuel s r = Ok s'.
Proof.
  intros lib fuel s r Hrep Ht Hd. unfold appendNonBuiltIns.
  set (s1 := if (0 <? len (preformattedAttrs (handleState.h s)))%nat then _ else s).
  assert (H1 : handleState.h s1 = handleState.h s)
    by (subst s1; destruct (0 <? len (preformattedAttrs (handleState.h s)))%nat;
        reflexivity).
  clearbody s1.
  destruct (0 <? NumAttrs r)%nat.
  - set (s2 := openGroups lib (setPrefix s1 _)).
    assert (H2 : handleState.h s2 = handleState.h s)
      by (subst s2; unfold openGroups; rewrite openGroups_h; exact H1).
    clearbody s2.
    destruct (appendAttrs_total lib fuel (attrs r) s2) as (s3 & E3 & H3);
      [now rewrite H2 | exact Ht | exact Hd |].
    rewrite E3. cbn [bind].
    destruct (json (handleState.h s3)); eexists; reflexivity.
  - cbn [bind]. destruct (json (handleState.h s1)); eexists; reflexivity.
Qed.

(** Without a replace function [Handle] returns on every record of tame
    attributes, once the fuel exceeds their depth, and what it returns is
    the outcome of the write. *)
Lemma Handle_total :
  forall (lib : GoLib) (fuel : nat) (h : Handler) (r : Record_),
    ReplaceAttr (opts h) = None ->
    tameAttrs (attrs r) = true ->
    time.IsZero (Time r) = true \/ timeOK (Time r) = true ->
    (1 < fuel)%nat -> (depthAttrs (attrs r) < fuel)%nat ->
    exists out, Handle lib fuel h r = Ok (out, Write (w h) out).
Proof.
  intros lib fuel h r Hrep Ht Htime Hf Hd. unfold Handle. rewrite Hrep.
  set (s0 := setGroups (if json h then _ else _) None).
  assert (H0 : handleState.h s0 = h) by (subst s0; destruct (json h); reflexivity).
  set (stateGroups := handleState.groups _).
  clearbody s0 stateGroups.
  assert (Ht1 : exists s1,
             (if negb (time.IsZero (Time r))
              then appendTime lib (appendKey lib s0 TimeKey) (time.Round0 (Time r))
              else Ok s0) = Ok s1 /\ handleState.h s1 = h).
  { destruct (time.IsZero (Time r)); cbn [negb].
    - exists s0. split; [reflexivity | exact H0].
    - destruct Htime as [Hz | Hok]; [discriminate Hz |].
      destruct (appendTime_total lib (appendKey lib s0 TimeKey) (Time r) Hok)
        as (s1 & E1 & H1).
      exists s1. split; [exact E1 | now rewrite H1, appendKey_h]. }
  destruct Ht1 as (s1 & E1 & H1). rewrite E1. cbn [bind].
  set (s2 := resetColor _).
  assert (H2 : handleState.h s2 = h).
  { subst s2. unfold resetColor. cbn [handleState.h setColor].
    now rewrite appendString_h, appendKey_h. }
  clearbody s2.
  assert (Hs3 : exists s3,
             (if AddSource (opts h)
              then appendAttr lib fuel s2
                     (MkAttr SourceKey (KindAny (AnySource (Some (rSource lib r)))))
              else Ok s2) = Ok s3 /\ handleState.h s3 = h).
  { destruct (AddSource (opts h)).
    - destruct (appendAttr_total lib fuel s2
                  (MkAttr SourceKey (KindAny (AnySource (Some (rSource lib r))))))
        as (s3 & E3 & H3); [now rewrite H2 | reflexivity | exact Hf |].
      exists s3. split; [exact E3 | congruence].
    - exists s2. split; [reflexivity | exact H2]. }
  destruct Hs3 as (s3 & E3 & H3). rewrite E3. cbn [bind].
  set (s4 := setGroups _ stateGroups).
  assert (H4 : handleState.h s4 = h).
  { subst s4. cbn [handleState.h setGroups]. now rewrite appendString_h, appendKey_h. }
  clearbody s4.
  destruct (appendNonBuiltIns_total lib fuel s4 r) as (s5 & E5);
    [now rewrite H4 | exact Ht | exact Hd |].
  rewrite E5. cbn [bind]. eexists. reflexivity.
Qed.

Lemma appendError_buf :
  forall (lib : GoLib) (s : handleState.t) (e : error),
    handleState.buf (appendError lib s e)
    = handleState.buf s
        ++ (if json (handleState.h s)
            then quoted (appendEscapedJSONString [] (B "!ERROR:" ++ e))
            else textString lib (handleState.h s) (handleState.color s)
                   (B "!ERROR:" ++ e)).
Proof.
  intros lib s e. unfold appendError.
  destruct (json (handleState.h s)) eqn:Hj.
  - unfold appendString. rewrite Hj. cbn [handleState.buf setBuf].
    unfold buffer.WriteByte, quoted.
    rewrite appendEscapedJSONString_runes, (appendEscapedJSONString_runes []).
    cbn [app]. now rewrite <- !app_assoc.
  - rewrite appendString_text_mode by exact Hj. reflexivity.
Qed.


(** * Further properties of the encoder *)

(** ** The encoder only appends *)

Lemma appendEscapedJSONString_app :
  forall b x s : bytes,
    appendEscapedJSONString (b ++ x) s = b ++ appendEscapedJSONString x s.
Proof.
  intros b x s. rewrite !appendEscapedJSONString_runes. now rewrite app_assoc.
Qed.

Lemma prepend_setBuf :
  forall (b x : bytes) (s : handleState.t),
    setBuf (prepend b s) (b ++ x) = prepend b (setBuf s x).
Proof. reflexivity. Qed.

Lemma appendString_prepend :
  forall (lib : GoLib) (b : bytes) (s : handleState.t) (str : bytes),
    appendString lib (prepend b s) str = prepend b (appendString lib s str).
Proof.
  intros lib b s str. unfold appendString.
  cbn [prepend handleState.h handleState.buf handleState.color setBuf].
  destruct (json (handleState.h s)).
  - unfold buffer.WriteByte. rewrite <- app_assoc, appendEscapedJSONString_app.
    unfold prepend. cbn [handleState.buf setBuf]. now rewrite <- app_assoc.
  - destruct (needsQuoting (printTable lib) str && safe (handleState.h s)).
    + rewrite (AppendQuote_app _ (b ++ _)), (AppendQuote_app _ (handleState.buf s)).
      unfold prepend. cbn [handleState.buf setBuf]. now rewrite <- app_assoc.
    + destruct (noColor <? handleState.color s);
        unfold prepend, buffer.Write, buffer.WriteString;
        cbn [handleState.buf setBuf]; now rewrite <- app_assoc.
Qed.

Ltac buf_norm :=
  unfold prepend, buffer.Write, buffer.WriteString, buffer.WriteByte;
  cbn [handleState.h handleState.buf handleState.color handleState.sep
       handleState.prefix handleState.groups handleState.freeBuf
       setBuf setSep setPrefix setGroups setColor];
  rewrite <- ?app_assoc.

Lemma appendKey_prepend :
  forall (lib : GoLib) (b : bytes) (s : handleState.t) (key : bytes),
    appendKey lib (prepend b s) key = prepend b (appendKey lib s key).
Proof.
  intros lib b s key. unfold appendKey.
  replace (setBuf (prepend b s)
             (buffer.WriteString (handleState.buf (prepend b s))
                (handleState.sep (prepend b s))))
    with (prepend b (setBuf s (buffer.WriteString (handleState.buf s)
                                 (handleState.sep s))))
    by (buf_norm; reflexivity).
  set (s1 := setBuf s _).
  change (handleState.h (prepend b s1)) with (handleState.h s1).
  change (handleState.prefix (prepend b s1)) with (handleState.prefix s1).
  destruct (negb (pretty (handleState.h s1))); [| reflexivity].
  rewrite !appendString_prepend.
  set (s2 := if (0 <? len (handleState.prefix s1))%nat
             then appendString lib s1 (handleState.prefix s1 ++ key)
             else appendString lib s1 key).
  replace (if (0 <? len (handleState.prefix s1))%nat
           then prepend b (appendString lib s1 (handleState.prefix s1 ++ key))
           else prepend b (appendString lib s1 key))
    with (prepend b s2)
    by (subst s2; destruct (0 <? len (handleState.prefix s1))%nat; reflexivity).
  clearbody s2.
  change (handleState.h (prepend b s2)) with (handleState.h s2).
  destruct (json (handleState.h s2)); buf_norm; reflexivity.
Qed.

Lemma openGroup_prepend :
  forall (lib : GoLib) (b : bytes) (s : handleState.t) (name : bytes),
    openGroup lib (prepend b s) name = prepend b (openGroup lib s name).
Proof.
  intros lib b s name. unfold openGroup.
  change (handleState.h (prepend b s)) with (handleState.h s).
  destruct (json (handleState.h s)).
  - rewrite appendKey_prepend. set (s1 := appendKey lib s name).
    buf_norm. destruct (handleState.groups s1); reflexivity.
  - buf_norm. destruct (handleState.groups s); reflexivity.
Qed.

Lemma closeGroup_prepend :
  forall (b : bytes) (s : handleState.t) (name : bytes),
    closeGroup (prepend b s) name = prepend b (closeGroup s name).
Proof.
  intros b s name. unfold closeGroup.
  change (handleState.h (prepend b s)) with (handleState.h s).
  destruct (json (handleState.h s)); buf_norm;
    destruct (handleState.groups s); reflexivity.
Qed.

Lemma fold_openGroup_prepend :
  forall (lib : GoLib) (b : bytes) (l : list bytes) (s : handleState.t),
    fold_left (openGroup lib) l (prepend b s)
    = prepend b (fold_left (openGroup lib) l s).
Proof.
  intros lib b l. induction l as [| name l IH]; intros s; [reflexivity |].
  cbn [fold_left]. now rewrite openGroup_prepend, IH.
Qed.

Lemma openGroups_prepend :
  forall (lib : GoLib) (b : bytes) (s : handleState.t),
    openGroups lib (prepend b s) = prepend b (openGroups lib s).
Proof. intros lib b s. unfold openGroups. apply fold_openGroup_prepend. Qed.

Lemma time_appendInt_app :
  forall (b : bytes) (x : Z) (width : nat),
    time.appendInt b x width = b ++ time.appendInt [] x width.
Proof.
  intros b x width. unfold time.appendInt.
  destruct (x <? 0); cbn [app]; now rewrite <- ?app_assoc.
Qed.

Lemma AppendFormatRFC3339Nano_app :
  forall (b : bytes) (t : time.Time),
    time.AppendFormatRFC3339Nano b t = b ++ time.AppendFormatRFC3339Nano [] t.
Proof.
  intros b t. unfold time.AppendFormatRFC3339Nano.
  destruct (time.Date t) as [[year month] day].
  destruct (time.Clock t) as [[hour min] sec].
  unfold time.appendZone, time.appendNano.
  repeat match goal with
         | |- context [time.appendInt (?x ++ ?y) ?n ?w] =>
             rewrite (time_appendInt_app (x ++ y) n w)
         | |- context [time.appendInt b ?n ?w] =>
             rewrite (time_appendInt_app b n w)
         end.
  destruct (time.Nanosecond t =? 0); destruct (time.ZoneOffset t =? 0);
    try destruct (Z.quot (time.ZoneOffset t) 60 <? 0);
    repeat match goal with
           | |- context [time.appendInt (?x ++ ?y) ?n ?w] =>
               rewrite (time_appendInt_app (x ++ y) n w)
           | |- context [time.appendInt (?x :: ?y) ?n ?w] =>
               rewrite (time_appendInt_app (x :: y) n w)
           end;
    cbn [app]; rewrite <- ?app_assoc; cbn [app]; reflexivity.
Qed.

Lemma appendJSONTime_prepend :
  forall (lib : GoLib) (b : bytes) (s : handleState.t) (t : time.Time),
    appendJSONTime lib (prepend b s) t = prepend b (appendJSONTime lib s t).
Proof.
  intros lib b s t. unfold appendJSONTime, appendError.
  destruct ((time.Year t <? 0) || (10000 <=? time.Year t)).
  - rewrite appendString_prepend. set (s1 := appendString lib s _).
    buf_norm. rewrite (AppendFormatRFC3339Nano_app (b ++ _)).
    rewrite (AppendFormatRFC3339Nano_app (handleState.buf s1 ++ _)).
    now rewrite <- !app_assoc.
  - buf_norm. rewrite (AppendFormatRFC3339Nano_app (b ++ _)).
    rewrite (AppendFormatRFC3339Nano_app (handleState.buf s ++ _)).
    now rewrite <- !app_assoc.
Qed.

Lemma appendTime_prepend :
  forall (lib : GoLib) (b : bytes) (s : handleState.t) (t : time.Time),
    appendTime lib (prepend b s) t = prependResult b (appendTime lib s t).
Proof.
  intros lib b s t. unfold appendTime, prependResult.
  change (handleState.h (prepend b s)) with (handleState.h s).
  destruct (json (handleState.h s)).
  - cbn [bind]. now rewrite appendJSONTime_prepend.
  - destruct (pretty (handleState.h s)).
    + cbn [bind]. unfold writeLayoutTime. buf_norm. reflexivity.
    + change (handleState.buf (prepend b s)) with (b ++ handleState.buf s).
      rewrite (writeTimeRFC3339Millis_app (b ++ _)).
      rewrite (writeTimeRFC3339Millis_app (handleState.buf s)).
      destruct (writeTimeRFC3339Millis buffer.New t); cbn [bind]; try reflexivity.
      buf_norm. reflexivity.
Qed.

Lemma valueAppend_app :
  forall (lib : GoLib) (v : Value) (b x : bytes),
    valueAppend lib v (b ++ x) = b ++ valueAppend lib v x.
Proof.
  intros lib v b x.
  destruct v; cbn [valueAppend];
    unfold strconv.AppendInt, strconv.AppendUint, strconv.AppendBool;
    now rewrite <- app_assoc.
Qed.

Lemma appendTextValue_prepend :
  forall (lib : GoLib) (b : bytes) (s : handleState.t) (v : Value),
    appendTextValue lib (prepend b s) v
    = do (s', err) <- appendTextValue lib s v; Ok (prepend b s', err).
Proof.
  intros lib b s v. destruct v; cbn [appendTextValue];
    try (cbn [bind]; change (handleState.buf (prepend b s)) with (b ++ handleState.buf s);
         rewrite valueAppend_app; reflexivity).
  - change (handleState.h (prepend b s)) with (handleState.h s).
    change (handleState.buf (prepend b s)) with (b ++ handleState.buf s).
    destruct (MarshalText (capabilities a)) as [[data | err] |]; cbn [bind].
    + now rewrite appendString_prepend.
    + reflexivity.
    + destruct (asByteSlice (capabilities a)) as [bs |].
      * destruct (negb (safe (handleState.h s)) && pretty (handleState.h s));
          cbn [bind]; buf_norm; reflexivity.
      * cbn [bind]. now rewrite appendString_prepend.
  - cbn [bind]. now rewrite appendString_prepend.
  - rewrite appendTime_prepend. unfold prependResult.
    destruct (appendTime lib s t); reflexivity.
Qed.

Lemma appendJSONMarshal_prepend :
  forall (b : bytes) (s : handleState.t) (encoded : bytes + error),
    appendJSONMarshal (prepend b s) encoded
    = (prepend b (fst (appendJSONMarshal s encoded)),
       snd (appendJSONMarshal s encoded)).
Proof.
  intros b s [bs | err]; cbn [appendJSONMarshal fst snd]; [| reflexivity].
  buf_norm. reflexivity.
Qed.

Lemma appendJSONValue_prepend :
  forall (lib : GoLib) (b : bytes) (s : handleState.t) (v : Value),
    appendJSONValue lib (prepend b s) v
    = do (s', err) <- appendJSONValue lib s v; Ok (prepend b s', err).
Proof.
  intros lib b s v. destruct v; cbn [appendJSONValue bind];
    try reflexivity;
    try (unfold strconv.AppendInt, strconv.AppendUint, strconv.AppendBool;
         buf_norm; reflexivity).
  - destruct (asError (capabilities a)) as [msg |];
      [destruct (negb (isJSONMarshaler (capabilities a))) |];
      cbn [bind]; rewrite ?appendString_prepend, ?appendJSONMarshal_prepend;
      try reflexivity;
      destruct (appendJSONMarshal s (jsonEncode (capabilities a))); reflexivity.
  - rewrite appendJSONMarshal_prepend.
    destruct (appendJSONMarshal s (jsonEncodeFloat lib f)); reflexivity.
  - now rewrite appendString_prepend.
  - rewrite appendTime_prepend. unfold prependResult.
    destruct (appendTime lib s t); reflexivity.
Qed.

Lemma appendValue_prepend :
  forall (lib : GoLib) (b : bytes) (s : handleState.t) (v : Value),
    appendValue lib (prepend b s) v = prependResult b (appendValue lib s v).
Proof.
  intros lib b s v. unfold appendValue, prependResult.
  change (handleState.h (prepend b s)) with (handleState.h s).
  destruct (json (handleState.h s));
    [rewrite appendJSONValue_prepend; destruct (appendJSONValue lib s v) as [[s' [e |]] | |]
    | rewrite appendTextValue_prepend; destruct (appendTextValue lib s v) as [[s' [e |]] | |]];
    cbn [bind]; try reflexivity;
    unfold appendError; now rewrite appendString_prepend.
Qed.

Lemma appendAttr_prepend :
  forall (lib : GoLib) (b : bytes) (fuel : nat) (s : handleState.t) (a : Attr),
    appendAttr lib fuel (prepend b s) a = prependResult b (appendAttr lib fuel s a).
Proof.
  intros lib b fuel. induction fuel as [| fuel IH]; intros s a; [reflexivity |].
  cbn [appendAttr].
  change (handleState.h (prepend b s)) with (handleState.h s).
  change (handleState.groups (prepend b s)) with (handleState.groups s).
  set (a1 := match ReplaceAttr (opts (handleState.h s)) with
             | Some rep => _
             | None => a
             end).
  clearbody a1.
  set (a2 := MkAttr (Key a1) (Resolve (AttrValue a1))). clearbody a2.
  destruct (isEmpty a2); [reflexivity |].
  assert (Hsrc : replaceSource (prepend b s) a2 = replaceSource s a2) by reflexivity.
  rewrite Hsrc. clear Hsrc.
  destruct (replaceSource s a2) as [a3 | msg |]; cbn [bind]; try reflexivity.
  destruct (AttrValue a3) as [a0 | b0 | d0 | f0 | i0 | str0 | t0 | u0 | attrs | tn0 lv0] eqn:Ev;
    try (rewrite appendKey_prepend; apply appendValue_prepend).
  destruct (0 <? List.length attrs)%nat; [| reflexivity].
  set (s1 := if negb (isEmptyString (Key a3)) then openGroup lib s (Key a3) else s).
  replace (if negb (isEmptyString (Key a3))
           then openGroup lib (prepend b s) (Key a3) else prepend b s)
    with (prepend b s1)
    by (subst s1; destruct (negb (isEmptyString (Key a3)));
        [now rewrite openGroup_prepend | reflexivity]).
  clearbody s1. clear Ev.
  revert s1. induction attrs as [| aa l IHl]; intros s1.
  - cbn [bind prependResult].
    destruct (negb (isEmptyString (Key a3))); [now rewrite closeGroup_prepend | reflexivity].
  - rewrite IH. unfold prependResult at 1.
    destruct (appendAttr lib fuel s1 aa) as [s2 | msg |]; cbn [bind]; try reflexivity.
    apply IHl.
Qed.

Lemma appendAttrs_prepend :
  forall (lib : GoLib) (b : bytes) (fuel : nat) (l : list Attr) (s : handleState.t),
    appendAttrs lib fuel (prepend b s) l = prependResult b (appendAttrs lib fuel s l).
Proof.
  intros lib b fuel l. induction l as [| a l IH]; intros s; [reflexivity |].
  cbn [appendAttrs]. rewrite appendAttr_prepend. unfold prependResult at 1.
  destruct (appendAttr lib fuel s a) as [s1 | msg |]; cbn [bind]; try reflexivity.
  apply IH.
Qed.

(** ** What the encoder leaves as it found it *)

Lemma sameFrame_refl : forall s : handleState.t, sameFrame s s.
Proof. intros s. repeat split. Qed.

Lemma sameFrame_trans :
  forall s1 s2 s3 : handleState.t,
    sameFrame s1 s2 -> sameFrame s2 s3 -> sameFrame s1 s3.
Proof.
  intros s1 s2 s3 (A1 & A2 & A3 & A4 & A5) (B1 & B2 & B3 & B4 & B5).
  repeat split; congruence.
Qed.

Lemma sameFrame_setBuf :
  forall (s : handleState.t) (b : bytes), sameFrame s (setBuf s b).
Proof. intros s b. repeat split. Qed.

Lemma sameFrame_setSep :
  forall (s : handleState.t) (x : bytes), sameFrame s (setSep s x).
Proof. intros s x. repeat split. Qed.

Lemma appendString_frame :
  forall (lib : GoLib) (s : handleState.t) (str : bytes),
    sameFrame s (appendString lib s str).
Proof.
  intros lib s str. unfold appendString.
  repeat match goal with
         | |- context [if ?c then _ else _] => destruct c
         end; apply sameFrame_setBuf.
Qed.

Lemma appendKey_frame :
  forall (lib : GoLib) (s : handleState.t) (key : bytes),
    sameFrame s (appendKey lib s key).
Proof.
  intros lib s key. unfold appendKey.
  eapply sameFrame_trans; [| apply sameFrame_setSep].
  set (s1 := setBuf s _).
  assert (H1 : sameFrame s s1) by apply sameFrame_setBuf.
  clearbody s1.
  destruct (negb (pretty (handleState.h s1))); [| exact H1].
  set (s2 := if (0 <? len (handleState.prefix s1))%nat then _ else _).
  assert (H2 : sameFrame s s2)
    by (subst s2; destruct (0 <? len (handleState.prefix s1))%nat;
        (eapply sameFrame_trans; [exact H1 | apply appendString_frame])).
  clearbody s2.
  destruct (json (handleState.h s2));
    (eapply sameFrame_trans; [exact H2 | apply sameFrame_setBuf]).
Qed.

Lemma appendTime_frame :
  forall (lib : GoLib) (s s' : handleState.t) (t : time.Time),
    appendTime lib s t = Ok s' -> sameFrame s s'.
Proof.
  intros lib s s' t. unfold appendTime.
  destruct (json (handleState.h s)).
  - intros E. injection E as <-. unfold appendJSONTime, appendError.
    eapply sameFrame_trans; [| apply sameFrame_setBuf].
    destruct ((time.Year t <? 0) || (10000 <=? time.Year t));
      [apply appendString_frame | apply sameFrame_refl].
  - destruct (pretty (handleState.h s)).
    + intros E. injection E as <-. apply sameFrame_setBuf.
    + destruct (writeTimeRFC3339Millis (handleState.buf s) t); cbn [bind];
        intros E; [injection E as <-; apply sameFrame_setBuf | discriminate E ..].
Qed.

Lemma appendValue_frame :
  forall (lib : GoLib) (s s' : handleState.t) (v : Value),
    appendValue lib s v = Ok s' -> sameFrame s s'.
Proof.
  intros lib s s' v. unfold appendValue.
  assert (Hval : forall r,
             (forall s1 e, r = Ok (s1, e) -> sameFrame s s1) ->
             (do (s0, err) <- r;
              match err with
              | Some e => Ok (appendError lib s0 e)
              | None => Ok s0
              end) = Ok s' -> sameFrame s s').
  { intros r Hr. destruct r as [[s1 [e |]] | |]; cbn [bind]; intros E;
      try discriminate E; injection E as <-.
    - eapply sameFrame_trans; [exact (Hr _ _ eq_refl) | apply appendString_frame].
    - exact (Hr _ _ eq_refl). }
  destruct (json (handleState.h s)); apply Hval; intros s1 e.
  - destruct v; cbn [appendJSONValue]; intros E; try discriminate E;
      try (injection E as <- <-; first [apply appendString_frame | apply sameFrame_setBuf]).
    + destruct (asError (capabilities a)) as [msg |];
        [destruct (negb (isJSONMarshaler (capabilities a))) |];
        try (injection E as <- <-; apply appendString_frame);
        destruct (jsonEncode (capabilities a)); cbn [appendJSONMarshal] in E;
        injection E as <- <-; first [apply sameFrame_setBuf | apply sameFrame_refl].
    + destruct (jsonEncodeFloat lib f); cbn [appendJSONMarshal] in E;
        injection E as <- <-; first [apply sameFrame_setBuf | apply sameFrame_refl].
    + destruct (appendTime lib s t) eqn:Et; cbn [bind] in E; try discriminate E.
      injection E as <- <-. exact (appendTime_frame _ _ _ _ Et).
  - destruct v; cbn [appendTextValue]; intros E; try discriminate E;
      try (injection E as <- <-; first [apply appendString_frame | apply sameFrame_setBuf]).
    + destruct (MarshalText (capabilities a)) as [[data | err] |].
      * injection E as <- <-. apply appendString_frame.
      * injection E as <- <-. apply sameFrame_refl.
      * destruct (asByteSlice (capabilities a)) as [bs |];
          [destruct (negb (safe (handleState.h s)) && pretty (handleState.h s)) |];
          injection E as <- <-;
          first [apply appendString_frame | apply sameFrame_setBuf].
    + destruct (appendTime lib s t) eqn:Et; cbn [bind] in E; try discriminate E.
      injection E as <- <-. exact (appendTime_frame _ _ _ _ Et).
Qed.

Lemma firstn_removelast_app :
  forall (A : Type) (gs : list A) (name : A),
    firstn (List.length (gs ++ [name]) - 1) (gs ++ [name]) = gs.
Proof.
  intros A gs name. rewrite length_app. cbn [List.length].
  replace (List.length gs + 1 - 1)%nat with (List.length gs + 0)%nat by lia.
  rewrite firstn_app_2. cbn [firstn]. now rewrite app_nil_r.
Qed.

Lemma openGroup_fields :
  forall (lib : GoLib) (s : handleState.t) (name : bytes),
    handleState.h (openGroup lib s name) = handleState.h s
    /\ handleState.color (openGroup lib s name) = handleState.color s
    /\ handleState.freeBuf (openGroup lib s name) = handleState.freeBuf s
    /\ handleState.prefix (openGroup lib s name)
       = (if json (handleState.h s) then handleState.prefix s
          else (handleState.prefix s ++ name) ++ [keyComponentSep])
    /\ handleState.groups (openGroup lib s name)
       = option_map (fun gs => gs ++ [name]) (handleState.groups s).
Proof.
  intros lib s name. unfold openGroup.
  pose proof (appendKey_frame lib s name) as (K1 & K2 & K3 & K4 & K5).
  destruct (json (handleState.h s)).
  - cbn [handleState.groups setSep setBuf]. rewrite K5.
    destruct (handleState.groups s) eqn:G;
      cbn [handleState.h handleState.color handleState.freeBuf handleState.prefix
           handleState.groups setGroups setSep setBuf option_map];
      repeat split; assumption.
  - cbn [handleState.groups setPrefix].
    destruct (handleState.groups s) eqn:G;
      cbn [handleState.h handleState.color handleState.freeBuf handleState.prefix
           handleState.groups setGroups setPrefix option_map];
      repeat split; assumption.
Qed.

Lemma closeGroup_fields :
  forall (s : handleState.t) (name : bytes),
    handleState.h (closeGroup s name) = handleState.h s
    /\ handleState.color (closeGroup s name) = handleState.color s
    /\ handleState.freeBuf (closeGroup s name) = handleState.freeBuf s
    /\ handleState.prefix (closeGroup s name)
       = (if json (handleState.h s) then handleState.prefix s
          else firstn (len (handleState.prefix s) - len name - 1)
                 (handleState.prefix s))
    /\ handleState.groups (closeGroup s name)
       = option_map (fun gs => firstn (List.length gs - 1) gs) (handleState.groups s).
Proof.
  intros s name. unfold closeGroup.
  destruct (json (handleState.h s));
    cbn [handleState.groups setSep setBuf setPrefix];
    destruct (handleState.groups s) eqn:G;
    cbn [handleState.h handleState.color handleState.freeBuf handleState.prefix
         handleState.groups setGroups setSep setBuf setPrefix option_map];
    repeat split; assumption.
Qed.

(** A group that was opened and is closed under the same name leaves
    the key prefix and the group list as they were. *)
Lemma closeGroup_openGroup_frame :
  forall (lib : GoLib) (s s2 : handleState.t) (name : bytes),
    sameFrame (openGroup lib s name) s2 ->
    sameFrame s (closeGroup s2 name).
Proof.
  intros lib s s2 name (A1 & A2 & A3 & A4 & A5).
  destruct (openGroup_fields lib s name) as (O1 & O2 & O3 & O4 & O5).
  destruct (closeGroup_fields s2 name) as (C1 & C2 & C3 & C4 & C5).
  repeat split; try congruence.
  - rewrite C4, A1, O1, A4, O4.
    destruct (json (handleState.h s)); [reflexivity |].
    apply firstn_prefix.
  - rewrite C5, A5, O5.
    destruct (handleState.groups s) as [gs |]; [| reflexivity].
    cbn [option_map]. now rewrite firstn_removelast_app.
Qed.

(** Writing an attribute leaves the handler, the color, the key prefix
    and the group list of the state as they were: the groups it opens,
    it closes. *)
Lemma appendAttr_frame :
  forall (lib : GoLib) (fuel : nat) (s s' : handleState.t) (a : Attr),
    appendAttr lib fuel s a = Ok s' -> sameFrame s s'.
Proof.
  intros lib fuel. induction fuel as [| fuel IH]; intros s s' a; [discriminate |].
  cbn [appendAttr].
  set (a1 := match ReplaceAttr (opts (handleState.h s)) with
             | Some rep => _
             | None => a
             end).
  clearbody a1.
  set (a2 := MkAttr (Key a1) (Resolve (AttrValue a1))). clearbody a2.
  destruct (isEmpty a2); [intros E; injection E as <-; apply sameFrame_refl |].
  destruct (replaceSource s a2) as [a3 | msg |]; cbn [bind]; try discriminate.
  destruct (AttrValue a3) as [a0 | b0 | d0 | f0 | i0 | str0 | t0 | u0 | attrs | tn0 lv0] eqn:Ev;
    try (intros E; eapply sameFrame_trans;
         [apply appendKey_frame | exact (appendValue_frame _ _ _ _ E)]).
  destruct (0 <? List.length attrs)%nat;
    [| intros E; injection E as <-; apply sameFrame_refl].
  assert (Hloop : forall l s1 s2,
             (fix each (l : list Attr) (s : handleState.t) : result handleState.t :=
                match l with
                | [] => Ok s
                | aa :: l' => do s <- appendAttr lib fuel s aa; each l' s
                end) l s1 = Ok s2 -> sameFrame s1 s2).
  { induction l as [| aa l IHl]; intros s1 s2 E.
    - injection E as <-. apply sameFrame_refl.
    - destruct (appendAttr lib fuel s1 aa) as [s3 | msg |] eqn:E3; cbn [bind] in E;
        try discriminate E.
      eapply sameFrame_trans; [exact (IH _ _ _ E3) | exact (IHl _ _ E)]. }
  match goal with
  | |- bind ?x _ = _ -> _ => destruct x as [s2 | msg |] eqn:E2
  end; cbn [bind]; try discriminate.
  intros E. injection E as <-.
  apply Hloop in E2.
  destruct (negb (isEmptyString (Key a3))).
  - exact (closeGroup_openGroup_frame lib s s2 (Key a3) E2).
  - exact E2.
Qed.

Lemma appendAttrs_frame :
  forall (lib : GoLib) (fuel : nat) (l : list Attr) (s s' : handleState.t),
    appendAttrs lib fuel s l = Ok s' -> sameFrame s s'.
Proof.
  intros lib fuel l. induction l as [| a l IH]; intros s s' E.
  - injection E as <-. apply sameFrame_refl.
  - cbn [appendAttrs] in E.
    destruct (appendAttr lib fuel s a) as [s1 | msg |] eqn:E1; cbn [bind] in E;
      try discriminate E.
    eapply sameFrame_trans; [exact (appendAttr_frame _ _ _ _ _ E1) | exact (IH _ _ E)].
Qed.

(** ** The encoder under another handler *)

Ltac st_cbn :=
  cbn [stateFor handleState.h handleState.buf handleState.color handleState.sep
       handleState.prefix handleState.groups handleState.freeBuf
       setBuf setSep setPrefix setGroups setColor negb].

Lemma encodesAlike_frame :
  forall (s s1 : handleState.t) (h' : Handler) (c : Z),
    encodesAlike s h' c -> sameFrame s s1 -> encodesAlike s1 h' c.
Proof.
  intros s s1 h' c He (Hh & Hc & _). unfold encodesAlike in *.
  now rewrite Hh, Hc.
Qed.

Lemma encodesAlike_attrSep :
  forall (s : handleState.t) (h' : Handler) (c : Z),
    encodesAlike s h' c -> attrSep h' = attrSep (handleState.h s).
Proof.
  intros s h' c (Hj & _ & _ & [Ht | (_ & Hs & _)]); unfold attrSep; rewrite Hj.
  - now rewrite Ht.
  - now rewrite Hs.
Qed.

Lemma appendString_stateFor :
  forall (lib : GoLib) (h' : Handler) (fb : bool) (c : Z) (s : handleState.t)
         (str : bytes),
    encodesAlike s h' c ->
    appendString lib (stateFor h' fb c s) str
    = stateFor h' fb c (appendString lib s str).
Proof.
  intros lib h' fb c s str (Hj & _ & _ & Ht). unfold appendString.
  st_cbn. rewrite Hj. destruct (json (handleState.h s)); [reflexivity |].
  destruct Ht as [Ht | (Hs & _ & _ & Hc)]; [discriminate Ht |]. rewrite Hs, Hc.
  destruct (needsQuoting (printTable lib) str && safe (handleState.h s));
    [reflexivity |].
  destruct (noColor <? handleState.color s); reflexivity.
Qed.

Lemma appendKey_stateFor :
  forall (lib : GoLib) (h' : Handler) (fb : bool) (c : Z) (s : handleState.t)
         (key : bytes),
    encodesAlike s h' c ->
    appendKey lib (stateFor h' fb c s) key = stateFor h' fb c (appendKey lib s key).
Proof.
  intros lib h' fb c s key He.
  assert (Hstr : forall x str,
             appendString lib (setBuf (stateFor h' fb c s) x) str
             = stateFor h' fb c (appendString lib (setBuf s x) str))
    by (intros x str; apply (appendString_stateFor lib h' fb c (setBuf s x) str He)).
  pose proof (encodesAlike_attrSep _ _ _ He) as Hsep.
  destruct He as (Hj & Hp & Ho & Ht).
  unfold appendKey. st_cbn. rewrite Hp.
  destruct (pretty (handleState.h s)); st_cbn.
  - now rewrite Hsep.
  - rewrite !Hstr.
    destruct (0 <? len (handleState.prefix s))%nat; st_cbn;
      rewrite !appendString_h; st_cbn; rewrite Hj;
      destruct (json (handleState.h s)); st_cbn;
      rewrite ?appendString_h; st_cbn; rewrite Hsep; reflexivity.
Qed.

Lemma openGroup_stateFor :
  forall (lib : GoLib) (h' : Handler) (fb : bool) (c : Z) (s : handleState.t)
         (name : bytes),
    encodesAlike s h' c ->
    openGroup lib (stateFor h' fb c s) name = stateFor h' fb c (openGroup lib s name).
Proof.
  intros lib h' fb c s name He. unfold openGroup.
  rewrite appendKey_stateFor by exact He.
  destruct He as (Hj & _).
  change (handleState.h (stateFor h' fb c s)) with h'. rewrite Hj.
  destruct (json (handleState.h s)).
  - set (s1 := appendKey lib s name).
    st_cbn.
    destruct (handleState.groups s1); reflexivity.
  - st_cbn.
    destruct (handleState.groups s); reflexivity.
Qed.

Lemma closeGroup_stateFor :
  forall (h' : Handler) (fb : bool) (c : Z) (s : handleState.t) (name : bytes),
    encodesAlike s h' c ->
    closeGroup (stateFor h' fb c s) name = stateFor h' fb c (closeGroup s name).
Proof.
  intros h' fb c s name He. unfold closeGroup.
  change (handleState.h (stateFor h' fb c s)) with h'.
  pose proof (encodesAlike_attrSep _ _ _ He) as Hsep.
  destruct He as (Hj & _). rewrite Hj.
  destruct (json (handleState.h s));
    st_cbn;
    rewrite Hsep; destruct (handleState.groups s); reflexivity.
Qed.

Lemma appendTime_stateFor :
  forall (lib : GoLib) (h' : Handler) (fb : bool) (c : Z) (s : handleState.t)
         (t : time.Time),
    encodesAlike s h' c ->
    appendTime lib (stateFor h' fb c s) t
    = do s' <- appendTime lib s t; Ok (stateFor h' fb c s').
Proof.
  intros lib h' fb c s t He. unfold appendTime.
  change (handleState.h (stateFor h' fb c s)) with h'.
  pose proof He as (Hj & Hp & _ & Ht). rewrite Hj, Hp.
  destruct (json (handleState.h s)).
  - cbn [bind]. unfold appendJSONTime, appendError.
    destruct ((time.Year t <? 0) || (10000 <=? time.Year t));
      [rewrite appendString_stateFor by exact He |]; reflexivity.
  - destruct Ht as [Ht | (_ & _ & Hl & _)]; [discriminate Ht |].
    destruct (pretty (handleState.h s)).
    + destruct Hl as [Hl | Hl]; [discriminate Hl |].
      cbn [bind]. unfold writeLayoutTime.
      change (handleState.h (stateFor h' fb c s)) with h'. now rewrite Hl.
    + change (handleState.buf (stateFor h' fb c s)) with (handleState.buf s).
      destruct (writeTimeRFC3339Millis (handleState.buf s) t); reflexivity.
Qed.

Lemma appendValue_stateFor :
  forall (lib : GoLib) (h' : Handler) (fb : bool) (c : Z) (s : handleState.t)
         (v : Value),
    encodesAlike s h' c ->
    appendValue lib (stateFor h' fb c s) v
    = do s' <- appendValue lib s v; Ok (stateFor h' fb c s').
Proof.
  intros lib h' fb c s v He. unfold appendValue.
  change (handleState.h (stateFor h' fb c s)) with h'.
  pose proof He as (Hj & Hp & _ & Ht). rewrite Hj.
  destruct (json (handleState.h s)) eqn:J.
  - destruct v; cbn [appendJSONValue bind]; unfold appendError;
      rewrite ?appendString_stateFor by exact He; try reflexivity.
    + destruct (asError (capabilities a)) as [msg |];
        [destruct (negb (isJSONMarshaler (capabilities a))) |];
        cbn [bind]; rewrite ?appendString_stateFor by exact He; try reflexivity;
        destruct (jsonEncode (capabilities a)) as [bs | err];
        cbn [appendJSONMarshal bind];
        rewrite ?appendString_stateFor by exact He; reflexivity.
    + destruct (jsonEncodeFloat lib f) as [bs | err];
        cbn [appendJSONMarshal bind];
        rewrite ?appendString_stateFor by exact He; reflexivity.
    + rewrite appendTime_stateFor by exact He.
      destruct (appendTime lib s t); reflexivity.
  - destruct Ht as [Ht | (Hs & _ & _)]; [discriminate Ht |].
    destruct v; cbn [appendTextValue bind]; unfold appendError;
      rewrite ?appendString_stateFor by exact He; try reflexivity.
    + change (handleState.h (stateFor h' fb c s)) with h'. rewrite Hs, Hp.
      destruct (MarshalText (capabilities a)) as [[data | err] |]; cbn [bind];
        rewrite ?appendString_stateFor by exact He; try reflexivity.
      destruct (asByteSlice (capabilities a)) as [bs |];
        [destruct (negb (safe (handleState.h s)) && pretty (handleState.h s)) |];
        cbn [bind]; rewrite ?appendString_stateFor by exact He; reflexivity.
    + rewrite appendTime_stateFor by exact He.
      destruct (appendTime lib s t); reflexivity.
Qed.

Lemma appendAttr_stateFor :
  forall (lib : GoLib) (h' : Handler) (fb : bool) (c : Z) (fuel : nat)
         (s : handleState.t) (a : Attr),
    encodesAlike s h' c ->
    appendAttr lib fuel (stateFor h' fb c s) a
    = do s' <- appendAttr lib fuel s a; Ok (stateFor h' fb c s').
Proof.
  intros lib h' fb c fuel. induction fuel as [| fuel IH]; intros s a He;
    [reflexivity |].
  cbn [appendAttr].
  change (handleState.h (stateFor h' fb c s)) with h'.
  change (handleState.groups (stateFor h' fb c s)) with (handleState.groups s).
  pose proof He as (Hj & _ & Ho & _). rewrite Ho.
  set (a1 := match ReplaceAttr (opts (handleState.h s)) with
             | Some rep => _
             | None => a
             end).
  clearbody a1.
  set (a2 := MkAttr (Key a1) (Resolve (AttrValue a1))). clearbody a2.
  destruct (isEmpty a2); [reflexivity |].
  assert (Hsrc : replaceSource (stateFor h' fb c s) a2 = replaceSource s a2)
    by (unfold replaceSource; change (handleState.h (stateFor h' fb c s)) with h';
        now rewrite Hj).
  rewrite Hsrc. clear Hsrc.
  destruct (replaceSource s a2) as [a3 | msg |]; cbn [bind]; try reflexivity.
  destruct (AttrValue a3) as [a0 | b0 | d0 | f0 | i0 | str0 | t0 | u0 | attrs | tn0 lv0] eqn:Ev;
    try (rewrite appendKey_stateFor by exact He;
         apply appendValue_stateFor;
         exact (encodesAlike_frame _ _ _ _ He (appendKey_frame _ _ _))).
  destruct (0 <? List.length attrs)%nat; [| reflexivity].
  set (s1 := if negb (isEmptyString (Key a3)) then openGroup lib s (Key a3) else s).
  replace (if negb (isEmptyString (Key a3))
           then openGroup lib (stateFor h' fb c s) (Key a3) else stateFor h' fb c s)
    with (stateFor h' fb c s1)
    by (subst s1; destruct (negb (isEmptyString (Key a3)));
        [now rewrite openGroup_stateFor | reflexivity]).
  assert (He1 : encodesAlike s1 h' c).
  { subst s1. destruct (negb (isEmptyString (Key a3))); [| exact He].
    destruct (openGroup_fields lib s (Key a3)) as (O1 & O2 & _).
    unfold encodesAlike in *. now rewrite O1, O2. }
  clearbody s1. clear Ev.
  revert s1 He1. induction attrs as [| aa l IHl]; intros s1 He1.
  - cbn [bind].
    destruct (negb (isEmptyString (Key a3)));
      [now rewrite closeGroup_stateFor | reflexivity].
  - rewrite IH by exact He1.
    destruct (appendAttr lib fuel s1 aa) as [s2 | msg |] eqn:E2; cbn [bind];
      try reflexivity.
    apply IHl.
    exact (encodesAlike_frame _ _ _ _ He1 (appendAttr_frame _ _ _ _ _ E2)).
Qed.

Lemma appendAttrs_stateFor :
  forall (lib : GoLib) (h' : Handler) (fb : bool) (c : Z) (fuel : nat)
         (l : list Attr) (s : handleState.t),
    encodesAlike s h' c ->
    appendAttrs lib fuel (stateFor h' fb c s) l
    = do s' <- appendAttrs lib fuel s l; Ok (stateFor h' fb c s').
Proof.
  intros lib h' fb c fuel l. induction l as [| a l IH]; intros s He; [reflexivity |].
  cbn [appendAttrs]. rewrite appendAttr_stateFor by exact He.
  destruct (appendAttr lib fuel s a) as [s1 | msg |] eqn:E1; cbn [bind];
    try reflexivity.
  apply IH. exact (encodesAlike_frame _ _ _ _ He (appendAttr_frame _ _ _ _ _ E1)).
Qed.

Lemma fold_openGroup_stateFor :
  forall (lib : GoLib) (h' : Handler) (fb : bool) (c : Z) (l : list bytes)
         (s : handleState.t),
    encodesAlike s h' c ->
    fold_left (openGroup lib) l (stateFor h' fb c s)
    = stateFor h' fb c (fold_left (openGroup lib) l s).
Proof.
  intros lib h' fb c l. induction l as [| name l IH]; intros s He; [reflexivity |].
  cbn [fold_left]. rewrite openGroup_stateFor by exact He.
  apply IH.
  destruct (openGroup_fields lib s name) as (O1 & O2 & _).
  unfold encodesAlike in *. now rewrite O1, O2.
Qed.

(** ** The two halves of a call *)

Lemma Handle_split :
  forall (lib : GoLib) (fuel : nat) (h : Handler) (r : Record_),
    Handle lib fuel h r
    = do st <- builtIns lib fuel h r;
      do st <- appendNonBuiltIns lib fuel (setGroups st (recordGroups h)) r;
      Ok (handleState.buf st ++ [newline],
          Write (w h) (handleState.buf st ++ [newline])).
Proof.
  intros lib fuel h r. unfold Handle, builtIns, recordGroups, newHandleState.
  destruct (json h); cbn [handleState.groups setBuf];
    repeat match goal with
           | |- bind ?x _ = bind (bind ?x _) _ =>
               destruct x; cbn [bind]; try reflexivity
           | |- bind ?x _ = bind ?x _ =>
               destruct x; cbn [bind]; try reflexivity
           end.
Qed.

Lemma handlesAlike_encodes :
  forall (h h' : Handler) (s : handleState.t),
    handlesAlike h h' -> handleState.h s = h ->
    encodesAlike s h' (handleState.color s).
Proof.
  intros h h' s (Hj & Hp & Ho & Ht) Hh. unfold encodesAlike. rewrite Hh.
  repeat split; try assumption.
  destruct Ht as [Ht | (A & B & C & _)]; [left; exact Ht | right; repeat split; assumption].
Qed.

Lemma handlesAlike_encodes_level :
  forall (h h' : Handler) (s : handleState.t) (l : Z),
    handlesAlike h h' -> handleState.h s = h ->
    encodesAlike (setColor s (GetColor (color h) l)) h' (GetColor (color h') l).
Proof.
  intros h h' s l (Hj & Hp & Ho & Ht) Hh. unfold encodesAlike.
  cbn [handleState.h handleState.color setColor]. rewrite Hh.
  repeat split; try assumption.
  destruct Ht as [Ht | (A & B & C & D)]; [left; exact Ht |].
  right. rewrite D. repeat split; assumption.
Qed.

Lemma builtIns_h :
  forall (lib : GoLib) (fuel : nat) (h : Handler) (r : Record_) (st : handleState.t),
    builtIns lib fuel h r = Ok st ->
    handleState.h st = h /\ handleState.color st = noColor
    /\ handleState.prefix st = [] /\ handleState.groups st = None
    /\ handleState.freeBuf st = true.
Proof.
  intros lib fuel h r st. unfold builtIns.
  set (s0 := setGroups _ None).
  assert (F0 : sameFrame (setGroups (newHandleState h buffer.New true []) None) s0)
    by (subst s0; destruct (json h); repeat split).
  clearbody s0.
  match goal with
  | |- bind ?x _ = _ -> _ => destruct x as [s1 | |] eqn:E1
  end; cbn [bind]; try discriminate.
  assert (F1 : sameFrame s0 s1).
  { destruct (negb (time.IsZero (Time r))); [| injection E1 as <-; apply sameFrame_refl].
    destruct (ReplaceAttr (opts h)).
    - exact (appendAttr_frame _ _ _ _ _ E1).
    - eapply sameFrame_trans; [apply appendKey_frame | exact (appendTime_frame _ _ _ _ E1)]. }
  match goal with
  | |- bind ?x _ = _ -> _ => destruct x as [s2 | |] eqn:E2
  end; cbn [bind]; try discriminate.
  assert (F2 : sameFrame (setColor s1 (GetColor (color h) (Level r))) s2).
  { destruct (ReplaceAttr (opts h)).
    - exact (appendAttr_frame _ _ _ _ _ E2).
    - injection E2 as <-.
      eapply sameFrame_trans; [apply appendKey_frame | apply appendString_frame]. }
  match goal with
  | |- bind ?x _ = _ -> _ => destruct x as [s3 | |] eqn:E3
  end; cbn [bind]; try discriminate.
  assert (F3 : sameFrame (resetColor s2) s3).
  { destruct (AddSource (opts h)); [| injection E3 as <-; apply sameFrame_refl].
    exact (appendAttr_frame _ _ _ _ _ E3). }
  intros E4.
  assert (F4 : sameFrame s3 st).
  { destruct (ReplaceAttr (opts h)).
    - exact (appendAttr_frame _ _ _ _ _ E4).
    - injection E4 as <-.
      eapply sameFrame_trans; [apply appendKey_frame | apply appendString_frame]. }
  destruct F0 as (A1 & A2 & A3 & A4 & A5).
  destruct F1 as (B1 & B2 & B3 & B4 & B5).
  destruct F2 as (C1 & C2 & C3 & C4 & C5).
  destruct F3 as (D1 & D2 & D3 & D4 & D5).
  destruct F4 as (E1' & E2' & E3' & E4' & E5').
  cbn [handleState.h handleState.color handleState.prefix handleState.groups
       handleState.freeBuf setColor resetColor setGroups newHandleState] in *.
  unfold buffer.New in *. repeat split; congruence.
Qed.

Lemma builtIns_stateFor :
  forall (lib : GoLib) (fuel : nat) (h h' : Handler) (r : Record_),
    handlesAlike h h' ->
    builtIns lib fuel h' r
    = do st <- builtIns lib fuel h r; Ok (stateFor h' true noColor st).
Proof.
  intros lib fuel h h' r Ha. pose proof Ha as (Hj & Hp & Ho & Ht).
  unfold builtIns. rewrite Hj, Ho.
  set (s0 := setGroups (if json h then _ else newHandleState h _ _ _) None).
  replace (setGroups (if json h
                      then setBuf (newHandleState h' buffer.New true [])
                             (buffer.WriteByte
                                (handleState.buf (newHandleState h' buffer.New true []))
                                x7b)
                      else newHandleState h' buffer.New true []) None)
    with (stateFor h' true noColor s0)
    by (subst s0; destruct (json h); reflexivity).
  assert (H0 : handleState.h s0 = h) by (subst s0; destruct (json h); reflexivity).
  assert (C0 : handleState.color s0 = noColor)
    by (subst s0; destruct (json h); reflexivity).
  clearbody s0.
  set (E1 := if negb (time.IsZero (Time r)) then _ else Ok s0).
  assert (X1 : (if negb (time.IsZero (Time r))
                then match ReplaceAttr (opts h) with
                     | Some _ =>
                         appendAttr lib fuel (stateFor h' true noColor s0)
                           (MkAttr TimeKey (KindTime (time.Round0 (Time r))))
                     | None =>
                         appendTime lib (appendKey lib (stateFor h' true noColor s0) TimeKey)
                           (time.Round0 (Time r))
                     end
                else Ok (stateFor h' true noColor s0))
               = do s1 <- E1; Ok (stateFor h' true noColor s1)).
  { subst E1. pose proof (handlesAlike_encodes h h' s0 Ha H0) as He.
    rewrite C0 in He.
    destruct (negb (time.IsZero (Time r))); [| reflexivity].
    destruct (ReplaceAttr (opts h)).
    - now apply appendAttr_stateFor.
    - rewrite appendKey_stateFor by exact He.
      apply appendTime_stateFor.
      exact (encodesAlike_frame _ _ _ _ He (appendKey_frame _ _ _)). }
  rewrite X1. clear X1.
  assert (F1 : forall s1, E1 = Ok s1 ->
                 handleState.h s1 = h /\ handleState.color s1 = noColor).
  { intros s1 E. subst E1.
    assert (F : sameFrame s0 s1).
    { destruct (negb (time.IsZero (Time r))); [| injection E as <-; apply sameFrame_refl].
      destruct (ReplaceAttr (opts h)).
      - exact (appendAttr_frame _ _ _ _ _ E).
      - eapply sameFrame_trans;
          [apply appendKey_frame | exact (appendTime_frame _ _ _ _ E)]. }
    destruct F as (A1 & A2 & _). split; congruence. }
  destruct E1 as [s1 | msg |]; cbn [bind]; try reflexivity.
  destruct (F1 s1 eq_refl) as (H1 & C1). clear F1.
  change (setColor (stateFor h' true noColor s1) (GetColor (color h') (Level r)))
    with (stateFor h' true (GetColor (color h') (Level r))
            (setColor s1 (GetColor (color h) (Level r)))).
  pose proof (handlesAlike_encodes_level h h' s1 (Level r) Ha H1) as He2.
  set (s1c := setColor s1 (GetColor (color h) (Level r))) in *.
  set (c' := GetColor (color h') (Level r)) in *.
  set (E2 := match ReplaceAttr (opts h) with
             | Some _ => appendAttr lib fuel s1c _
             | None => Ok (appendString lib (appendKey lib s1c LevelKey) _)
             end).
  assert (X2 : match ReplaceAttr (opts h) with
               | Some _ =>
                   appendAttr lib fuel (stateFor h' true c' s1c)
                     (MkAttr LevelKey (KindAny (AnyOther (levelValue (Level r)))))
               | None =>
                   Ok (appendString lib (appendKey lib (stateFor h' true c' s1c) LevelKey)
                         (GetLevelName (Level r)))
               end
               = do s2 <- E2; Ok (stateFor h' true c' s2)).
  { subst E2. destruct (ReplaceAttr (opts h)).
    - now apply appendAttr_stateFor.
    - cbn [bind]. rewrite appendKey_stateFor by exact He2.
      rewrite appendString_stateFor; [reflexivity |].
      exact (encodesAlike_frame _ _ _ _ He2 (appendKey_frame _ _ _)). }
  rewrite X2. clear X2.
  assert (F2 : forall s2, E2 = Ok s2 -> handleState.h s2 = h).
  { intros s2 E. subst E2.
    assert (F : sameFrame s1c s2).
    { destruct (ReplaceAttr (opts h)).
      - exact (appendAttr_frame _ _ _ _ _ E).
      - injection E as <-.
        eapply sameFrame_trans; [apply appendKey_frame | apply appendString_frame]. }
    destruct F as (A1 & _). subst s1c. cbn [handleState.h setColor] in A1. congruence. }
  destruct E2 as [s2 | msg |]; cbn [bind]; try reflexivity.
  pose proof (F2 s2 eq_refl) as H2. clear F2.
  change (resetColor (stateFor h' true c' s2))
    with (stateFor h' true noColor (resetColor s2)).
  set (s2r := resetColor s2).
  assert (H2r : handleState.h s2r = h) by exact H2.
  assert (C2r : handleState.color s2r = noColor) by reflexivity.
  clearbody s2r.
  pose proof (handlesAlike_encodes h h' s2r Ha H2r) as He3. rewrite C2r in He3.
  set (E3 := if AddSource (opts h) then appendAttr lib fuel s2r _ else Ok s2r).
  assert (X3 : (if AddSource (opts h)
                then appendAttr lib fuel (stateFor h' true noColor s2r)
                       (MkAttr SourceKey (KindAny (AnySource (Some (rSource lib r)))))
                else Ok (stateFor h' true noColor s2r))
               = do s3 <- E3; Ok (stateFor h' true noColor s3)).
  { subst E3. destruct (AddSource (opts h)); [| reflexivity].
    now apply appendAttr_stateFor. }
  rewrite X3. clear X3.
  assert (F3 : forall s3, E3 = Ok s3 -> sameFrame s2r s3).
  { intros s3 E. subst E3.
    destruct (AddSource (opts h)); [| injection E as <-; apply sameFrame_refl].
    exact (appendAttr_frame _ _ _ _ _ E). }
  destruct E3 as [s3 | msg |]; cbn [bind]; try reflexivity.
  pose proof (encodesAlike_frame _ _ _ _ He3 (F3 s3 eq_refl)) as He4. clear F3.
  destruct (ReplaceAttr (opts h)).
  - now apply appendAttr_stateFor.
  - cbn [bind]. rewrite appendKey_stateFor by exact He4.
    rewrite appendString_stateFor; [reflexivity |].
    exact (encodesAlike_frame _ _ _ _ He4 (appendKey_frame _ _ _)).
Qed.

Lemma closeBraces_stateFor :
  forall (h' : Handler) (fb : bool) (c : Z) (l : list bytes) (s : handleState.t),
    fold_left (fun s _ => setBuf s (buffer.WriteByte (handleState.buf s) x7d)) l
      (stateFor h' fb c s)
    = stateFor h' fb c
        (fold_left (fun s _ => setBuf s (buffer.WriteByte (handleState.buf s) x7d)) l s).
Proof.
  intros h' fb c l. induction l as [| x l IH]; intros s; [reflexivity |].
  cbn [fold_left]. rewrite <- IH. reflexivity.
Qed.

Lemma closeBraces_h :
  forall (l : list bytes) (s : handleState.t),
    handleState.h
      (fold_left (fun s _ => setBuf s (buffer.WriteByte (handleState.buf s) x7d)) l s)
    = handleState.h s.
Proof.
  intros l. induction l as [| x l IH]; intros s; [reflexivity |].
  cbn [fold_left]. now rewrite IH.
Qed.

Lemma openGroups_frame_h :
  forall (lib : GoLib) (l : list bytes) (s : handleState.t),
    handleState.h (fold_left (openGroup lib) l s) = handleState.h s
    /\ handleState.color (fold_left (openGroup lib) l s) = handleState.color s.
Proof.
  intros lib l. induction l as [| name l IH]; intros s; [split; reflexivity |].
  cbn [fold_left]. destruct (IH (openGroup lib s name)) as (A & B).
  destruct (openGroup_fields lib s name) as (O1 & O2 & _).
  split; congruence.
Qed.

Lemma appendNonBuiltIns_stateFor :
  forall (lib : GoLib) (h' : Handler) (fb : bool) (c : Z) (fuel : nat)
         (s : handleState.t) (r : Record_),
    encodesAlike s h' c ->
    preformattedAttrs h' = preformattedAttrs (handleState.h s) ->
    groupPrefix h' = groupPrefix (handleState.h s) ->
    groups h' = groups (handleState.h s) ->
    nOpenGroups h' = nOpenGroups (handleState.h s) ->
    appendNonBuiltIns lib fuel (stateFor h' fb c s) r
    = do s' <- appendNonBuiltIns lib fuel s r; Ok (stateFor h' fb c s').
Proof.
  intros lib h' fb c fuel s r He Hpre Hgp Hg Hn.
  pose proof (encodesAlike_attrSep _ _ _ He) as Hsep.
  pose proof He as (Hj & _).
  unfold appendNonBuiltIns. cbv zeta.
  change (handleState.h (stateFor h' fb c s)) with h'.
  rewrite Hpre.
  set (s1 := if (0 <? len (preformattedAttrs (handleState.h s)))%nat
             then setSep (setBuf (setBuf s _) _) _ else s).
  replace (if (0 <? len (preformattedAttrs (handleState.h s)))%nat
           then _ else stateFor h' fb c s)
    with (stateFor h' fb c s1)
    by (subst s1; destruct (0 <? len (preformattedAttrs (handleState.h s)))%nat;
        st_cbn; rewrite ?Hsep, ?Hpre; reflexivity).
  assert (F1 : sameFrame s s1)
    by (subst s1; destruct (0 <? len (preformattedAttrs (handleState.h s)))%nat;
        repeat split).
  pose proof (encodesAlike_frame _ _ _ _ He F1) as He1.
  destruct F1 as (H1 & _). rewrite <- H1 in Hgp, Hg, Hj, Hn.
  clearbody s1.
  destruct (0 <? NumAttrs r)%nat.
  - unfold openGroups.
    change (handleState.prefix (stateFor h' fb c s1)) with (handleState.prefix s1).
    change (handleState.h (stateFor h' fb c s1)) with h'.
    change (handleState.h (setPrefix (stateFor h' fb c s1) ?x)) with h'.
    rewrite Hgp, Hg, Hn.
    change (setPrefix (stateFor h' fb c s1)
              (buffer.WriteString (handleState.prefix s1)
                 (groupPrefix (handleState.h s1))))
      with (stateFor h' fb c
              (setPrefix s1 (buffer.WriteString (handleState.prefix s1)
                               (groupPrefix (handleState.h s1))))).
    set (s2 := setPrefix s1 _).
    assert (He2 : encodesAlike s2 h' c) by exact He1.
    change (handleState.h s2) with (handleState.h s1).
    rewrite fold_openGroup_stateFor by exact He2.
    set (s3 := fold_left (openGroup lib) _ s2).
    destruct (openGroups_frame_h lib
                (skipn (nOpenGroups (handleState.h s1)) (groups (handleState.h s1))) s2)
      as (A3 & B3).
    fold s3 in A3, B3. change (handleState.h s2) with (handleState.h s1) in A3.
    assert (He3 : encodesAlike s3 h' c)
      by (unfold encodesAlike in *; now rewrite A3, B3).
    clearbody s3.
    rewrite appendAttrs_stateFor by exact He3.
    destruct (appendAttrs lib fuel s3 (attrs r)) as [s4 | msg |] eqn:E4;
      cbn [bind]; try reflexivity.
    change (handleState.h (stateFor h' fb c s4)) with h'.
    destruct (appendAttrs_frame _ _ _ _ _ E4) as (H4 & _).
    rewrite H4, A3, Hj, Hg.
    destruct (json (handleState.h s1)); [| reflexivity].
    cbn [bind]. rewrite closeBraces_stateFor. reflexivity.
  - cbn [bind]. change (handleState.h (stateFor h' fb c s1)) with h'.
    rewrite Hj, Hg, Hn.
    destruct (json (handleState.h s1)); [| reflexivity].
    cbn [bind]. rewrite closeBraces_stateFor. reflexivity.
Qed.

Lemma Handle_alike :
  forall (lib : GoLib) (fuel : nat) (h h' : Handler) (r : Record_),
    handlesAlike h h' ->
    preformattedAttrs h' = preformattedAttrs h ->
    groupPrefix h' = groupPrefix h ->
    groups h' = groups h ->
    nOpenGroups h' = nOpenGroups h ->
    w h' = w h ->
    Handle lib fuel h' r = Handle lib fuel h r.
Proof.
  intros lib fuel h h' r Ha Hpre Hgp Hg Hn Hw.
  rewrite !Handle_split, (builtIns_stateFor lib fuel h h' r Ha).
  destruct (builtIns lib fuel h r) as [st | msg |] eqn:Eb; cbn [bind];
    try reflexivity.
  destruct (builtIns_h _ _ _ _ _ Eb) as (Hh & Hc & _).
  assert (Hrg : recordGroups h' = recordGroups h).
  { unfold recordGroups. destruct Ha as (_ & _ & Ho & _). now rewrite Ho, Hn, Hg. }
  rewrite Hrg.
  change (setGroups (stateFor h' true noColor st) (recordGroups h))
    with (stateFor h' true noColor (setGroups st (recordGroups h))).
  set (s := setGroups st (recordGroups h)).
  assert (He : encodesAlike s h' noColor).
  { pose proof (handlesAlike_encodes h h' s Ha Hh) as He.
    change (handleState.color s) with (handleState.color st) in He.
    now rewrite Hc in He. }
  assert (Hhs : handleState.h s = h) by exact Hh.
  clearbody s.
  rewrite appendNonBuiltIns_stateFor; rewrite ?Hhs; try assumption.
  destruct (appendNonBuiltIns lib fuel s r); cbn [bind]; try reflexivity.
  st_cbn. now rewrite Hw.
Qed.

(** ** Fuel *)

Lemma settled_bind :
  forall (A C : Type) (r : result A) (k : A -> result C),
    settled (bind r k) -> settled r.
Proof. intros A C r k H E. apply H. now rewrite E. Qed.

(** The loop of [appendAttr] over the attributes of a group is
    [appendAttrs]. *)
Lemma each_appendAttrs :
  forall (lib : GoLib) (fuel : nat) (l : list Attr) (s : handleState.t),
    (fix each (l : list Attr) (s : handleState.t) : result handleState.t :=
       match l with
       | [] => Ok s
       | aa :: l' => do s <- appendAttr lib fuel s aa; each l' s
       end) l s
    = appendAttrs lib fuel s l.
Proof.
  intros lib fuel l. induction l as [| a l IH]; intros s; [reflexivity |].
  cbn [appendAttrs]. destruct (appendAttr lib fuel s a); cbn [bind]; try reflexivity.
  apply IH.
Qed.

(** One step of [appendAttr], with the loop written as [appendAttrs]. *)
Lemma appendAttr_S :
  forall (lib : GoLib) (fuel : nat) (s : handleState.t) (a : Attr),
    appendAttr lib (S fuel) s a
    = let a :=
        match ReplaceAttr (opts (handleState.h s)) with
        | Some rep =>
            if negb (isKindGroup (AttrValue a)) then
              rep (match handleState.groups s with Some gs => gs | None => [] end)
                (MkAttr (Key a) (Resolve (AttrValue a)))
            else a
        | None => a
        end in
      let a := MkAttr (Key a) (Resolve (AttrValue a)) in
      if isEmpty a then Ok s
      else
        do a <- replaceSource s a;
        match AttrValue a with
        | KindGroup attrs =>
            if (0 <? List.length attrs)%nat then
              let s := if negb (isEmptyString (Key a)) then openGroup lib s (Key a) else s in
              do s <- appendAttrs lib fuel s attrs;
              Ok (if negb (isEmptyString (Key a)) then closeGroup s (Key a) else s)
            else Ok s
        | v => appendValue lib (appendKey lib s (Key a)) v
        end.
Proof.
  intros lib fuel s a. cbn [appendAttr]. cbv zeta.
  destruct (isEmpty _); [reflexivity |].
  destruct (replaceSource s _) as [a3 | msg |]; cbn [bind]; try reflexivity.
  destruct (AttrValue a3) as [a0 | b0 | d0 | f0 | i0 | str0 | t0 | u0 | attrs | tn0 lv0]; try reflexivity.
  destruct (0 <? List.length attrs)%nat; [| reflexivity].
  now rewrite each_appendAttrs.
Qed.

Lemma appendAttr_fuel :
  forall (lib : GoLib) (fuel : nat) (s : handleState.t) (a : Attr),
    settled (appendAttr lib fuel s a) ->
    appendAttr lib (S fuel) s a = appendAttr lib fuel s a.
Proof.
  intros lib fuel. induction fuel as [| fuel IH]; intros s a Hs;
    [exfalso; apply Hs; reflexivity |].
  assert (Hl : forall l s1,
             settled (appendAttrs lib fuel s1 l) ->
             appendAttrs lib (S fuel) s1 l = appendAttrs lib fuel s1 l).
  { induction l as [| aa l IHl]; intros s1 H1; [reflexivity |].
    cbn [appendAttrs] in *.
    pose proof (settled_bind _ _ _ _ H1) as Ha.
    rewrite (IH _ _ Ha).
    destruct (appendAttr lib fuel s1 aa) as [s2 | msg |]; cbn [bind] in *;
      try reflexivity.
    apply IHl. exact H1. }
  rewrite (appendAttr_S lib (S fuel)). rewrite (appendAttr_S lib fuel) in Hs |- *.
  cbv zeta in *.
  destruct (isEmpty _); [reflexivity |].
  destruct (replaceSource s _) as [a3 | msg |]; cbn [bind] in *; try reflexivity.
  destruct (AttrValue a3) as [a0 | b0 | d0 | f0 | i0 | str0 | t0 | u0 | attrs | tn0 lv0]; try reflexivity.
  destruct (0 <? List.length attrs)%nat; [| reflexivity].
  rewrite Hl; [reflexivity |].
  exact (settled_bind _ _ _ _ Hs).
Qed.

Lemma appendAttrs_fuel :
  forall (lib : GoLib) (fuel : nat) (l : list Attr) (s : handleState.t),
    settled (appendAttrs lib fuel s l) ->
    appendAttrs lib (S fuel) s l = appendAttrs lib fuel s l.
Proof.
  intros lib fuel l. induction l as [| a l IH]; intros s H; [reflexivity |].
  cbn [appendAttrs] in *.
  rewrite (appendAttr_fuel _ _ _ _ (settled_bind _ _ _ _ H)).
  destruct (appendAttr lib fuel s a) as [s1 | msg |]; cbn [bind] in *;
    try reflexivity.
  apply IH. exact H.
Qed.

Lemma builtIns_fuel :
  forall (lib : GoLib) (fuel : nat) (h : Handler) (r : Record_),
    settled (builtIns lib fuel h r) ->
    builtIns lib (S fuel) h r = builtIns lib fuel h r.
Proof.
  intros lib fuel h r. unfold builtIns.
  set (s0 := setGroups _ None). clearbody s0.
  destruct (ReplaceAttr (opts h)) as [rep |].
  - intros H.
    assert (H1 := settled_bind _ _ _ _ H).
    assert (X1 : (if negb (time.IsZero (Time r))
                  then appendAttr lib (S fuel) s0
                         (MkAttr TimeKey (KindTime (time.Round0 (Time r))))
                  else Ok s0)
                 = (if negb (time.IsZero (Time r))
                    then appendAttr lib fuel s0
                           (MkAttr TimeKey (KindTime (time.Round0 (Time r))))
                    else Ok s0))
      by (destruct (negb (time.IsZero (Time r)));
          [now apply appendAttr_fuel | reflexivity]).
    rewrite X1. clear X1 H1.
    match goal with
    | |- bind ?x _ = _ => destruct x as [s1 | msg |]
    end; cbn [bind] in *; try reflexivity.
    assert (H2 := settled_bind _ _ _ _ H).
    rewrite (appendAttr_fuel _ _ _ _ H2). clear H2.
    match goal with
    | |- bind ?x _ = _ => destruct x as [s2 | msg |]
    end; cbn [bind] in *; try reflexivity.
    assert (H3 := settled_bind _ _ _ _ H).
    assert (X3 : (if AddSource (opts h)
                  then appendAttr lib (S fuel) (resetColor s2)
                         (MkAttr SourceKey (KindAny (AnySource (Some (rSource lib r)))))
                  else Ok (resetColor s2))
                 = (if AddSource (opts h)
                    then appendAttr lib fuel (resetColor s2)
                           (MkAttr SourceKey (KindAny (AnySource (Some (rSource lib r)))))
                    else Ok (resetColor s2)))
      by (destruct (AddSource (opts h)); [now apply appendAttr_fuel | reflexivity]).
    rewrite X3. clear X3 H3.
    match goal with
    | |- bind ?x _ = _ => destruct x as [s3 | msg |]
    end; cbn [bind] in *; try reflexivity.
    now apply appendAttr_fuel.
  - intros H.
    match goal with
    | |- bind ?x _ = _ => destruct x as [s1 | msg |]
    end; cbn [bind] in *; try reflexivity.
    set (s2 := resetColor _) in *. clearbody s2.
    assert (H3 := settled_bind _ _ _ _ H).
    assert (X3 : (if AddSource (opts h)
                  then appendAttr lib (S fuel) s2
                         (MkAttr SourceKey (KindAny (AnySource (Some (rSource lib r)))))
                  else Ok s2)
                 = (if AddSource (opts h)
                    then appendAttr lib fuel s2
                           (MkAttr SourceKey (KindAny (AnySource (Some (rSource lib r)))))
                    else Ok s2))
      by (destruct (AddSource (opts h)); [now apply appendAttr_fuel | reflexivity]).
    rewrite X3. reflexivity.
Qed.

(** ** The attributes of the record in JSON mode *)

Lemma closeBraces_buf :
  forall (l : list bytes) (s : handleState.t),
    fold_left (fun s _ => setBuf s (buffer.WriteByte (handleState.buf s) x7d)) l s
    = setBuf s (handleState.buf s ++ repeat x7d (List.length l)).
Proof.
  intros l. induction l as [| x l IH]; intros s.
  - cbn. destruct s. cbn. now rewrite app_nil_r.
  - cbn [fold_left List.length repeat]. rewrite IH. unfold buffer.WriteByte.
    cbn [handleState.buf setBuf]. rewrite <- app_assoc. reflexivity.
Qed.

(** In JSON mode [appendNonBuiltIns] writes the bound attributes and the
    attributes of the record inside the pending groups, then one brace
    for each group of the handler and one for the line. *)
Lemma appendNonBuiltIns_json :
  forall (lib : GoLib) (fuel : nat) (s : handleState.t) (r : Record_),
    json (handleState.h s) = true ->
    appendNonBuiltIns lib fuel s r
    = if (0 <? NumAttrs r)%nat then
        do s' <- appendAttrs lib fuel (enterGroups lib (writeBound s)) (attrs r);
        Ok (setBuf s'
              (handleState.buf s'
                 ++ repeat x7d (List.length (groups (handleState.h s))) ++ [x7d]))
      else
        Ok (setBuf (writeBound s)
              (handleState.buf (writeBound s)
                 ++ repeat x7d
                      (List.length (firstn (nOpenGroups (handleState.h s))
                                      (groups (handleState.h s))))
                 ++ [x7d])).
Proof.
  intros lib fuel s r Hj. unfold appendNonBuiltIns. cbv zeta.
  fold (writeBound s).
  assert (Hh : handleState.h (writeBound s) = handleState.h s)
    by (unfold writeBound; destruct (0 <? len _)%nat; reflexivity).
  destruct (0 <? NumAttrs r)%nat.
  - fold (enterGroups lib (writeBound s)).
    destruct (appendAttrs lib fuel (enterGroups lib (writeBound s)) (attrs r))
      as [s4 | msg |] eqn:E4; cbn [bind]; try reflexivity.
    cbv beta iota.
    destruct (appendAttrs_frame _ _ _ _ _ E4) as (H4 & _).
    assert (H3 : handleState.h (enterGroups lib (writeBound s)) = handleState.h s).
    { unfold enterGroups, openGroups.
      match goal with
      | |- handleState.h (fold_left _ ?l ?x) = _ =>
          destruct (openGroups_frame_h lib l x) as (A & _); rewrite A
      end. exact Hh. }
    rewrite H4, H3, Hj. rewrite firstn_all, closeBraces_buf.
    unfold buffer.WriteByte. cbn [handleState.buf setBuf].
    now rewrite <- app_assoc.
  - cbn [bind]. cbv beta iota. rewrite Hh, Hj, closeBraces_buf.
    unfold buffer.WriteByte. cbn [handleState.buf setBuf].
    now rewrite <- app_assoc.
Qed.

(** ** A group bound to the handler and a group in the record *)

Lemma writeBound_stateFor :
  forall (h' : Handler) (fb : bool) (c : Z) (s : handleState.t),
    encodesAlike s h' c ->
    preformattedAttrs h' = preformattedAttrs (handleState.h s) ->
    writeBound (stateFor h' fb c s) = stateFor h' fb c (writeBound s).
Proof.
  intros h' fb c s He Hpre. unfold writeBound.
  pose proof (encodesAlike_attrSep _ _ _ He) as Hsep.
  change (handleState.h (stateFor h' fb c s)) with h'. rewrite Hpre.
  destruct (0 <? len (preformattedAttrs (handleState.h s)))%nat; [| reflexivity].
  st_cbn. now rewrite Hsep, Hpre.
Qed.

Lemma writeBound_frame :
  forall s : handleState.t, sameFrame s (writeBound s).
Proof.
  intros s. unfold writeBound.
  destruct (0 <? len (preformattedAttrs (handleState.h s)))%nat; repeat split.
Qed.

Lemma GroupValue_plain :
  forall l : list Attr, countEmptyGroups l = 0%nat -> GroupValue l = KindGroup l.
Proof. intros l H. unfold GroupValue. now rewrite H. Qed.

(** X4: in JSON mode, binding a group to the handler is the same as
    putting the attributes of the record into a group of that name: the
    handler [WithGroup h g] writes for a record the line that [h] writes
    for the record whose only attribute is the group [g] of the attributes,
    when the record has attributes and none of them is an empty group. The
    nested form needs one more unit of the fuel of the model. *)
Theorem bound_group_nests_the_record_attributes :
  forall (lib : GoLib) (fuel : nat) (h : Handler) (g : bytes) (r : Record_),
    json h = true -> pretty h = false ->
    g <> [] -> attrs r <> [] -> countEmptyGroups (attrs r) = 0%nat ->
    wellFormed h ->
    settled (Handle lib fuel (WithGroup h g) r) ->
    Handle lib (S fuel) h (setAttrs r [MkAttr g (GroupValue (attrs r))])
    = Handle lib fuel (WithGroup h g) r.
Proof.
  intros lib fuel h g r Hj Hp Hg Hattrs Hce Hn Hs. unfold wellFormed in Hn.
  set (h1 := WithGroup h g) in *.
  assert (Ha : handlesAlike h h1).
  { subst h1. unfold handlesAlike, WithGroup, clone. cbn. rewrite Hp.
    repeat split. now left. }
  rewrite !Handle_split in *.
  rewrite (builtIns_stateFor lib fuel h h1 r Ha) in *.
  change (builtIns lib (S fuel) h (setAttrs r [MkAttr g (GroupValue (attrs r))]))
    with (builtIns lib (S fuel) h r).
  assert (Hb : settled (builtIns lib fuel h r)).
  { apply settled_bind in Hs. apply settled_bind in Hs. exact Hs. }
  rewrite (builtIns_fuel _ _ _ _ Hb).
  destruct (builtIns lib fuel h r) as [st | msg |] eqn:Eb; cbn [bind] in *;
    try reflexivity.
  destruct (builtIns_h _ _ _ _ _ Eb) as (Hh & Hc & Hpx & Hgr & Hfb).
  assert (Hrg : recordGroups h1 = recordGroups h).
  { unfold recordGroups. subst h1. unfold WithGroup, clone. cbn.
    destruct (ReplaceAttr (opts h)); [| reflexivity].
    rewrite firstn_app. replace (nOpenGroups h - List.length (groups h))%nat with 0%nat by lia.
    cbn [firstn]. now rewrite app_nil_r. }
  rewrite Hrg in *.
  change (setGroups (stateFor h1 true noColor st) (recordGroups h))
    with (stateFor h1 true noColor (setGroups st (recordGroups h))) in *.
  set (s := setGroups st (recordGroups h)) in *.
  assert (Hhs : handleState.h s = h) by exact Hh.
  assert (He : encodesAlike s h1 noColor).
  { pose proof (handlesAlike_encodes h h1 s Ha Hhs) as He.
    change (handleState.color s) with (handleState.color st) in He.
    now rewrite Hc in He. }
  clearbody s.
  rewrite !appendNonBuiltIns_json in * by (try exact Hj; rewrite Hhs; exact Hj).
  change (handleState.h (stateFor h1 true noColor s)) with h1 in *.
  rewrite Hhs in *.
  assert (N1 : (0 <? NumAttrs r)%nat = true)
    by (unfold NumAttrs; destruct (attrs r); [contradiction | reflexivity]).
  rewrite N1 in *.
  change (0 <? NumAttrs (setAttrs r [MkAttr g (GroupValue (attrs r))]))%nat with true.
  cbv iota.
  change (attrs (setAttrs r [MkAttr g (GroupValue (attrs r))]))
    with [MkAttr g (GroupValue (attrs r))].
  rewrite writeBound_stateFor in * by (rewrite ?Hhs; first [exact He | reflexivity]).
  set (s1 := writeBound s) in *.
  assert (F1 : sameFrame s s1) by apply writeBound_frame.
  pose proof (encodesAlike_frame _ _ _ _ He F1) as He1.
  assert (Hh1 : handleState.h s1 = h) by (destruct F1 as (A & _); congruence).
  clearbody s1.
  (* the groups that the bound handler opens *)
  assert (Hent : enterGroups lib (stateFor h1 true noColor s1)
                 = stateFor h1 true noColor (openGroup lib (enterGroups lib s1) g)).
  { unfold enterGroups, openGroups.
    change (handleState.h (setPrefix (stateFor h1 true noColor s1) ?x)) with h1.
    change (handleState.h (stateFor h1 true noColor s1)) with h1.
    change (handleState.prefix (stateFor h1 true noColor s1)) with (handleState.prefix s1).
    change (handleState.h (setPrefix s1 ?x)) with (handleState.h s1).
    rewrite Hh1.
    change (groupPrefix h1) with (groupPrefix h).
    change (nOpenGroups h1) with (nOpenGroups h).
    change (groups h1) with (groups h ++ [g]).
    rewrite skipn_app.
    replace (nOpenGroups h - List.length (groups h))%nat with 0%nat by lia.
    cbn [skipn]. rewrite fold_left_app. cbn [fold_left].
    change (setPrefix (stateFor h1 true noColor s1)
              (buffer.WriteString (handleState.prefix s1) (groupPrefix h)))
      with (stateFor h1 true noColor
              (setPrefix s1 (buffer.WriteString (handleState.prefix s1) (groupPrefix h)))).
    set (s2 := setPrefix s1 _).
    assert (He2 : encodesAlike s2 h1 noColor) by exact He1.
    rewrite fold_openGroup_stateFor by exact He2.
    apply openGroup_stateFor.
    destruct (openGroups_frame_h lib (skipn (nOpenGroups h) (groups h)) s2) as (A & B).
    unfold encodesAlike in *. now rewrite A, B. }
  rewrite Hent in *. clear Hent.
  set (s3 := enterGroups lib s1) in *.
  assert (Hh3 : handleState.h s3 = h).
  { subst s3. unfold enterGroups, openGroups.
    match goal with
    | |- handleState.h (fold_left _ ?l ?x) = _ =>
        destruct (openGroups_frame_h lib l x) as (A & _); rewrite A
    end. exact Hh1. }
  clearbody s3.
  assert (He3 : encodesAlike (openGroup lib s3 g) h1 noColor).
  { destruct (openGroup_fields lib s3 g) as (O1 & _).
    unfold encodesAlike. rewrite O1, Hh3. destruct Ha as (A1 & A2 & A3 & _).
    repeat split; try assumption. now left. }
  rewrite appendAttrs_stateFor in * by exact He3.
  cbn [appendAttrs]. rewrite appendAttr_S. cbv zeta.
  rewrite (GroupValue_plain _ Hce).
  cbn [AttrValue Key isKindGroup negb].
  assert (Hrep : match ReplaceAttr (opts (handleState.h s3)) with
                 | Some _ => MkAttr g (KindGroup (attrs r))
                 | None => MkAttr g (KindGroup (attrs r))
                 end = MkAttr g (KindGroup (attrs r)))
    by (destruct (ReplaceAttr (opts (handleState.h s3))); reflexivity).
  rewrite Hrep. clear Hrep.
  cbn [AttrValue Key].
  change (Resolve (KindGroup (attrs r))) with (KindGroup (attrs r)).
  assert (Hkey : isEmptyString g = false) by (destruct g; [contradiction | reflexivity]).
  unfold isEmpty. cbn [AttrValue Key]. rewrite Hkey. cbn [andb negb].
  unfold replaceSource. cbn [AttrValue Key bind].
  assert (N2 : (0 <? List.length (attrs r))%nat = true) by exact N1.
  rewrite N2, Hkey. cbn [negb].
  destruct (appendAttrs lib fuel (openGroup lib s3 g) (attrs r)) as [s4 | msg |] eqn:E4;
    cbn [bind] in *; try reflexivity.
  destruct (appendAttrs_frame _ _ _ _ _ E4) as (H4 & _).
  rewrite openGroup_h, Hh3 in H4.
  unfold closeGroup. rewrite H4, Hj.
  assert (Hbuf : forall x y : handleState.t,
             handleState.buf x = handleState.buf y ->
             (handleState.buf x ++ [newline],
              Write (w h) (handleState.buf x ++ [newline]))
             = (handleState.buf y ++ [newline],
                Write (w h1) (handleState.buf y ++ [newline])))
    by (intros x y E; rewrite E; reflexivity).
  f_equal. apply Hbuf.
  change (groups h1) with (groups h ++ [g]).
  rewrite length_app. cbn [List.length].
  replace (List.length (groups h) + 1)%nat with (S (List.length (groups h))) by lia.
  destruct (handleState.groups (setSep (setBuf s4 _) _));
    cbn [handleState.buf setBuf setSep setGroups stateFor repeat];
    unfold buffer.WriteByte; rewrite <- !app_assoc; reflexivity.
Qed.

Lemma bound_group_nests_the_record_attributes_witness :
  Handle sampleLib 3 (NewJSONHandler discard 0 None)
    (setAttrs startedRecord [MkAttr (B "g") (GroupValue (attrs startedRecord))])
  = Handle sampleLib 2 groupedHandler startedRecord.
Proof.
  apply (bound_group_nests_the_record_attributes sampleLib 2
           (NewJSONHandler discard 0 None) (B "g") startedRecord);
    [ reflexivity | reflexivity | discriminate | discriminate | reflexivity
    | unfold wellFormed; cbn; lia
    | unfold settled; vm_compute; discriminate ].
Defined.

(** ** The pending separator in JSON mode *)

Lemma setBuf_buf : forall s : handleState.t, setBuf s (handleState.buf s) = s.
Proof. intros s. destruct s. reflexivity. Qed.

Lemma prepend_nil_buf :
  forall s : handleState.t, prepend (handleState.buf s) (setBuf s []) = s.
Proof.
  intros s. unfold prepend. cbn [handleState.buf setBuf].
  rewrite app_nil_r. destruct s. reflexivity.
Qed.

(** What a list of attributes writes does not depend on the buffer it
    is written to. *)
Lemma appendAttrs_rebuffer :
  forall (lib : GoLib) (fuel : nat) (l : list Attr) (s s' : handleState.t),
    appendAttrs lib fuel s l = Ok s' ->
    exists out : bytes,
      handleState.buf s' = handleState.buf s ++ out
      /\ forall b : bytes,
           appendAttrs lib fuel (setBuf s b) l = Ok (setBuf s' (b ++ out)).
Proof.
  intros lib fuel l s s' E.
  pose proof (appendAttrs_prepend lib (handleState.buf s) fuel l (setBuf s [])) as P.
  rewrite prepend_nil_buf, E in P. unfold prependResult in P.
  destruct (appendAttrs lib fuel (setBuf s []) l) as [t | msg |] eqn:Et;
    cbn [bind] in P; try discriminate P.
  injection P as P. exists (handleState.buf t). split.
  - rewrite P. reflexivity.
  - intros b.
    pose proof (appendAttrs_prepend lib b fuel l (setBuf s [])) as Q.
    rewrite Et in Q. cbn [prependResult bind] in Q.
    replace (prepend b (setBuf s [])) with (setBuf s b) in Q
      by (unfold prepend; cbn [handleState.buf setBuf]; now rewrite app_nil_r).
    rewrite Q, P. reflexivity.
Qed.

Lemma appendAttr_rebuffer :
  forall (lib : GoLib) (fuel : nat) (a : Attr) (s s' : handleState.t),
    appendAttr lib fuel s a = Ok s' ->
    exists out : bytes,
      handleState.buf s' = handleState.buf s ++ out
      /\ forall b : bytes,
           appendAttr lib fuel (setBuf s b) a = Ok (setBuf s' (b ++ out)).
Proof.
  intros lib fuel a s s' E.
  destruct (appendAttrs_rebuffer lib fuel [a] s s') as (out & H1 & H2).
  - cbn [appendAttrs]. rewrite E. reflexivity.
  - exists out. split; [exact H1 |]. intros b. specialize (H2 b).
    cbn [appendAttrs] in H2.
    destruct (appendAttr lib fuel (setBuf s b) a); cbn [bind] in H2;
      congruence.
Qed.

Lemma appendValue_rebuffer :
  forall (lib : GoLib) (v : Value) (s s' : handleState.t),
    appendValue lib s v = Ok s' ->
    exists out : bytes,
      handleState.buf s' = handleState.buf s ++ out
      /\ forall b : bytes,
           appendValue lib (setBuf s b) v = Ok (setBuf s' (b ++ out)).
Proof.
  intros lib v s s' E.
  pose proof (appendValue_prepend lib (handleState.buf s) (setBuf s []) v) as P.
  rewrite prepend_nil_buf, E in P. unfold prependResult in P.
  destruct (appendValue lib (setBuf s []) v) as [t | msg |] eqn:Et;
    cbn [bind] in P; try discriminate P.
  injection P as P. exists (handleState.buf t). split.
  - rewrite P. reflexivity.
  - intros b.
    pose proof (appendValue_prepend lib b (setBuf s []) v) as Q.
    rewrite Et in Q. cbn [prependResult bind] in Q.
    replace (prepend b (setBuf s [])) with (setBuf s b) in Q
      by (unfold prepend; cbn [handleState.buf setBuf]; now rewrite app_nil_r).
    rewrite Q, P. reflexivity.
Qed.

Lemma appendString_sep :
  forall (lib : GoLib) (s : handleState.t) (str : bytes),
    handleState.sep (appendString lib s str) = handleState.sep s.
Proof.
  intros lib s str. unfold appendString.
  repeat match goal with
         | |- context [if ?c then _ else _] => destruct c
         end; reflexivity.
Qed.

Lemma appendTime_sep :
  forall (lib : GoLib) (s s' : handleState.t) (t : time.Time),
    appendTime lib s t = Ok s' -> handleState.sep s' = handleState.sep s.
Proof.
  intros lib s s' t. unfold appendTime.
  destruct (json (handleState.h s)).
  - intros E. injection E as <-. unfold appendJSONTime, appendError.
    cbn [handleState.sep setBuf].
    destruct ((time.Year t <? 0) || (10000 <=? time.Year t));
      [apply appendString_sep | reflexivity].
  - destruct (pretty (handleState.h s)).
    + intros E. injection E as <-. reflexivity.
    + destruct (writeTimeRFC3339Millis (handleState.buf s) t); cbn [bind];
        intros E; [injection E as <-; reflexivity | discriminate E ..].
Qed.

Lemma appendValue_sep :
  forall (lib : GoLib) (s s' : handleState.t) (v : Value),
    appendValue lib s v = Ok s' -> handleState.sep s' = handleState.sep s.
Proof.
  intros lib s s' v. unfold appendValue.
  assert (Hval : forall r,
             (forall s1 e, r = Ok (s1, e) -> handleState.sep s1 = handleState.sep s) ->
             (do (s0, err) <- r;
              match err with
              | Some e => Ok (appendError lib s0 e)
              | None => Ok s0
              end) = Ok s' -> handleState.sep s' = handleState.sep s).
  { intros r Hr. destruct r as [[s1 [e |]] | |]; cbn [bind]; intros E;
      try discriminate E; injection E as <-.
    - unfold appendError. rewrite appendString_sep. exact (Hr _ _ eq_refl).
    - exact (Hr _ _ eq_refl). }
  destruct (json (handleState.h s)); apply Hval; intros s1 e.
  - destruct v; cbn [appendJSONValue]; intros E; try discriminate E;
      try (injection E as <- <-; first [apply appendString_sep | reflexivity]).
    + destruct (asError (capabilities a)) as [msg |];
        [destruct (negb (isJSONMarshaler (capabilities a))) |];
        try (injection E as <- <-; apply appendString_sep);
        destruct (jsonEncode (capabilities a)); cbn [appendJSONMarshal] in E;
        injection E as <- <-; reflexivity.
    + destruct (jsonEncodeFloat lib f); cbn [appendJSONMarshal] in E;
        injection E as <- <-; reflexivity.
    + destruct (appendTime lib s t) eqn:Et; cbn [bind] in E; try discriminate E.
      injection E as <- <-. exact (appendTime_sep _ _ _ _ Et).
  - destruct v; cbn [appendTextValue]; intros E; try discriminate E;
      try (injection E as <- <-; first [apply appendString_sep | reflexivity]).
    + destruct (MarshalText (capabilities a)) as [[data | err] |].
      * injection E as <- <-. apply appendString_sep.
      * injection E as <- <-. reflexivity.
      * destruct (asByteSlice (capabilities a)) as [bs |];
          [destruct (negb (safe (handleState.h s)) && pretty (handleState.h s)) |];
          injection E as <- <-;
          first [apply appendString_sep | reflexivity].
    + destruct (appendTime lib s t) eqn:Et; cbn [bind] in E; try discriminate E.
      injection E as <- <-. exact (appendTime_sep _ _ _ _ Et).
Qed.

(** In JSON mode a key is the pending separator, the quoted key and a
    colon, and leaves the comma pending. *)
Lemma appendKey_json :
  forall (lib : GoLib) (s : handleState.t) (key : bytes),
    json (handleState.h s) = true -> pretty (handleState.h s) = false ->
    exists k : bytes,
      k <> []
      /\ forall x : bytes,
           appendKey lib (setSep s x) key
           = setSep (setBuf s (handleState.buf s ++ x ++ k)) JSONSep.
Proof.
  intros lib s key Hj Hp.
  exists ([dquote]
            ++ appendEscapedJSONString []
                 (if (0 <? len (handleState.prefix s))%nat
                  then handleState.prefix s ++ key else key)
            ++ [dquote; x3a]).
  split; [discriminate |].
  intros x. unfold appendKey, appendString, attrSep.
  cbn [handleState.h handleState.buf handleState.sep handleState.prefix
       setBuf setSep].
  rewrite Hp, Hj. cbn [negb].
  destruct (0 <? len (handleState.prefix s))%nat;
    cbn [handleState.h handleState.buf handleState.sep setBuf setSep];
    rewrite Hj; unfold buffer.WriteByte, buffer.WriteString;
    cbn [handleState.h handleState.buf handleState.sep setBuf setSep];
    rewrite (appendEscapedJSONString_runes (_ ++ _));
    rewrite (appendEscapedJSONString_runes []);
    cbn [app]; rewrite <- !app_assoc; cbn [app]; rewrite ?Hj; reflexivity.
Qed.

Lemma appendAttrs_afterSep :
  forall (lib : GoLib) (fuel : nat),
    (forall (s s' : handleState.t) (a : Attr),
        json (handleState.h s) = true -> pretty (handleState.h s) = false ->
        appendAttr lib fuel s a = Ok s' ->
        afterSep (fun t => appendAttr lib fuel t a) s s') ->
    forall (l : list Attr) (s s' : handleState.t),
      json (handleState.h s) = true -> pretty (handleState.h s) = false ->
      appendAttrs lib fuel s l = Ok s' ->
      afterSep (fun t => appendAttrs lib fuel t l) s s'.
Proof.
  intros lib fuel IH.
  induction l as [| a l IHl]; intros s s' Hj Hp E.
  - injection E as <-. left. split; [reflexivity | intros x; reflexivity].
  - cbn [appendAttrs] in E.
    destruct (appendAttr lib fuel s a) as [s1 | msg |] eqn:E1; cbn [bind] in E;
      try discriminate E.
    destruct (IH _ _ _ Hj Hp E1) as [(-> & Hx) | (y & Hy & Hb & Hsep & Hx)].
    + destruct (IHl _ _ Hj Hp E) as [(-> & Hx') | (y & Hy & Hb & Hsep & Hx')].
      * left. split; [reflexivity |]. intros x. cbn [appendAttrs].
        rewrite Hx. cbn [bind]. apply Hx'.
      * right. exists y. repeat split; try assumption.
        intros x. cbn [appendAttrs]. rewrite Hx. cbn [bind]. apply Hx'.
    + destruct (appendAttr_frame _ _ _ _ _ E1) as (Hh1 & _).
      assert (Hsep' : handleState.sep s' = JSONSep).
      { destruct (IHl s1 s') as [(-> & _) | (_ & _ & _ & Hs & _)];
          rewrite ?Hh1; assumption. }
      destruct (appendAttrs_rebuffer _ _ _ _ _ E) as (out & Ho & Hr).
      right. exists (y ++ out). repeat split.
      * destruct y; [contradiction | discriminate].
      * rewrite Ho, Hb. now rewrite <- !app_assoc.
      * exact Hsep'.
      * intros x. cbn [appendAttrs]. rewrite Hx. cbn [bind].
        rewrite Hr. f_equal. unfold setBuf. cbn. f_equal.
        now rewrite <- !app_assoc.
Qed.

Lemma appendAttr_json :
  forall (lib : GoLib) (fuel : nat) (s s' : handleState.t) (a : Attr),
    json (handleState.h s) = true -> pretty (handleState.h s) = false ->
    appendAttr lib fuel s a = Ok s' ->
    afterSep (fun t => appendAttr lib fuel t a) s s'.
Proof.
  intros lib fuel. induction fuel as [| fuel IH]; intros s s' a Hj Hp E;
    [discriminate E |].
  pose proof (appendAttrs_afterSep lib fuel IH) as IHl.
  rewrite appendAttr_S in E. cbv zeta in E.
  set (a1 := match ReplaceAttr (opts (handleState.h s)) with
             | Some rep => _
             | None => a
             end) in E.
  set (a2 := MkAttr (Key a1) (Resolve (AttrValue a1))) in E.
  assert (Hrun : forall x,
             appendAttr lib (S fuel) (setSep s x) a
             = if isEmpty a2 then Ok (setSep s x)
               else
                 do a <- replaceSource s a2;
                 match AttrValue a with
                 | KindGroup attrs =>
                     if (0 <? List.length attrs)%nat then
                       let t := if negb (isEmptyString (Key a))
                                then openGroup lib (setSep s x) (Key a)
                                else setSep s x in
                       do t <- appendAttrs lib fuel t attrs;
                       Ok (if negb (isEmptyString (Key a))
                           then closeGroup t (Key a) else t)
                     else Ok (setSep s x)
                 | v => appendValue lib (appendKey lib (setSep s x) (Key a)) v
                 end).
  { intros x. rewrite appendAttr_S. reflexivity. }
  destruct (isEmpty a2) eqn:Hemp.
  { injection E as <-. left. split; [reflexivity |]. intros x. apply Hrun. }
  destruct (replaceSource s a2) as [a3 | msg |] eqn:Hsrc; cbn [bind] in E, Hrun;
    try discriminate E.
  assert (Hleaf : forall v,
             isKindGroup v = false ->
             appendValue lib (appendKey lib s (Key a3)) v = Ok s' ->
             (forall x, appendAttr lib (S fuel) (setSep s x) a
                        = appendValue lib (appendKey lib (setSep s x) (Key a3)) v) ->
             afterSep (fun t => appendAttr lib (S fuel) t a) s s').
  { intros v Hv Ev Hx.
    destruct (appendKey_json lib s (Key a3) Hj Hp) as (k & Hk & Hkey).
    assert (Hk0 : appendKey lib s (Key a3)
                  = setSep (setBuf s (handleState.buf s ++ handleState.sep s ++ k))
                      JSONSep).
    { rewrite <- (Hkey (handleState.sep s)). f_equal. destruct s; reflexivity. }
    destruct (appendValue_rebuffer _ _ _ _ Ev) as (out & Ho & Hr).
    right. exists (k ++ out). repeat split.
    - destruct k; [contradiction | discriminate].
    - rewrite Ho, Hk0. cbn [handleState.buf setBuf setSep].
      now rewrite <- !app_assoc.
    - rewrite (appendValue_sep _ _ _ _ Ev), Hk0. reflexivity.
    - intros x. rewrite Hx, Hkey.
      specialize (Hr (handleState.buf s ++ x ++ k)).
      rewrite Hk0 in Hr.
      change (setBuf (setSep (setBuf s (handleState.buf s ++ handleState.sep s ++ k))
                        JSONSep) (handleState.buf s ++ x ++ k))
        with (setSep (setBuf s (handleState.buf s ++ x ++ k)) JSONSep) in Hr.
      rewrite Hr. f_equal. unfold setBuf. f_equal. now rewrite <- !app_assoc. }
  destruct (AttrValue a3) as [a0 | b0 | d0 | f0 | i0 | str0 | t0 | u0 | attrs | tn0 lv0] eqn:Ev;
    try (refine (Hleaf _ _ E _); [reflexivity | intros x; rewrite Hrun; reflexivity]).
  clear Hleaf.
  destruct (0 <? List.length attrs)%nat eqn:Hlen.
  2:{ injection E as <-. left. split; [reflexivity |]. intros x. apply Hrun. }
  cbv zeta in E, Hrun.
  destruct (negb (isEmptyString (Key a3))) eqn:Hkey.
  - (* a group with a key *)
    destruct (appendAttrs lib fuel (openGroup lib s (Key a3)) attrs) as [s4 | |] eqn:E4;
      cbn [bind] in E; try discriminate E.
    injection E as <-.
    destruct (appendKey_json lib s (Key a3) Hj Hp) as (k & Hk & Hkx).
    assert (Hopen : forall x,
               openGroup lib (setSep s x) (Key a3)
               = setBuf (openGroup lib (setSep s []) (Key a3))
                   (handleState.buf s ++ x ++ k ++ [x7b])).
    { intros x. unfold openGroup.
      change (handleState.h (setSep s x)) with (handleState.h s).
      change (handleState.h (setSep s [])) with (handleState.h s).
      rewrite Hj, !Hkx. unfold buffer.WriteByte.
      cbn [handleState.groups handleState.buf setBuf setSep].
      destruct (handleState.groups s);
        cbn [setBuf setSep setGroups handleState.h handleState.buf
             handleState.color handleState.freeBuf handleState.sep
             handleState.prefix handleState.groups];
        rewrite <- !app_assoc; reflexivity. }
    assert (Hopen0 : openGroup lib s (Key a3)
                     = setBuf (openGroup lib (setSep s []) (Key a3))
                         (handleState.buf s ++ handleState.sep s ++ k ++ [x7b])).
    { rewrite <- Hopen. f_equal. destruct s; reflexivity. }
    set (o := openGroup lib (setSep s []) (Key a3)) in *.
    rewrite Hopen0 in E4.
    destruct (appendAttrs_rebuffer _ _ _ _ _ E4) as (out & Ho & Hr).
    cbn [handleState.buf setBuf] in Ho.
    destruct (appendAttrs_frame _ _ _ _ _ E4) as (Hh4 & _).
    assert (Hho : handleState.h o = handleState.h s)
      by (subst o; rewrite openGroup_h; reflexivity).
    cbn [handleState.h setBuf] in Hh4. rewrite Hho in Hh4.
    right. exists (k ++ [x7b] ++ out ++ [x7d]). repeat split.
    + destruct k; [contradiction | discriminate].
    + unfold closeGroup. rewrite Hh4, Hj. unfold buffer.WriteByte.
      destruct (handleState.groups (setSep (setBuf s4 _) _));
        cbn [handleState.buf setBuf setSep setGroups];
        rewrite Ho; rewrite <- !app_assoc; reflexivity.
    + unfold closeGroup. rewrite Hh4, Hj. unfold attrSep.
      destruct (handleState.groups (setSep (setBuf s4 _) _));
        cbn [handleState.sep handleState.h setBuf setSep setGroups];
        rewrite Hh4, Hj; reflexivity.
    + intros x. rewrite Hrun, Hopen.
      specialize (Hr (handleState.buf s ++ x ++ k ++ [x7b])).
      change (setBuf (setBuf o (handleState.buf s ++ handleState.sep s ++ k ++ [x7b]))
                (handleState.buf s ++ x ++ k ++ [x7b]))
        with (setBuf o (handleState.buf s ++ x ++ k ++ [x7b])) in Hr.
      rewrite Hr. cbn [bind]. f_equal.
      unfold closeGroup.
      cbn [setBuf handleState.h handleState.buf handleState.color
           handleState.freeBuf handleState.sep handleState.prefix
           handleState.groups].
      rewrite Hh4, Hj. unfold buffer.WriteByte.
      cbn [setBuf setSep handleState.h handleState.buf handleState.color
           handleState.freeBuf handleState.sep handleState.prefix
           handleState.groups].
      destruct (handleState.groups s4);
        cbn [setBuf setSep setGroups handleState.h handleState.buf handleState.color
             handleState.freeBuf handleState.sep handleState.prefix
             handleState.groups];
        rewrite <- !app_assoc; cbn [app]; reflexivity.
  - (* a group that is inlined *)
    destruct (appendAttrs lib fuel s attrs) as [s4 | |] eqn:E4;
      cbn [bind] in E; try discriminate E.
    injection E as <-.
    destruct (IHl _ _ _ Hj Hp E4) as [(-> & Hx) | (y & Hy & Hb & Hsep & Hx)].
    + left. split; [reflexivity |]. intros x. rewrite Hrun, Hx. reflexivity.
    + right. exists y. repeat split; try assumption.
      intros x. rewrite Hrun, Hx. reflexivity.
Qed.

Lemma appendAttrs_json :
  forall (lib : GoLib) (fuel : nat) (l : list Attr) (s s' : handleState.t),
    json (handleState.h s) = true -> pretty (handleState.h s) = false ->
    appendAttrs lib fuel s l = Ok s' ->
    afterSep (fun t => appendAttrs lib fuel t l) s s'.
Proof.
  intros lib fuel. apply appendAttrs_afterSep. intros s s' a. apply appendAttr_json.
Qed.

Lemma setSep_sep : forall s : handleState.t, setSep s (handleState.sep s) = s.
Proof. intros s. destruct s. reflexivity. Qed.

Lemma last_app_cons :
  forall (A : Type) (l1 l2 : list A) (x d : A),
    last (l1 ++ x :: l2) d = last (x :: l2) d.
Proof.
  intros A l1. induction l1 as [| a l1 IH]; intros l2 x d; [reflexivity |].
  transitivity (last (l1 ++ x :: l2) d); [| apply IH].
  destruct l1; reflexivity.
Qed.

(** In JSON mode the groups that are opened write the pending separator
    and then bytes that end on an opening brace, and leave no separator
    pending. *)
Lemma fold_openGroup_json :
  forall (lib : GoLib) (l : list bytes) (s : handleState.t),
    json (handleState.h s) = true -> pretty (handleState.h s) = false ->
    l <> [] ->
    exists y : bytes,
      y <> [] /\ last y x00 = x7b
      /\ handleState.sep (fold_left (openGroup lib) l (setSep s [])) = []
      /\ handleState.buf (fold_left (openGroup lib) l (setSep s []))
         = handleState.buf s ++ y
      /\ forall x : bytes,
           fold_left (openGroup lib) l (setSep s x)
           = setBuf (fold_left (openGroup lib) l (setSep s []))
               (handleState.buf s ++ x ++ y).
Proof.
  intros lib l. induction l as [| name rest IH]; intros s Hj Hp Hl; [contradiction |].
  destruct (appendKey_json lib s name Hj Hp) as (k & Hk & Hkx).
  assert (Hopen : forall x,
             openGroup lib (setSep s x) name
             = setBuf (openGroup lib (setSep s []) name)
                 (handleState.buf s ++ x ++ k ++ [x7b])).
  { intros x. unfold openGroup.
    change (handleState.h (setSep s x)) with (handleState.h s).
    change (handleState.h (setSep s [])) with (handleState.h s).
    rewrite Hj, !Hkx. unfold buffer.WriteByte.
    cbn [handleState.groups handleState.buf setBuf setSep].
    destruct (handleState.groups s);
      cbn [setBuf setSep setGroups handleState.h handleState.buf
           handleState.color handleState.freeBuf handleState.sep
           handleState.prefix handleState.groups];
      rewrite <- !app_assoc; reflexivity. }
  set (o := openGroup lib (setSep s []) name) in *.
  assert (Ho : handleState.sep o = [] /\ handleState.buf o = handleState.buf s ++ k ++ [x7b]
               /\ handleState.h o = handleState.h s).
  { subst o. unfold openGroup.
    change (handleState.h (setSep s [])) with (handleState.h s).
    rewrite Hj, Hkx. unfold buffer.WriteByte.
    cbn [handleState.groups handleState.buf setBuf setSep].
    destruct (handleState.groups s);
      cbn [setBuf setSep setGroups handleState.h handleState.buf
           handleState.color handleState.freeBuf handleState.sep
           handleState.prefix handleState.groups];
      rewrite <- ?app_assoc; repeat split. }
  destruct Ho as (Hso & Hbo & Hho).
  cbn [fold_left]. fold o.
  destruct rest as [| name2 rest].
  - exists (k ++ [x7b]). cbn [fold_left]. repeat split.
    + destruct k; [contradiction | discriminate].
    + destruct k; [contradiction |]. now rewrite last_app_cons.
    + exact Hso.
    + exact Hbo.
    + intros x. rewrite Hopen. reflexivity.
  - set (rest' := name2 :: rest) in *.
    destruct (IH o) as (y' & Hy' & Hlast & Hsep & Hbuf & Hx);
      [rewrite Hho; exact Hj | rewrite Hho; exact Hp | discriminate |].
    assert (Eo : setSep o [] = o) by (rewrite <- Hso; apply setSep_sep).
    rewrite Eo in *.
    set (F := fold_left (openGroup lib) rest' (setBuf o [])).
    assert (HF : forall b, fold_left (openGroup lib) rest' (setBuf o b) = prepend b F).
    { intros b. subst F. rewrite <- fold_openGroup_prepend. f_equal.
      unfold prepend. cbn [handleState.buf setBuf]. now rewrite app_nil_r. }
    assert (HFo : fold_left (openGroup lib) rest' o = prepend (handleState.buf o) F)
      by (rewrite <- HF; now rewrite setBuf_buf).
    assert (HbF : handleState.buf F = y').
    { rewrite HFo in Hbuf. unfold prepend in Hbuf. cbn [handleState.buf setBuf] in Hbuf.
      now apply app_inv_head in Hbuf. }
    exists (k ++ [x7b] ++ y'). repeat split.
    + destruct k; [contradiction | discriminate].
    + destruct y' as [| c y']; [contradiction |].
      rewrite app_assoc, last_app_cons. exact Hlast.
    + exact Hsep.
    + rewrite Hbuf, Hbo. now rewrite <- !app_assoc.
    + intros x. rewrite Hopen, HF, HFo. unfold prepend.
      cbn [handleState.buf setBuf]. rewrite HbF.
      unfold setBuf. cbn. f_equal. now rewrite <- !app_assoc.
Qed.

Lemma bound_run_json :
  forall (lib : GoLib) (fuel : nat) (pending : list bytes) (l : list Attr)
         (s s' : handleState.t),
    json (handleState.h s) = true -> pretty (handleState.h s) = false ->
    appendAttrs lib fuel (fold_left (openGroup lib) pending s) l = Ok s' ->
    boundAfterSep pending
      (fun t => appendAttrs lib fuel (fold_left (openGroup lib) pending t) l) s s'.
Proof.
  intros lib fuel pending l s s' Hj Hp E.
  destruct pending as [| name rest].
  - cbn [fold_left] in *.
    destruct (appendAttrs_json _ _ _ _ _ Hj Hp E) as [(-> & Hx) | (y & Hy & Hb & Hsep & Hx)].
    + left. repeat split. exact Hx.
    + right. exists y. repeat split; try assumption. now left.
  - set (pending := name :: rest) in *.
    destruct (fold_openGroup_json lib pending s Hj Hp) as (yg & Hyg & Hlast & Hsg & Hbg & Hxg);
      [discriminate |].
    set (G0 := fold_left (openGroup lib) pending (setSep s [])) in *.
    assert (HG : fold_left (openGroup lib) pending s
                 = setBuf G0 (handleState.buf s ++ handleState.sep s ++ yg))
      by (rewrite <- Hxg; now rewrite setSep_sep).
    set (G := fold_left (openGroup lib) pending s) in *.
    assert (HhG : handleState.h G = handleState.h s).
    { subst G. destruct (openGroups_frame_h lib pending s) as (A & _). exact A. }
    assert (HsG : handleState.sep G = []) by (rewrite HG; exact Hsg).
    assert (HjG : json (handleState.h G) = true) by (rewrite HhG; exact Hj).
    assert (HpG : pretty (handleState.h G) = false) by (rewrite HhG; exact Hp).
    destruct (appendAttrs_rebuffer _ _ _ _ _ E) as (out & Hout & Hre).
    assert (Hrun : forall x,
               appendAttrs lib fuel (fold_left (openGroup lib) pending (setSep s x)) l
               = Ok (setBuf s' ((handleState.buf s ++ x ++ yg) ++ out))).
    { intros x. rewrite Hxg. rewrite <- (Hre (handleState.buf s ++ x ++ yg)).
      rewrite HG. reflexivity. }
    right. exists (yg ++ out). repeat split.
    + destruct yg; [contradiction | discriminate].
    + rewrite Hout, HG. cbn [handleState.buf setBuf]. now rewrite <- !app_assoc.
    + destruct (appendAttrs_json _ _ _ _ _ HjG HpG E)
        as [(-> & _) | (y & Hy & Hb & Hsep & _)].
      * right. repeat split; [discriminate | exact HsG |].
        assert (out = []).
        { apply (app_inv_head (handleState.buf G)). now rewrite app_nil_r. }
        subst out. now rewrite app_nil_r.
      * left. exact Hsep.
    + intros x. rewrite Hrun. now rewrite <- !app_assoc.
Qed.

Lemma appendAttrs_app :
  forall (lib : GoLib) (fuel : nat) (l1 l2 : list Attr) (s : handleState.t),
    appendAttrs lib fuel s (l1 ++ l2)
    = do s1 <- appendAttrs lib fuel s l1; appendAttrs lib fuel s1 l2.
Proof.
  intros lib fuel l1 l2. induction l1 as [| a l1 IH]; intros s; [reflexivity |].
  cbn [app appendAttrs].
  destruct (appendAttr lib fuel s a); cbn [bind]; try reflexivity. apply IH.
Qed.

Lemma fold_openGroup_fields :
  forall (lib : GoLib) (l : list bytes) (s : handleState.t),
    json (handleState.h s) = true ->
    handleState.prefix (fold_left (openGroup lib) l s) = handleState.prefix s
    /\ handleState.groups (fold_left (openGroup lib) l s)
       = option_map (fun gs => gs ++ l) (handleState.groups s)
    /\ handleState.freeBuf (fold_left (openGroup lib) l s) = handleState.freeBuf s.
Proof.
  intros lib l. induction l as [| name l IH]; intros s Hj.
  - cbn [fold_left]. repeat split.
    destruct (handleState.groups s); cbn [option_map]; [now rewrite app_nil_r | reflexivity].
  - cbn [fold_left].
    destruct (openGroup_fields lib s name) as (O1 & O2 & O3 & O4 & O5).
    destruct (IH (openGroup lib s name)) as (A & B & C); [now rewrite O1 |].
    rewrite A, B, C, O3, O4, O5, Hj. repeat split.
    destruct (handleState.groups s); cbn [option_map]; [| reflexivity].
    now rewrite <- app_assoc.
Qed.

(** ** Attributes bound to the handler and attributes in the record *)

Lemma run_prepend :
  forall (lib : GoLib) (fuel : nat) (pending : list bytes) (l : list Attr)
         (b : bytes) (s : handleState.t),
    appendAttrs lib fuel (fold_left (openGroup lib) pending (prepend b s)) l
    = prependResult b (appendAttrs lib fuel (fold_left (openGroup lib) pending s) l).
Proof.
  intros lib fuel pending l b s.
  now rewrite fold_openGroup_prepend, appendAttrs_prepend.
Qed.

(** X5: in JSON mode, binding attributes to the handler is the same as
    putting them in front of the attributes of the record: the handler
    that [WithAttrs h l] returns writes for a record the line that [h]
    writes for the record with [l] before its own attributes. This holds
    when the record has no attributes, when [h] has no group left to open,
    or when the bound bytes do not end on the opening brace of a group. *)
Theorem bound_attributes_precede_the_record_attributes :
  forall (lib : GoLib) (fuel : nat) (h h3 : Handler) (l : list Attr) (r : Record_),
    json h = true -> pretty h = false ->
    wellFormed h ->
    countEmptyGroups l <> List.length l ->
    WithAttrs lib fuel h l = Ok h3 ->
    attrs r = []
    \/ nOpenGroups h = List.length (groups h)
    \/ last (preformattedAttrs h3) x00 <> x7b ->
    Handle lib fuel h3 r = Handle lib fuel h (setAttrs r (l ++ attrs r)).
Proof.
  intros lib fuel h h3 l r Hj Hp Hn Hce Hw Hcond. unfold wellFormed in Hn.
  unfold WithAttrs in Hw.
  replace (countEmptyGroups l =? List.length l)%nat with false in Hw
    by (symmetry; now apply Nat.eqb_neq).
  cbv zeta in Hw.
  set (h2 := clone h) in *.
  set (pending := skipn (nOpenGroups h) (groups h)).
  set (gp := groupPrefix h).
  set (x0 := if (0 <? len (preformattedAttrs h))%nat then JSONSep else []).
  (* the state in which the attributes are bound *)
  set (P := {| handleState.h := h; handleState.buf := [];
               handleState.color := noColor; handleState.freeBuf := true;
               handleState.sep := []; handleState.prefix := gp;
               handleState.groups := recordGroups h |}).
  assert (Hst : openGroups lib
                  (if (0 <? len (preformattedAttrs h2))%nat
                   then setSep
                          (setPrefix (newHandleState h2 (preformattedAttrs h2) false [])
                             (buffer.WriteString
                                (handleState.prefix
                                   (newHandleState h2 (preformattedAttrs h2) false []))
                                (groupPrefix h)))
                          (attrSep h)
                   else setPrefix (newHandleState h2 (preformattedAttrs h2) false [])
                          (buffer.WriteString
                             (handleState.prefix
                                (newHandleState h2 (preformattedAttrs h2) false []))
                             (groupPrefix h)))
                = stateFor h2 false noColor
                    (fold_left (openGroup lib) pending
                       (prepend (preformattedAttrs h) (setSep P x0)))).
  { assert (He : encodesAlike (prepend (preformattedAttrs h) (setSep P x0)) h2 noColor).
    { unfold encodesAlike. cbn. rewrite Hp. repeat split. now left. }
    rewrite <- fold_openGroup_stateFor by exact He.
    unfold openGroups. subst x0.
    change (preformattedAttrs h2) with (preformattedAttrs h).
    unfold attrSep. rewrite Hj.
    destruct (0 <? len (preformattedAttrs h))%nat; f_equal;
      unfold stateFor, prepend, setSep, setPrefix, setBuf, newHandleState,
        recordGroups, buffer.WriteString, buffer.New, h2, clone, P, gp;
      cbn [handleState.h handleState.buf handleState.color handleState.freeBuf
           handleState.sep handleState.prefix handleState.groups app
           opts nOpenGroups groups preformattedAttrs];
      rewrite app_nil_r; reflexivity. }
  rewrite Hst in Hw. clear Hst.
  assert (He : encodesAlike (fold_left (openGroup lib) pending
                               (prepend (preformattedAttrs h) (setSep P x0))) h2 noColor).
  { destruct (openGroups_frame_h lib pending
                (prepend (preformattedAttrs h) (setSep P x0))) as (A & B).
    unfold encodesAlike. rewrite A. cbn. rewrite Hp. repeat split. now left. }
  rewrite appendAttrs_stateFor in Hw by exact He. clear He.
  rewrite run_prepend in Hw. unfold prependResult in Hw.
  destruct (appendAttrs lib fuel (fold_left (openGroup lib) pending (setSep P x0)) l)
    as [T4 | msg |] eqn:E4; cbn [bind] in Hw; try discriminate Hw.
  injection Hw as Hw.
  cbn [stateFor prepend handleState.buf handleState.prefix setBuf] in Hw.
  (* the frame of the bound state *)
  assert (HT4 : handleState.h T4 = h /\ handleState.color T4 = noColor
                /\ handleState.freeBuf T4 = true
                /\ handleState.prefix T4 = gp
                /\ handleState.groups T4
                   = option_map (fun gs => gs ++ pending) (recordGroups h)).
  { destruct (appendAttrs_frame _ _ _ _ _ E4) as (A1 & A2 & A3 & A4 & A5).
    destruct (openGroups_frame_h lib pending (setSep P x0)) as (B1 & B2).
    destruct (fold_openGroup_fields lib pending (setSep P x0)) as (C1 & C2 & C3);
      [exact Hj |].
    cbn [handleState.h handleState.color handleState.freeBuf handleState.prefix
         handleState.groups setSep P] in B1, B2, C1, C2, C3.
    repeat split; congruence. }
  destruct HT4 as (T4h & T4c & T4f & T4p & T4g).
  rewrite T4p in Hw.
  subst h3.
  set (pre := preformattedAttrs h) in *.
  set (pre3 := pre ++ handleState.buf T4) in *.
  set (h3 := setPreformatted h2 pre3 gp (List.length (groups h))) in *.
  assert (Ha : handlesAlike h h3).
  { unfold handlesAlike. cbn. rewrite Hp. repeat split. now left. }
  rewrite !Handle_split.
  rewrite (builtIns_stateFor lib fuel h h3 r Ha).
  change (builtIns lib fuel h (setAttrs r (l ++ attrs r))) with (builtIns lib fuel h r).
  destruct (builtIns lib fuel h r) as [st | msg |] eqn:Eb; cbn [bind]; try reflexivity.
  destruct (builtIns_h _ _ _ _ _ Eb) as (Hh & Hc & Hpx & Hgr & Hfb).
  clear Eb.
  destruct st as [sh BI sc sfb xs spx sg].
  cbn [handleState.h handleState.color handleState.prefix handleState.groups
       handleState.freeBuf] in Hh, Hc, Hpx, Hgr, Hfb.
  subst sh sc spx sg sfb.
  rewrite !appendNonBuiltIns_json by exact Hj.
  cbn [handleState.h stateFor setGroups].
  assert (Nl : (0 <? NumAttrs (setAttrs r (l ++ attrs r)))%nat = true).
  { unfold NumAttrs, setAttrs. cbn [attrs].
    destruct l; [exfalso; apply Hce; reflexivity | reflexivity]. }
  rewrite Nl. clear Nl.
  change (attrs (setAttrs r (l ++ attrs r))) with (l ++ attrs r).
  (* the two states in which the attributes are written *)
  set (bd := if (0 <? len pre)%nat then BI ++ xs ++ pre else BI).
  set (xd := if (0 <? len pre)%nat then JSONSep else xs).
  assert (HD : enterGroups lib
                 (writeBound
                    (setGroups
                       {| handleState.h := h; handleState.buf := BI;
                          handleState.color := noColor; handleState.freeBuf := true;
                          handleState.sep := xs; handleState.prefix := [];
                          handleState.groups := None |} (recordGroups h)))
               = fold_left (openGroup lib) pending (prepend bd (setSep P xd))).
  { unfold enterGroups, openGroups, writeBound, attrSep. subst bd xd.
    cbn [handleState.h handleState.buf handleState.sep handleState.prefix setGroups].
    fold pre.
    destruct (0 <? len pre)%nat;
      cbn [handleState.h handleState.buf handleState.sep handleState.prefix
           setGroups setBuf setSep setPrefix];
      rewrite ?Hj; fold pending; f_equal;
      unfold prepend, setPrefix, setSep, setBuf, P, buffer.WriteString, buffer.Write;
      cbn [handleState.h handleState.buf handleState.color handleState.freeBuf
           handleState.sep handleState.prefix handleState.groups app];
      rewrite ?app_nil_r, <- ?app_assoc; reflexivity. }
  rewrite HD. clear HD.
  set (b3 := if (0 <? len pre3)%nat then BI ++ xs ++ pre3 else BI).
  set (x3 := if (0 <? len pre3)%nat then JSONSep else xs).
  set (A3 := {| handleState.h := h; handleState.buf := b3;
                handleState.color := noColor; handleState.freeBuf := true;
                handleState.sep := x3; handleState.prefix := gp;
                handleState.groups := recordGroups h3 |}).
  assert (HW3 : writeBound
                  (setGroups
                     (stateFor h3 true noColor
                        {| handleState.h := h; handleState.buf := BI;
                           handleState.color := noColor; handleState.freeBuf := true;
                           handleState.sep := xs; handleState.prefix := [];
                           handleState.groups := None |}) (recordGroups h3))
                = stateFor h3 true noColor (setPrefix A3 [])).
  { unfold writeBound, attrSep. subst b3 x3 A3.
    cbn [handleState.h handleState.buf handleState.sep handleState.prefix setGroups
         stateFor].
    change (preformattedAttrs h3) with pre3.
    destruct (0 <? len pre3)%nat;
      cbn [handleState.h handleState.buf handleState.sep handleState.prefix setGroups
           stateFor setBuf setSep];
      change (json h3) with (json h); rewrite ?Hj;
      unfold stateFor, setPrefix, setSep, setBuf, setGroups, buffer.WriteString,
        buffer.Write;
      cbn [handleState.h handleState.buf handleState.color handleState.freeBuf
           handleState.sep handleState.prefix handleState.groups];
      rewrite <- ?app_assoc; reflexivity. }
  rewrite HW3.
  assert (HD3 : enterGroups lib (stateFor h3 true noColor (setPrefix A3 []))
                = stateFor h3 true noColor A3).
  { unfold enterGroups, openGroups.
    cbn [handleState.h handleState.prefix stateFor setPrefix].
    change (nOpenGroups h3) with (List.length (groups h)).
    change (groups h3) with (groups h).
    rewrite skipn_all. reflexivity. }
  rewrite HD3. clear HD3.
  change (handleState.buf (stateFor h3 true noColor (setPrefix A3 []))) with b3.
  change (nOpenGroups h3) with (List.length (groups h)).
  change (groups h3) with (groups h).
  change (w h3) with (w h).
  rewrite firstn_all.
  (* what binding the attributes wrote *)
  rewrite appendAttrs_app, run_prepend. unfold prependResult.
  assert (Hrg : recordGroups h3 = option_map (fun gs => gs ++ pending) (recordGroups h)).
  { unfold recordGroups. change (opts h3) with (opts h).
    change (nOpenGroups h3) with (List.length (groups h)).
    change (groups h3) with (groups h).
    destruct (ReplaceAttr (opts h)); [| reflexivity].
    cbn [option_map]. subst pending. now rewrite firstn_all, firstn_skipn. }
  assert (HjP : json (handleState.h (setSep P x0)) = true) by exact Hj.
  assert (HpP : pretty (handleState.h (setSep P x0)) = false) by exact Hp.
  destruct (bound_run_json lib fuel pending l _ _ HjP HpP E4)
    as [(Hpe & -> & Hx) | (y & Hy & Hb & Hsep & Hx)].
  - (* nothing was written *)
    specialize (Hx xd). change (setSep (setSep P x0) xd) with (setSep P xd) in Hx.
    rewrite Hx. cbn [bind].
    assert (Hpre3 : pre3 = pre) by (subst pre3; cbn; apply app_nil_r).
    assert (HA : prepend bd (setSep P xd) = A3).
    { subst A3 b3 x3 bd xd. rewrite Hpre3, Hrg, Hpe.
      unfold prepend, setSep, setBuf, P.
      cbn [handleState.h handleState.buf handleState.color handleState.freeBuf
           handleState.sep handleState.prefix handleState.groups].
      rewrite app_nil_r. f_equal.
      destruct (recordGroups h); cbn [option_map]; [now rewrite app_nil_r | reflexivity]. }
    rewrite HA.
    assert (He3 : encodesAlike A3 h3 noColor).
    { unfold encodesAlike. cbn. rewrite Hp. repeat split. now left. }
    destruct (0 <? NumAttrs r)%nat eqn:Nr.
    + rewrite appendAttrs_stateFor by exact He3.
      destruct (appendAttrs lib fuel A3 (attrs r)); cbn [bind]; reflexivity.
    + assert (Hr0 : attrs r = [])
        by (unfold NumAttrs in Nr; destruct (attrs r); [reflexivity | discriminate Nr]).
      rewrite Hr0. cbn [appendAttrs bind handleState.buf setBuf]. reflexivity.
  - (* the bound attributes *)
    specialize (Hx xd). change (setSep (setSep P x0) xd) with (setSep P xd) in Hx.
    rewrite Hx. cbn [bind].
    cbn [handleState.buf handleState.sep setSep P app] in Hb.
    assert (Hpre3 : pre3 = pre ++ x0 ++ y) by (subst pre3; now rewrite Hb).
    assert (Hlen3 : (0 <? len pre3)%nat = true).
    { rewrite Hpre3. unfold len. rewrite !length_app.
      destruct y; [contradiction |]. cbn [List.length]. apply Nat.ltb_lt. lia. }
    assert (Hbuf : bd ++ xd ++ y = b3).
    { subst b3 bd xd. rewrite Hlen3, Hpre3. subst x0.
      destruct (0 <? len pre)%nat eqn:Hl0.
      - now rewrite <- !app_assoc.
      - assert (pre = []) by (destruct pre; [reflexivity | discriminate Hl0]).
        rewrite H. reflexivity. }
    replace (prepend bd (setBuf T4 (handleState.buf (setSep P x0) ++ xd ++ y)))
      with (setBuf T4 b3) by (rewrite <- Hbuf; reflexivity).
    destruct (0 <? NumAttrs r)%nat eqn:Nr.
    + (* the record has attributes: the comma has to be pending *)
      assert (Hcomma : handleState.sep T4 = JSONSep).
      { destruct Hsep as [Hs | (Hpn & Hs & Hlast)]; [exact Hs |].
        exfalso. destruct Hcond as [Hr0 | [Hno | Hl]].
        - unfold NumAttrs in Nr. rewrite Hr0 in Nr. discriminate Nr.
        - apply Hpn. subst pending. rewrite Hno. apply skipn_all.
        - apply Hl. change (preformattedAttrs h3) with pre3. rewrite Hpre3.
          destruct y as [| c y]; [contradiction |].
          rewrite app_assoc, last_app_cons. exact Hlast. }
      assert (HA : setBuf T4 b3 = A3).
      { subst A3 x3. rewrite Hlen3, Hrg, <- T4g, <- T4p, <- Hcomma, <- T4h at 1.
        rewrite <- T4c, <- T4f. destruct T4. reflexivity. }
      rewrite HA.
      assert (He3 : encodesAlike A3 h3 noColor).
      { unfold encodesAlike. cbn. rewrite Hp. repeat split. now left. }
      rewrite appendAttrs_stateFor by exact He3.
      destruct (appendAttrs lib fuel A3 (attrs r)); cbn [bind]; reflexivity.
    + assert (Hr0 : attrs r = [])
        by (unfold NumAttrs in Nr; destruct (attrs r); [reflexivity | discriminate Nr]).
      rewrite Hr0. cbn [appendAttrs bind handleState.buf setBuf]. reflexivity.
Qed.

Lemma bound_attributes_precede_the_record_attributes_witness :
  Handle sampleLib 2 boundHandler startedRecord
  = Handle sampleLib 2 groupedHandler
      (setAttrs startedRecord
         ([MkAttr (B "k") (KindInt64 5)] ++ attrs startedRecord)).
Proof.
  apply (bound_attributes_precede_the_record_attributes sampleLib 2 groupedHandler
           boundHandler [MkAttr (B "k") (KindInt64 5)] startedRecord);
    [ reflexivity | reflexivity
    | unfold wellFormed; cbn; lia
    | cbn; lia
    | vm_compute; reflexivity
    | right; right; vm_compute; discriminate ].
Defined.

(** ** The line as a whole *)

Lemma closeBraces_prepend :
  forall (b : bytes) (l : list bytes) (s : handleState.t),
    fold_left (fun s _ => setBuf s (buffer.WriteByte (handleState.buf s) x7d)) l
      (prepend b s)
    = prepend b
        (fold_left (fun s _ => setBuf s (buffer.WriteByte (handleState.buf s) x7d)) l s).
Proof.
  intros b l. induction l as [| x l IH]; intros s; [reflexivity |].
  cbn [fold_left]. rewrite <- IH. f_equal.
  unfold prepend, buffer.WriteByte. cbn [handleState.buf setBuf].
  now rewrite <- app_assoc.
Qed.

Lemma appendNonBuiltIns_prepend :
  forall (lib : GoLib) (b : bytes) (fuel : nat) (s : handleState.t) (r : Record_),
    appendNonBuiltIns lib fuel (prepend b s) r
    = prependResult b (appendNonBuiltIns lib fuel s r).
Proof.
  intros lib b fuel s r. unfold appendNonBuiltIns, prependResult. cbv zeta.
  change (handleState.h (prepend b s)) with (handleState.h s).
  set (s1 := if (0 <? len (preformattedAttrs (handleState.h s)))%nat
             then setSep (setBuf (setBuf s _) _) _ else s).
  replace (if (0 <? len (preformattedAttrs (handleState.h s)))%nat
           then _ else prepend b s)
    with (prepend b s1)
    by (subst s1; destruct (0 <? len (preformattedAttrs (handleState.h s)))%nat;
        [buf_norm |]; reflexivity).
  clearbody s1.
  change (handleState.h (prepend b s1)) with (handleState.h s1).
  destruct (0 <? NumAttrs r)%nat.
  - change (handleState.prefix (prepend b s1)) with (handleState.prefix s1).
    change (setPrefix (prepend b s1)
              (buffer.WriteString (handleState.prefix s1)
                 (groupPrefix (handleState.h s1))))
      with (prepend b (setPrefix s1 (buffer.WriteString (handleState.prefix s1)
                                       (groupPrefix (handleState.h s1))))).
    rewrite openGroups_prepend, appendAttrs_prepend. unfold prependResult.
    destruct (appendAttrs lib fuel _ (attrs r)) as [s4 | msg |]; cbn [bind];
      try reflexivity.
    change (handleState.h (prepend b s4)) with (handleState.h s4).
    destruct (json (handleState.h s4)); cbn [bind]; [| reflexivity].
    rewrite closeBraces_prepend. buf_norm. reflexivity.
  - cbn [bind]. change (handleState.h (prepend b s1)) with (handleState.h s1).
    destruct (json (handleState.h s1)); cbn [bind]; [| reflexivity].
    rewrite closeBraces_prepend. buf_norm. reflexivity.
Qed.

(** What [appendNonBuiltIns] writes comes after the buffer of the state. *)
Lemma appendNonBuiltIns_extends :
  forall (lib : GoLib) (fuel : nat) (s s' : handleState.t) (r : Record_),
    appendNonBuiltIns lib fuel s r = Ok s' ->
    exists out : bytes, handleState.buf s' = handleState.buf s ++ out.
Proof.
  intros lib fuel s s' r E.
  pose proof (appendNonBuiltIns_prepend lib (handleState.buf s) fuel (setBuf s []) r) as P.
  rewrite prepend_nil_buf, E in P. unfold prependResult in P.
  destruct (appendNonBuiltIns lib fuel (setBuf s []) r) as [t | msg |];
    cbn [bind] in P; try discriminate P.
  injection P as ->. exists (handleState.buf t). reflexivity.
Qed.

Lemma appendAttr_extends :
  forall (lib : GoLib) (fuel : nat) (s s' : handleState.t) (a : Attr),
    appendAttr lib fuel s a = Ok s' ->
    exists out : bytes, handleState.buf s' = handleState.buf s ++ out.
Proof.
  intros lib fuel s s' a E.
  destruct (appendAttr_rebuffer _ _ _ _ _ E) as (out & H & _). now exists out.
Qed.

Lemma extends_of_prepend :
  forall f : handleState.t -> handleState.t,
    (forall b s, f (prepend b s) = prepend b (f s)) ->
    forall s, exists out : bytes, handleState.buf (f s) = handleState.buf s ++ out.
Proof.
  intros f Hf s. exists (handleState.buf (f (setBuf s []))).
  rewrite <- (prepend_nil_buf s) at 1. rewrite Hf. reflexivity.
Qed.

Lemma extends_of_prependResult :
  forall f : handleState.t -> result handleState.t,
    (forall b s, f (prepend b s) = prependResult b (f s)) ->
    forall s s', f s = Ok s' ->
      exists out : bytes, handleState.buf s' = handleState.buf s ++ out.
Proof.
  intros f Hf s s' E.
  pose proof (Hf (handleState.buf s) (setBuf s [])) as P.
  rewrite prepend_nil_buf, E in P. unfold prependResult in P.
  destruct (f (setBuf s [])) as [t | msg |]; cbn [bind] in P; try discriminate P.
  injection P as ->. exists (handleState.buf t). reflexivity.
Qed.

(** The built-in attributes are written after the opening brace of a
    JSON line. *)
Lemma builtIns_extends :
  forall (lib : GoLib) (fuel : nat) (h : Handler) (r : Record_) (st : handleState.t),
    builtIns lib fuel h r = Ok st ->
    exists out : bytes,
      handleState.buf st = (if json h then [x7b] else []) ++ out.
Proof.
  intros lib fuel h r st. unfold builtIns.
  set (s0 := setGroups _ None).
  assert (B0 : handleState.buf s0 = if json h then [x7b] else [])
    by (subst s0; destruct (json h); reflexivity).
  clearbody s0.
  assert (Hkey : forall s k, exists out,
               handleState.buf (appendKey lib s k) = handleState.buf s ++ out)
    by (intros s k; apply (extends_of_prepend (fun s => appendKey lib s k));
        intros; apply appendKey_prepend).
  assert (Hstr : forall s k, exists out,
               handleState.buf (appendString lib s k) = handleState.buf s ++ out)
    by (intros s k; apply (extends_of_prepend (fun s => appendString lib s k));
        intros; apply appendString_prepend).
  assert (Htime : forall s s' t, appendTime lib s t = Ok s' -> exists out,
               handleState.buf s' = handleState.buf s ++ out)
    by (intros s s' t; apply (extends_of_prependResult (fun s => appendTime lib s t));
        intros; apply appendTime_prepend).
  match goal with
  | |- bind ?x _ = _ -> _ => destruct x as [s1 | |] eqn:E1
  end; cbn [bind]; try discriminate.
  assert (X1 : exists out, handleState.buf s1 = handleState.buf s0 ++ out).
  { destruct (negb (time.IsZero (Time r)));
      [| injection E1 as <-; exists []; now rewrite app_nil_r].
    destruct (ReplaceAttr (opts h)).
    - exact (appendAttr_extends _ _ _ _ _ E1).
    - destruct (Htime _ _ _ E1) as (o2 & H2).
      destruct (Hkey s0 TimeKey) as (o1 & H1).
      exists (o1 ++ o2). now rewrite H2, H1, <- app_assoc. }
  match goal with
  | |- bind ?x _ = _ -> _ => destruct x as [s2 | |] eqn:E2
  end; cbn [bind]; try discriminate.
  assert (X2 : exists out, handleState.buf s2 = handleState.buf s1 ++ out).
  { destruct (ReplaceAttr (opts h)).
    - exact (appendAttr_extends _ _ _ _ _ E2).
    - injection E2 as <-.
      destruct (Hkey (setColor s1 (GetColor (color h) (Level r))) LevelKey) as (o1 & H1).
      destruct (Hstr (appendKey lib (setColor s1 (GetColor (color h) (Level r))) LevelKey)
                  (GetLevelName (Level r))) as (o2 & H2).
      exists (o1 ++ o2). rewrite H2, H1. cbn [handleState.buf setColor].
      now rewrite <- app_assoc. }
  match goal with
  | |- bind ?x _ = _ -> _ => destruct x as [s3 | |] eqn:E3
  end; cbn [bind]; try discriminate.
  assert (X3 : exists out, handleState.buf s3 = handleState.buf s2 ++ out).
  { destruct (AddSource (opts h));
      [| injection E3 as <-; exists []; cbn; now rewrite app_nil_r].
    exact (appendAttr_extends _ _ _ _ _ E3). }
  intros E4.
  assert (X4 : exists out, handleState.buf st = handleState.buf s3 ++ out).
  { destruct (ReplaceAttr (opts h)).
    - exact (appendAttr_extends _ _ _ _ _ E4).
    - injection E4 as <-.
      destruct (Hkey s3 MessageKey) as (o1 & H1).
      destruct (Hstr (appendKey lib s3 MessageKey) (Message r)) as (o2 & H2).
      exists (o1 ++ o2). now rewrite H2, H1, <- app_assoc. }
  destruct X1 as (o1 & H1). destruct X2 as (o2 & H2).
  destruct X3 as (o3 & H3). destruct X4 as (o4 & H4).
  exists (o1 ++ o2 ++ o3 ++ o4).
  rewrite H4, H3, H2, H1, B0. now rewrite <- !app_assoc.
Qed.

(** X6: a JSON line is one object: it begins with an opening brace and
    ends with a closing brace and a newline. *)
Theorem json_line_is_braced :
  forall (lib : GoLib) (fuel : nat) (h : Handler) (r : Record_)
         (line : bytes) (err : option error),
    json h = true ->
    Handle lib fuel h r = Ok (line, err) ->
    exists body : bytes, line = [x7b] ++ body ++ [x7d; newline].
Proof.
  intros lib fuel h r line err Hj E.
  rewrite Handle_split in E.
  destruct (builtIns lib fuel h r) as [st | |] eqn:Eb; cbn [bind] in E;
    try discriminate E.
  destruct (builtIns_extends _ _ _ _ _ Eb) as (o1 & H1). rewrite Hj in H1.
  destruct (builtIns_h _ _ _ _ _ Eb) as (Hh & _).
  set (s := setGroups st (recordGroups h)) in *.
  assert (Hs : handleState.h s = h) by exact Hh.
  assert (Bs : handleState.buf s = [x7b] ++ o1) by exact H1.
  clearbody s.
  destruct (appendNonBuiltIns lib fuel s r) as [s' | |] eqn:En; cbn [bind] in E;
    try discriminate E.
  injection E as <- _.
  destruct (appendNonBuiltIns_extends _ _ _ _ _ En) as (o2 & H2).
  rewrite appendNonBuiltIns_json in En by (rewrite Hs; exact Hj).
  assert (Hend : exists X, handleState.buf s' = X ++ [x7d]).
  { destruct (0 <? NumAttrs r)%nat.
    - destruct (appendAttrs lib fuel _ (attrs r)) as [s4 | |]; cbn [bind] in En;
        try discriminate En.
      injection En as <-. cbn [handleState.buf setBuf].
      eexists. rewrite app_assoc. reflexivity.
    - injection En as <-. cbn [handleState.buf setBuf].
      eexists. rewrite app_assoc. reflexivity. }
  destruct Hend as (X & HX).
  rewrite H2, Bs in HX. cbn [app] in HX.
  destruct X as [| c X]; [discriminate HX |].
  cbn [app] in HX. injection HX as <- HX.
  exists X. rewrite H2, Bs. cbn [app]. rewrite HX. now rewrite <- app_assoc.
Qed.

Lemma json_line_is_braced_witness :
  exists body : bytes, startedLine = [x7b] ++ body ++ [x7d; newline].
Proof.
  exact (json_line_is_braced sampleLib 2 (NewJSONHandler discard 0 None)
           startedRecord startedLine None eq_refl eq_refl).
Defined.

(** ** Handlers that slice their groups within bounds *)

(** X8: the four constructors give handlers whose opened groups are within
    the groups, and the two bind operations keep it so; a handler bound
    with attributes has all its groups opened. *)
Theorem bound_handlers_are_well_formed :
  forall (w : Writer) (m : Mutex) (o : option HandlerOptions),
    (wellFormed (NewJSONHandler w m o) /\ wellFormed (NewStructHandler w m o)
     /\ wellFormed (NewPrettyHandler w m o)
     /\ forall c s l x, wellFormed (NewHandler w m c s l x o))
    /\ forall h : Handler,
         wellFormed h ->
         (forall g, wellFormed (WithGroup h g))
         /\ forall lib fuel l h2,
              WithAttrs lib fuel h l = Ok h2 ->
              wellFormed h2
              /\ (countEmptyGroups l <> List.length l ->
                  nOpenGroups h2 = List.length (groups h2)).
Proof.
  intros w m o. split.
  - unfold wellFormed. cbn. repeat split; intros; lia.
  - intros h Hh. split.
    + intros g. unfold wellFormed, WithGroup, clone in *. cbn.
      rewrite length_app. lia.
    + intros lib fuel l h2. unfold WithAttrs.
      destruct (countEmptyGroups l =? List.length l)%nat eqn:Ec.
      * intros E. injection E as <-. split; [exact Hh |].
        intros Hne. apply Nat.eqb_eq in Ec. contradiction.
      * cbv zeta.
        match goal with
        | |- bind ?x _ = _ -> _ => destruct x as [st | |]
        end; cbn [bind]; try discriminate.
        intros E. injection E as <-. unfold wellFormed. cbn. split; [lia | reflexivity].
Qed.

Lemma bound_handlers_are_well_formed_witness :
  wellFormed (WithGroup (NewJSONHandler discard 0 None) (B "g")).
Proof.
  exact (proj1 (proj2 (bound_handlers_are_well_formed discard 0 None)
                  (NewJSONHandler discard 0 None)
                  (proj1 (proj1 (bound_handlers_are_well_formed discard 0 None))))
           (B "g")).
Defined.

(** ** The builder *)

Lemma call_keeps :
  forall (b : HandlerBuilder) (c : BuilderCall),
    preformattedAttrs (bh (call b c)) = preformattedAttrs (bh b)
    /\ groupPrefix (bh (call b c)) = groupPrefix (bh b)
    /\ groups (bh (call b c)) = groups (bh b)
    /\ nOpenGroups (bh (call b c)) = nOpenGroups (bh b)
    /\ mu (bh (call b c)) = mu (bh b)
    /\ (json (bh b) = true -> json (bh (call b c)) = true).
Proof.
  intros b c. destruct c; cbn [call];
    unfold WithPretty, WithColor, WithInsecure, WithTimeLayout, WithSeparator,
      WithOptions, WithWriter, WithJSON;
    repeat match goal with
           | |- context [match ?x with _ => _ end] => destruct x
           end; cbn; repeat split; auto.
Qed.

Lemma chain_keeps :
  forall (calls : list BuilderCall) (b : HandlerBuilder),
    preformattedAttrs (bh (chain b calls)) = preformattedAttrs (bh b)
    /\ groupPrefix (bh (chain b calls)) = groupPrefix (bh b)
    /\ groups (bh (chain b calls)) = groups (bh b)
    /\ nOpenGroups (bh (chain b calls)) = nOpenGroups (bh b)
    /\ mu (bh (chain b calls)) = mu (bh b)
    /\ (json (bh b) = true -> json (bh (chain b calls)) = true).
Proof.
  unfold chain. induction calls as [| c calls IH]; intros b; [repeat split; auto |].
  cbn [fold_left].
  destruct (call_keeps b c) as (A1 & A2 & A3 & A4 & A5 & A6).
  destruct (IH (call b c)) as (B1 & B2 & B3 & B4 & B5 & B6).
  repeat split; try congruence. auto.
Qed.

Lemma chain_json :
  forall (calls : list BuilderCall) (b : HandlerBuilder),
    In CallWithJSON calls -> json (bh (chain b calls)) = true.
Proof.
  unfold chain. induction calls as [| c calls IH]; intros b Hin; [contradiction |].
  cbn [fold_left]. destruct Hin as [-> | Hin].
  - destruct (chain_keeps calls (call b CallWithJSON)) as (_ & _ & _ & _ & _ & H).
    apply H. reflexivity.
  - apply IH. exact Hin.
Qed.

(** X9: once [WithJSON] is among the calls, the handler that is built
    writes what [NewJSONHandler] writes for the writer and the options of
    the builder, whatever the other calls and their order. *)
Theorem builder_json_writes_as_NewJSONHandler :
  forall (lib : GoLib) (fuel : nat) (stdout : Writer) (m : Mutex)
         (defaultLayout : bytes) (calls : list BuilderCall) (r : Record_),
    In CallWithJSON calls ->
    let h := Build (chain (NewHandlerBuilder stdout m defaultLayout) calls) in
    json h = true /\ pretty h = false /\ safe h = true /\ sep h = JSONSep
    /\ color h = EmptyColorMap
    /\ Handle lib fuel h r
       = Handle lib fuel (NewJSONHandler (w h) (mu h) (Some (opts h))) r.
Proof.
  intros lib fuel stdout m L calls r Hin h.
  set (b := chain (NewHandlerBuilder stdout m L) calls) in *.
  pose proof (chain_json calls (NewHandlerBuilder stdout m L) Hin) as Hj.
  destruct (chain_keeps calls (NewHandlerBuilder stdout m L))
    as (K1 & K2 & K3 & K4 & _).
  fold b in Hj, K1, K2, K3, K4. cbn in K1, K2, K3, K4.
  assert (Hh : h = configure (bh b) true false true EmptyColorMap (layout (bh b))
                     JSONSep (opts (bh b)) (w (bh b))).
  { subst h. unfold Build. rewrite Hj. cbn. reflexivity. }
  rewrite Hh. cbn [json pretty safe sep color configure w mu opts].
  repeat split.
  apply Handle_alike; cbn; try reflexivity; try congruence.
  unfold handlesAlike. cbn. repeat split. now left.
Qed.

Lemma builder_json_writes_as_NewJSONHandler_witness :
  Handle sampleLib 2
    (Build (chain (NewHandlerBuilder discard 0 (B "2006"))
              [CallWithJSON; CallWithPretty; CallWithSeparator (B ";")]))
    startedRecord
  = Ok (startedLine, None).
Proof.
  exact (eq_trans
           (proj2 (proj2 (proj2 (proj2 (proj2
              (builder_json_writes_as_NewJSONHandler sampleLib 2 discard 0 (B "2006")
                 [CallWithJSON; CallWithPretty; CallWithSeparator (B ";")]
                 startedRecord (or_introl eq_refl)))))))
           eq_refl).
Defined.

(** X10: with its defaults the builder builds a handler that writes what
    [NewStructHandler] writes, and after [WithPretty] it builds the handler
    of [NewPrettyHandler]. *)
Theorem builder_defaults_agree_with_constructors :
  forall (lib : GoLib) (fuel : nat) (stdout : Writer) (m : Mutex)
         (defaultLayout : bytes) (wr : Writer) (o : HandlerOptions) (r : Record_),
    let b := WithOptions (WithWriter (NewHandlerBuilder stdout m defaultLayout) (Some wr))
               (Some o) in
    Handle lib fuel (Build b) r = Handle lib fuel (NewStructHandler wr m (Some o)) r
    /\ Build (WithPretty b) = NewPrettyHandler wr m (Some o).
Proof.
  intros lib fuel stdout m L wr o r b. split; [| reflexivity].
  symmetry. apply Handle_alike; try reflexivity.
  unfold handlesAlike. cbn. repeat split. right. repeat split. now left.
Qed.

(** ** Strings that cannot break the line *)

Lemma bz_zb : forall z : Z, bz (zb z) = z mod 256.
Proof.
  intros z. unfold bz, zb.
  pose proof (Z.mod_pos_bound z 256 ltac:(lia)) as Hm.
  destruct (Byte.of_N (Z.to_N (z mod 256))) as [b |] eqn:E.
  - apply Byte.to_of_N in E. rewrite E. apply Z2N.id. lia.
  - apply Byte.of_N_None_iff in E. lia.
Qed.

Lemma bz_range : forall b : byte, 0 <= bz b < 256.
Proof. intros b. destruct b; cbn; lia. Qed.

Lemma hexDigit_printable :
  forall n : Z, 0 <= n < 16 -> 0x20 <= bz (hexDigit n).
Proof.
  intros n Hn. unfold hexDigit, index.
  assert (Hc : (Z.to_nat n < 16)%nat) by lia.
  destruct (Z.to_nat n) as [| [| [| [| [| [| [| [| [| [| [| [| [| [| [| [| k]]]]]]]]]]]]]]]];
    cbn; lia.
Qed.

Lemma land_15 : forall x : Z, 0 <= Z.land x 0xF < 16.
Proof.
  intros x. change 0xF with (Z.ones 4). rewrite Z.land_ones by lia.
  apply Z.mod_pos_bound. lia.
Qed.

Lemma shiftr_byte : forall b : byte, 0 <= Z.shiftr (bz b) 4 < 16.
Proof.
  intros b. rewrite Z.shiftr_div_pow2 by lia. pose proof (bz_range b).
  change (2 ^ 4) with 16. split; [apply Z.div_pos; lia |].
  apply Z.div_lt_upper_bound; lia.
Qed.

Lemma hex2_printable :
  forall b : byte, Forall (fun c => 0x20 <= bz c) (hex2 b).
Proof.
  intros b. unfold hex2. repeat constructor.
  - apply hexDigit_printable, shiftr_byte.
  - apply hexDigit_printable, land_15.
Qed.

Lemma hexRune_printable :
  forall (d : nat) (r : Z), Forall (fun c => 0x20 <= bz c) (hexRune d r).
Proof.
  intros d r. induction d as [| d IH]; cbn [hexRune]; constructor; [| exact IH].
  apply hexDigit_printable, land_15.
Qed.

(** A byte with the high bit set by the encoder. *)
Lemma high_bit :
  forall k x : Z,
    Z.testbit k 7 = true -> 0x80 <= bz (zb (Z.lor k x)).
Proof.
  intros k x Hk. rewrite bz_zb.
  assert (Hb : Z.testbit (Z.lor k x mod 256) 7 = true).
  { change 256 with (2 ^ 8). rewrite Z.mod_pow2_bits_low by lia.
    rewrite Z.lor_spec, Hk. reflexivity. }
  pose proof (Z.mod_pos_bound (Z.lor k x) 256 ltac:(lia)) as Hm.
  set (v := Z.lor k x mod 256) in *. clearbody v.
  rewrite Z.testbit_true in Hb by lia. change (2 ^ 7) with 128 in Hb.
  destruct (Z.lt_ge_cases v 128) as [Hlt | Hge]; [| exact Hge].
  rewrite Z.div_small in Hb by lia. discriminate Hb.
Qed.

Lemma EncodeRune_high :
  forall r : Z,
    0x80 <= r \/ r < 0 ->
    Forall (fun c => 0x20 <= bz c) (utf8.EncodeRune r).
Proof.
  intros r Hr. unfold utf8.EncodeRune.
  assert (H80 : forall x k, Z.testbit k 7 = true -> 0x20 <= bz (zb (Z.lor k x)))
    by (intros x k Hk; pose proof (high_bit k x Hk); lia).
  destruct ((0 <=? r) && (r <=? 0x7F)) eqn:E1; [lia |].
  destruct ((0 <=? r) && (r <=? 0x7FF)).
  { repeat constructor; apply H80; reflexivity. }
  destruct ((r <? 0) || (utf8.MaxRune <? r) || ((0xD800 <=? r) && (r <=? 0xDFFF))).
  { repeat constructor; cbn; lia. }
  destruct (r <=? 0xFFFF); repeat constructor; apply H80; reflexivity.
Qed.

Lemma appendEscapedRune_printable :
  forall (tbl : Z -> bool) (r : Z),
    Forall (fun c => 0x20 <= bz c) (appendEscapedRune tbl [] r).
Proof.
  intros tbl r. unfold appendEscapedRune. cbn [app].
  destruct ((r =? bz dquote) || (r =? bz backslash)) eqn:E1.
  { apply orb_prop in E1. repeat constructor; [cbn; lia |].
    destruct E1 as [E | E]; apply Z.eqb_eq in E; subst r; cbn; lia. }
  destruct (unicode.IsPrint tbl r) eqn:Ep.
  { unfold unicode.IsPrint in Ep.
    destruct ((0 <=? r) && (r <=? unicode.MaxLatin1)) eqn:El.
    - destruct ((32 <=? r) && (r <=? 126)) eqn:Ea.
      + unfold utf8.EncodeRune.
        replace ((0 <=? r) && (r <=? 127)) with true by lia.
        repeat constructor. rewrite bz_zb.
        rewrite Z.mod_small by lia. lia.
      + apply EncodeRune_high. cbn [orb] in Ep. lia.
    - apply EncodeRune_high. unfold unicode.MaxLatin1 in El. lia. }
  repeat match goal with
         | |- Forall _ (if ?c then _ else _) => destruct c
         end;
    repeat (constructor; [cbn; lia |]);
    try (apply Forall_nil);
    try (apply hex2_printable); try (apply hexRune_printable).
Qed.

Lemma quoteLoop_printable :
  forall (tbl : Z -> bool) (fuel : nat) (s : bytes),
    Forall (fun c => 0x20 <= bz c) (quoteLoop tbl fuel [] s).
Proof.
  intros tbl fuel. induction fuel as [| fuel IH]; intros s; cbn [quoteLoop];
    [constructor |].
  destruct s as [| b t]; [constructor |].
  destruct (if bz b <? utf8.RuneSelf then (bz b, 1%nat)
            else utf8.DecodeRuneInString (b :: t)) as [r width].
  destruct ((width =? 1)%nat && (r =? utf8.RuneError)).
  - rewrite quoteLoop_app. apply Forall_app. split; [| apply IH].
    cbn [app]. repeat (constructor; [cbn; lia |]). apply hex2_printable.
  - rewrite quoteLoop_app. apply Forall_app. split; [| apply IH].
    apply appendEscapedRune_printable.
Qed.

Lemma Quote_printable :
  forall (tbl : Z -> bool) (s : bytes),
    Forall (fun c => 0x20 <= bz c) (Quote tbl s).
Proof.
  intros tbl s. unfold Quote, AppendQuote. cbn [app].
  apply Forall_app. split; [| repeat constructor; cbn; lia].
  rewrite quoteLoop_app. apply Forall_app. split;
    [repeat constructor; cbn; lia | apply quoteLoop_printable].
Qed.

Lemma low_byte_in_runes :
  forall (s : bytes) (b : byte),
    In b s -> bz b < utf8.RuneSelf -> In (bz b, [b]) (runes s).
Proof.
  intros s b Hin Hb. rewrite <- (runes_bytes s) in Hin.
  apply in_concat in Hin. destruct Hin as (raw & Hraw & Hbr).
  apply in_map_iff in Hraw. destruct Hraw as ([r raw'] & Hs & Hx).
  cbn [snd] in Hs. subst raw'.
  pose proof (runes_chunks s) as Hc. rewrite Forall_forall in Hc.
  destruct (chunk_cases r raw (Hc _ Hx))
    as [(c & -> & Hc1 & ->) | [(c & -> & Hc1 & ->) | (Hlen & Hall & _)]].
  - destruct Hbr as [<- | []]. exact Hx.
  - destruct Hbr as [<- | []]. lia.
  - rewrite Forall_forall in Hall. specialize (Hall b Hbr). lia.
Qed.

Lemma unquoted_printable :
  forall (tbl : Z -> bool) (s : bytes),
    needsQuoting tbl s = false -> Forall (fun c => 0x20 <= bz c) s.
Proof.
  intros tbl s H. rewrite needsQuoting_runes in H.
  apply orb_false_elim in H. destruct H as (_ & H).
  apply Forall_forall. intros b Hin.
  destruct (Z.lt_ge_cases (bz b) 0x20) as [Hlt | Hge]; [| exact Hge].
  exfalso.
  assert (Hq : existsb (quotedPosition tbl) (runes s) = true).
  { apply existsb_exists. exists (bz b, [b]). split.
    - apply low_byte_in_runes; [exact Hin | unfold utf8.RuneSelf; lia].
    - unfold quotedPosition. cbn [fst snd].
      replace (bz b <? utf8.RuneSelf) with true
        by (symmetry; apply Z.ltb_lt; unfold utf8.RuneSelf; lia).
      unfold quotedASCII.
      replace (bz b <? 32) with true by (symmetry; apply Z.ltb_lt; lia).
      now rewrite !orb_true_r. }
  rewrite Hq in H. discriminate H.
Qed.

Lemma digits_printable :
  forall (fuel : nat) (n : Z) (acc : bytes),
    Forall (fun c => 0x20 <= bz c) acc ->
    Forall (fun c => 0x20 <= bz c) (strconv.digits fuel n acc).
Proof.
  intros fuel. induction fuel as [| fuel IH]; intros n acc Hacc; cbn [strconv.digits];
    [exact Hacc |].
  assert (Hd : 0x20 <= bz (zb (48 + n mod 10))).
  { rewrite bz_zb. pose proof (Z.mod_pos_bound n 10 ltac:(lia)).
    rewrite Z.mod_small by lia. lia. }
  destruct (n <? 10); [now constructor |].
  apply IH. now constructor.
Qed.

Lemma FormatInt_printable :
  forall i : Z, Forall (fun c => 0x20 <= bz c) (strconv.FormatInt i).
Proof.
  intros i. unfold strconv.FormatInt, strconv.FormatUint.
  destruct (i <? 0); [constructor; [cbn; lia |] |];
    apply digits_printable; constructor.
Qed.

Lemma escapeRune_printable :
  forall x : Z * bytes, chunk x -> Forall (fun c => 0x20 <= bz c) (escapeRune x).
Proof.
  intros [r raw] H.
  destruct (chunk_cases r raw H)
    as [(b & -> & Hb & ->) | [(b & -> & Hb & ->) | (Hlen & Hall & Hdec & Hm)]].
  - revert Hb. unfold utf8.RuneSelf.
    destruct b; intros Hb; try (exfalso; cbn in Hb; lia); vm_compute;
      repeat (apply Forall_cons; [discriminate |]); apply Forall_nil.
  - unfold escapeRune. cbn [fst snd].
    replace (bz b <? utf8.RuneSelf) with false by (symmetry; apply Z.ltb_ge; exact Hb).
    cbn. repeat constructor; cbn; lia.
  - unfold escapeRune. cbn [fst snd].
    destruct raw as [| b0 raw0] eqn:Eraw; [constructor |].
    rewrite <- Eraw in *.
    replace (bz b0 <? utf8.RuneSelf) with false.
    2:{ symmetry. apply Z.ltb_ge. rewrite Eraw in Hall. now inversion Hall. }
    replace (len raw =? 1)%nat with false
      by (symmetry; apply Nat.eqb_neq; lia).
    rewrite andb_false_r.
    destruct ((r =? 8232) || (r =? 8233)).
    + apply Forall_app. split; [repeat constructor; cbn; lia |].
      repeat constructor. apply hexDigit_printable, land_15.
    + eapply Forall_impl; [| exact Hall]. cbn. unfold utf8.RuneSelf. intros; lia.
Qed.

Lemma escaped_printable :
  forall s : bytes,
    Forall (fun c => 0x20 <= bz c) (appendEscapedJSONString [] s).
Proof.
  intros s. rewrite appendEscapedJSONString_runes. cbn [app].
  pose proof (runes_chunks s) as H.
  induction H as [| x l Hx _ IH]; [constructor |].
  cbn [flat_map]. apply Forall_app. split; [now apply escapeRune_printable | exact IH].
Qed.

(** X11: a string that [appendString] writes in JSON mode, or in a text
    mode with the safe flag on, brings none of the control characters 0x00
    to 0x1f of its own into the line, so no newline: what is appended is
    a run of bytes from the space upward, alone or, when a color is
    selected in a text mode and the colors of the library are on, between
    the sequence that selects the color and the one that resets it, whose
    first bytes are the only escape bytes written. The delete character
    and the bytes above ASCII are not held back. *)
Theorem appendString_writes_no_C0_control :
  forall (lib : GoLib) (s : handleState.t) (str : bytes),
    json (handleState.h s) = true \/ safe (handleState.h s) = true ->
    exists out body : bytes,
      handleState.buf (appendString lib s str) = handleState.buf s ++ out
      /\ Forall fromSpace body
      /\ (out = body
          \/ (json (handleState.h s) = false /\ NoColor lib = false
              /\ noColor < handleState.color s
              /\ out = colorOn (handleState.color s) ++ body ++ colorOff))
      /\ ~ In newline out.
Proof.
  intros lib s str Hmode.
  assert (Hnl : forall l, Forall fromSpace l -> ~ In newline l).
  { intros l H Hin. rewrite Forall_forall in H.
    specialize (H _ Hin). unfold fromSpace in H. cbn in H. lia. }
  unfold appendString.
  destruct (json (handleState.h s)) eqn:Hj.
  - assert (Hb : Forall fromSpace ([dquote] ++ appendEscapedJSONString [] str ++ [dquote])).
    { apply Forall_app. split; [repeat constructor; unfold fromSpace; cbn; lia |].
      apply Forall_app. split; [apply escaped_printable |].
      repeat constructor; unfold fromSpace; cbn; lia. }
    exists ([dquote] ++ appendEscapedJSONString [] str ++ [dquote]),
           ([dquote] ++ appendEscapedJSONString [] str ++ [dquote]).
    split; [| split; [exact Hb | split; [now left | now apply Hnl]]].
    cbn [handleState.buf setBuf]. unfold buffer.WriteByte.
    rewrite appendEscapedJSONString_runes, (appendEscapedJSONString_runes []).
    cbn [app]. now rewrite <- !app_assoc.
  - destruct Hmode as [Hm | Hm]; [discriminate Hm |]. rewrite Hm, andb_true_r.
    destruct (needsQuoting (printTable lib) str) eqn:Hq.
    + exists (Quote (printTable lib) str), (Quote (printTable lib) str).
      split; [cbn [handleState.buf setBuf]; apply AppendQuote_app |].
      split; [apply Quote_printable |].
      split; [now left | apply Hnl, Quote_printable].
    + pose proof (unquoted_printable _ _ Hq) as Hstr.
      destruct (noColor <? handleState.color s) eqn:Hc.
      * unfold colorFprint. destruct (NoColor lib) eqn:Hn.
        -- exists str, str. split; [reflexivity |].
           split; [exact Hstr | split; [now left | now apply Hnl]].
        -- exists (colorOn (handleState.color s) ++ str ++ colorOff), str.
           split; [unfold colorOn, colorOff; cbn [handleState.buf setBuf];
                   unfold buffer.WriteString; now rewrite <- !app_assoc |].
           split; [exact Hstr |].
           split; [right; repeat split; try reflexivity; now apply Z.ltb_lt |].
           assert (Hne : forall l, Forall fromSpace l ->
                                   Forall (fun b => b <> newline) l).
           { intros l H. eapply Forall_impl; [| exact H].
             intros b Hb ->. unfold fromSpace in Hb. cbn in Hb. lia. }
           assert (Hall : Forall (fun b => b <> newline)
                            (colorOn (handleState.color s) ++ str ++ colorOff)).
           { unfold colorOn, colorOff. rewrite !Forall_app.
             repeat split;
               try (apply Hne; first [exact Hstr | apply FormatInt_printable]);
               repeat (first [apply Forall_nil | apply Forall_cons; [discriminate |]]). }
           intros Hin. rewrite Forall_forall in Hall. exact (Hall _ Hin eq_refl).
      * exists str, str. split; [reflexivity |].
        split; [exact Hstr | split; [now left | now apply Hnl]].
Qed.

Lemma appendString_writes_no_C0_control_witness :
  let s := setColor (newHandleState (NewStructHandler discard 0 None) [] true []) 37 in
  (exists out body : bytes,
     handleState.buf (appendString sampleLib s (B "a" ++ [newline] ++ B "b"))
     = [] ++ out
     /\ Forall fromSpace body
     /\ (out = body
         \/ (json (handleState.h s) = false /\ NoColor sampleLib = false
             /\ noColor < 37 /\ out = colorOn 37 ++ body ++ colorOff))
     /\ ~ In newline out)
  /\ handleState.buf (appendString sampleLib s (B "a" ++ [newline] ++ B "b"))
     = quoted (B "a\nb")
  /\ handleState.buf (appendString sampleLib s (B "ab"))
     = colorOn 37 ++ B "ab" ++ colorOff.
Proof.
  intros s. split; [| split; reflexivity].
  exact (appendString_writes_no_C0_control sampleLib s
           (B "a" ++ [newline] ++ B "b") (or_intror eq_refl)).
Defined.

(** The delete character is in the safe set of both encodings: it is
    written as it is, in a text mode without quotes. *)
Lemma delete_character_is_written_raw :
  handleState.buf
    (appendString sampleLib
       (newHandleState (NewStructHandler discard 0 None) [] true []) [x7f])
  = [x7f]
  /\ handleState.buf
       (appendString sampleLib
          (newHandleState (NewJSONHandler discard 0 None) [] true []) [x7f])
     = quoted [x7f].
Proof. split; reflexivity. Qed.

(** ** Level names *)

Lemma runes_ASCII :
  forall s : bytes,
    Forall (fun b => bz b < utf8.RuneSelf) s ->
    runes s = map (fun b => (bz b, [b])) s.
Proof.
  intros s H. induction H as [| b t Hb _ IH]; [reflexivity |].
  rewrite runes_cons, (decode_ASCII b t Hb). cbn [fst snd firstn skipn map].
  now rewrite IH.
Qed.

Lemma bare_string :
  forall (tbl : Z -> bool) (s : bytes),
    s <> [] -> forallb bareByte s = true -> needsQuoting tbl s = false.
Proof.
  intros tbl s Hne H. rewrite needsQuoting_runes.
  replace (isEmptyString s) with false by (destruct s; [congruence | reflexivity]).
  cbn [orb]. rewrite forallb_forall in H.
  rewrite runes_ASCII.
  2:{ apply Forall_forall. intros b Hb. specialize (H b Hb).
      unfold bareByte in H. apply andb_prop in H. now apply Z.ltb_lt. }
  clear Hne. induction s as [| b t IH]; [reflexivity |].
  cbn [map existsb]. rewrite IH by (intros x Hx; apply H; now right).
  rewrite orb_false_r. unfold quotedPosition. cbn [fst snd].
  specialize (H b (or_introl eq_refl)). unfold bareByte in H.
  apply andb_prop in H. destruct H as [H1 H2]. rewrite H1.
  now apply negb_true_iff.
Qed.

Lemma digit_bare :
  forall n : Z, bareByte (zb (48 + n mod 10)) = true.
Proof.
  intros n. pose proof (Z.mod_pos_bound n 10 ltac:(lia)) as H.
  assert (Hc : n mod 10 = 0 \/ n mod 10 = 1 \/ n mod 10 = 2 \/ n mod 10 = 3
               \/ n mod 10 = 4 \/ n mod 10 = 5 \/ n mod 10 = 6 \/ n mod 10 = 7
               \/ n mod 10 = 8 \/ n mod 10 = 9) by lia.
  repeat destruct Hc as [Hc | Hc]; rewrite Hc; reflexivity.
Qed.

Lemma digits_bare :
  forall (fuel : nat) (n : Z) (acc : bytes),
    forallb bareByte acc = true ->
    forallb bareByte (strconv.digits fuel n acc) = true.
Proof.
  intros fuel. induction fuel as [| fuel IH]; intros n acc Hacc;
    cbn [strconv.digits]; [exact Hacc |].
  destruct (n <? 10).
  - cbn [forallb]. now rewrite digit_bare.
  - apply IH. cbn [forallb]. now rewrite digit_bare.
Qed.

Lemma FormatInt_bare :
  forall i : Z, forallb bareByte (strconv.FormatInt i) = true.
Proof.
  intros i. unfold strconv.FormatInt, strconv.FormatUint.
  destruct (i <? 0); [cbn [forallb]; rewrite digits_bare; reflexivity |].
  now apply digits_bare.
Qed.

(** X12: the name of a level is never quoted by the text encodings,
    whatever the level is: it is a fixed word, followed for the levels in
    between by a sign and decimal digits. *)
Theorem level_names_need_no_quoting :
  forall (tbl : Z -> bool) (level : Z),
    needsQuoting tbl (GetLevelName level) = false.
Proof.
  intros tbl level. apply bare_string.
  - unfold GetLevelName, LevelString.
    repeat match goal with
           | |- context [if ?c then _ else _] => destruct c
           end; discriminate.
  - unfold GetLevelName, LevelString.
    repeat match goal with
           | |- context [if ?c then _ else _] => destruct c
           end;
      try reflexivity;
      rewrite ?forallb_app, ?FormatInt_bare; reflexivity.
Qed.

(** ** The fixed-width timestamp *)

Lemma digits_length :
  forall (k fuel : nat) (n : Z) (acc : bytes),
    (1 <= k)%nat -> 0 <= n < 10 ^ Z.of_nat k ->
    (len (strconv.digits fuel n acc) <= len acc + k)%nat.
Proof.
  intros k fuel. revert k. induction fuel as [| fuel IH]; intros k n acc Hk Hn;
    cbn [strconv.digits]; [lia |].
  destruct (n <? 10) eqn:E.
  - unfold len. cbn [List.length]. lia.
  - apply Z.ltb_ge in E.
    destruct k as [| [| k]]; [lia | cbn in Hn; lia |].
    specialize (IH (S k) (n / 10) (zb (48 + n mod 10) :: acc)).
    unfold len in *. cbn [List.length] in IH.
    assert (Hd : 0 <= n / 10 < 10 ^ Z.of_nat (S k)).
    { replace (Z.of_nat (S (S k))) with (Z.succ (Z.of_nat (S k))) in Hn by lia.
      rewrite Z.pow_succ_r in Hn by lia.
      split; [apply Z.div_pos; lia | apply Z.div_lt_upper_bound; lia]. }
    specialize (IH ltac:(lia) Hd). lia.
Qed.

Lemma digits_nonempty :
  forall (fuel : nat) (n : Z) (acc : bytes),
    (len acc <= len (strconv.digits fuel n acc))%nat.
Proof.
  intros fuel. induction fuel as [| fuel IH]; intros n acc;
    cbn [strconv.digits]; [lia |].
  destruct (n <? 10).
  - unfold len. cbn [List.length]. lia.
  - specialize (IH (n / 10) (zb (48 + n mod 10) :: acc)).
    unfold len in *. cbn [List.length] in IH. lia.
Qed.

Lemma WritePosIntWidth_length :
  forall (b : buffer.Buffer) (i : Z) (width : nat),
    (1 <= width)%nat -> 0 <= i < 10 ^ Z.of_nat width ->
    exists out : bytes,
      buffer.WritePosIntWidth b i width = Ok (b ++ out) /\ len out = width.
Proof.
  intros b i width Hw Hi. unfold buffer.WritePosIntWidth.
  replace (i <? 0) with false by (symmetry; apply Z.ltb_ge; lia).
  eexists. split; [reflexivity |].
  pose proof (digits_length width (S (Z.to_nat (Z.log2 i))) i [] Hw Hi) as H.
  unfold strconv.FormatUint, len in *. cbn [List.length] in H.
  rewrite length_app, repeat_length. lia.
Qed.

(** X13: the timestamp of the plain text encoding has a fixed width. For
    a year of at most four digits, a nanosecond field within the second
    and a zone offset below a hundred hours, [writeTimeRFC3339Millis]
    appends 24 bytes for a UTC time and 29 bytes otherwise, and does not
    panic. *)
Theorem struct_timestamp_has_fixed_width :
  forall (b : buffer.Buffer) (t : time.Time),
    0 <= time.Year t < 10000 ->
    0 <= time.nsec t < 1000000000 ->
    -360000 < time.offset t < 360000 ->
    exists out : bytes,
      writeTimeRFC3339Millis b t = Ok (b ++ out)
      /\ len out = if time.offset t =? 0 then 24%nat else 29%nat.
Proof.
  intros b t Hy Hn Ho. unfold time.Year in Hy.
  unfold writeTimeRFC3339Millis.
  pose proof (civil_fields (time.abs t / 86400)) as [Hm Hd].
  unfold time.Date in *.
  destruct (time.civil (time.abs t / 86400)) as [[year month] day].
  cbn [fst snd] in *.
  unfold time.Clock, time.Nanosecond, time.ZoneOffset.
  set (s := time.abs t mod 86400).
  assert (Hs : 0 <= s < 86400) by (apply Z.mod_pos_bound; lia). clearbody s.
  repeat match goal with
         | |- context [buffer.WritePosIntWidth ?x ?i ?w] =>
             let o := fresh "o" in
             let E := fresh "E" in
             let L := fresh "L" in
             destruct (WritePosIntWidth_length x i w) as (o & E & L);
             [ lia
             | cbn; first [ lia | Z.to_euclidean_division_equations; lia ]
             | rewrite E; cbn [bind] ]
         end.
  unfold buffer.WriteByte, len in *.
  destruct (time.offset t =? 0) eqn:Ez.
  { eexists. split; [rewrite <- !app_assoc; reflexivity |].
    rewrite !length_app. cbn [List.length]. lia. }
  apply Z.eqb_neq in Ez.
  set (om := Z.quot (time.offset t) 60).
  assert (Hom : -6000 < om < 6000)
    by (subst om; Z.to_euclidean_division_equations; lia).
  clearbody om.
  destruct (om <? 0) eqn:Eo.
  - apply Z.ltb_lt in Eo.
    destruct (WritePosIntWidth_length
                ((((((((((((((b ++ o) ++ [x2d]) ++ o0) ++ [x2d]) ++ o1) ++ [x54]) ++ o2)
                       ++ [x3a]) ++ o3) ++ [x3a]) ++ o4) ++ [x2e]) ++ o5) ++ [x2d])
                (Z.quot (- om) 60) 2) as (o6 & E6 & L6);
      [lia | cbn; Z.to_euclidean_division_equations; lia |].
    rewrite E6. cbn [bind].
    edestruct (WritePosIntWidth_length) as (o7 & E7 & L7);
      [| | rewrite E7]; [lia | cbn; Z.to_euclidean_division_equations; lia |].
    unfold len in *.
    eexists. split; [rewrite <- !app_assoc; reflexivity |].
    rewrite !length_app. cbn [List.length]. lia.
  - apply Z.ltb_ge in Eo.
    destruct (WritePosIntWidth_length
                ((((((((((((((b ++ o) ++ [x2d]) ++ o0) ++ [x2d]) ++ o1) ++ [x54]) ++ o2)
                       ++ [x3a]) ++ o3) ++ [x3a]) ++ o4) ++ [x2e]) ++ o5) ++ [x2b])
                (Z.quot om 60) 2) as (o6 & E6 & L6);
      [lia | cbn; Z.to_euclidean_division_equations; lia |].
    rewrite E6. cbn [bind].
    edestruct (WritePosIntWidth_length) as (o7 & E7 & L7);
      [| | rewrite E7]; [lia | cbn; Z.to_euclidean_division_equations; lia |].
    unfold len in *.
    eexists. split; [rewrite <- !app_assoc; reflexivity |].
    rewrite !length_app. cbn [List.length]. lia.
Qed.

Lemma struct_timestamp_has_fixed_width_witness :
  exists out : bytes,
    writeTimeRFC3339Millis [] sampleTime = Ok ([] ++ out) /\ len out = 29%nat.
Proof.
  apply (struct_timestamp_has_fixed_width [] sampleTime);
    vm_compute; split; first [reflexivity | discriminate].
Defined.

(** ** What binding attributes adds to a handler *)

(** X7: [WithAttrs] only adds to the bytes bound to a handler: in every
    mode, the preformatted attributes of the handler it returns begin
    with those of the handler it was called on. *)
Theorem WithAttrs_extends_preformatted :
  forall (lib : GoLib) (fuel : nat) (h h2 : Handler) (l : list Attr),
    WithAttrs lib fuel h l = Ok h2 ->
    exists out : bytes, preformattedAttrs h2 = preformattedAttrs h ++ out.
Proof.
  intros lib fuel h h2 l E. unfold WithAttrs in E.
  destruct (countEmptyGroups l =? List.length l)%nat.
  { injection E as <-. exists []. now rewrite app_nil_r. }
  cbv zeta in E.
  match type of E with
  | bind (appendAttrs lib fuel (openGroups lib ?s0) l) _ = _ => set (st := s0) in E
  end.
  assert (Hb : handleState.buf st = preformattedAttrs h)
    by (subst st; destruct (0 <? len (preformattedAttrs (clone h)))%nat; reflexivity).
  destruct (extends_of_prepend (openGroups lib) (openGroups_prepend lib) st) as (o1 & H1).
  destruct (appendAttrs lib fuel (openGroups lib st) l) as [s2 | msg |] eqn:E2;
    cbn [bind] in E; try discriminate E.
  destruct (extends_of_prependResult (fun s => appendAttrs lib fuel s l)
              (fun b s => appendAttrs_prepend lib b fuel l s) _ _ E2) as (o2 & H2).
  injection E as <-. cbn [preformattedAttrs setPreformatted].
  exists (o1 ++ o2). rewrite H2, H1, Hb. now rewrite app_assoc.
Qed.

Lemma WithAttrs_extends_preformatted_witness :
  let h2 :=
    setPreformatted (clone boundHandler)
      (quoted (B "g") ++ B ":{" ++ quoted (B "k") ++ B ":5,"
         ++ quoted (B "j") ++ B ":6") [] 1 in
  WithAttrs sampleLib 2 boundHandler [MkAttr (B "j") (KindInt64 6)] = Ok h2
  /\ exists out : bytes,
       preformattedAttrs h2
       = (quoted (B "g") ++ B ":{" ++ quoted (B "k") ++ B ":5") ++ out.
Proof.
  intros h2. split; [reflexivity |].
  exact (WithAttrs_extends_preformatted sampleLib 2 boundHandler h2
           [MkAttr (B "j") (KindInt64 6)] eq_refl).
Defined.

(** ** The level threshold *)

(** X14: a handler derived with [WithGroup] or [WithAttrs] is enabled
    for the levels its parent is enabled for, and a handler enabled for a
    level is enabled for every higher one. *)
Theorem derived_handlers_keep_threshold :
  forall (lib : GoLib) (fuel : nat) (h : Handler) (level : Z),
    (forall g : bytes, Enabled (WithGroup h g) level = Enabled h level)
    /\ (forall (l : list Attr) (h2 : Handler),
          WithAttrs lib fuel h l = Ok h2 -> Enabled h2 level = Enabled h level)
    /\ (forall higher : Z,
          level <= higher -> Enabled h level = true -> Enabled h higher = true).
Proof.
  intros lib fuel h level. split; [reflexivity |]. split.
  - intros l h2 E. unfold WithAttrs in E.
    destruct (countEmptyGroups l =? List.length l)%nat; [now injection E as <- |].
    cbv zeta in E.
    match type of E with
    | bind ?r _ = _ => destruct r; cbn [bind] in E; try discriminate E
    end.
    now injection E as <-.
  - intros higher Hle. unfold Enabled.
    destruct (MinLevel (opts h)); intros H; apply Z.leb_le in H; apply Z.leb_le; lia.
Qed.

(** ** The encoder as a whole *)

(** X1: what a list of attributes writes does not depend on what the
    buffer holds: a run of [appendAttr] over the list only appends, and on
    any other buffer content it appends the same bytes and ends in the same
    state. *)
Theorem attributes_append_the_same_bytes_to_any_buffer :
  forall (lib : GoLib) (fuel : nat) (l : list Attr) (s s' : handleState.t),
    appendAttrs lib fuel s l = Ok s' ->
    exists out : bytes,
      handleState.buf s' = handleState.buf s ++ out
      /\ forall b : bytes,
           appendAttrs lib fuel (setBuf s b) l = Ok (setBuf s' (b ++ out)).
Proof. exact appendAttrs_rebuffer. Qed.

Lemma attributes_append_the_same_bytes_to_any_buffer_witness :
  exists out : bytes,
    handleState.buf (setBuf pendingState (B "x" ++ nestedText))
    = handleState.buf pendingState ++ out
    /\ forall b : bytes,
         appendAttrs sampleLib 3 (setBuf pendingState b) nestedAttrs
         = Ok (setBuf (setBuf pendingState (B "x" ++ nestedText)) (b ++ out)).
Proof.
  apply (attributes_append_the_same_bytes_to_any_buffer sampleLib 3 nestedAttrs
           pendingState (setBuf pendingState (B "x" ++ nestedText))).
  vm_compute. reflexivity.
Defined.

(** X2: once a list of attributes is written, with the groups nested
    in it, the state is back where it was but for the buffer and the
    pending separator: the handler, the color, the key prefix and the list
    of open groups are those before the call, so every group that was
    opened has been closed. *)
Theorem attributes_leave_prefix_and_groups_as_found :
  forall (lib : GoLib) (fuel : nat) (l : list Attr) (s s' : handleState.t),
    appendAttrs lib fuel s l = Ok s' -> sameFrame s s'.
Proof. exact appendAttrs_frame. Qed.

Lemma attributes_leave_prefix_and_groups_as_found_witness :
  sameFrame pendingState (setBuf pendingState (B "x" ++ nestedText)).
Proof.
  apply (attributes_leave_prefix_and_groups_as_found sampleLib 3 nestedAttrs
           pendingState (setBuf pendingState (B "x" ++ nestedText))).
  vm_compute. reflexivity.
Defined.

(** X3: the line that [Handle] writes depends on the configuration of
    the handler only through the fields that its mode reads. Two handlers
    with the same mode flags, options, bound attributes, groups and writer
    write the same line when they are in JSON mode, whatever their quoting
    flag, separator, time layout and color map are; in a text mode they do
    when they also agree on the quoting flag, on the separator, on the
    color of every level and, in pretty mode, on the time layout. The
    unused buffer and the lock do not matter. *)
Theorem line_depends_on_the_fields_of_the_mode :
  forall (lib : GoLib) (fuel : nat) (h h' : Handler) (r : Record_),
    handlesAlike h h' ->
    preformattedAttrs h' = preformattedAttrs h ->
    groupPrefix h' = groupPrefix h ->
    groups h' = groups h ->
    nOpenGroups h' = nOpenGroups h ->
    w h' = w h ->
    Handle lib fuel h' r = Handle lib fuel h r.
Proof. exact Handle_alike. Qed.

Lemma line_depends_on_the_fields_of_the_mode_witness :
  Handle sampleLib 2 oddJSONHandler startedRecord = Ok (startedLine, None).
Proof.
  exact (eq_trans
           (line_depends_on_the_fields_of_the_mode sampleLib 2
              (NewJSONHandler discard 0 None) oddJSONHandler startedRecord
              (conj eq_refl (conj eq_refl (conj eq_refl (or_introl eq_refl))))
              eq_refl eq_refl eq_refl eq_refl eq_refl)
           eq_refl).
Defined.

(** ** The mode of a built handler *)

Ltac builder_cases :=
  unfold WithPretty, WithColor, WithInsecure, WithTimeLayout, WithSeparator,
    WithOptions, WithWriter, WithJSON;
  repeat match goal with
         | |- context [match ?x with _ => _ end] => destruct x
         end;
  cbn [bh json pretty safe configure].

Lemma call_json_iff :
  forall (b : HandlerBuilder) (c : BuilderCall),
    json (bh (call b c)) = true <-> json (bh b) = true \/ c = CallWithJSON.
Proof.
  intros b c. destruct c; cbn [call]; builder_cases;
    split; intros H; try (destruct H as [H | H]; try discriminate H); auto.
Qed.

Lemma call_pretty_iff :
  forall (b : HandlerBuilder) (c : BuilderCall),
    pretty (bh (call b c)) = true <-> pretty (bh b) = true \/ c = CallWithPretty.
Proof.
  intros b c. destruct c; cbn [call]; builder_cases;
    split; intros H; try (destruct H as [H | H]; try discriminate H); auto.
Qed.

Lemma call_safe_iff :
  forall (b : HandlerBuilder) (c : BuilderCall),
    c <> CallWithPretty ->
    (safe (bh (call b c)) = false <-> safe (bh b) = false \/ c = CallWithInsecure).
Proof.
  intros b c Hc. destruct c; cbn [call]; builder_cases;
    split; intros H; try (destruct H as [H | H]; try discriminate H); auto;
    congruence.
Qed.

Lemma chain_json_iff :
  forall (calls : list BuilderCall) (b : HandlerBuilder),
    json (bh (chain b calls)) = true
    <-> json (bh b) = true \/ In CallWithJSON calls.
Proof.
  unfold chain. induction calls as [| c calls IH]; intros b; cbn [fold_left In].
  - tauto.
  - rewrite IH, call_json_iff. intuition congruence.
Qed.

Lemma chain_pretty_iff :
  forall (calls : list BuilderCall) (b : HandlerBuilder),
    pretty (bh (chain b calls)) = true
    <-> pretty (bh b) = true \/ In CallWithPretty calls.
Proof.
  unfold chain. induction calls as [| c calls IH]; intros b; cbn [fold_left In].
  - tauto.
  - rewrite IH, call_pretty_iff. intuition congruence.
Qed.

Lemma chain_safe_iff :
  forall (calls : list BuilderCall) (b : HandlerBuilder),
    ~ In CallWithPretty calls ->
    (safe (bh (chain b calls)) = false
     <-> safe (bh b) = false \/ In CallWithInsecure calls).
Proof.
  unfold chain. induction calls as [| c calls IH]; intros b Hn; cbn [fold_left In] in *.
  - tauto.
  - rewrite IH by tauto. rewrite call_safe_iff by (intros ->; tauto).
    intuition congruence.
Qed.

(** X15: the calls made on a fresh builder decide the mode of the handler
    that [Build] returns, whatever their order: it is a JSON handler
    exactly when [WithJSON] was called, a pretty handler exactly when
    [WithPretty] was called and [WithJSON] was not, and otherwise the plain
    text handler. A JSON handler always quotes, a pretty handler never
    does, even after [WithPretty] switched the quoting on, and the plain
    text handler quotes unless [WithInsecure] was called. *)
Theorem built_mode_is_decided_by_the_calls :
  forall (stdout : Writer) (m : Mutex) (defaultLayout : bytes)
         (calls : list BuilderCall),
    let h := Build (chain (NewHandlerBuilder stdout m defaultLayout) calls) in
    (json h = true <-> In CallWithJSON calls)
    /\ (pretty h = true <-> In CallWithPretty calls /\ ~ In CallWithJSON calls)
    /\ (json h = true -> safe h = true)
    /\ (pretty h = true -> safe h = false)
    /\ (json h = false -> pretty h = false ->
        (safe h = false <-> In CallWithInsecure calls)).
Proof.
  intros stdout m L calls h.
  pose proof (chain_json_iff calls (NewHandlerBuilder stdout m L)) as Hj.
  pose proof (chain_pretty_iff calls (NewHandlerBuilder stdout m L)) as Hp.
  pose proof (chain_safe_iff calls (NewHandlerBuilder stdout m L)) as Hs.
  cbn [NewHandlerBuilder bh json pretty safe] in Hj, Hp, Hs.
  subst h. unfold Build.
  set (b := bh (chain (NewHandlerBuilder stdout m L) calls)) in *. clearbody b.
  assert (Hj' : json b = true <-> In CallWithJSON calls)
    by (rewrite Hj; intuition discriminate).
  assert (Hp' : pretty b = true <-> In CallWithPretty calls)
    by (rewrite Hp; intuition discriminate).
  assert (Hs' : ~ In CallWithPretty calls ->
                (safe b = false <-> In CallWithInsecure calls))
    by (intros Hn; rewrite (Hs Hn); intuition discriminate).
  clear Hj Hp Hs.
  destruct (json b) eqn:Ej; cbn [json pretty safe configure].
  - intuition discriminate.
  - rewrite ?Ej. destruct (pretty b) eqn:Ep; cbn [json pretty safe configure];
      rewrite ?Ej, ?Ep.
    + intuition discriminate.
    + assert (Hnp : ~ In CallWithPretty calls) by (intros H; apply Hp' in H; discriminate H).
      specialize (Hs' Hnp). intuition discriminate.
Qed.

(** ** Errors of the value encoders in the line *)

Lemma marked_here :
  forall m b pre : bytes, marked m b ((b ++ pre) ++ m).
Proof.
  intros m b pre. exists pre, []. now rewrite app_nil_r, <- app_assoc.
Qed.

Lemma marked_before :
  forall m b b1 b2 o : bytes,
    b1 = b ++ o -> marked m b1 b2 -> marked m b b2.
Proof.
  intros m b b1 b2 o -> (pre & post & ->). exists (o ++ pre), post.
  now rewrite <- !app_assoc.
Qed.

Lemma marked_after :
  forall m b b1 b2 o : bytes,
    marked m b b1 -> b2 = b1 ++ o -> marked m b b2.
Proof.
  intros m b b1 b2 o (pre & post & ->) ->. exists pre, (post ++ o).
  now rewrite <- !app_assoc.
Qed.

(** A refused value is none of the values that [appendAttr] treats apart:
    it is resolved, it does not make an attribute empty, and it is no
    source and no group. *)
Lemma refused_plain :
  forall (lib : GoLib) (j : bool) (v : Value) (e : error),
    refused lib j v e ->
    Resolve v = v
    /\ (forall k, isEmpty (MkAttr k v) = false)
    /\ (forall s k, replaceSource s (MkAttr k v) = Ok (MkAttr k v)).
Proof.
  intros lib j v e H. destruct H; repeat split; try reflexivity;
    intros; unfold isEmpty; cbn; apply andb_false_r.
Qed.

(** [appendValue] writes the error of a refused value behind the marker,
    and nothing of the value. *)
Lemma appendValue_refused :
  forall (lib : GoLib) (s : handleState.t) (v : Value) (e : error),
    refused lib (json (handleState.h s)) v e ->
    appendValue lib s v = Ok (appendError lib s e).
Proof.
  intros lib s v e H. unfold appendValue.
  remember (json (handleState.h s)) as j eqn:Hj.
  destruct H as [o e Hm | o e He Hk | f e He].
  - cbn [appendTextValue capabilities]. rewrite Hm. reflexivity.
  - cbn [appendJSONValue capabilities]. destruct Hk as [Hk | Hk].
    + rewrite Hk, He. reflexivity.
    + rewrite Hk, He. destruct (asError o); reflexivity.
  - cbn [appendJSONValue]. rewrite He. reflexivity.
Qed.

(** The encoders return an error for the refused values only, and have
    then written nothing. *)
Lemma encoder_error_refused :
  forall (lib : GoLib) (s s1 : handleState.t) (v : Value) (e : error),
    (if json (handleState.h s) then appendJSONValue lib s v
     else appendTextValue lib s v) = Ok (s1, Some e) ->
    refused lib (json (handleState.h s)) v e /\ s1 = s.
Proof.
  intros lib s s1 v e H.
  destruct (json (handleState.h s)).
  - destruct v as [a | b0 | d0 | f0 | i0 | str0 | t0 | u0 | grp | tn0 lv0];
      cbn [appendJSONValue] in H; try discriminate H.
    + destruct a as [| src | o].
      * cbn in H. discriminate H.
      * destruct src; cbn in H; discriminate H.
      * cbn [capabilities] in H.
        destruct (asError o) as [msg |] eqn:Ea.
        -- destruct (isJSONMarshaler o) eqn:Ei; cbn [negb] in H; [| discriminate H].
           destruct (jsonEncode o) as [bs | err] eqn:Ee; cbn [appendJSONMarshal] in H;
             [discriminate H |].
           injection H as <- <-. split; [| reflexivity].
           apply refused_json; [exact Ee | now right].
        -- destruct (jsonEncode o) as [bs | err] eqn:Ee; cbn [appendJSONMarshal] in H;
             [discriminate H |].
           injection H as <- <-. split; [| reflexivity].
           apply refused_json; [exact Ee | now left].
    + destruct (jsonEncodeFloat lib f0) as [bs | err] eqn:Ee;
        cbn [appendJSONMarshal] in H; [discriminate H |].
      injection H as <- <-. split; [| reflexivity]. now apply refused_float.
    + destruct (appendTime lib s t0); cbn [bind] in H; discriminate H.
  - destruct v as [a | b0 | d0 | f0 | i0 | str0 | t0 | u0 | grp | tn0 lv0];
      cbn [appendTextValue] in H; try discriminate H.
    + destruct a as [| src | o].
      * cbn in H. discriminate H.
      * destruct src; cbn in H; discriminate H.
      * cbn [capabilities] in H.
        destruct (MarshalText o) as [[data | err] |] eqn:Em.
        -- discriminate H.
        -- injection H as <- <-. split; [| reflexivity]. now apply refused_text.
        -- destruct (asByteSlice o);
             [destruct (negb (safe (handleState.h s)) && pretty (handleState.h s)) |];
             discriminate H.
    + destruct (appendTime lib s t0); cbn [bind] in H; discriminate H.
Qed.

Lemma appendKey_extends :
  forall (lib : GoLib) (s : handleState.t) (key : bytes),
    exists out : bytes,
      handleState.buf (appendKey lib s key) = handleState.buf s ++ out.
Proof.
  intros lib s key.
  exact (extends_of_prepend (fun s => appendKey lib s key)
           (fun b s => appendKey_prepend lib b s key) s).
Qed.

Lemma appendAttrs_extends :
  forall (lib : GoLib) (fuel : nat) (l : list Attr) (s s' : handleState.t),
    appendAttrs lib fuel s l = Ok s' ->
    exists out : bytes, handleState.buf s' = handleState.buf s ++ out.
Proof.
  intros lib fuel l s s' E.
  destruct (appendAttrs_rebuffer _ _ _ _ _ E) as (out & H & _). now exists out.
Qed.

(** A list of attributes leaves the run that one of them leaves. *)
Lemma appendAttrs_marked :
  forall (lib : GoLib) (fuel : nat) (m : bytes) (a : Attr) (l : list Attr)
         (s s' : handleState.t),
    In a l ->
    (forall sA sB : handleState.t,
        sameFrame s sA -> appendAttr lib fuel sA a = Ok sB ->
        marked m (handleState.buf sA) (handleState.buf sB)) ->
    appendAttrs lib fuel s l = Ok s' ->
    marked m (handleState.buf s) (handleState.buf s').
Proof.
  intros lib fuel m a l s s' Hin Ha E.
  destruct (in_split _ _ Hin) as (l1 & l2 & ->).
  rewrite appendAttrs_app in E.
  destruct (appendAttrs lib fuel s l1) as [sA | msg |] eqn:E1;
    cbn [bind] in E; try discriminate E.
  cbn [appendAttrs] in E.
  destruct (appendAttr lib fuel sA a) as [sB | msg |] eqn:E2;
    cbn [bind] in E; try discriminate E.
  destruct (appendAttrs_extends _ _ _ _ _ E1) as (o1 & H1).
  destruct (appendAttrs_extends _ _ _ _ _ E) as (o2 & H2).
  eapply marked_before; [exact H1 |].
  eapply marked_after; [| exact H2].
  apply Ha; [exact (appendAttrs_frame _ _ _ _ _ E1) | exact E2].
Qed.

(** An attribute that holds a refused value leaves the marker and the
    error in the buffer, when no function replaces attributes. *)
Lemma appendAttr_marked :
  forall (lib : GoLib) (k : bytes) (v : Value) (e : error) (a : Attr),
    holds (MkAttr k v) a ->
    forall (fuel : nat) (s s' : handleState.t),
      ReplaceAttr (opts (handleState.h s)) = None ->
      refused lib (json (handleState.h s)) v e ->
      handleState.color s = noColor ->
      appendAttr lib fuel s a = Ok s' ->
      marked (errorText lib (handleState.h s) e)
        (handleState.buf s) (handleState.buf s').
Proof.
  intros lib k v e a H.
  induction H as [| k0 l a Hin Hh IH]; intros fuel s s' Hrep Hv Hc E.
  - destruct (refused_plain _ _ _ _ Hv) as (Hres & Hemp & Hsrc).
    destruct fuel as [| fuel]; [discriminate E |].
    cbn [appendAttr] in E. rewrite Hrep in E. cbn [Key AttrValue] in E.
    rewrite Hres, Hemp, Hsrc in E. cbn [bind AttrValue Key] in E.
    assert (Ev : appendValue lib (appendKey lib s k) v = Ok s').
    { destruct Hv; exact E. }
    clear E.
    rewrite (appendValue_refused lib (appendKey lib s k) v e) in Ev
      by (rewrite appendKey_h; exact Hv).
    injection Ev as <-.
    destruct (appendKey_extends lib s k) as (o & Ho).
    destruct (appendKey_frame lib s k) as (Fh & Fc & _).
    rewrite appendError_buf, Fh, Fc, Hc, Ho. unfold errorText.
    apply marked_here.
  - destruct fuel as [| fuel]; [discriminate E |].
    cbn [appendAttr] in E. rewrite Hrep in E. cbn [Key AttrValue] in E.
    change (Resolve (KindGroup l)) with (KindGroup l) in E.
    replace (isEmpty (MkAttr k0 (KindGroup l))) with false in E
      by (unfold isEmpty; cbn; now rewrite andb_false_r).
    cbn [replaceSource AttrValue bind Key] in E.
    unfold replaceSource in E. cbn [AttrValue bind Key] in E.
    replace (0 <? List.length l)%nat with true in E
      by (symmetry; apply Nat.ltb_lt; destruct l; [contradiction | cbn; lia]).
    rewrite each_appendAttrs in E.
    set (s1 := if negb (isEmptyString k0) then openGroup lib s k0 else s) in E.
    assert (F1 : handleState.h s1 = handleState.h s
                 /\ handleState.color s1 = handleState.color s).
    { subst s1. destruct (negb (isEmptyString k0)); [| split; reflexivity].
      destruct (openGroup_fields lib s k0) as (A & B & _). now split. }
    assert (X1 : exists o, handleState.buf s1 = handleState.buf s ++ o).
    { subst s1. destruct (negb (isEmptyString k0)).
      - exact (extends_of_prepend (fun s => openGroup lib s k0)
                 (fun b s => openGroup_prepend lib b s k0) s).
      - exists []. now rewrite app_nil_r. }
    destruct F1 as (Fh1 & Fc1). destruct X1 as (o1 & Ho1).
    clearbody s1.
    destruct (appendAttrs lib fuel s1 l) as [s2 | msg |] eqn:E2;
      cbn [bind] in E; try discriminate E.
    injection E as <-.
    assert (M2 : marked (errorText lib (handleState.h s) e)
                   (handleState.buf s1) (handleState.buf s2)).
    { apply (appendAttrs_marked lib fuel _ a l s1 s2 Hin); [| exact E2].
      intros sA sB (Ah & Ac & _) EA. rewrite <- Fh1, <- Ah.
      apply (IH fuel sA sB); [| | | exact EA].
      - now rewrite Ah, Fh1.
      - now rewrite Ah, Fh1.
      - now rewrite Ac, Fc1. }
    eapply marked_before; [exact Ho1 |].
    destruct (negb (isEmptyString k0)); [| exact M2].
    destruct (extends_of_prepend (fun s => closeGroup s k0)
                (fun b s => closeGroup_prepend b s k0) s2) as (o3 & Ho3).
    exact (marked_after _ _ _ _ _ M2 Ho3).
Qed.

(** The attributes of a record leave in the buffer the run that one of
    them leaves. *)
Lemma appendNonBuiltIns_marked :
  forall (lib : GoLib) (fuel : nat) (m : bytes) (a : Attr) (s s' : handleState.t)
         (r : Record_),
    In a (attrs r) ->
    (forall sA sB : handleState.t,
        handleState.h sA = handleState.h s ->
        handleState.color sA = handleState.color s ->
        appendAttr lib fuel sA a = Ok sB ->
        marked m (handleState.buf sA) (handleState.buf sB)) ->
    appendNonBuiltIns lib fuel s r = Ok s' ->
    marked m (handleState.buf s) (handleState.buf s').
Proof.
  intros lib fuel m a s s' r Hin Ha E.
  unfold appendNonBuiltIns in E. cbv zeta in E.
  fold (writeBound s) in E.
  set (s1 := writeBound s) in E.
  destruct (writeBound_frame s) as (Fh1 & Fc1 & _). fold s1 in Fh1, Fc1.
  assert (X1 : exists o, handleState.buf s1 = handleState.buf s ++ o).
  { subst s1. unfold writeBound.
    destruct (0 <? len (preformattedAttrs (handleState.h s)))%nat.
    - eexists. cbn [handleState.buf setBuf setSep].
      unfold buffer.Write, buffer.WriteString. rewrite <- app_assoc. reflexivity.
    - exists []. now rewrite app_nil_r. }
  destruct X1 as (o1 & Ho1). clearbody s1.
  replace (0 <? NumAttrs r)%nat with true in E
    by (symmetry; apply Nat.ltb_lt; unfold NumAttrs;
        destruct (attrs r); [contradiction | cbn; lia]).
  set (s2 := openGroups lib _) in E.
  assert (F2 : handleState.h s2 = handleState.h s1
               /\ handleState.color s2 = handleState.color s1).
  { subst s2. unfold openGroups.
    match goal with
    | |- handleState.h (fold_left _ ?l ?x) = _ /\ _ =>
        destruct (openGroups_frame_h lib l x) as (A & B)
    end.
    split; [exact A | exact B]. }
  assert (X2 : exists o, handleState.buf s2 = handleState.buf s1 ++ o).
  { subst s2.
    exact (extends_of_prepend (openGroups lib) (openGroups_prepend lib)
             (setPrefix s1 (buffer.WriteString (handleState.prefix s1)
                              (groupPrefix (handleState.h s1))))). }
  destruct F2 as (Fh2 & Fc2). destruct X2 as (o2 & Ho2). clearbody s2.
  destruct (appendAttrs lib fuel s2 (attrs r)) as [s3 | msg |] eqn:E3;
    cbn [bind] in E; try discriminate E.
  assert (M3 : marked m (handleState.buf s2) (handleState.buf s3)).
  { apply (appendAttrs_marked lib fuel m a (attrs r) s2 s3 Hin); [| exact E3].
    intros sA sB (Ah & Ac & _) EA. apply Ha; [congruence | congruence | exact EA]. }
  eapply marked_before; [exact Ho1 |].
  eapply marked_before; [exact Ho2 |].
  destruct (json (handleState.h s3)).
  - injection E as <-. rewrite closeBraces_buf.
    cbn [handleState.buf setBuf]. unfold buffer.WriteByte.
    eapply marked_after; [exact M3 |]. rewrite <- app_assoc. reflexivity.
  - injection E as <-. exact M3.
Qed.

(** The line of a record holds the marker and the error of every value
    among its attributes that the encoder of the mode refuses. *)
Lemma Handle_marked :
  forall (lib : GoLib) (fuel : nat) (h : Handler) (r : Record_)
         (a : Attr) (k : bytes) (v : Value) (e : error)
         (line : bytes) (err : option error),
    ReplaceAttr (opts h) = None ->
    In a (attrs r) -> holds (MkAttr k v) a ->
    refused lib (json h) v e ->
    Handle lib fuel h r = Ok (line, err) ->
    exists pre post : bytes, line = pre ++ errorText lib h e ++ post.
Proof.
  intros lib fuel h r a k v e line err Hrep Hin Hh Hv E.
  rewrite Handle_split in E.
  destruct (builtIns lib fuel h r) as [st | msg |] eqn:Eb;
    cbn [bind] in E; try discriminate E.
  destruct (builtIns_h _ _ _ _ _ Eb) as (Bh & Bc & _).
  destruct (appendNonBuiltIns lib fuel (setGroups st (recordGroups h)) r)
    as [s5 | msg |] eqn:En; cbn [bind] in E; try discriminate E.
  injection E as <- _.
  assert (M : marked (errorText lib h e)
                (handleState.buf (setGroups st (recordGroups h)))
                (handleState.buf s5)).
  { apply (appendNonBuiltIns_marked lib fuel _ a _ _ r Hin); [| exact En].
    cbn [handleState.h handleState.color setGroups].
    intros sA sB Ah Ac EA. rewrite <- Bh, <- Ah.
    apply (appendAttr_marked lib k v e a Hh fuel sA sB); [| | | exact EA].
    - now rewrite Ah, Bh.
    - now rewrite Ah, Bh.
    - now rewrite Ac. }
  destruct M as (pre & post & ->). cbn [handleState.buf setGroups].
  exists (handleState.buf st ++ pre), (post ++ [newline]).
  now rewrite <- !app_assoc.
Qed.

(** C8, amended: when [Handle] returns, the error it returns is the one
    that the write of the formatted line returned, so it is non-nil
    exactly when that write failed. An error of a value encoder is never
    returned: the encoders fail on the refused values only and have then
    written nothing, [appendValue] writes the marker and the message of
    the error as a string in place of the value, and the line of a record
    (no replace function) holds that string for every refused value among
    its attributes, at any depth of groups. [Handle] does not return on
    every record; it does, for every handler without a replace function,
    on the records whose attributes hold no nil source and whose times are
    not before the year 0. *)
Theorem Handle_error_is_write_error :
  forall (lib : GoLib) (fuel : nat) (h : Handler) (r : Record_),
    (forall line err, Handle lib fuel h r = Ok (line, err) -> err = Write (w h) line)
    /\ (forall e,
          (exists line, Handle lib fuel h r = Ok (line, Some e))
          <-> (exists line err, Handle lib fuel h r = Ok (line, err)
                                /\ Write (w h) line = Some e))
    /\ (forall s v s1 e,
          (if json (handleState.h s) then appendJSONValue lib s v
           else appendTextValue lib s v) = Ok (s1, Some e) ->
          refused lib (json (handleState.h s)) v e /\ s1 = s
          /\ appendValue lib s v = Ok (appendString lib s (B "!ERROR:" ++ e)))
    /\ (ReplaceAttr (opts h) = None ->
        forall a k v e line err,
          In a (attrs r) -> holds (MkAttr k v) a -> refused lib (json h) v e ->
          Handle lib fuel h r = Ok (line, err) ->
          exists pre post : bytes, line = pre ++ errorText lib h e ++ post)
    /\ (ReplaceAttr (opts h) = None ->
        tameAttrs (attrs r) = true ->
        time.IsZero (Time r) = true \/ timeOK (Time r) = true ->
        (1 < fuel)%nat -> (depthAttrs (attrs r) < fuel)%nat ->
        exists line, Handle lib fuel h r = Ok (line, Write (w h) line)).
Proof.
  intros lib fuel h r.
  assert (P1 : forall line err,
             Handle lib fuel h r = Ok (line, err) -> err = Write (w h) line).
  { intros line err H. rewrite Handle_split in H.
    destruct (builtIns lib fuel h r); cbn [bind] in H; try discriminate H.
    destruct (appendNonBuiltIns lib fuel _ r); cbn [bind] in H; try discriminate H.
    injection H as <- <-. reflexivity. }
  split; [exact P1 |]. split; [| split; [| split]].
  - intros e. split.
    + intros [line H]. exists line, (Some e). split; [exact H |].
      symmetry. exact (P1 _ _ H).
    + intros (line & err & H & Hw). exists line.
      rewrite H. f_equal. f_equal. rewrite (P1 _ _ H). exact Hw.
  - intros s v s1 e H.
    destruct (encoder_error_refused _ _ _ _ _ H) as (Hv & ->).
    split; [exact Hv |]. split; [reflexivity |].
    exact (appendValue_refused lib s v e Hv).
  - intros Hrep a k v e line err Hin Hh Hv E.
    exact (Handle_marked lib fuel h r a k v e line err Hrep Hin Hh Hv E).
  - apply Handle_total.
Qed.

Lemma Handle_error_is_write_error_witness :
  (exists pre post : bytes,
     B "{" ++ quoted (B "level") ++ B ":" ++ quoted (B "INFO")
       ++ B "," ++ quoted (B "msg") ++ B ":" ++ quoted (B "m")
       ++ B "," ++ quoted (B "a") ++ B ":1"
       ++ B "," ++ quoted (B "g") ++ B ":{" ++ quoted (B "c") ++ B ":"
       ++ quoted (B "!ERROR:json: unsupported type")
       ++ B "}}" ++ [newline]
     = pre ++ quoted (B "!ERROR:json: unsupported type") ++ post)
  /\ exists line : bytes,
       Handle sampleLib 3 (NewJSONHandler brokenPipe 0 None)
         nestedUnmarshalableRecord
       = Ok (line, Some (B "broken pipe")).
Proof.
  split.
  - destruct (Handle_error_is_write_error sampleLib 3
                (NewJSONHandler discard 0 None) nestedUnmarshalableRecord)
      as (_ & _ & _ & H & _).
    apply (H eq_refl
             (MkAttr (B "g")
                (KindGroup [MkAttr (B "c") (KindAny (AnyOther unmarshalable))]))
             (B "c") (KindAny (AnyOther unmarshalable))
             (B "json: unsupported type") _ None).
    + right. left. reflexivity.
    + apply holds_member
        with (a := MkAttr (B "c") (KindAny (AnyOther unmarshalable)));
        [left; reflexivity | apply holds_here].
    + apply refused_json; [reflexivity | left; reflexivity].
    + reflexivity.
  - destruct (Handle_error_is_write_error sampleLib 3
                (NewJSONHandler brokenPipe 0 None) nestedUnmarshalableRecord)
      as (_ & _ & _ & _ & H).
    apply H; [reflexivity | reflexivity | left; reflexivity | lia | cbn; lia].
Defined.

(** C8, as stated, fails: [Handle] does not return on every record. In a
    delimited text a time before the year 0 cannot be formatted, and the
    failure is not written into the line: the formatter of the digits
    panics. A nil source for a value is dereferenced, in every mode. *)
Lemma Handle_panics_on_what_it_cannot_format :
  Handle sampleLib 2 (NewStructHandler discard 0 None) ancientRecord
  = Panic (B "negative int")
  /\ Handle sampleLib 2 (NewJSONHandler discard 0 None) nilSourceRecord
     = Panic (B "invalid memory address or nil pointer dereference").
Proof. split; reflexivity. Qed.
